(* ===== verification/_CoqProject ===== *)
-Q . S2P
Prelude.v
Effects.v
GoStd.v
GoStrings.v
Api.v
K8s.v
Json.v
Const.v
Monitoring.v
Ceph.v
Recovery.v
Reconciler.v
Controller.v
Footprint.v
StateMachine.v
Times.v
Fake.v
NoPanic.v
Gates.v
Lifecycle.v
Endings.v
System.v
Steps.v
Progress.v
Healthy.v
Repair.v
Spared.v
Safety.v
Tools.v
Switch.v
CephSpec.v
RecoverySpec.v
Registry.v
Manager.v
Pods.v
Linked.v
Rbac.v
Wire.v
Storage.v
Scheme.v
Main.v
DeepCopy.v
