(* ===== verification/Prelude.v ===== *)
(** * odf-node-recovery-operator: a verification development

    The operator recovers OpenShift Data Foundation storage after a node or a
    disk of it failed.  A user creates a NodeRecovery object; the operator takes
    it through a fixed sequence of conditions (deploy the Ceph tools pod, wait
    for the OSD pods to settle, label the nodes of pending pods, scale down and
    force-delete the failing OSD pods, run the OSD removal job, wait for the
    volumes, restart the Rook operator, delete stale pods, wait for HEALTH_OK,
    remove the tools pod), one step per reconciliation, and writes where it is
    into the status of the object.

    ** The model

    Every function of the source that talks to the cluster is a program
    ([Effects.Prog]) over the requests it makes ([K8s.Req]): a tree that
    branches on what the API server, the clock, the remote shell and the
    metrics registry may answer, and ends in a result or in a Go panic.  An
    [error] return is a sum or an option; a pointer that is only read is an
    option, and following nil is a panic; a map that may be nil is an option.
    The instance a step mutates through its pointer is threaded as a state
    ([Reconciler.RM]), and the pointer to its latest condition is an index.
    Times and durations are integers of nanoseconds ([Time.Sub] saturates at
    the bounds of [int64]); strings are byte strings, as in Go.

    The code's libraries are parameters: [K8s.External] for apimachinery,
    controller-runtime, go-version, the template library and the constants of
    Kubernetes, Rook and OCS; [Monitoring.Prometheus], [Pods.ClientGo],
    [DeepCopy.Apimachinery], [Main.Runtime], [Wire.TimeJSON] and
    [Scheme.SchemeLibrary] for the others.  Where the code
    relies on what one of them documents, that is a law of its class, and a
    concrete instance ([Fake.fake], [Registry.list_registry],
    [Pods.fake_client], [DeepCopy.plain_metadata], [Main.exact_runtime],
    [Storage.digits_time], [Scheme.list_scheme]) shows that the laws can hold.

    ** Files

    Foundations:
    - [Prelude]: scopes, hint databases, lemmas on lists.
    - [Effects]: programs, loops, Go's error returns, execution, the program
      logic [wp] over monitors, footprints [only], the state a step mutates,
      and [interp]: the requests of a program implemented by programs.
    - [GoStd], [GoStrings], [Json]: what the code uses of Go's standard library
      ([errors], [time], [fmt], [strings], [encoding/json]).

    The program:
    - [Api] (api/v1alpha1/noderecovery_types.go), [Const]
      (internal/controller/const.go), [Monitoring] (monitoring/metrics.go).
    - [K8s]: the objects, the libraries and the requests.
    - [Ceph] (internal/controller/ceph.go, and the version and storage lookups
      it uses), [Recovery] (the helper methods of
      internal/controller/node_recovery_reconciler.go), [Reconciler] (its
      [Reconcile]: one definition per case of the switch, [dispatch] for the
      switch, [timedOut] and [complete] around it).
    - [Controller] ([Reconcile] of internal/controller/noderecovery_controller.go),
      [Manager] (its [SetupWithManager]).
    - [Pods]: internal/controller/pod and the log client, which are behind the
      requests [RunCommand] and [GetLogs]; [Linked]: the reconciler with these
      requests implemented by the methods of the clients it is given.
    - [Rbac]: the RBAC markers of noderecovery_controller.go, and what each
      request needs of the role.
    - [Wire]: the JSON document of a status by its struct tags, and the schema
      that the types and their markers generate.
    - [Scheme]: api/v1alpha1/groupversion_info.go and the registration of the
      types.
    - [Main] (cmd/main.go), with the TLS options as slices in memory.
    - [DeepCopy] (api/v1alpha1/zz_generated.deepcopy.go), on a memory of cells.

    Reasoning about a step and about recoveries:
    - [Footprint]: which kinds of requests each condition can make.
    - [StateMachine]: the abstract specification, a graph of conditions and
      the moves on a status, the invariant, and that the code implements it for
      every environment whose clock is past Go's zero time.
    - [Gates], [NoPanic]: conditions entered only after a check; which answers
      justify the pointers a step follows, and that it does not crash then.
    - [Times]: the times of a status come from the clock.
    - [Fake]: a cluster in memory that runs whole recoveries.

    Theorems:
    - [Lifecycle]: the invariant of the stored statuses, each update is one
      move, what a Completed recovery went through, what it cannot go round
      (HEALTH_OK, the validated removal log), how many conditions there are.
    - [Healthy]: in a cluster with nothing wrong a recovery completes in nine
      reconciliations, if no condition lasts longer than its time-out.
    - [Repair]: with failing OSDs in a cluster that can be repaired, a recovery
      completes in fourteen reconciliations (one of them for a removal job that
      has to be forced) and one more for every answer that it has to wait for;
      the patience of the cluster is the measure.
    - [Endings]: whatever the cluster answers, a recovery of which enough
      attempts have reached the server is over, with any number of lost ones in
      between; the measure is the number of condition types that are left and of
      the attempts that fit before the time-out of the latest.
    - [System]: several objects on a server that numbers its revisions, and
      reconciliations of copies that are out of date: what is stored of each
      object is still a path of the state machine.
    - [Progress]: a reconciliation without an error asks for another one exactly
      when it has not decided the recovery.
    - [Storage]: a server that keeps JSON documents implements the storage the
      state machine assumes; what is written is read back, and it satisfies the
      schema unless two conditions have the same type.
    - [Steps]: no panic on reachable objects (in four conditions, as long as
      the objects listed there are labelled and terminating as the code
      expects), the status is written once, time-outs, objects left alone, and
      the two pointers whose missing check crashes the operator.
    - [Safety]: requests per condition, when pods and volumes are deleted, the
      use of the metrics.
    - [Spared]: without failing OSD pods nothing is scaled, force-deleted or
      removed, and without pending ones no node is labelled and the Rook
      operator is not restarted.
    - [Tools]: a tools pod that was deployed before is left alone.
    - [Switch]: who enables and disables the tools pod; the lost update after
      which the operator's own one stays, and two recoveries of which one takes
      the pod away from the other.
    - [CephSpec], [RecoverySpec], [Registry]: the functions of [Ceph],
      [Recovery] and [Monitoring] one by one (round trips of the tools switch
      and the health report, the classification of pods, the removal template,
      the removal log, labels, volumes).
    - [Manager], [Pods], [Linked], [Rbac], [Scheme], [Main] and [DeepCopy] hold
      their own theorems: field selectors have indexes, remote commands are all
      or nothing, log streams are closed, the runner's namespace is cleaned up
      or leaked, the reconciler with its clients does not panic and does not
      take a log that broke off for a whole one, the role covers every request
      of a reconciliation but the WebSocket attempt of remote commands (and
      refuses the runner's), the scheme recognizes the
      types, the manager is started only when everything is in place, TLS
      options in shared arrays, deep copies share nothing.

    ** Fuel and bounds

    Only the JSON parser is written with fuel: twice the length of the input
    and one more, which [Json.parse_fuel_enough] shows to be enough and
    [Json.parse_fuel_any] that more changes nothing; the nesting limit of
    10000 is Go's.  All other recursion is structural, on the lists the
    environment answers.  Recoveries are bounded in attempts, not in time:
    [Endings.every_recovery_ends] asks for fifteen times two more than the
    time-out of a condition has delays ([Endings.enough]): the attempts that fit
    in the time-out and the one that leaves the condition, for each of the
    fourteen condition types and once more.

    ** Not modelled

    Log lines; the manifests under config/; the RecoveryReason variables of
    const.go, which nothing uses; the text of a JSON document that is written (the one
    that is read, the health report, is parsed from its text); signal handling
    and the logger's flags in main; the repository's tests.  The API server is any environment:
    that it keeps objects, rejects stale writes or a list with two entries of
    one key is not assumed, except where a theorem names it ([System] has a
    server that rejects the ones, [Endings] one that rejects the others and
    anything else as it likes).  When
    the next attempt is made is left to the queue of controller-runtime;
    [Endings] takes any delay that is not zero. *)

From stdpp Require Export base tactics option list strings gmap fin_maps.
From Stdlib Require Export ZArith Lia.

#[global] Set Default Proof Using "Type".
#[export] Set Default Goal Selector "!".

(** ** Scopes and hint databases *)

Declare Scope go_scope.
Delimit Scope go_scope with go.

(** Facts about the shape of conditions and lists, used by [eauto with odf]. *)
Create HintDb odf.
(** Specifications of boolean tests, used by [autorewrite with odf_rw]. *)
Create Rewrite HintDb odf_rw.

(** ** Lists *)

Lemma alter_snoc {A} (f : A -> A) (xs : list A) (x : A) :
  alter f (length xs) (xs ++ [x]) = xs ++ [f x].
Proof. induction xs as [|y xs IH]; cbn; [done|]. f_equal. exact IH. Qed.

Lemma lookup_snoc {A} (xs : list A) (x : A) : (xs ++ [x]) !! length xs = Some x.
Proof. by rewrite lookup_app_r, Nat.sub_diag by lia. Qed.

Lemma length_snoc {A} (xs : list A) (x : A) : length (xs ++ [x]) = S (length xs).
Proof. rewrite length_app. cbn. lia. Qed.

#[export] Hint Rewrite @alter_snoc @lookup_snoc @length_snoc : odf_rw.
