(* ===== verification/Effects.v ===== *)
(** * Effects: programs that talk to an environment

    The operator's functions are sequences of calls into the API server, the
    clock, the remote shell, the metrics registry and the event recorder.  A
    [Prog E A] is such a function: a tree whose nodes are the requests of the
    signature [E], whose branches are the answers the environment may give,
    and whose leaves are a result or a Go run-time panic.

    - [run] executes a tree against a handler (a concrete environment);
    - [wp] is the program logic: a [Monitor] says which requests are allowed
      and which answers are possible, both relative to a ghost state;
    - [issues] says that a tree can issue a given request, [returns] that it
      can return a given result, [panics] that it can panic;
    - [interp] implements the requests of a tree by trees over another
      signature;
    - [StateT] threads the object a function mutates through its pointer. *)

From S2P Require Import Prelude.

Inductive Prog (E : Type -> Type) (A : Type) : Type :=
| Ret (a : A)
| Vis {R : Type} (e : E R) (k : R -> Prog E A)
| Panic (why : string).
Arguments Ret {E A} a.
Arguments Vis {E A R} e k.
Arguments Panic {E A} why.

Section Monad.
Context {E : Type -> Type}.

Fixpoint bind {A B} (f : A -> Prog E B) (p : Prog E A) : Prog E B :=
  match p with
  | Ret a => f a
  | Vis e k => Vis e (fun r => bind f (k r))
  | Panic w => Panic w
  end.

Definition trigger {R} (e : E R) : Prog E R := Vis e Ret.

End Monad.

#[export] Instance prog_ret {E} : MRet (Prog E) := fun A a => Ret a.
#[export] Instance prog_bind {E} : MBind (Prog E) := fun A B f p => bind f p.

(** A program over one signature as a program over a larger one. *)
Fixpoint translate {E F : Type -> Type} {A} (f : forall R, E R -> F R) (p : Prog E A) : Prog F A :=
  match p with
  | Ret a => Ret a
  | Vis e k => Vis (f _ e) (fun r => translate f (k r))
  | Panic w => Panic w
  end.

(** A program whose requests are themselves implemented by programs. *)
Fixpoint interp {E F : Type -> Type} {A} (h : forall R, E R -> Prog F R) (p : Prog E A) : Prog F A :=
  match p with
  | Ret a => Ret a
  | Vis e k => bind (fun r => interp h (k r)) (h _ e)
  | Panic w => Panic w
  end.

(** ** Go's error returns

    A Go function returning [(T, error)] is a [Prog E (Err + T)]; one that
    returns only an [error] is a [Prog E (option Err)].  These are the three
    spellings of [if err != nil { return ..., err }]: [try] calls a function of
    the first kind from one of the first kind, [need] calls the first kind
    from the second, [check] the second from the second. *)
Notation "'try' x ← m ; k" :=
  (mbind (fun r => match r with inl e => mret (inl e) | inr x => k end) m)
  (at level 100, x binder, m at next level, k at level 200, right associativity).
Notation "'need' x ← m ; k" :=
  (mbind (fun r => match r with inl e => mret (Some e) | inr x => k end) m)
  (at level 100, x binder, m at next level, k at level 200, right associativity).
Notation "'check' m ; k" :=
  (mbind (fun r => match r with Some e => mret (Some e) | None => k end) m)
  (at level 100, m at next level, k at level 200, right associativity).

(** ** Pointers

    A pointer that is only read is an option; following nil panics. *)
Definition nil_dereference : string :=
  "runtime error: invalid memory address or nil pointer dereference".

Definition deref {E A} (p : option A) : Prog E A :=
  match p with Some a => mret a | None => Panic nil_dereference end.

(** ** Loops

    [forM] is [for _, x := range xs] with an accumulator; [forM_ret] is the
    same loop with a body that may [return] out of the function. *)
Section Loops.
Context {E : Type -> Type} {A B R : Type}.

Fixpoint forM (body : B -> A -> Prog E B) (acc : B) (xs : list A) : Prog E B :=
  match xs with
  | [] => mret acc
  | x :: xs' => acc' ← body acc x; forM body acc' xs'
  end.

Fixpoint forM_ret (body : B -> A -> Prog E (R + B)) (acc : B) (xs : list A)
  : Prog E (R + B) :=
  match xs with
  | [] => mret (inr acc)
  | x :: xs' =>
      r ← body acc x;
      match r with
      | inl ret => mret (inl ret)
      | inr acc' => forM_ret body acc' xs'
      end
  end.

End Loops.

(** [for _, x := range xs { if err := body(x); err != nil { return err } }]. *)
Definition for_check {E A Err} (body : A -> Prog E (option Err)) (xs : list A)
  : Prog E (option Err) :=
  r ← forM_ret (fun _ x =>
        err ← body x;
        mret (match err with Some e => inl (Some e) | None => inr () end)) () xs;
  mret (match r with inl ret => ret | inr _ => None end).

(** ** Execution against a handler *)

Inductive Outcome (A : Type) :=
| Done (a : A)
| Panicked (why : string).
Arguments Done {A} a.
Arguments Panicked {A} why.

Definition Handler (E : Type -> Type) (W : Type) := forall R, E R -> W -> R * W.

Fixpoint run {E W A} (h : Handler E W) (p : Prog E A) (w : W) : Outcome A * W :=
  match p with
  | Ret a => (Done a, w)
  | Vis e k => let '(r, w') := h _ e w in run h (k r) w'
  | Panic why => (Panicked why, w)
  end.

(** ** The program logic *)

Record Monitor (E : Type -> Type) (S : Type) := {
  (** the request is allowed in this ghost state *)
  m_pre : forall R, E R -> S -> Prop;
  (** the environment may give this answer and move to this ghost state *)
  m_post : forall R, E R -> S -> R -> S -> Prop;
}.
Arguments m_pre {E S} _ {R} _ _.
Arguments m_post {E S} _ {R} _ _ _ _.

Fixpoint wp {E S A} (M : Monitor E S) (p : Prog E A) (s : S)
    (Q : A -> S -> Prop) (QP : S -> Prop) : Prop :=
  match p with
  | Ret a => Q a s
  | Vis e k => m_pre M e s /\ forall r s', m_post M e s r s' -> wp M (k r) s' Q QP
  | Panic _ => QP s
  end.

(** A request packed with its answer type. *)
Definition Call (E : Type -> Type) := {R : Type & E R}.
Definition call {E : Type -> Type} {R} (e : E R) : Call E := existT R e.

(** An environment, as the answers it may give to each request. *)
Definition Answers (E : Type -> Type) := forall R, E R -> R -> Prop.

(** Any answer at all. *)
Definition any_answer {E} : Answers E := fun _ _ _ => True.

(** [issues env p c]: some answers of [env] lead [p] to issue the request [c]. *)
Fixpoint issues {E A} (env : Answers E) (p : Prog E A) (c : Call E) : Prop :=
  match p with
  | Ret _ | Panic _ => False
  | Vis e k => call e = c \/ exists r, env _ e r /\ issues env (k r) c
  end.

(** [returns env p a]: some answers of [env] lead [p] to return [a]. *)
Fixpoint returns {E A} (env : Answers E) (p : Prog E A) (a : A) : Prop :=
  match p with
  | Ret b => b = a
  | Vis e k => exists r, env _ e r /\ returns env (k r) a
  | Panic _ => False
  end.

(** [panics env p]: some answers of [env] lead [p] to panic. *)
Fixpoint panics {E A} (env : Answers E) (p : Prog E A) : Prop :=
  match p with
  | Ret _ => False
  | Vis e k => exists r, env _ e r /\ panics env (k r)
  | Panic _ => True
  end.

(** The environment of a program whose requests [h] implements. *)
Definition implemented {E F : Type -> Type} (env : Answers F) (h : forall R, E R -> Prog F R) : Answers E :=
  fun R e r => returns env (h R e) r.

(** The monitor of a stateless environment, with a permission on requests. *)
Definition allowing {E} (env : Answers E) (P : Call E -> Prop) : Monitor E unit :=
  {| m_pre R e _ := P (call e); m_post R e _ r _ := env R e r |}.

(** Nothing forbidden. *)
Definition permissive {E} (env : Answers E) : Monitor E unit := allowing env (fun _ => True).

(** Keeps the requests made so far, in order. *)
Definition recording {E} (env : Answers E) : Monitor E (list (Call E)) :=
  {| m_pre _ _ _ := True; m_post R e log r log' := env R e r /\ log' = log ++ [call e] |}.

(** Keeps the requests with their answers, in order. *)
Definition Answered (E : Type -> Type) := {R : Type & (E R * R)%type}.
Definition answered {E : Type -> Type} {R} (e : E R) (r : R) : Answered E := existT R (e, r).

Definition transcript {E} (env : Answers E) : Monitor E (list (Answered E)) :=
  {| m_pre _ _ _ := True; m_post R e log r log' := env R e r /\ log' = log ++ [answered e r] |}.

Section Logic.
Context {E : Type -> Type} {S : Type} (M : Monitor E S).

Lemma wp_bind {A B} (p : Prog E A) (f : A -> Prog E B) s Q QP :
  wp M p s (fun a s' => wp M (f a) s' Q QP) QP -> wp M (p ≫= f) s Q QP.
Proof.
  revert s; induction p as [a|R e k IH|why]; intros s; cbn; [done| |done].
  intros [Hpre Hk]; split; [done|]. intros r s' Hr. by apply IH, Hk.
Qed.

Lemma wp_mono {A} (p : Prog E A) s (Q Q' : A -> S -> Prop) (QP QP' : S -> Prop) :
  (forall a s', Q a s' -> Q' a s') -> (forall s', QP s' -> QP' s') ->
  wp M p s Q QP -> wp M p s Q' QP'.
Proof.
  intros HQ HP. revert s; induction p as [a|R e k IH|why]; intros s; cbn; [by auto| |by auto].
  intros [Hpre Hk]; split; [done|]. eauto.
Qed.

Lemma wp_and {A} (p : Prog E A) s (Q Q' : A -> S -> Prop) (QP QP' : S -> Prop) :
  wp M p s Q QP -> wp M p s Q' QP' -> wp M p s (fun a s' => Q a s' /\ Q' a s') QP.
Proof.
  revert s; induction p as [a|R e k IH|why]; intros s; cbn; [done| |done].
  intros [Hpre Hk] [_ Hk']; split; [done|]. auto.
Qed.

Lemma wp_ret {A} (a : A) s (Q : A -> S -> Prop) QP : Q a s -> wp M (mret a) s Q QP.
Proof. done. Qed.

Lemma wp_trigger {R} (e : E R) s (Q : R -> S -> Prop) QP :
  m_pre M e s -> (forall r s', m_post M e s r s' -> Q r s') -> wp M (trigger e) s Q QP.
Proof. done. Qed.

(** Cut rule: use a specification [Q1] of the first part. *)
Lemma wp_seq {A B} (p : Prog E A) (f : A -> Prog E B) s (Q1 : A -> S -> Prop) Q QP :
  wp M p s Q1 QP -> (forall a s', Q1 a s' -> wp M (f a) s' Q QP) ->
  wp M (p ≫= f) s Q QP.
Proof. intros Hp Hf. apply wp_bind. eapply wp_mono; [| |exact Hp]; auto. Qed.

(** Loop rules: the invariant is indexed by the elements already visited. *)
Lemma wp_forM {A B} (body : B -> A -> Prog E B) xs acc s QP (I : list A -> B -> S -> Prop)
    (Q : B -> S -> Prop) :
  I [] acc s ->
  (forall done_ x acc s, x ∈ xs -> I done_ acc s ->
     wp M (body acc x) s (fun acc' s' => I (done_ ++ [x]) acc' s') QP) ->
  (forall acc s, I xs acc s -> Q acc s) ->
  wp M (forM body acc xs) s Q QP.
Proof.
  intros HI Hb HQ.
  cut (forall ys zs acc s, xs = zs ++ ys -> I zs acc s -> wp M (forM body acc ys) s Q QP).
  { intros H. by apply (H xs []). }
  clear HI acc s. intros ys. induction ys as [|y ys IH]; intros zs acc s Hxs HI; cbn.
  - apply HQ. rewrite app_nil_r in Hxs. by subst.
  - eapply wp_seq; [apply (Hb zs); [set_solver|done]|].
    intros acc' s' HI'. apply (IH (zs ++ [y])); [|done].
    by rewrite <- app_assoc.
Qed.

Lemma wp_forM_ret {A B R} (body : B -> A -> Prog E (R + B)) xs acc s QP
    (I : list A -> B -> S -> Prop) (Q : R + B -> S -> Prop) :
  I [] acc s ->
  (forall done_ x acc s, x ∈ xs -> I done_ acc s ->
     wp M (body acc x) s
       (fun r s' => match r with
                    | inl ret => Q (inl ret) s'
                    | inr acc' => I (done_ ++ [x]) acc' s'
                    end) QP) ->
  (forall acc s, I xs acc s -> Q (inr acc) s) ->
  wp M (forM_ret body acc xs) s Q QP.
Proof.
  intros HI Hb HQ.
  cut (forall ys zs acc s, xs = zs ++ ys -> I zs acc s -> wp M (forM_ret body acc ys) s Q QP).
  { intros H. by apply (H xs []). }
  clear HI acc s. intros ys. induction ys as [|y ys IH]; intros zs acc s Hxs HI; cbn.
  - apply HQ. rewrite app_nil_r in Hxs. by subst.
  - eapply wp_seq; [apply (Hb zs); [set_solver|done]|].
    intros [ret|acc'] s' HI'; [done|]. apply (IH (zs ++ [y])); [|done].
    by rewrite <- app_assoc.
Qed.

(** A handler that simulates the monitor runs the program to a result the
    postcondition describes. *)
Lemma wp_adequate {W A} (h : Handler E W) (Rel : W -> S -> Prop) (p : Prog E A) w s Q QP :
  (forall R (e : E R) w s, Rel w s -> m_pre M e s ->
     exists s', m_post M e s (h R e w).1 s' /\ Rel (h R e w).2 s') ->
  Rel w s -> wp M p s Q QP ->
  exists s', Rel (run h p w).2 s' /\
    match (run h p w).1 with Done a => Q a s' | Panicked _ => QP s' end.
Proof.
  intros Hsim. revert w s. induction p as [a|R e k IH|why]; intros w s HR Hwp; cbn in *.
  - by exists s.
  - destruct Hwp as [Hpre Hk]. destruct (Hsim R e w s HR Hpre) as (s' & Hpost & HR').
    destruct (h R e w) as [r w']. cbn in *. eauto.
  - by exists s.
Qed.

End Logic.

(** Every request a tree can issue satisfies the permission it was proved with. *)
Lemma wp_issues {E A} (env : Answers E) (P : Call E -> Prop) (p : Prog E A) Q QP c :
  wp (allowing env P) p tt Q QP -> issues env p c -> P c.
Proof.
  induction p as [a|R e k IH|why]; cbn; [done| |done].
  intros [Hpre Hk] [<- | [r [Hr Hi]]]; [done|]. apply (IH r); [|done]. by apply Hk.
Qed.

(** A tree that was proved safe does not panic. *)
Lemma wp_panics {E A} (env : Answers E) (P : Call E -> Prop) (p : Prog E A) Q :
  wp (allowing env P) p tt Q (fun _ => False) -> ~ panics env p.
Proof.
  induction p as [a|R e k IH|why]; cbn; [by intros _ []| |by intros []].
  intros [_ Hk] (r & Hr & Hp). by apply (IH r); [apply Hk|].
Qed.

(** What is known of a program in an environment is known with a monitor whose
    answers are the environment's. *)
Lemma wp_also {E S A} (M : Monitor E S) (env : Answers E) (p : Prog E A) s Q QP Q' QP' :
  (forall R (e : E R) s r s', m_post M e s r s' -> env R e r) ->
  wp M p s Q QP -> wp (permissive env) p tt Q' QP' -> wp M p s (fun a s' => Q a s' /\ Q' a tt) QP.
Proof.
  intros HM. revert s. induction p as [a|R e k IH|why]; intros s; cbn; [done| |done].
  intros [Hpre Hk] [_ Hk']. split; [done|]. intros r s' Hr. apply IH; [by apply Hk|]. by eapply Hk', HM.
Qed.

(** A larger environment. *)
Lemma issues_mono {E A} (env env' : Answers E) (p : Prog E A) c :
  (forall R (e : E R) r, env R e r -> env' R e r) -> issues env p c -> issues env' p c.
Proof.
  intros He. induction p as [a|R e k IH|why]; cbn; [done| |done].
  intros [Hc|(r & Hr & Hi)]; [by left|right]. exists r. split; [by apply He|by apply IH].
Qed.

Lemma panics_mono {E A} (env env' : Answers E) (p : Prog E A) :
  (forall R (e : E R) r, env R e r -> env' R e r) -> panics env p -> panics env' p.
Proof.
  intros He. induction p as [a|R e k IH|why]; cbn; [done| |done].
  intros (r & Hr & Hp). exists r. split; [by apply He|by apply IH].
Qed.

(** ** Implementing requests by programs *)

Lemma issues_bind {E A B} (env : Answers E) (p : Prog E A) (f : A -> Prog E B) c :
  issues env (p ≫= f) c <-> issues env p c \/ exists a, returns env p a /\ issues env (f a) c.
Proof.
  induction p as [a|R e k IH|why]; cbn.
  - split; [by eauto|]. intros [[]|(? & -> & ?)]. done.
  - split.
    + intros [?|(r & Hr & [?|(a & ? & ?)]%IH)]; [by left; left|by left; right; eauto|right; eauto].
    + intros [[?|(r & Hr & ?)]|(a & (r & Hr & ?) & ?)]; [by left|right; exists r; split; [done|]; apply IH; by left|].
      right. exists r. split; [done|]. apply IH. right. eauto.
  - split; [done|]. by intros [?|(? & ? & ?)].
Qed.

Lemma returns_translate {E F : Type -> Type} {A} (f : forall R, E R -> F R) (env : Answers F) (p : Prog E A) a :
  returns env (translate f p) a <-> returns (fun R e r => env R (f R e) r) p a.
Proof.
  induction p as [b|R e k IH|why]; cbn; [done| |done].
  split; intros (r & Hr & H); exists r; (split; [done|]); by apply IH.
Qed.

Lemma wp_translate {E F : Type -> Type} {S A} (f : forall R, E R -> F R) (M : Monitor F S) (p : Prog E A) s Q QP :
  wp {| m_pre R e := m_pre M (f R e); m_post R e := m_post M (f R e) |} p s Q QP ->
  wp M (translate f p) s Q QP.
Proof.
  revert s. induction p as [a|R e k IH|why]; intros s; cbn; [done| |done].
  intros [Hpre Hk]. split; [done|]. intros r s' Hr. by apply IH, Hk.
Qed.

(** What a program can return satisfies what was proved of it. *)
Lemma wp_returns {E A} (env : Answers E) (p : Prog E A) Q QP a :
  wp (permissive env) p tt Q QP -> returns env p a -> Q a tt.
Proof.
  induction p as [b|R e k IH|why]; cbn; [by intros ? <-| |done].
  intros [_ Hk] (r & Hr & Ha). by apply (IH r); [apply Hk|].
Qed.

Lemma transcript_returns {E A} (env : Answers E) (p : Prog E A) log Q QP a :
  wp (transcript env) p log Q QP -> returns env p a -> exists log', Q a log'.
Proof.
  revert log. induction p as [b|R e k IH|why]; intros log; cbn; [by intros ? <-; eauto| |done].
  intros [_ Hk] (r & Hr & Ha). eapply (IH r); [|exact Ha]. apply Hk. by split.
Qed.

Lemma wp_self {E A} (env : Answers E) (p : Prog E A) (Q : A -> unit -> Prop) QP :
  wp (permissive env) p tt Q QP -> wp (permissive env) p tt (fun a _ => returns env p a) QP.
Proof.
  induction p as [b|R e k IH|why]; cbn; [done| |done].
  intros [_ Hk]. split; [done|]. intros r [] Hr.
  eapply wp_mono; [| |apply IH, Hk, Hr]; [|done]. intros a [] Ha. by exists r.
Qed.

(** A request of the implementation is one of a request's implementation, and
    the request is made by the program in the environment its requests are
    implemented in. *)
Lemma issues_interp {E F : Type -> Type} {A} (h : forall R, E R -> Prog F R) (env : Answers F) (p : Prog E A) c :
  issues env (interp h p) c ->
  exists R (e : E R), issues (implemented env h) p (call e) /\ issues env (h R e) c.
Proof.
  induction p as [a|R e k IH|why]; cbn; [done| |done].
  intros [Hc|(r & Hr & Hc)]%issues_bind; [exists R, e; by split; [left|]|].
  destruct (IH r Hc) as (R' & e' & Hi & Hc'). exists R', e'. split; [right; by exists r|done].
Qed.

(** A specification carries over when the implementations simulate the monitor. *)
Lemma wp_interp {E F : Type -> Type} {S S' A} (h : forall R, E R -> Prog F R)
    (M : Monitor E S) (M' : Monitor F S') (Rel : S -> S' -> Prop) (p : Prog E A) s s' Q (QP : S -> Prop) (QP' : S' -> Prop) :
  (forall R (e : E R) s s', Rel s s' -> m_pre M e s ->
     wp M' (h R e) s' (fun r s1' => exists s1, m_post M e s r s1 /\ Rel s1 s1') QP') ->
  (forall s s', Rel s s' -> QP s -> QP' s') ->
  Rel s s' -> wp M p s Q QP ->
  wp M' (interp h p) s' (fun a s1' => exists s1, Rel s1 s1' /\ Q a s1) QP'.
Proof.
  intros Hh HP. revert s s'. induction p as [a|R e k IH|why]; intros s s' HR; cbn; [by eauto| |by eauto].
  intros [Hpre Hk]. eapply wp_seq; [by apply Hh|]. intros r s1' (s1 & Hpost & HR1). apply (IH r s1); [done|]. by apply Hk.
Qed.

(** ** Footprints: the requests a program can issue at all *)

Section Only.
Context {E : Type -> Type} (P : Call E -> Prop).

Fixpoint only {A} (p : Prog E A) : Prop :=
  match p with
  | Ret _ | Panic _ => True
  | Vis e k => P (call e) /\ forall r, only (k r)
  end.

Lemma only_ret {A} (a : A) : only (mret a).
Proof. exact I. Qed.

Lemma only_trigger {R} (e : E R) : P (call e) -> only (trigger e).
Proof. done. Qed.

Lemma only_bind {A B} (p : Prog E A) (f : A -> Prog E B) :
  only p -> (forall a, only (f a)) -> only (p ≫= f).
Proof.
  intros Hp Hf. induction p as [a|R e k IH|why]; cbn; [by apply Hf| |done].
  destruct Hp as [He Hk]. split; [done|]. intros r. by apply IH.
Qed.

Lemma only_deref {A} (o : option A) : only (deref o).
Proof. by destruct o. Qed.

Lemma only_forM {A B} (body : B -> A -> Prog E B) acc xs :
  (forall acc x, x ∈ xs -> only (body acc x)) -> only (forM body acc xs).
Proof.
  revert acc. induction xs as [|x xs IH]; intros acc Hb; cbn; [done|].
  apply only_bind; [apply Hb; set_solver|]. intros acc'. apply IH. intros ? ? ?. apply Hb. set_solver.
Qed.

Lemma only_forM_ret {A B R} (body : B -> A -> Prog E (R + B)) acc xs :
  (forall acc x, x ∈ xs -> only (body acc x)) -> only (forM_ret body acc xs).
Proof.
  revert acc. induction xs as [|x xs IH]; intros acc Hb; cbn; [done|].
  apply only_bind; [apply Hb; set_solver|]. intros [r|acc']; [done|].
  apply IH. intros ? ? ?. apply Hb. set_solver.
Qed.

Lemma only_for_check {A Err} (body : A -> Prog E (option Err)) xs :
  (forall x, x ∈ xs -> only (body x)) -> only (for_check body xs).
Proof.
  intros Hb. unfold for_check. apply only_bind; [|done].
  apply only_forM_ret. intros _ x Hx. apply only_bind; [by apply Hb|done].
Qed.

Lemma only_wp {A S} (M : Monitor E S) (p : Prog E A) s Q QP :
  (forall R (e : E R) s, P (call e) -> m_pre M e s) ->
  only p -> wp {| m_pre _ _ _ := True; m_post := @m_post _ _ M |} p s Q QP -> wp M p s Q QP.
Proof.
  intros HM. revert s. induction p as [a|R e k IH|why]; intros s; cbn; [done| |done].
  intros [He Hk] [_ Hwp]. split; [by apply HM|]. intros r s' Hr. apply IH; [done|]. by apply Hwp.
Qed.

Lemma only_issues {A} (p : Prog E A) env c : only p -> issues env p c -> P c.
Proof.
  induction p as [a|R e k IH|why]; cbn; [done| |done].
  intros [He Hk] [<-|(r & _ & Hi)]; [done|]. by apply (IH r).
Qed.

Lemma only_interp {F : Type -> Type} {A} (h : forall R, F R -> Prog E R) (p : Prog F A) :
  (forall R (e : F R), only (h R e)) -> only (interp h p).
Proof.
  intros Hh. induction p as [a|R e k IH|why]; cbn; [done| |done].
  apply (only_bind (h R e) (fun r => interp h (k r))); [apply Hh|exact IH].
Qed.

End Only.

Lemma only_translate {E F : Type -> Type} {A} (P : Call E -> Prop) (f : forall R, F R -> E R) (p : Prog F A) :
  only (fun c => P (call (f _ (projT2 c)))) p -> only P (translate f p).
Proof.
  induction p as [a|R e k IH|why]; cbn; [done| |done]. intros [He Hk]. split; [done|]. intros r. by apply IH.
Qed.

Lemma only_mono {E A} (P Q : Call E -> Prop) (p : Prog E A) :
  (forall c, P c -> Q c) -> only P p -> only Q p.
Proof.
  intros HPQ. induction p as [a|R e k IH|why]; cbn; [done| |done].
  intros [He Hk]. split; [by apply HPQ|]. intros r. by apply IH.
Qed.

(** A program whose requests are not restricted satisfies the trivial
    specification, whatever the environment answers. *)
Lemma wp_trivial {E S A} (M : Monitor E S) (p : Prog E A) s :
  (forall R (e : E R) s, m_pre M e s) -> wp M p s (fun _ _ => True) (fun _ => True).
Proof.
  intros HM. revert s; induction p as [a|R e k IH|why]; intros s; cbn; auto.
Qed.

(** ** The state a function mutates through a pointer *)

Definition StateT (E : Type -> Type) (S A : Type) := S -> Prog E (A * S).

#[export] Instance stateT_ret {E S} : MRet (StateT E S) := fun A a s => Ret (a, s).
#[export] Instance stateT_bind {E S} : MBind (StateT E S) :=
  fun A B f m s => bind (fun '(a, s') => f a s') (m s).

Section StateT.
Context {E : Type -> Type} {S : Type}.

Definition lift {A} (p : Prog E A) : StateT E S A := fun s => bind (fun a => Ret (a, s)) p.
Definition get : StateT E S S := fun s => Ret (s, s).
Definition modify (f : S -> S) : StateT E S unit := fun s => Ret ((), f s).
Definition panic {A} (why : string) : StateT E S A := fun _ => Panic why.

End StateT.

Section StateLogic.
Context {E : Type -> Type} {S T : Type} (M : Monitor E S).
Implicit Types (s : S) (t : T).

Lemma wp_state_bind {A B} (m : StateT E T A) (f : A -> StateT E T B) t s Q QP :
  wp M (m t) s (fun r s' => wp M (f r.1 r.2) s' Q QP) QP -> wp M ((m ≫= f) t) s Q QP.
Proof.
  intros H. apply wp_bind. eapply wp_mono; [|done|exact H]. by intros [a t'] s'.
Qed.

Lemma wp_lift {A} (p : Prog E A) t s (Q : A * T -> S -> Prop) QP :
  wp M p s (fun a s' => Q (a, t) s') QP -> wp M (lift p t) s Q QP.
Proof. intros H. by apply (wp_bind M p (fun a => Ret (a, t))). Qed.

(** A lifted call with a specification of its own, then the continuation. *)
Lemma wp_lift_seq {A B} (p : Prog E A) (f : A -> StateT E T B) t s (Q1 : A -> S -> Prop) Q QP :
  wp M p s Q1 QP -> (forall a s', Q1 a s' -> wp M (f a t) s' Q QP) ->
  wp M ((lift p ≫= f) t) s Q QP.
Proof.
  intros Hp Hf. apply wp_state_bind, wp_lift. eapply wp_mono; [|done|exact Hp]. by apply Hf.
Qed.

(** A lifted call about which nothing needs to be known. *)
Lemma wp_lift_any {A B} (p : Prog E A) (f : A -> StateT E T B) t s Q (QP : S -> Prop) :
  (forall R (e : E R) s, m_pre M e s) -> (forall s, QP s) ->
  (forall a s', wp M (f a t) s' Q QP) -> wp M ((lift p ≫= f) t) s Q QP.
Proof.
  intros HM HP Hf. eapply (wp_lift_seq _ _ _ _ (fun _ _ => True)); [|by auto].
  eapply wp_mono; [| |by apply wp_trivial]; auto.
Qed.

End StateLogic.

(** Footprints of state-passing programs. *)
Section StateOnly.
Context {E : Type -> Type} {T : Type} (P : Call E -> Prop).

Definition onlyS {A} (m : StateT E T A) : Prop := forall t, only P (m t).

Lemma onlyS_ret {A} (a : A) : onlyS (mret a).
Proof. done. Qed.

Lemma onlyS_bind {A B} (m : StateT E T A) (f : A -> StateT E T B) :
  onlyS m -> (forall a, onlyS (f a)) -> onlyS (m ≫= f).
Proof. intros Hm Hf t. apply only_bind; [apply Hm|]. intros [a t']. apply Hf. Qed.

Lemma onlyS_lift {A} (p : Prog E A) : only P p -> onlyS (lift p).
Proof. intros Hp t. by apply only_bind. Qed.

Lemma onlyS_get : onlyS get.
Proof. done. Qed.

Lemma onlyS_modify f : onlyS (modify f).
Proof. done. Qed.

Lemma onlyS_panic {A} why : onlyS (@panic E T A why).
Proof. done. Qed.

End StateOnly.

Create HintDb footprint.
#[export] Hint Resolve only_ret only_deref onlyS_ret onlyS_get onlyS_modify onlyS_panic : footprint.

(** Proves a footprint by following the structure of the program; [footprint]
    holds the lemmas about the functions it calls. *)
Ltac footprint_step :=
  lazymatch goal with
  | |- only _ (trigger _) => apply only_trigger; cbn; try done
  | |- only _ (forM _ _ _) => apply only_forM; intros
  | |- only _ (forM_ret _ _ _) => apply only_forM_ret; intros
  | |- only _ (for_check _ _) => apply only_for_check; intros
  | |- only _ (Panic _) => exact I
  | |- only _ (_ ≫= _) => apply only_bind; [|intros]
  | |- only _ (match ?x with _ => _ end) => destruct x
  | |- onlyS _ (lift _) => apply onlyS_lift
  | |- onlyS _ (_ ≫= _) => apply onlyS_bind; [|intros]
  | |- onlyS _ (match ?x with _ => _ end) => destruct x
  end.

Ltac footprint := intros; repeat first [progress (eauto with footprint nocore) | footprint_step].
