(* ===== verification/GoStd.v ===== *)
(** * GoStd: the parts of Go's standard library the operator uses

    [errors], [fmt.Errorf], [time], [strings] and [strconv], written out on
    Rocq values: a Go [string] is a [string] of bytes, a [time.Time] is the
    number of nanoseconds since Go's zero time, a [time.Duration] is an
    [int64] number of nanoseconds. *)

From Stdlib Require Import Ascii.
From stdpp Require Import sorting.
From S2P Require Import Prelude.

(** ** errors *)

(** An [error] value.  [ExtError] is a value made by code outside the
    repository (the API client, the template library, ...): the program can
    only print it and ask the client library about its status reason.
    [Errorf] is [fmt.Errorf] without [%w]; [JoinError] is the value
    [errors.Join] builds. *)
Inductive error :=
| ExtError (reason msg : string)
| Errorf (msg : string)
| JoinError (errs : list error).

(** The [Error] method. *)
Fixpoint Error (e : error) : string :=
  match e with
  | ExtError _ msg => msg
  | Errorf msg => msg
  | JoinError errs => String.concat (String "010" EmptyString) (map Error errs)
  end.

(** [errors.Join]: drops the nil arguments, nil when nothing is left. *)
Definition errors_Join (errs : list (option error)) : option error :=
  match omap id errs with
  | [] => None
  | es => Some (JoinError es)
  end.

Lemma errors_Join_None errs : errors_Join errs = None <-> Forall (fun e => e = None) errs.
Proof.
  unfold errors_Join. induction errs as [|[e|] errs IH]; cbn.
  - split; [constructor|done].
  - split; [done|]. intros H. by inversion H.
  - rewrite IH. split; [by constructor|]. intros H. by inversion H.
Qed.

Lemma errors_Join2_None a b : errors_Join [a; b] = None <-> a = None /\ b = None.
Proof.
  rewrite errors_Join_None, !Forall_cons. split; [naive_solver|].
  intros [-> ->]. repeat split; constructor.
Qed.

Lemma errors_Join2_Some a b : is_Some (errors_Join [a; b]) <-> is_Some a \/ is_Some b.
Proof.
  destruct a, b; cbn; split; intros H; eauto; try (by destruct H as [? ?]).
  by destruct H as [[? ?]|[? ?]].
Qed.

#[export] Hint Rewrite errors_Join2_None errors_Join_None : odf_rw.

(** ** time *)

Abbreviation Time := Z (only parsing).
Abbreviation Duration := Z (only parsing).

Definition Nanosecond : Duration := 1.
Definition Second : Duration := 1000000000 * Nanosecond.
Definition Minute : Duration := 60 * Second.

Definition minInt64 : Z := - 2 ^ 63.
Definition maxInt64 : Z := 2 ^ 63 - 1.

(** [Time.UnixNano]: nanoseconds since 1970. *)
Definition unixEpoch : Time := (62135596800 * Second)%Z.
Definition UnixNano (t : Time) : Z := (t - unixEpoch)%Z.

Definition zeroTime : Time := 0%Z.
Definition Time_IsZero (t : Time) : bool := (t =? 0)%Z.
Definition Add (t : Time) (d : Duration) : Time := (t + d)%Z.
Definition After (t u : Time) : bool := (u <? t)%Z.
Definition Before (t u : Time) : bool := (t <? u)%Z.
(** [Time.Sub] saturates at the bounds of [int64]. *)
Definition Sub (t u : Time) : Duration := Z.max minInt64 (Z.min maxInt64 (t - u))%Z.

Lemma Sub_bounds t u : (minInt64 <= Sub t u <= maxInt64)%Z.
Proof. unfold Sub, minInt64, maxInt64. lia. Qed.

Lemma Sub_exact t u : (minInt64 <= t - u <= maxInt64)%Z -> Sub t u = (t - u)%Z.
Proof. unfold Sub. lia. Qed.

Lemma After_spec t u : After t u = true <-> (u < t)%Z.
Proof. apply Z.ltb_lt. Qed.

Lemma After_false t u : After t u = false <-> (t <= u)%Z.
Proof. apply Z.ltb_ge. Qed.

Lemma Before_spec t u : Before t u = true <-> (t < u)%Z.
Proof. apply Z.ltb_lt. Qed.

Lemma Before_false t u : Before t u = false <-> (u <= t)%Z.
Proof. apply Z.ltb_ge. Qed.

#[export] Hint Rewrite After_spec After_false Before_spec Before_false : odf_rw.

(** ** strconv and fmt *)

Definition FormatBool (b : bool) : string := if b then "true" else "false".

(** Decimal digits of a natural number, as [%d] prints them. *)
Definition FormatNat (n : nat) : string := pretty.pretty (N.of_nat n).

(** [fmt.Sprintf("%.f", d.Minutes())] for a whole number of minutes. *)
Definition format_minutes (d : Duration) : string := FormatNat (Z.to_nat (d / Minute)).

(** [fmt.Sprintf("%s", words)] for a [[]string]. *)
Definition FormatStrings (ws : list string) : string :=
  String.append "[" (String.append (String.concat " " ws) "]").

(** [fmt.Sprintf("%v", m)] for a [map[string]string]: the keys in order. *)
Definition FormatMap (m : gmap string string) : string :=
  let keys := merge_sort String.le (elements (dom m)) in
  let entry k := String.append k (String.append ":" (default "" (m !! k))) in
  String.append "map[" (String.append (String.concat " " (map entry keys)) "]").

Example FormatMap_ex : FormatMap {[ "b" := "2"; "a" := "1" ]} = "map[a:1 b:2]".
Proof. vm_compute. reflexivity. Qed.
