(* ===== verification/GoStrings.v ===== *)
(** * GoStrings: the functions of package [strings] the operator calls

    Strings are byte strings, as in Go.  [TrimSpace] removes the runes for
    which [unicode.IsSpace] holds, including their UTF-8 encodings of two and
    three bytes.  [ToLower] maps the ASCII letters; the runes above [U+007F]
    are kept as they are, which changes nothing for the only use of it (a
    search for a lower-case ASCII text without [i] or [k], the two letters that
    are the lower case of a non-ASCII rune). *)

From Stdlib Require Import Ascii.
From S2P Require Import Prelude.

Local Open Scope string_scope.
#[local] Arguments String.append !_ _ / : simpl nomatch.

Definition nl : ascii := "010".

Lemma append_nil_r s : s ++ "" = s.
Proof. induction s as [|c s IH]; cbn; [done|]. by rewrite IH. Qed.

Lemma append_assoc s t u : s ++ (t ++ u) = (s ++ t) ++ u.
Proof. induction s as [|c s IH]; cbn; [done|]. by rewrite IH. Qed.

(** ** strings.Join is [String.concat] with the separator first *)
Definition strings_Join (elems : list string) (sep : string) : string := String.concat sep elems.

(** ** strings.Contains *)
Fixpoint Contains (s substr : string) : bool :=
  String.prefix substr s ||
  match s with
  | EmptyString => false
  | String _ s' => Contains s' substr
  end.

Lemma prefix_spec u s : String.prefix u s = true <-> exists b, s = u ++ b.
Proof.
  revert s; induction u as [|c u IH]; intros s.
  - split; [intros _; by exists s|by destruct s].
  - destruct s as [|d s]; cbn; [split; [done|by intros [b ?]]|].
    destruct (ascii_dec c d) as [->|Hne].
    + rewrite IH. split; intros [b Hb]; exists b; congruence.
    + split; [done|]. intros [b Hb]. congruence.
Qed.

Lemma Contains_cons c s u :
  Contains (String c s) u = String.prefix u (String c s) || Contains s u.
Proof. done. Qed.

Lemma Contains_spec s u : Contains s u = true <-> exists a b, s = a ++ u ++ b.
Proof.
  split.
  - induction s as [|c s IH].
    + cbn [Contains]. rewrite orb_false_r. intros [b Hb]%prefix_spec. by exists "", b.
    + rewrite Contains_cons. intros [[b Hb]%prefix_spec|H]%orb_true_iff.
      * by exists "", b.
      * destruct (IH H) as (a & b & ->). by exists (String c a), b.
  - intros (a & b & ->). induction a as [|c a IH]; cbn [String.append].
    + assert (String.prefix u (u ++ b) = true) as Hp by (apply prefix_spec; eauto).
      destruct (u ++ b); cbn [Contains]; by rewrite Hp.
    + rewrite Contains_cons, IH. apply orb_true_r.
Qed.

(** ** strings.ToLower *)
Definition lower_ascii (c : ascii) : ascii :=
  let n := nat_of_ascii c in
  if (65 <=? n)%nat && (n <=? 90)%nat then ascii_of_nat (n + 32) else c.

Fixpoint ToLower (s : string) : string :=
  match s with
  | EmptyString => EmptyString
  | String c s' => String (lower_ascii c) (ToLower s')
  end.

Lemma lower_ascii_idemp c : lower_ascii (lower_ascii c) = lower_ascii c.
Proof. by destruct c as [[] [] [] [] [] [] [] []]. Qed.

Lemma ToLower_idemp s : ToLower (ToLower s) = ToLower s.
Proof. induction s as [|c s IH]; cbn; [done|]. by rewrite lower_ascii_idemp, IH. Qed.

Lemma ToLower_app s t : ToLower (s ++ t) = ToLower s ++ ToLower t.
Proof. induction s as [|c s IH]; cbn; [done|]. by rewrite IH. Qed.

(** ** strings.Split at the newline *)
Fixpoint Split_nl (s : string) : list string :=
  match s with
  | EmptyString => [""]
  | String c s' =>
      match Split_nl s' with
      | [] => [""]
      | w :: ws => if decide (c = nl) then "" :: w :: ws else String c w :: ws
      end
  end.

Lemma Split_nl_cons s : exists w ws, Split_nl s = w :: ws.
Proof.
  induction s as [|c s (w & ws & IH)]; cbn; [by eauto|].
  rewrite IH. destruct (decide (c = nl)); eauto.
Qed.

Lemma Split_nl_concat s : String.concat (String nl "") (Split_nl s) = s.
Proof.
  induction s as [|c s IH]; [done|]. destruct (Split_nl_cons s) as (w & ws & E).
  cbn [Split_nl]. rewrite E in *. destruct (decide (c = nl)) as [->|].
  - change (String.concat (String nl "") ("" :: w :: ws))
      with (String nl (String.concat (String nl "") (w :: ws))). by rewrite IH.
  - destruct ws as [|w' ws]; cbn in *; congruence.
Qed.

(** The bytes of a string. *)
Fixpoint bytes (s : string) : list ascii :=
  match s with EmptyString => [] | String c s' => c :: bytes s' end.

Lemma Split_nl_no_nl s : Forall (fun w => nl ∉ bytes w) (Split_nl s).
Proof.
  induction s as [|c s IH]; [by repeat constructor; set_solver|].
  cbn [Split_nl]. destruct (Split_nl_cons s) as (w & ws & E). rewrite E in *.
  apply Forall_cons in IH as [Hw Hws].
  destruct (decide (c = nl)).
  - repeat constructor; [set_solver|done..].
  - constructor; [cbn; set_solver|done].
Qed.

(** ** strings.TrimSpace *)
Definition ascii_space (c : ascii) : bool :=
  let n := nat_of_ascii c in ((9 <=? n)%nat && (n <=? 13)%nat) || (n =? 32)%nat.

(** U+0085, U+00A0 *)
Definition space2 (a b : ascii) : bool :=
  (nat_of_ascii a =? 194)%nat && ((nat_of_ascii b =? 133)%nat || (nat_of_ascii b =? 160)%nat).

(** U+1680, U+2000-U+200A, U+2028, U+2029, U+202F, U+205F, U+3000 *)
Definition space3 (a b c : ascii) : bool :=
  let '(x, y, z) := (nat_of_ascii a, nat_of_ascii b, nat_of_ascii c) in
  ((x =? 225) && (y =? 154) && (z =? 128))%nat
  || ((x =? 226) && (y =? 128) && (((128 <=? z) && (z <=? 138)) || (z =? 168) || (z =? 169) || (z =? 175)))%nat
  || ((x =? 226) && (y =? 129) && (z =? 159))%nat
  || ((x =? 227) && (y =? 128) && (z =? 128))%nat.

Section Trim.
Context (sp2 : ascii -> ascii -> bool) (sp3 : ascii -> ascii -> ascii -> bool).

(** Drops the white-space runes at the front of the string. *)
Fixpoint trim_front (s : string) : string :=
  match s with
  | EmptyString => s
  | String a s1 =>
      if ascii_space a then trim_front s1 else
      match s1 with
      | EmptyString => s
      | String b s2 =>
          if sp2 a b then trim_front s2 else
          match s2 with
          | EmptyString => s
          | String c s3 => if sp3 a b c then trim_front s3 else s
          end
      end
  end.

End Trim.

Definition TrimLeft : string -> string := trim_front space2 space3.
Definition TrimRight (s : string) : string :=
  String.rev (trim_front (fun b a => space2 a b) (fun c b a => space3 a b c) (String.rev s)).

Definition TrimSpace (s : string) : string := TrimRight (TrimLeft s).

(** The last element of the split, [slogs[len(slogs)-1]]. *)
Definition last_line (s : string) : string := List.last (Split_nl s) "".

Example TrimSpace_ex :
  TrimSpace (String "009" (String nl (" a b " ++ String nl ""))) = "a b".
Proof. vm_compute. reflexivity. Qed.

Example last_line_ex : last_line ("a" ++ String nl "b") = "b".
Proof. vm_compute. reflexivity. Qed.

(** ** The last line of a text

    [TrimSpace] and [last_line] find a line that begins and ends in a visible
    ASCII character, whatever precedes it and whatever ASCII white space
    follows it. *)

Definition visible (c : ascii) : bool :=
  let n := nat_of_ascii c in (33 <=? n)%nat && (n <=? 126)%nat.

Lemma visible_tests c : visible c = true ->
  ascii_space c = false /\ (forall b, space2 c b = false /\ space2 b c = false)
  /\ (forall a b, space3 c a b = false /\ space3 a b c = false).
Proof.
  unfold visible, ascii_space, space2, space3. intros H.
  apply andb_true_iff in H as [H1%Nat.leb_le H2%Nat.leb_le]. split_and!.
  - rewrite orb_false_iff, andb_false_iff, !Nat.leb_gt, Nat.eqb_neq. lia.
  - intros b. rewrite !andb_false_iff, !orb_false_iff, !Nat.eqb_neq. lia.
  - intros a b. rewrite !orb_false_iff, !andb_false_iff, !orb_false_iff, !andb_false_iff, !Nat.eqb_neq,
      !Nat.leb_gt. lia.
Qed.

Lemma nl_tests : (forall b, space2 b nl = false) /\ (forall a b, space3 a nl b = false /\ space3 a b nl = false).
Proof.
  unfold space2, space3. change (nat_of_ascii nl) with 10%nat.
  split; [intros b|intros a b; split]; cbn; by rewrite ?andb_false_r; cbn; rewrite ?andb_false_r.
Qed.

Lemma TrimLeft_visible c s : visible c = true -> TrimLeft (String c s) = String c s.
Proof.
  intros (H1 & H2 & H3)%visible_tests. unfold TrimLeft. cbn [trim_front]. rewrite H1.
  destruct s as [|b [|d s]]; [done|by rewrite (proj1 (H2 b))|].
  by rewrite (proj1 (H2 b)), (proj1 (H3 b d)).
Qed.

Lemma TrimLeft_nl u v :
  (exists u', TrimLeft (u ++ String nl v) = u' ++ String nl v) \/ TrimLeft (u ++ String nl v) = TrimLeft v.
Proof.
  destruct nl_tests as [N2 N3]. unfold TrimLeft.
  remember (String.length u) as n eqn:Hn. assert (String.length u <= n)%nat as Hle by lia. clear Hn.
  revert u Hle. induction n as [|n IH]; intros [|a u] Hle; cbn in Hle; try lia; try (by right).
  cbn [String.append trim_front]. destruct (ascii_space a); [apply IH; lia|].
  destruct u as [|b u]; cbn [String.append].
  { rewrite N2. left. exists (String a ""). destruct v as [|c v]; [done|].
    by rewrite (proj1 (N3 a c)). }
  destruct (space2 a b); [apply IH; cbn in Hle; lia|].
  destruct u as [|c u]; cbn [String.append].
  { left. exists (String a (String b "")). by rewrite (proj2 (N3 a b)). }
  destruct (space3 a b c); [apply IH; cbn in Hle; lia|].
  left. by exists (String a (String b (String c u))).
Qed.

Lemma rev_app_spec s t : String.rev_app s t = String.rev s ++ t.
Proof.
  unfold String.rev. revert t. induction s as [|c s IH]; intros t; cbn; [done|].
  rewrite IH, (IH (String c "")). by rewrite <- append_assoc.
Qed.

Lemma rev_cons c s : String.rev (String c s) = String.rev s ++ String c "".
Proof. unfold String.rev at 1. cbn [String.rev_app]. apply rev_app_spec. Qed.

Lemma rev_append s t : String.rev (s ++ t) = String.rev t ++ String.rev s.
Proof.
  induction s as [|c s IH]; cbn [String.append]; [by rewrite append_nil_r|].
  by rewrite !rev_cons, IH, append_assoc.
Qed.

Lemma rev_involutive s : String.rev (String.rev s) = s.
Proof. induction s as [|c s IH]; [done|]. by rewrite rev_cons, rev_append, IH. Qed.

Definition blank (s : string) : Prop := Forall (fun c => ascii_space c = true) (bytes s).

Lemma bytes_app s t : bytes (s ++ t) = (bytes s ++ bytes t)%list.
Proof. induction s as [|c s IH]; cbn; [done|]. by rewrite IH. Qed.

Lemma blank_rev s : blank s -> blank (String.rev s).
Proof.
  unfold blank. induction s as [|c s IH]; [done|]. rewrite rev_cons, bytes_app. cbn.
  intros [Hc Hs]%Forall_cons. apply Forall_app. split; [by apply IH|by repeat constructor].
Qed.

Lemma trim_front_blank sp2 sp3 w s : blank w -> trim_front sp2 sp3 (w ++ s) = trim_front sp2 sp3 s.
Proof.
  unfold blank. induction w as [|c w IH]; [done|]. cbn [bytes]. intros [Hc Hw]%Forall_cons.
  cbn [String.append trim_front]. rewrite Hc. by apply IH.
Qed.

Lemma TrimRight_visible x c w :
  visible c = true -> blank w -> TrimRight (x ++ String c w) = x ++ String c "".
Proof.
  intros (H1 & H2 & H3)%visible_tests Hw. unfold TrimRight.
  rewrite rev_append, rev_cons, <- append_assoc. rewrite trim_front_blank by by apply blank_rev.
  assert (forall s, trim_front (fun b a => space2 a b) (fun c b a => space3 a b c) (String c s) = String c s) as Ht.
  { intros s. cbn [trim_front]. rewrite H1. destruct s as [|b [|d s]]; [done|by rewrite (proj2 (H2 b))|].
    by rewrite (proj2 (H2 b)), (proj2 (H3 d b)). }
  cbn [String.append]. rewrite Ht, rev_cons. by rewrite rev_involutive.
Qed.

Lemma Split_nl_app u v : Split_nl (u ++ String nl v) = (Split_nl u ++ Split_nl v)%list.
Proof.
  induction u as [|c u IH].
  - cbn. by destruct (Split_nl_cons v) as (w & ws & ->).
  - cbn [String.append Split_nl]. rewrite IH. destruct (Split_nl_cons u) as (w & ws & ->). cbn.
    by destruct (decide (c = nl)).
Qed.

Lemma Split_nl_line v : nl ∉ bytes v -> Split_nl v = [v].
Proof.
  induction v as [|c v IH]; [done|]. cbn. intros Hc. rewrite IH by set_solver.
  destruct (decide (c = nl)); [set_solver|done].
Qed.

Lemma last_line_line u v : nl ∉ bytes v -> last_line v = v /\ last_line (u ++ String nl v) = v.
Proof.
  intros Hv. unfold last_line. rewrite Split_nl_app, (Split_nl_line v Hv). split; [done|].
  by rewrite List.last_last.
Qed.

(** A line of visible ends. *)
Definition clean_line (line : string) : Prop :=
  nl ∉ bytes line /\ (exists c r, line = String c r /\ visible c = true)
  /\ (exists x d, line = x ++ String d "" /\ visible d = true).

Lemma last_line_TrimSpace body line w :
  clean_line line -> blank w -> last_line (TrimSpace (body ++ String nl (line ++ w))) = line.
Proof.
  intros (Hnl & (c & r & Hc & Hvc) & (x & d & Hd & Hvd)) Hw. unfold TrimSpace.
  assert (TrimLeft (line ++ w) = line ++ w) as Hleft.
  { rewrite Hc. cbn [String.append]. by apply TrimLeft_visible. }
  assert (forall u, TrimRight (u ++ line ++ w) = u ++ line) as Hright.
  { intros u. rewrite Hd, <- append_assoc. cbn [String.append].
    rewrite append_assoc. rewrite TrimRight_visible by done. by rewrite append_assoc. }
  destruct (TrimLeft_nl body (line ++ w)) as [[u ->]| ->].
  - replace (u ++ String nl (line ++ w)) with ((u ++ String nl "") ++ line ++ w) by by rewrite <- append_assoc.
    rewrite Hright, <- append_assoc. by apply last_line_line.
  - rewrite Hleft. specialize (Hright ""). cbn [String.append] in Hright. rewrite Hright.
    by apply last_line_line.
Qed.
