(* ===== verification/Api.v ===== *)
(** * Api: the NodeRecovery custom resource (api/v1alpha1/noderecovery_types.go)

    [RecoveryConditionType] is a string type in Go with fourteen named values;
    here it is an inductive type with one more constructor for the strings
    that are none of them, and the two conversions below show it has exactly
    the Go values.  The other string types ([RecoveryPhase], [StatusType],
    [RecoveryConditionReason]) are strings.  A [*metav1.Time] and a [*NodePV]
    are options, [None] being the nil pointer.  Of the object's metadata only
    the fields the operator reads are kept. *)

From S2P Require Import Prelude GoStd.

(** ** RecoveryConditionType *)

Inductive RecoveryConditionType :=
| EnableCephToolsPod
| WaitForCephToolsPodRunning
| WaitForOSDPodsStabilize
| LabelNodesWithPendingPods
| ManageCrashLoopBackOffPods
| ForceDeleteRookCephOSDPods
| ProcessOCSRemovalTemplate
| CleanupOSDRemovalJob
| RetryForceCleanupOSDRemovalJob
| WaitForPersistenVolumeBound
| RestartStorageOperator
| DeleteFailedPodsNodeAffinity
| StorageClusterFitnessCheck
| DisableCephTools
| OtherConditionType (s : string).

Definition namedConditionTypes : list (RecoveryConditionType * string) :=
  [ (EnableCephToolsPod, "EnableCephToolsPod");
    (WaitForCephToolsPodRunning, "WaitForCephToolsPodRunning");
    (WaitForOSDPodsStabilize, "WaitForOSDPodsStabilize");
    (LabelNodesWithPendingPods, "LabelNodesWithPendingPods");
    (ManageCrashLoopBackOffPods, "ManageCrashLoopBackOffPods");
    (ForceDeleteRookCephOSDPods, "ForceDeleteRookCephOSDPods");
    (ProcessOCSRemovalTemplate, "ProcessOCSRemovalTemplate");
    (CleanupOSDRemovalJob, "CleanupOSDRemovalJob");
    (RetryForceCleanupOSDRemovalJob, "RetryForceCleanupOSDRemovalJob");
    (WaitForPersistenVolumeBound, "WaitForPersistenVolumeBound");
    (RestartStorageOperator, "RestartStorageOperator");
    (DeleteFailedPodsNodeAffinity, "DeleteFailedPodsNodeAffinity");
    (StorageClusterFitnessCheck, "StorageClusterFitnessCheck");
    (DisableCephTools, "DisableCephTools") ].

#[export] Instance RecoveryConditionType_eq_dec : EqDecision RecoveryConditionType.
Proof. solve_decision. Defined.

(** The Go value: [string(t)]. *)
Definition conditionTypeString (t : RecoveryConditionType) : string :=
  match t with
  | OtherConditionType s => s
  | _ => match list_find (fun p => p.1 = t) namedConditionTypes with
         | Some (_, (_, s)) => s
         | None => ""
         end
  end.

Definition conditionTypeOfString (s : string) : RecoveryConditionType :=
  match list_find (fun p => p.2 = s) namedConditionTypes with
  | Some (_, (t, _)) => t
  | None => OtherConditionType s
  end.

(** ** Status values *)

Definition RunningPhase : string := "Running".
Definition FailedPhase : string := "Failed".
Definition CompletedPhase : string := "Completed".

Definition StatusTrue : string := "True".
Definition StatusFalse : string := "False".

Definition FailedCheckCephToolsPod : string := "FailedCheckCephToolsPod".
Definition FailedRetrieveCephToolPod : string := "FailedRetrieveCephToolPod".
Definition FailedEnableCephToolsPod : string := "FailedEnableCephToolsPod".
Definition FailedDisableCephToolsPod : string := "FailedDisableCephToolsPod".
Definition PodNotInRunningPhase : string := "PodNotInRunningPhase".
Definition FailedRetrievePodsPhase : string := "FailedRetrievePodsPhase".
Definition WaitingForPodsToInitialize : string := "WaitingForPodsToInitialize".
Definition FailedRetrievePendingPods : string := "FailedRetrievePendingPods".
Definition FailedLabelNodes : string := "FailedLabelNodes".
Definition FailedRetrieveCrashLoopBackOffPods : string := "FailedRetrieveCrashLoopBackOffPods".
Definition FailedHandleCrashLoopBackOffPods : string := "FailedHandleCrashLoopBackOffPods".
Definition FailedRestartODFOperator : string := "FailedRestartODFOperator".
Definition FailedDeleteFailedPodsNodeAffinity : string := "FailedDeleteFailedPodsNodeAffinity".
Definition FailedArchiveCephDaemonCrashMessages : string := "FailedArchiveCephDaemonCrashMessages".
Definition FailedRetrieveCephHealthStatus : string := "FailedRetrieveCephHealthStatus".

(** ** Records *)

Record RecoveryCondition := {
  cond_Type : RecoveryConditionType;
  cond_LastProbeTime : Time;
  cond_LastTransitionTime : Time;
  cond_Reason : string;
  cond_Message : string;
  cond_Status : string;
}.

Record NodePV := {
  npv_NodeName : string;
  npv_PersistentVolumeName : string;
  npv_FailingOSDID : string;
}.

Record NodeRecoveryStatus := {
  Phase : string;
  Conditions : list RecoveryCondition;
  StartTime : option Time;
  CompletionTime : option Time;
  PendingPods : bool;
  CrashLoopBackOffPods : bool;
  NodeDevice : list (option NodePV);
  ForcedOSDRemoval : bool;
  KeepCephToolsPod : bool;
  OperationalOSDIDs : list string;
}.

Record NodeRecovery := {
  nr_Name : string;
  nr_DeletionTimestamp : option Time;
  nr_Status : NodeRecoveryStatus;
}.

(** The zero values of the two structs, which a new object and a failed [Get]
    leave behind. *)
Definition zeroStatus : NodeRecoveryStatus :=
  {| Phase := ""; Conditions := []; StartTime := None; CompletionTime := None;
     PendingPods := false; CrashLoopBackOffPods := false; NodeDevice := [];
     ForcedOSDRemoval := false; KeepCephToolsPod := false; OperationalOSDIDs := [] |}.

Definition zeroNodeRecovery : NodeRecovery :=
  {| nr_Name := ""; nr_DeletionTimestamp := None; nr_Status := zeroStatus |}.

(** ** Field assignments *)
Section Setters.
Implicit Types (c : RecoveryCondition) (st : NodeRecoveryStatus) (i : NodeRecovery).

Definition set_cond_LastProbeTime t c := {| cond_Type := cond_Type c; cond_LastProbeTime := t;
  cond_LastTransitionTime := cond_LastTransitionTime c; cond_Reason := cond_Reason c;
  cond_Message := cond_Message c; cond_Status := cond_Status c |}.
Definition set_cond_Reason r c := {| cond_Type := cond_Type c; cond_LastProbeTime := cond_LastProbeTime c;
  cond_LastTransitionTime := cond_LastTransitionTime c; cond_Reason := r;
  cond_Message := cond_Message c; cond_Status := cond_Status c |}.
Definition set_cond_Message m c := {| cond_Type := cond_Type c; cond_LastProbeTime := cond_LastProbeTime c;
  cond_LastTransitionTime := cond_LastTransitionTime c; cond_Reason := cond_Reason c;
  cond_Message := m; cond_Status := cond_Status c |}.
Definition set_cond_Status s c := {| cond_Type := cond_Type c; cond_LastProbeTime := cond_LastProbeTime c;
  cond_LastTransitionTime := cond_LastTransitionTime c; cond_Reason := cond_Reason c;
  cond_Message := cond_Message c; cond_Status := s |}.

Definition set_Phase p st := {| Phase := p; Conditions := Conditions st; StartTime := StartTime st;
  CompletionTime := CompletionTime st; PendingPods := PendingPods st;
  CrashLoopBackOffPods := CrashLoopBackOffPods st; NodeDevice := NodeDevice st;
  ForcedOSDRemoval := ForcedOSDRemoval st; KeepCephToolsPod := KeepCephToolsPod st;
  OperationalOSDIDs := OperationalOSDIDs st |}.
Definition set_Conditions cs st := {| Phase := Phase st; Conditions := cs; StartTime := StartTime st;
  CompletionTime := CompletionTime st; PendingPods := PendingPods st;
  CrashLoopBackOffPods := CrashLoopBackOffPods st; NodeDevice := NodeDevice st;
  ForcedOSDRemoval := ForcedOSDRemoval st; KeepCephToolsPod := KeepCephToolsPod st;
  OperationalOSDIDs := OperationalOSDIDs st |}.
Definition set_StartTime t st := {| Phase := Phase st; Conditions := Conditions st; StartTime := t;
  CompletionTime := CompletionTime st; PendingPods := PendingPods st;
  CrashLoopBackOffPods := CrashLoopBackOffPods st; NodeDevice := NodeDevice st;
  ForcedOSDRemoval := ForcedOSDRemoval st; KeepCephToolsPod := KeepCephToolsPod st;
  OperationalOSDIDs := OperationalOSDIDs st |}.
Definition set_CompletionTime t st := {| Phase := Phase st; Conditions := Conditions st;
  StartTime := StartTime st; CompletionTime := t; PendingPods := PendingPods st;
  CrashLoopBackOffPods := CrashLoopBackOffPods st; NodeDevice := NodeDevice st;
  ForcedOSDRemoval := ForcedOSDRemoval st; KeepCephToolsPod := KeepCephToolsPod st;
  OperationalOSDIDs := OperationalOSDIDs st |}.
Definition set_PendingPods b st := {| Phase := Phase st; Conditions := Conditions st;
  StartTime := StartTime st; CompletionTime := CompletionTime st; PendingPods := b;
  CrashLoopBackOffPods := CrashLoopBackOffPods st; NodeDevice := NodeDevice st;
  ForcedOSDRemoval := ForcedOSDRemoval st; KeepCephToolsPod := KeepCephToolsPod st;
  OperationalOSDIDs := OperationalOSDIDs st |}.
Definition set_CrashLoopBackOffPods b st := {| Phase := Phase st; Conditions := Conditions st;
  StartTime := StartTime st; CompletionTime := CompletionTime st; PendingPods := PendingPods st;
  CrashLoopBackOffPods := b; NodeDevice := NodeDevice st;
  ForcedOSDRemoval := ForcedOSDRemoval st; KeepCephToolsPod := KeepCephToolsPod st;
  OperationalOSDIDs := OperationalOSDIDs st |}.
Definition set_NodeDevice nd st := {| Phase := Phase st; Conditions := Conditions st;
  StartTime := StartTime st; CompletionTime := CompletionTime st; PendingPods := PendingPods st;
  CrashLoopBackOffPods := CrashLoopBackOffPods st; NodeDevice := nd;
  ForcedOSDRemoval := ForcedOSDRemoval st; KeepCephToolsPod := KeepCephToolsPod st;
  OperationalOSDIDs := OperationalOSDIDs st |}.
Definition set_ForcedOSDRemoval b st := {| Phase := Phase st; Conditions := Conditions st;
  StartTime := StartTime st; CompletionTime := CompletionTime st; PendingPods := PendingPods st;
  CrashLoopBackOffPods := CrashLoopBackOffPods st; NodeDevice := NodeDevice st;
  ForcedOSDRemoval := b; KeepCephToolsPod := KeepCephToolsPod st;
  OperationalOSDIDs := OperationalOSDIDs st |}.
Definition set_KeepCephToolsPod b st := {| Phase := Phase st; Conditions := Conditions st;
  StartTime := StartTime st; CompletionTime := CompletionTime st; PendingPods := PendingPods st;
  CrashLoopBackOffPods := CrashLoopBackOffPods st; NodeDevice := NodeDevice st;
  ForcedOSDRemoval := ForcedOSDRemoval st; KeepCephToolsPod := b;
  OperationalOSDIDs := OperationalOSDIDs st |}.
Definition set_OperationalOSDIDs ids st := {| Phase := Phase st; Conditions := Conditions st;
  StartTime := StartTime st; CompletionTime := CompletionTime st; PendingPods := PendingPods st;
  CrashLoopBackOffPods := CrashLoopBackOffPods st; NodeDevice := NodeDevice st;
  ForcedOSDRemoval := ForcedOSDRemoval st; KeepCephToolsPod := KeepCephToolsPod st;
  OperationalOSDIDs := ids |}.

Definition set_Status f i := {| nr_Name := nr_Name i; nr_DeletionTimestamp := nr_DeletionTimestamp i;
  nr_Status := f (nr_Status i) |}.

End Setters.

(** ** The representation of condition types is exact *)

Lemma conditionTypeString_ofString s : conditionTypeString (conditionTypeOfString s) = s.
Proof.
  unfold conditionTypeOfString.
  destruct (list_find _ _) as [[n [t u]]|] eqn:E; [|done].
  apply list_find_Some in E as (Hn & Hu & _). cbn in Hu. subst u.
  repeat (destruct n as [|n]; [by injection Hn as <- <-|]). done.
Qed.

Lemma conditionTypeOfString_string t :
  (forall s, t <> OtherConditionType s) -> conditionTypeOfString (conditionTypeString t) = t.
Proof. destruct t; intros H; try reflexivity. by destruct (H s). Qed.
