(* ===== verification/K8s.v ===== *)
(** * K8s: what the operator sees of the cluster

    Three things are here, none of which is the operator's own code:

    - the records of the Kubernetes, OpenShift, Rook and OCS objects, with the
      fields the operator reads or writes (a nil map that is written through
      is an option; reading a nil map is reading the empty one);
    - [External]: the functions, opaque types and constants of the libraries
      the operator calls, as parameters of everything that uses them;
    - [Req]: the requests the operator makes of its environment.  The client's
      [Get] and [List] fill an object and return an error: here they return
      one or the other. *)

From S2P Require Import Prelude Effects GoStd Api.

(** ** Objects *)

Abbreviation labels := (gmap string string).

Record ContainerStateWaiting := { waiting_Reason : string; waiting_Message : string }.
Record ContainerStateTerminated := { terminated_Reason : string }.

Record ContainerStatus := {
  cs_Name : string;
  cs_Waiting : option ContainerStateWaiting;
  cs_Terminated : option ContainerStateTerminated;
}.

Record Pod := {
  pod_Name : string;
  pod_Namespace : string;
  pod_Labels : labels;
  pod_DeletionTimestamp : option Time;
  pod_NodeSelector : labels;
  pod_Phase : string;
  pod_Reason : string;
  pod_InitContainerStatuses : list ContainerStatus;
  pod_ContainerStatuses : list ContainerStatus;
}.

(** [ResourceVersion] is what [Update] sends back for optimistic locking. *)
Record Node := {
  node_Name : string;
  node_ResourceVersion : string;
  node_Labels : option labels;
}.

Record PersistentVolumeClaim := { pvc_Name : string; pvc_VolumeName : string; pvc_Phase : string }.

Record PersistentVolume := { pv_Name : string; pv_Labels : labels; pv_Phase : string }.

(** [Spec.Replicas] is a [*int32]. *)
Record Deployment := {
  dep_Name : string;
  dep_ResourceVersion : string;
  dep_Labels : labels;
  dep_Replicas : option Z;
}.

Record Job := { job_Name : string; job_Namespace : string }.

Record OCSInitialization := {
  ocsinit_ResourceVersion : string;
  ocsinit_EnableCephTools : bool;
}.
Record StorageCluster := { sc_ResourceVersion : string; sc_EnableCephTools : bool }.

Record UpdateHistory := { uh_State : string; uh_Version : string }.
(** The most recent update is first. *)
Record ClusterVersion := { cv_History : list UpdateHistory }.

Record Parameter_ := { param_Name : string; param_Value : string }.

(** ** Selectors and list options *)

Record LabelSelectorRequirement := {
  lsr_Key : string;
  lsr_Operator : string;
  lsr_Values : list string;
}.

Record LabelSelector := {
  MatchLabels : labels;
  MatchExpressions : list LabelSelectorRequirement;
}.

(** ** Library code *)

Class External := {
  (** k8s.io/apimachinery: selectors and status errors *)
  Selector : Type;
  LabelSelectorAsSelector : LabelSelector -> error + Selector;
  LabelSelectorOpIn : string;
  IsNotFound : error -> bool;
  (** the method [IsZero] of [*metav1.Time], with its documentation: true of
      the nil pointer and of the zero time *)
  MetaTime_IsZero : option Time -> bool;
  MetaTime_IsZero_nil : MetaTime_IsZero None = true;
  MetaTime_IsZero_time t : MetaTime_IsZero (Some t) = Time_IsZero t;
  (** controller-runtime: [client.IgnoreNotFound], with its documentation: nil
      on NotFound errors, all other values unmodified *)
  IgnoreNotFound : option error -> option error;
  IgnoreNotFound_nil : IgnoreNotFound None = None;
  IgnoreNotFound_error e : IgnoreNotFound (Some e) = if IsNotFound e then None else Some e;
  (** k8s.io/api *)
  LabelHostname : string;
  PodPending : string;
  PodRunning : string;
  PodSucceeded : string;
  PodFailed : string;
  VolumeReleased : string;
  ClaimBound : string;
  (** kubelet, scheduler, rook, ocs-operator and openshift constants *)
  ContainerCreating : string;
  PodInitializing : string;
  NodeAffinity : string;
  OSDOverPVCLabelKey : string;
  OsdIdLabelKey : string;
  NodeAffinityKey : string;
  CompletedUpdate : string;
  (** hashicorp/go-version *)
  Version : Type;
  NewVersion : string -> error + Version;
  LessThan : Version -> Version -> bool;
  (** the error values of encoding/json for an input that is not JSON, and for
      one whose values do not have the types of the target (only their text
      is of interest) *)
  JSONSyntaxError : string -> error;
  JSONTypeError : string -> error;
  (** openshift/library-go templates: [GetParameterByName] returns a pointer
      into the template's parameters, here their index *)
  RuntimeObject : Type;
  ClientObject : Type;
  GetParameterByName : list Parameter_ -> string -> option nat;
  NewInvalidTemplate : string -> list error -> error;
  Decode : string -> error + RuntimeObject;
  asClientObject : RuntimeObject -> option ClientObject;
  formatObject : RuntimeObject -> string;
  SetNamespace : string -> ClientObject -> ClientObject;
}.

#[export] Hint Rewrite @MetaTime_IsZero_nil @MetaTime_IsZero_time
  @IgnoreNotFound_nil @IgnoreNotFound_error : odf_rw.

Section Templates.
Context `{X : External}.

Record RawExtension := { raw_Object : option RuntimeObject; raw_Raw : string }.

Record Template := {
  tmpl_Name : string;
  tmpl_Parameters : list Parameter_;
  tmpl_Objects : list RawExtension;
}.

Record ListOptions := { lo_Namespace : string; lo_LabelSelector : option Selector }.

(** The variadic options of [List]. *)
Inductive ListOption :=
| WithOptions (o : ListOptions)
| MatchingFields (m : labels)
| MatchingLabels (m : labels).

Record DeleteAllOfOptions := {
  dao_ListOptions : ListOptions;
  dao_GracePeriodSeconds : option Z;
}.

End Templates.

(** ** Requests *)

(** A Prometheus counter, by its declaration. *)
Record CounterVec := { ctr_Name : string; ctr_Help : string; ctr_LabelNames : list string }.

(** An argument of an event's message format. *)
Inductive EventArg := ArgDuration (d : Duration).

Section Requests.
Context `{X : External}.

Inductive Req : Type -> Type :=
(** the wall clock: [time.Now] and [metav1.Now] *)
| Now : Req Time
(** the order in which a [for range] visits the keys of a map *)
| RangeKeys (keys : list string) : Req (list string)
(** NodeRecovery objects *)
| GetNodeRecovery (name : string) : Req (error + NodeRecovery)
| StatusUpdate (i : NodeRecovery) : Req (option error)
(** cluster configuration *)
| GetClusterVersion (name : string) : Req (error + ClusterVersion)
| GetOCSInitialization (ns name : string) : Req (error + OCSInitialization)
| UpdateOCSInitialization (o : OCSInitialization) : Req (option error)
| GetStorageCluster (ns name : string) : Req (error + StorageCluster)
| UpdateStorageCluster (sc : StorageCluster) : Req (option error)
(** core objects *)
| GetNode (name : string) : Req (error + Node)
| UpdateNode (n : Node) : Req (option error)
| GetPVC (ns name : string) : Req (error + PersistentVolumeClaim)
| GetPV (name : string) : Req (error + PersistentVolume)
| DeletePV (pv : PersistentVolume) : Req (option error)
| ListPVs (opts : list ListOption) : Req (error + list PersistentVolume)
| ListPVCs (opts : list ListOption) : Req (error + list PersistentVolumeClaim)
| ListPods (opts : list ListOption) : Req (error + list Pod)
| DeletePod (p : Pod) : Req (option error)
| DeleteAllOfPods (o : DeleteAllOfOptions) : Req (option error)
| ListDeployments (opts : list ListOption) : Req (error + list Deployment)
| UpdateDeployment (d : Deployment) : Req (option error)
| GetJob (ns name : string) : Req (error + Job)
| DeleteJob (j : Job) : Req (option error)
(** templates: [Processor.Process] substitutes the parameters in place *)
| GetTemplate (ns name : string) : Req (error + Template)
| ProcessTemplate (seed : Z) (t : Template) : Req (Template * list error)
| Create (o : ClientObject) : Req (option error)
(** the interfaces [pod.RemoteCommandExecutor] and [podLogRetriever] *)
| RunCommand (p : Pod) (cmd : list string) : Req (string * string * option error)
| GetLogs (podName : string) : Req (error + string)
(** events and metrics *)
| Eventf (i : NodeRecovery) (eventtype reason messageFmt : string) (args : list EventArg) : Req unit
| CounterInc (c : CounterVec) (l : list (string * string)) : Req unit.

End Requests.

(** A program of the operator. *)
Abbreviation Op := (Effects.Prog Req).
