(* ===== verification/Json.v ===== *)
(** * Json: [encoding/json] as the operator uses it

    [json.Unmarshal] first checks that the whole input is one JSON value (the
    grammar of RFC 8259, at most 10000 levels deep) and then stores it into
    the target.  The parser below is that check, producing the value; the
    decoding into the operator's structs is with the struct, in Ceph.v.

    The parser is written with fuel: [parse] gives it one unit more than
    twice the length of the input, and [parse_fuel_enough] shows that is enough. *)

From Stdlib Require Import Ascii.
From S2P Require Import Prelude GoStrings.

Local Open Scope string_scope.
#[local] Arguments String.append !_ _ / : simpl nomatch.

Inductive json :=
| JNull
| JBool (b : bool)
| JNumber (lit : string)
| JString (s : string)
| JArray (vs : list json)
| JObject (ms : list (string * json)).

(** Outcome of a parser: a value and the rest of the input, a syntax error,
    or not enough fuel. *)
Inductive pres (A : Type) :=
| POk (a : A) (rest : string)
| PErr
| PFuel.
Arguments POk {A} a rest.
Arguments PErr {A}.
Arguments PFuel {A}.

Definition pbind {A B} (m : pres A) (k : A -> string -> pres B) : pres B :=
  match m with POk a r => k a r | PErr => PErr | PFuel => PFuel end.

(** ** Lexical elements *)

Definition code (c : ascii) : Z := Z.of_nat (nat_of_ascii c).
Definition byte (n : Z) : ascii := ascii_of_nat (Z.to_nat n).

Definition is_ws (c : ascii) : bool :=
  ((code c =? 32) || (code c =? 9) || (code c =? 10) || (code c =? 13))%Z.

Fixpoint skip_ws (s : string) : string :=
  match s with
  | String c r => if is_ws c then skip_ws r else s
  | EmptyString => s
  end.

Definition is_digit (c : ascii) : bool := ((48 <=? code c) && (code c <=? 57))%Z.

(** The longest run of digits, and what follows. *)
Fixpoint digits (s : string) : string * string :=
  match s with
  | String c r =>
      if is_digit c then let '(ds, r') := digits r in (String c ds, r') else ("", s)
  | EmptyString => ("", s)
  end.

(** The integer part, after the sign: [0], or a digit from 1 and more digits. *)
Definition int_part (s : string) : option (string * string) :=
  match s with
  | EmptyString => None
  | String c r =>
      if Ascii.eqb c "0" then Some ("0", r)
      else match digits s with (EmptyString, _) => None | p => Some p end
  end.

Definition frac_part (s : string) : option (string * string) :=
  match s with
  | EmptyString => Some ("", s)
  | String c r =>
      if Ascii.eqb c "." then
        match digits r with (EmptyString, _) => None | (ds, r') => Some (String c ds, r') end
      else Some ("", s)
  end.

(** An optional sign among those given. *)
Definition sign (allowed : list ascii) (s : string) : string * string :=
  match s with
  | EmptyString => ("", s)
  | String c r => if bool_decide (c ∈ allowed) then (String c "", r) else ("", s)
  end.

Definition exp_part (s : string) : option (string * string) :=
  match s with
  | EmptyString => Some ("", s)
  | String c r =>
      if Ascii.eqb c "e" || Ascii.eqb c "E" then
        let '(sg, r1) := sign ["+"; "-"]%char r in
        match digits r1 with
        | (EmptyString, _) => None
        | (ds, r2) => Some (String c (sg ++ ds), r2)
        end
      else Some ("", s)
  end.

Definition number (s : string) : option (string * string) :=
  let '(sg, s1) := sign ["-"]%char s in
  match int_part s1 with
  | None => None
  | Some (i, s2) =>
      match frac_part s2 with
      | None => None
      | Some (f, s3) =>
          match exp_part s3 with
          | None => None
          | Some (e, s4) => Some (sg ++ i ++ f ++ e, s4)
          end
      end
  end.

(** *** Strings *)

Definition hexval (c : ascii) : option Z :=
  let n := code c in
  if ((48 <=? n) && (n <=? 57))%Z then Some (n - 48)%Z
  else if ((97 <=? n) && (n <=? 102))%Z then Some (n - 87)%Z
  else if ((65 <=? n) && (n <=? 70))%Z then Some (n - 55)%Z
  else None.

Definition hex4 (a b c d : ascii) : option Z :=
  w ← hexval a; x ← hexval b; y ← hexval c; z ← hexval d;
  Some (((w * 16 + x) * 16 + y) * 16 + z)%Z.

(** U+FFFD, which replaces what is not valid UTF-8 or UTF-16. *)
Definition replacement : string :=
  String (byte 239) (String (byte 191) (String (byte 189) "")).

(** [utf8.EncodeRune] on a code point that is not a surrogate. *)
Definition encode_rune (r : Z) : string :=
  (if r <? 128 then String (byte r) ""
   else if r <? 2048 then
     String (byte (192 + r / 64)) (String (byte (128 + r mod 64)) "")
   else if r <? 65536 then
     String (byte (224 + r / 4096)) (String (byte (128 + (r / 64) mod 64))
       (String (byte (128 + r mod 64)) ""))
   else
     String (byte (240 + r / 262144)) (String (byte (128 + (r / 4096) mod 64))
       (String (byte (128 + (r / 64) mod 64)) (String (byte (128 + r mod 64)) ""))))%Z.

Definition high_surrogate (r : Z) : bool := ((55296 <=? r) && (r <? 56320))%Z.
Definition low_surrogate (r : Z) : bool := ((56320 <=? r) && (r <? 57344))%Z.

Definition in_range (lo hi : Z) (c : ascii) : bool := ((lo <=? code c) && (code c <=? hi))%Z.
Definition cont : ascii -> bool := in_range 128 191.

(** The multi-byte sequences [utf8.DecodeRune] accepts. *)
Definition utf8_2 (a b : ascii) : bool := in_range 194 223 a && cont b.
Definition utf8_3 (a b c : ascii) : bool :=
  cont c &&
  ((in_range 224 224 a && in_range 160 191 b) || (in_range 225 236 a && cont b)
   || (in_range 237 237 a && in_range 128 159 b) || (in_range 238 239 a && cont b)).
Definition utf8_4 (a b c d : ascii) : bool :=
  cont c && cont d &&
  ((in_range 240 240 a && in_range 144 191 b) || (in_range 241 243 a && cont b)
   || (in_range 244 244 a && in_range 128 143 b)).

Definition simple_escape (c : ascii) : option ascii :=
  match c with
  | "034" => Some "034" | "092" => Some "092" | "/" => Some "/"
  | "b" => Some "008" | "f" => Some "012" | "n" => Some "010"
  | "r" => Some "013" | "t" => Some "009"
  | _ => None
  end%char.

Definition quote : ascii := "034".
Definition backslash : ascii := "092".

(** Puts [pre] before the text of a parsed remainder. *)
Definition prepend (pre : string) (m : option (string * string)) : option (string * string) :=
  match m with Some (t, rest) => Some (pre ++ t, rest) | None => None end.

(** The characters of a string after its opening quote: the unquoted text and
    the input after the closing quote.  Bytes that do not start a valid UTF-8
    sequence, and surrogates without a partner, become U+FFFD. *)
Fixpoint str_body (s : string) : option (string * string) :=
  match s with
  | EmptyString => None
  | String a r =>
      if Ascii.eqb a quote then Some ("", r)
      else if Ascii.eqb a backslash then
        match r with
        | EmptyString => None
        | String e r1 =>
            if Ascii.eqb e "u" then
              match r1 with
              | String a0 (String a1 (String a2 (String a3 r2))) =>
                  match hex4 a0 a1 a2 a3 with
                  | None => None
                  | Some u =>
                      if high_surrogate u then
                        match r2 with
                        | String x (String y (String b0 (String b1 (String b2 (String b3 r3))))) =>
                            if Ascii.eqb x backslash && Ascii.eqb y "u" then
                              match hex4 b0 b1 b2 b3 with
                              | None => None
                              | Some v =>
                                  if low_surrogate v then
                                    prepend (encode_rune (65536 + (u - 55296) * 1024 + (v - 56320))%Z)
                                      (str_body r3)
                                  else prepend replacement (str_body r2)
                              end
                            else prepend replacement (str_body r2)
                        | _ => prepend replacement (str_body r2)
                        end
                      else prepend (if low_surrogate u then replacement else encode_rune u)
                             (str_body r2)
                  end
              | _ => None
              end
            else
              match simple_escape e with
              | None => None
              | Some c => prepend (String c "") (str_body r1)
              end
        end
      else if (code a <? 32)%Z then None
      else if (code a <? 128)%Z then prepend (String a "") (str_body r)
      else
        match r with
        | String b r2 =>
            if utf8_2 a b then prepend (String a (String b "")) (str_body r2)
            else
              match r2 with
              | String c r3 =>
                  if utf8_3 a b c then
                    prepend (String a (String b (String c ""))) (str_body r3)
                  else
                    match r3 with
                    | String d r4 =>
                        if utf8_4 a b c d then
                          prepend (String a (String b (String c (String d "")))) (str_body r4)
                        else prepend replacement (str_body r)
                    | EmptyString => prepend replacement (str_body r)
                    end
              | EmptyString => prepend replacement (str_body r)
              end
        | EmptyString => None
        end
  end.

(** The rest of a literal such as [true]. *)
Fixpoint expect (lit s : string) : option string :=
  match lit, s with
  | EmptyString, _ => Some s
  | String c lit', String d s' => if Ascii.eqb c d then expect lit' s' else None
  | _, EmptyString => None
  end.

Definition of_option {A} (o : option (A * string)) : pres A :=
  match o with Some (a, r) => POk a r | None => PErr end.

Definition lit {A} (l : string) (v : A) (s : string) : pres A :=
  match expect l s with Some r => POk v r | None => PErr end.

(** ** Values

    [maxNestingDepth] is 10000; [d] counts the arrays and objects around the
    value. *)
Definition maxNestingDepth : Z := 10000.

Fixpoint p_value (n : nat) (d : Z) (s : string) {struct n} : pres json :=
  match n with
  | O => PFuel
  | S n =>
      match skip_ws s with
      | EmptyString => PErr
      | String c r =>
          if Ascii.eqb c "{" then
            if (maxNestingDepth <? d + 1)%Z then PErr
            else
              match skip_ws r with
              | EmptyString => PErr
              | String c' r' =>
                  if Ascii.eqb c' "}" then POk (JObject []) r'
                  else pbind (p_members n (d + 1)%Z (String c' r'))
                         (fun ms r2 => POk (JObject ms) r2)
              end
          else if Ascii.eqb c "[" then
            if (maxNestingDepth <? d + 1)%Z then PErr
            else
              match skip_ws r with
              | EmptyString => PErr
              | String c' r' =>
                  if Ascii.eqb c' "]" then POk (JArray []) r'
                  else pbind (p_elems n (d + 1)%Z (String c' r'))
                         (fun vs r2 => POk (JArray vs) r2)
              end
          else if Ascii.eqb c quote then
            pbind (of_option (str_body r)) (fun t r' => POk (JString t) r')
          else if Ascii.eqb c "t" then lit "rue" (JBool true) r
          else if Ascii.eqb c "f" then lit "alse" (JBool false) r
          else if Ascii.eqb c "n" then lit "ull" JNull r
          else pbind (of_option (number (String c r))) (fun l r' => POk (JNumber l) r')
      end
  end
with p_members (n : nat) (d : Z) (s : string) {struct n} : pres (list (string * json)) :=
  match n with
  | O => PFuel
  | S n =>
      match skip_ws s with
      | EmptyString => PErr
      | String c r =>
          if Ascii.eqb c quote then
            pbind (of_option (str_body r)) (fun key r1 =>
            match skip_ws r1 with
            | EmptyString => PErr
            | String c1 r2 =>
                if Ascii.eqb c1 ":" then
                  pbind (p_value n d r2) (fun v r3 =>
                  match skip_ws r3 with
                  | EmptyString => PErr
                  | String c2 r4 =>
                      if Ascii.eqb c2 "," then
                        pbind (p_members n d r4) (fun ms r5 => POk ((key, v) :: ms) r5)
                      else if Ascii.eqb c2 "}" then POk [(key, v)] r4
                      else PErr
                  end)
                else PErr
            end)
          else PErr
      end
  end
with p_elems (n : nat) (d : Z) (s : string) {struct n} : pres (list json) :=
  match n with
  | O => PFuel
  | S n =>
      pbind (p_value n d s) (fun v r3 =>
      match skip_ws r3 with
      | EmptyString => PErr
      | String c2 r4 =>
          if Ascii.eqb c2 "," then
            pbind (p_elems n d r4) (fun vs r5 => POk (v :: vs) r5)
          else if Ascii.eqb c2 "]" then POk [v] r4
          else PErr
      end)
  end.

(** The whole input: one value and white space. *)
Definition parse (s : string) : option json :=
  match p_value (S (2 * String.length s)) 0 s with
  | POk v r => match skip_ws r with EmptyString => Some v | _ => None end
  | _ => None
  end.

(** ** Progress: every parser consumes input *)

Abbreviation len := String.length.

Lemma skip_ws_len s : (len (skip_ws s) <= len s)%nat.
Proof. induction s as [|c r IH]; cbn; [lia|]. destruct (is_ws c); cbn; lia. Qed.

Lemma skip_ws_cons s c r : skip_ws s = String c r -> (len r < len s)%nat.
Proof. intros H. pose proof (skip_ws_len s). rewrite H in *. cbn in *. lia. Qed.

Lemma digits_len s ds r : digits s = (ds, r) -> len s = (len ds + len r)%nat.
Proof.
  revert ds r. induction s as [|c s IH]; intros ds r; cbn; [by intros [= <- <-]|].
  destruct (is_digit c); [|by intros [= <- <-]].
  destruct (digits s) as [ds' r'] eqn:E. intros [= <- <-]. cbn. by rewrite (IH ds' r').
Qed.

Lemma prepend_Some p m t r :
  prepend p m = Some (t, r) -> exists t', m = Some (t', r) /\ t = p ++ t'.
Proof. destruct m as [[t' r']|]; cbn; [|done]. intros [= <- <-]. eauto. Qed.

(** Splits a hypothesis [match ... = Some _] into its branches. *)
Ltac branches H :=
  repeat (case_match; simplify_eq/=; try discriminate H).

Lemma str_body_len s t r : str_body s = Some (t, r) -> (len r < len s)%nat.
Proof.
  remember (len s) as n eqn:Hn. revert s t r Hn.
  induction (lt_wf n) as [n _ IH]. intros s t r -> H.
  assert (forall s' p, (len s' < len s)%nat -> prepend p (str_body s') = Some (t, r) ->
            (len r < len s)%nat) as Hrec.
  { intros s' p Hlt (t' & Ht' & _)%prepend_Some. pose proof (IH _ Hlt s' t' r eq_refl Ht'). lia. }
  clear IH. destruct s as [|a s]; [done|]. cbn [str_body] in H.
  repeat case_match; simplify_eq; try (cbn; lia);
    (eapply Hrec; [|exact H]); cbn; lia.
Qed.

Lemma int_part_len s i r : int_part s = Some (i, r) -> (len r < len s)%nat.
Proof.
  destruct s as [|c s]; [done|]. unfold int_part. destruct (Ascii.eqb c "0").
  - intros [= <- <-]. cbn; lia.
  - destruct (digits (String c s)) as [ds r'] eqn:E. apply digits_len in E.
    destruct ds; [done|]. intros [= <- <-]. cbn in *; lia.
Qed.

Lemma frac_part_len s f r : frac_part s = Some (f, r) -> (len r <= len s)%nat.
Proof.
  destruct s as [|c s]; cbn; [by intros [= <- <-]|].
  destruct (Ascii.eqb c "."); [|by intros [= <- <-]].
  destruct (digits s) as [ds r'] eqn:E. apply digits_len in E.
  destruct ds; [done|]. intros [= <- <-]. cbn in *; lia.
Qed.

Lemma sign_len l s sg r : sign l s = (sg, r) -> (len r <= len s)%nat.
Proof.
  destruct s as [|c s]; cbn; [by intros [= <- <-]|].
  case_bool_decide; intros [= <- <-]; cbn; lia.
Qed.

Lemma exp_part_len s e r : exp_part s = Some (e, r) -> (len r <= len s)%nat.
Proof.
  destruct s as [|c s]; cbn [exp_part]; [by intros [= <- <-]|].
  destruct (_ || _); [|by intros [= <- <-]].
  destruct (sign _ s) as [sg r1] eqn:Es. apply sign_len in Es.
  destruct (digits r1) as [ds r2] eqn:E. apply digits_len in E.
  destruct ds; [done|]. intros [= <- <-]. cbn in *; lia.
Qed.

Lemma number_len s l r : number s = Some (l, r) -> (len r < len s)%nat.
Proof.
  unfold number. destruct (sign _ s) as [sg s1] eqn:Es. apply sign_len in Es.
  destruct (int_part s1) as [[i s2]|] eqn:Ei; [|done]. apply int_part_len in Ei.
  destruct (frac_part s2) as [[f s3]|] eqn:Ef; [|done]. apply frac_part_len in Ef.
  destruct (exp_part s3) as [[e s4]|] eqn:Ee; [|done]. apply exp_part_len in Ee.
  intros [= <- <-]. lia.
Qed.

Lemma expect_len l s r : expect l s = Some r -> (len r <= len s)%nat.
Proof.
  revert s. induction l as [|c l IH]; intros [|d s]; cbn; try done; try (intros [= <-]; cbn; lia).
  destruct (Ascii.eqb c d); [|done]. intros H%IH. lia.
Qed.

(** A parser result is fine with respect to a bound on the remaining input:
    fuel was not exhausted and the rest is shorter than the bound. *)
Definition progress {A} (b : nat) (m : pres A) : Prop :=
  match m with POk _ r => (len r < b)%nat | PErr => True | PFuel => False end.

Lemma progress_bind {A B} b b' (m : pres A) (k : A -> string -> pres B) :
  progress b m -> (forall a r, (len r < b)%nat -> progress b' (k a r)) -> progress b' (pbind m k).
Proof. destruct m; cbn; auto. Qed.

Lemma progress_mono {A} b b' (m : pres A) : progress b m -> (b <= b')%nat -> progress b' m.
Proof. destruct m; cbn; auto with lia. Qed.

Lemma progress_str {b s} : (len s <= b)%nat -> progress b (of_option (str_body s)).
Proof.
  destruct (str_body s) as [[t r]|] eqn:E; cbn; [|done]. apply str_body_len in E. lia.
Qed.

Lemma progress_number {b s} : (len s <= b)%nat -> progress b (of_option (number s)).
Proof.
  destruct (number s) as [[t r]|] eqn:E; cbn; [|done]. apply number_len in E. lia.
Qed.

Lemma progress_lit {A} b l (v : A) s : (len s < b)%nat -> progress b (lit l v s).
Proof.
  unfold lit. destruct (expect l s) as [r|] eqn:E; cbn; [|done]. apply expect_len in E. lia.
Qed.

(** Case analysis on the next character after white space. *)
Ltac next_char :=
  match goal with
  | |- progress _ (match skip_ws ?s with _ => _ end) =>
      let E := fresh "E" in let c := fresh "c" in let r := fresh "r" in
      destruct (skip_ws s) as [|c r] eqn:E; [exact I|]; apply skip_ws_cons in E
  | |- progress _ (if ?b then _ else _) => destruct b
  end.

Lemma parsers_progress n :
  (forall d s, (2 * len s < n)%nat -> progress (len s) (p_value n d s)) /\
  (forall d s, (2 * len s < n)%nat -> progress (len s) (p_members n d s)) /\
  (forall d s, (2 * len s + 1 < n)%nat -> progress (len s) (p_elems n d s)).
Proof.
  induction n as [|n (IHv & IHm & IHe)]; [split_and!; lia|]. split_and!; intros d s Hn; cbn.
  - repeat next_char; try exact I; cbn in *; try lia.
    + eapply progress_bind; [apply IHm; cbn; lia|]. cbn; lia.
    + eapply progress_bind; [apply IHe; cbn; lia|]. cbn; lia.
    + eapply progress_bind; [by apply progress_str|]. cbn; lia.
    + by apply progress_lit.
    + by apply progress_lit.
    + by apply progress_lit.
    + eapply progress_bind; [by apply progress_number|]. cbn; lia.
  - repeat next_char; try exact I.
    eapply progress_bind; [by apply progress_str|]. intros key r1 Hr1.
    repeat next_char; try exact I.
    eapply progress_bind; [apply IHv; lia|]. intros v r3 Hr3.
    repeat next_char; try exact I; [|cbn; lia].
    eapply progress_bind; [apply IHm; lia|]. cbn; lia.
  - eapply progress_bind; [apply IHv; lia|]. intros v r3 Hr3.
    repeat next_char; try exact I; [|cbn; lia].
    eapply progress_bind; [apply IHe; lia|]. cbn; lia.
Qed.

(** ** More fuel changes nothing *)

Definition refines {A} (m m' : pres A) : Prop := m = PFuel \/ m' = m.

Lemma refines_refl {A} (m : pres A) : refines m m.
Proof. by right. Qed.

Lemma refines_bind {A B} (m m' : pres A) (k k' : A -> string -> pres B) :
  refines m m' -> (forall a r, refines (k a r) (k' a r)) -> refines (pbind m k) (pbind m' k').
Proof. intros [->| ->] Hk; [by left|]. destruct m; cbn; [apply Hk|by right|by left]. Qed.

Ltac same_char :=
  match goal with
  | |- refines ?m ?m => apply refines_refl
  | |- refines (pbind _ _) (pbind _ _) => apply refines_bind; [auto using refines_refl|intros ? ?]
  | |- refines (match skip_ws ?s with _ => _ end) _ => destruct (skip_ws s)
  | |- refines (if ?b then _ else _) _ => destruct b
  end.

Lemma parsers_fuel n :
  (forall d s, refines (p_value n d s) (p_value (S n) d s)) /\
  (forall d s, refines (p_members n d s) (p_members (S n) d s)) /\
  (forall d s, refines (p_elems n d s) (p_elems (S n) d s)).
Proof.
  induction n as [|n (IHv & IHm & IHe)]; [split_and!; intros; by left|].
  split_and!; intros d s.
  - change (refines (p_value (S n) d s) (p_value (S (S n)) d s)).
    unfold p_value at 1 2; fold p_value p_members p_elems. repeat same_char.
  - change (refines (p_members (S n) d s) (p_members (S (S n)) d s)).
    unfold p_members at 1 2; fold p_value p_members p_elems. repeat same_char.
  - change (refines (p_elems (S n) d s) (p_elems (S (S n)) d s)).
    unfold p_elems at 1 2; fold p_value p_members p_elems. repeat same_char.
Qed.

(** ** Printing, and the round trip *)

Definition hexdigit (n : Z) : ascii := byte (if n <? 10 then 48 + n else 87 + n)%Z.

Definition escape_char (c : ascii) : string :=
  if Ascii.eqb c quote || Ascii.eqb c backslash then String backslash (String c "")
  else if (code c <? 32)%Z then
    String backslash ("u00" ++ String (hexdigit (code c / 16)) (String (hexdigit (code c mod 16)) ""))
  else String c "".

Fixpoint escape (s : string) : string :=
  match s with EmptyString => "" | String c r => escape_char c ++ escape r end.

Definition print_string (s : string) : string := String quote (escape s ++ String quote "").

Section PrintList.
Context {A : Type} (pr : A -> string) (close : ascii).

(** The elements, comma separated, and the closing bracket. *)
Fixpoint print_seq (xs : list A) : string :=
  match xs with
  | [] => String close ""
  | [x] => pr x ++ String close ""
  | x :: xs' => pr x ++ String "," (print_seq xs')
  end.

End PrintList.

Fixpoint print (v : json) : string :=
  match v with
  | JNull => "null"
  | JBool true => "true"
  | JBool false => "false"
  | JNumber l => l
  | JString s => print_string s
  | JArray vs => String "[" (print_seq print "]" vs)
  | JObject ms =>
      String "{" (print_seq (fun m => print_string m.1 ++ String ":" (print m.2)) "}" ms)
  end.

Definition ascii_string (s : string) : Prop := Forall (fun c => code c < 128)%Z (bytes s).

Definition maxl : list Z -> Z := foldr Z.max 0%Z.

Fixpoint depth (v : json) : Z :=
  match v with
  | JArray vs => 1 + maxl (map depth vs)
  | JObject ms => 1 + maxl (map (fun m => depth m.2) ms)
  | _ => 0
  end%Z.

(** ASCII text and well-formed number literals. *)
Fixpoint good (v : json) : Prop :=
  match v with
  | JNumber l => number l = Some (l, "")
  | JString s => ascii_string s
  | JArray vs => foldr (fun v P => good v /\ P) True vs
  | JObject ms => foldr (fun m P => (ascii_string m.1 /\ good m.2) /\ P) True ms
  | _ => True
  end.

Section Induction.
Context (P : json -> Prop).
Context (Hnull : P JNull) (Hbool : forall b, P (JBool b)) (Hnum : forall l, P (JNumber l))
  (Hstr : forall s, P (JString s)) (Harr : forall vs, Forall P vs -> P (JArray vs))
  (Hobj : forall ms, Forall (fun m => P m.2) ms -> P (JObject ms)).

Fixpoint json_nested_ind (v : json) : P v :=
  match v with
  | JNull => Hnull
  | JBool b => Hbool b
  | JNumber l => Hnum l
  | JString s => Hstr s
  | JArray vs => Harr vs ((fix go vs := match vs return Forall P vs with
      | [] => Forall_nil_2 _ | v :: vs' => Forall_cons_2 _ _ _ (json_nested_ind v) (go vs') end) vs)
  | JObject ms => Hobj ms ((fix go ms := match ms return Forall (fun m => P m.2) ms with
      | [] => Forall_nil_2 _ | m :: ms' => Forall_cons_2 _ _ _ (json_nested_ind m.2) (go ms') end) ms)
  end.

End Induction.

(** What may follow a value. *)
Definition delimited (s : string) : Prop :=
  match s with
  | EmptyString => True
  | String c _ => c = ","%char \/ c = "]"%char \/ c = "}"%char \/ is_ws c = true
  end.

(** *** Strings *)

Lemma str_body_escape_char c s :
  (code c < 128)%Z -> str_body (escape_char c ++ s) = prepend (String c "") (str_body s).
Proof. by destruct c as [[] [] [] [] [] [] [] []]. Qed.

Lemma str_body_escape s rest :
  ascii_string s -> str_body (escape s ++ String quote rest) = Some (s, rest).
Proof.
  induction s as [|c s IH]; intros Hs; [done|]. apply Forall_cons in Hs as [Hc Hs].
  cbn [escape]. rewrite <- append_assoc, str_body_escape_char by done.
  by rewrite IH.
Qed.

(** *** Numbers *)

(** A string whose first character continues no number. *)
Definition stops (s : string) : Prop :=
  match s with
  | EmptyString => True
  | String c _ => is_digit c = false /\ c <> "."%char /\ c <> "e"%char /\ c <> "E"%char
  end.

Lemma delimited_stops s : delimited s -> stops s.
Proof.
  destruct s as [|c s]; [done|]. intros [->|[->|[->|H]]]; cbn; [by split_and!..|].
  destruct c as [[] [] [] [] [] [] [] []]; try discriminate H; by split_and!.
Qed.

Lemma digits_app s ds r rest :
  stops rest -> digits s = (ds, r) -> digits (s ++ rest) = (ds, r ++ rest).
Proof.
  intros Hst. revert ds r. induction s as [|c s IH]; intros ds r; cbn.
  - intros [= <- <-]. destruct rest as [|c rest]; [done|]. destruct Hst as (Hd & _). cbn. by rewrite Hd.
  - destruct (is_digit c); [|by intros [= <- <-]].
    destruct (digits s) as [ds' r'] eqn:E. intros [= <- <-]. by rewrite (IH ds' r').
Qed.

Lemma int_part_app s i r rest :
  stops rest -> int_part s = Some (i, r) -> int_part (s ++ rest) = Some (i, r ++ rest).
Proof.
  intros Hst. destruct s as [|c s]; [done|].
  change (String c s ++ rest) with (String c (s ++ rest)). unfold int_part.
  destruct (Ascii.eqb c "0"); [by intros [= <- <-]|].
  destruct (digits (String c s)) as [ds r'] eqn:E. apply (digits_app _ _ _ rest) in E; [|done].
  cbn [String.append] in E. rewrite E. destruct ds; [done|]. by intros [= <- <-].
Qed.

Lemma frac_part_app s f r rest :
  stops rest -> frac_part s = Some (f, r) -> frac_part (s ++ rest) = Some (f, r ++ rest).
Proof.
  intros Hst. destruct s as [|c s].
  - intros [= <- <-]. destruct rest as [|c rest]; [done|]. destruct Hst as (_ & Hd & _). cbn.
    by rewrite (proj2 (Ascii.eqb_neq c "."%char) Hd).
  - cbn. destruct (Ascii.eqb c "."); [|by intros [= <- <-]].
    destruct (digits s) as [ds r'] eqn:E. apply (digits_app _ _ _ rest) in E; [|done].
    rewrite E. destruct ds; [done|]. by intros [= <- <-].
Qed.

Lemma sign_app l s sg r rest :
  s <> "" -> sign l s = (sg, r) -> sign l (s ++ rest) = (sg, r ++ rest).
Proof. destruct s as [|c s]; [done|]. intros _. cbn. case_bool_decide; by intros [= <- <-]. Qed.

Lemma exp_part_app s e r rest :
  stops rest -> exp_part s = Some (e, r) -> exp_part (s ++ rest) = Some (e, r ++ rest).
Proof.
  intros Hst. destruct s as [|c s].
  - intros [= <- <-]. destruct rest as [|c rest]; [done|].
    destruct Hst as (_ & _ & He & HE). cbn.
    by rewrite (proj2 (Ascii.eqb_neq c "e"%char) He), (proj2 (Ascii.eqb_neq c "E"%char) HE).
  - cbn [exp_part String.append].
    destruct (_ || _); [|by intros [= <- <-]].
    destruct s as [|c' s]; [done|].
    destruct (sign _ (String c' s)) as [sg r1] eqn:Es.
    apply (sign_app _ _ _ _ rest) in Es; [|done]. rewrite Es.
    destruct (digits r1) as [ds r2] eqn:E. apply (digits_app _ _ _ rest) in E; [|done].
    rewrite E. destruct ds; [done|]. by intros [= <- <-].
Qed.

Lemma number_app l rest : stops rest -> number l = Some (l, "") -> number (l ++ rest) = Some (l, rest).
Proof.
  intros Hst. destruct l as [|c l]; [done|]. unfold number.
  destruct (sign ["-"%char] (String c l)) as [sg s1] eqn:Es.
  apply (sign_app _ _ _ _ rest) in Es; [|done]. rewrite Es.
  destruct (int_part s1) as [[i s2]|] eqn:Ei; [|done].
  rewrite (int_part_app _ _ _ _ Hst Ei).
  destruct (frac_part s2) as [[f s3]|] eqn:Ef; [|done].
  rewrite (frac_part_app _ _ _ _ Hst Ef).
  destruct (exp_part s3) as [[e s4]|] eqn:Ee; [|done].
  rewrite (exp_part_app _ _ _ _ Hst Ee). by intros [= -> ->].
Qed.

(** The first character of a number, so that the parser reaches [number]. *)
Definition num_start (c : ascii) : Prop := c = "-"%char \/ is_digit c = true.

Lemma number_start l : number l = Some (l, "") -> exists c r, l = String c r /\ num_start c.
Proof.
  destruct l as [|c l]; [done|]. intros H. exists c, l. split; [done|].
  unfold number in H. cbn [sign] in H. case_bool_decide as Hc.
  - left. set_solver.
  - right. unfold int_part in H. destruct (Ascii.eqb_spec c "0") as [->|]; [done|].
    cbn [digits] in H. by destruct (is_digit c).
Qed.

(** *** Values *)

Lemma len_app a b : len (a ++ b) = (len a + len b)%nat.
Proof. induction a; cbn; lia. Qed.

Lemma skip_ws_id c r : is_ws c = false -> skip_ws (String c r) = String c r.
Proof. cbn. by intros ->. Qed.

Definition reads (v : json) : Prop := forall n d rest,
  delimited rest -> (d + depth v <= maxNestingDepth)%Z ->
  (2 * len (print v ++ rest)%string < n)%nat -> p_value n d (print v ++ rest) = POk v rest.

Lemma num_start_tests c :
  num_start c ->
  is_ws c = false /\ Ascii.eqb c "{" = false /\ Ascii.eqb c "[" = false /\
  Ascii.eqb c quote = false /\ Ascii.eqb c "t" = false /\ Ascii.eqb c "f" = false /\
  Ascii.eqb c "n" = false /\ c <> "]"%char.
Proof.
  intros [->|H]; [by split_and!|].
  destruct c as [[] [] [] [] [] [] [] []]; try discriminate H; by split_and!.
Qed.

Lemma print_start v :
  good v -> exists c r, print v = String c r /\ is_ws c = false /\ c <> "]"%char.
Proof.
  destruct v as [|[]|l|s|vs|ms]; cbn; intros Hg; eauto 10.
  destruct (number_start l Hg) as (c & r & -> & Hc).
  destruct (num_start_tests c Hc) as (? & _ & _ & _ & _ & _ & _ & ?). eauto.
Qed.

Lemma maxl_ge x xs : x ∈ xs -> (x <= maxl xs)%Z.
Proof. induction 1 as [x xs|x y xs _ IH]; cbn; lia. Qed.

Lemma maxl_nonneg xs : (0 <= maxl xs)%Z.
Proof. induction xs; cbn; lia. Qed.

Lemma p_elems_print vs n d rest :
  vs <> [] -> Forall (fun v => good v /\ reads v /\ (d + depth v <= maxNestingDepth)%Z) vs ->
  (2 * len (print_seq print "]" vs ++ rest)%string + 1 < n)%nat ->
  p_elems n d (print_seq print "]" vs ++ rest) = POk vs rest.
Proof.
  intros Hne Hvs. revert n. induction Hvs as [|v vs (Hg & Hr & Hd) Hvs IH]; intros n Hn; [done|].
  destruct n as [|n]; [lia|].
  destruct vs as [|v' vs]; cbn [print_seq] in *; rewrite <- append_assoc in *; cbn [p_elems].
  - rewrite Hr; [done|cbn; tauto|done|lia].
  - rewrite Hr; [|cbn; tauto|done|lia]. cbn [pbind String.append].
    rewrite skip_ws_id by done. cbn [Ascii.eqb Bool.eqb].
    rewrite IH; [done|done|]. rewrite len_app in Hn. cbn [String.append len] in Hn. lia.
Qed.

Lemma p_members_print ms n d rest :
  ms <> [] ->
  Forall (fun m => ascii_string m.1 /\ reads m.2 /\ (d + depth m.2 <= maxNestingDepth)%Z) ms ->
  (2 * len (print_seq (fun m => print_string m.1 ++ String ":" (print m.2)) "}" ms ++ rest)%string < n)%nat ->
  p_members n d (print_seq (fun m => print_string m.1 ++ String ":" (print m.2)) "}" ms ++ rest)
    = POk ms rest.
Proof.
  intros Hne Hms. revert n. induction Hms as [|[k v] ms (Hk & Hr & Hd) Hms IH]; intros n Hn; [done|].
  destruct n as [|n]; [lia|]. cbn [fst snd] in *.
  destruct ms as [|m' ms]; cbn [print_seq fst snd] in *; unfold print_string in *;
    repeat (rewrite <- append_assoc in * || cbn [String.append] in * );
    cbn [p_members]; rewrite skip_ws_id by done; cbn [quote Ascii.eqb Bool.eqb];
    rewrite str_body_escape by done; cbn [of_option pbind];
    rewrite skip_ws_id by done; cbn [Ascii.eqb Bool.eqb];
    cbn [len] in Hn; rewrite len_app in Hn; cbn [len] in Hn; rewrite ?len_app in Hn.
  - rewrite Hr; [done|cbn; tauto|done|rewrite len_app; lia].
  - rewrite Hr; [|cbn; tauto|done|rewrite len_app; lia]. cbn [pbind].
    rewrite skip_ws_id by done. cbn [Ascii.eqb Bool.eqb].
    rewrite IH; [done|done|]. cbn [len] in Hn. lia.
Qed.

Lemma good_elems vs : good (JArray vs) -> Forall good vs.
Proof. induction vs as [|v vs IH]; cbn; [constructor|]. intros [? ?]. constructor; auto. Qed.

Lemma good_members ms : good (JObject ms) -> Forall (fun m => ascii_string m.1 /\ good m.2) ms.
Proof. induction ms as [|m ms IH]; cbn; [constructor|]. intros [? ?]. constructor; auto. Qed.

Lemma p_value_number n d l rest :
  number l = Some (l, "") -> stops rest -> p_value (S n) d (l ++ rest) = POk (JNumber l) rest.
Proof.
  intros Hl Hst. destruct (number_start l Hl) as (c & r & Hc & Hs).
  destruct (num_start_tests c Hs) as (Hw & H1 & H2 & H3 & H4 & H5 & H6 & _).
  pose proof (number_app l rest Hst Hl) as Hn. subst l. cbn [String.append p_value] in *.
  rewrite skip_ws_id by done. by rewrite H1, H2, H3, H4, H5, H6, Hn.
Qed.

Lemma print_reads v : good v -> reads v.
Proof.
  induction v as [|b|l|s|vs IH|ms IH] using json_nested_ind; intros Hg n d rest Hd Hdep Hn;
    (destruct n as [|n]; [lia|]).
  - done.
  - by destruct b.
  - apply p_value_number; [done|by apply delimited_stops].
  - cbn [print]. unfold print_string. cbn [String.append p_value].
    rewrite <- append_assoc, skip_ws_id by done. cbn [quote Ascii.eqb Bool.eqb String.append].
    by rewrite str_body_escape.
  - cbn [print depth String.append p_value] in *. rewrite skip_ws_id by done.
    cbn [Ascii.eqb Bool.eqb]. destruct vs as [|v vs].
    { cbn in *. by rewrite (proj2 (Z.ltb_ge _ _)) by lia. }
    pose proof (maxl_nonneg (map depth (v :: vs))).
    rewrite (proj2 (Z.ltb_ge _ _)) by lia.
    apply good_elems in Hg. rewrite Forall_forall in *.
    assert (exists c r, print_seq print "]" (v :: vs) ++ rest = String c r
              /\ is_ws c = false /\ Ascii.eqb c "]" = false) as (c & r & E & Hw & Hc).
    { destruct (print_start v) as (c & r & Hp & Hw & Hc); [apply Hg; set_solver|].
      apply Ascii.eqb_neq in Hc. exists c.
      destruct vs; cbn [print_seq]; rewrite Hp; eexists; split_and!; eauto. }
    pose proof (skip_ws_id _ r Hw) as Hsk. rewrite <- E in Hsk. rewrite Hsk, E, Hc, <- E.
    rewrite p_elems_print; [done|done| |cbn [len] in Hn; lia].
    apply Forall_forall. intros x Hx. split_and!; [by apply Hg|by apply IH, Hg|].
    pose proof (maxl_ge (depth x) (map depth (v :: vs))) as Hmax.
    rewrite list_elem_of_In in Hmax. specialize (Hmax (in_map _ _ _ (proj1 (list_elem_of_In _ _) Hx))). lia.
  - cbn [print depth String.append p_value] in *. rewrite skip_ws_id by done.
    cbn [Ascii.eqb Bool.eqb]. destruct ms as [|m ms].
    { cbn in *. by rewrite (proj2 (Z.ltb_ge _ _)) by lia. }
    pose proof (maxl_nonneg (map (fun m => depth m.2) (m :: ms))).
    rewrite (proj2 (Z.ltb_ge _ _)) by lia.
    apply good_members in Hg. rewrite Forall_forall in *.
    set (body := print_seq _ "}"%char (m :: ms)) in *.
    assert (exists r, body ++ rest = String quote r) as [r E].
    { subst body. destruct ms; cbn; eauto. }
    pose proof (skip_ws_id quote r eq_refl) as Hsk. rewrite <- E in Hsk.
    rewrite Hsk, E. cbn [quote Ascii.eqb Bool.eqb]. fold quote. rewrite <- E. subst body.
    rewrite p_members_print; [done|done| |cbn [len] in Hn; lia].
    apply Forall_forall. intros x Hx. split_and!; [by apply Hg|by apply IH, Hg|].
    pose proof (maxl_ge (depth x.2) (map (fun m => depth m.2) (m :: ms))) as Hmax.
    rewrite list_elem_of_In in Hmax.
    specialize (Hmax (in_map (fun m => depth m.2) _ _ (proj1 (list_elem_of_In _ _) Hx))). lia.
Qed.

(** Parsing the text of a value gives the value back. *)
Lemma parse_print v :
  good v -> (depth v <= maxNestingDepth)%Z -> parse (print v) = Some v.
Proof.
  intros Hg Hd. unfold parse. pose proof (print_reads v Hg (S (2 * len (print v))) 0%Z "") as H.
  rewrite append_nil_r in H. rewrite H; [done|exact I|lia|lia].
Qed.

Lemma parse_fuel_enough s : p_value (S (2 * len s)) 0%Z s <> PFuel.
Proof.
  destruct (parsers_progress (S (2 * len s))) as (Hv & _ & _). specialize (Hv 0%Z s).
  intros E. rewrite E in Hv. cbn in Hv. lia.
Qed.

Lemma parse_fuel_any n s :
  (S (2 * len s) <= n)%nat -> p_value n 0%Z s = p_value (S (2 * len s)) 0%Z s.
Proof.
  induction 1 as [|n Hn IH]; [done|].
  destruct (proj1 (parsers_fuel n) 0%Z s) as [Hf|Hf]; [|congruence].
  by destruct (parse_fuel_enough s); rewrite <- IH.
Qed.

Example parse_status :
  parse (String nl (print (JObject [("health", JObject [("status", JString "HEALTH_OK")])]) ++ " "))
  = Some (JObject [("health", JObject [("status", JString "HEALTH_OK")])]).
Proof. vm_compute. reflexivity. Qed.
