(* ===== verification/Const.v ===== *)
(** * Const: the package constants (internal/controller/const.go)

    [ocp4_15] is a package variable that [init] sets before anything else
    runs; [Initialized] is the state of the package after a successful
    [init]. *)

From S2P Require Import Prelude Effects GoStd K8s.

Definition ODF_NAMESPACE : string := "openshift-storage".
Definition podStateReasonCrashLoopBackOff : string := "CrashLoopBackOff".
Definition podStateReasonError : string := "Error".
Definition FAILED_OSD_IDS : string := "FAILED_OSD_IDS".
Definition FORCE_OSD_REMOVAL : string := "FORCE_OSD_REMOVAL".
Definition HEALTH_OK : string := "HEALTH_OK".
Definition OCS_OSD_REMOVAL_JOB : string := "ocs-osd-removal".

Definition reconciliationTimeout : Duration := (30 * Minute)%Z.
Definition osdRemovalJobTimeout : Duration := (10 * Minute)%Z.

Definition disableForcedOSDRemoval : bool := false.
Definition enableForcedOSDRemoval : bool := true.
Definition podStatusPhaseFieldSelector : string := ".status.phase".
Definition pvcStatusPhaseFieldSelector : string := ".status.phase".
Definition podDeletionTimestampSelector : string := ".metadata.deletionTimestamp".
Definition osdJobSuccessMessage : string := "completed removal".

Section Init.
Context `{X : External}.

(** [init]: the parsed version constant, or a panic at start-up. *)
Definition init : Op Version :=
  match NewVersion "v4.15" with
  | inl _ => Panic "unable to create constant for OCP version 4.15"
  | inr v => mret v
  end.

Class Initialized := {
  ocp4_15 : Version;
  init_ok : init = mret ocp4_15;
}.

End Init.
