(* ===== verification/Monitoring.v ===== *)
(** * Monitoring: the Prometheus counters (monitoring/metrics.go)

    A counter is its declaration (name, help text, label names); incrementing
    one is a request to the metrics registry.  [RegisterMetrics] is
    written against the [Prometheus] interface of a registry. *)

From S2P Require Import Prelude Effects GoStd Api K8s.

Definition TotalOperandInstancesPrometheusCounter : CounterVec := {|
  ctr_Name := "odf_node_recovery_operand_instances_total_counter";
  ctr_Help := "ODF Node Recovery metric that keeps track of the total number of operand instances created";
  ctr_LabelNames := [] |}.

Definition CompletedOperandInstancesPrometheusCounter : CounterVec := {|
  ctr_Name := "odf_node_recovery_completed_operand_instances_counter";
  ctr_Help := "ODF Node Recovery metric is a counter that tracks the total number of operand instances that completed successfully";
  ctr_LabelNames := [] |}.

Definition FailedOperandInstancesPrometheusCounter : CounterVec := {|
  ctr_Name := "odf_node_recovery_failed_operand_instances_counter";
  ctr_Help := "ODF Node Recovery metric is a counter that tracks the total number of operands that failed to recover the ODF cluster and the last condition reached";
  ctr_LabelNames := ["last_condition"] |}.

Definition SuccessRecoveryForNodePrometheusCounter : CounterVec := {|
  ctr_Name := "odf_node_recovery_success_for_node_counter";
  ctr_Help := "ODF Node Recovery metric is a counter that tracks the total successfully attempts to recover a given node";
  ctr_LabelNames := ["node"] |}.

Definition FailedRecoveryForNodePrometheusCounter : CounterVec := {|
  ctr_Name := "odf_node_recovery_failed_for_node_counter";
  ctr_Help := "ODF Node Recovery metric is a counter that tracks of the number of failed attemps to recover a given node";
  ctr_LabelNames := ["node"] |}.

Definition metricsList : list CounterVec :=
  [ TotalOperandInstancesPrometheusCounter;
    CompletedOperandInstancesPrometheusCounter;
    FailedOperandInstancesPrometheusCounter;
    SuccessRecoveryForNodePrometheusCounter;
    FailedRecoveryForNodePrometheusCounter ].

(** ** Registration

    The Prometheus client is a parameter: its type of registries, the two
    operations the code uses, and the counters a registry holds as far as one
    can observe.  [MustRegister] is documented to panic when a registration
    fails, which it does not for a name that is not registered yet. *)
Class Prometheus := {
  Registry : Type;
  NewRegistry : Registry;
  MustRegister : Registry -> CounterVec -> Outcome Registry;
  registered : Registry -> list CounterVec;
  registered_new : registered NewRegistry = [];
  MustRegister_fresh reg c :
    ctr_Name c ∉ map ctr_Name (registered reg) ->
    exists reg', MustRegister reg c = Done reg' /\ registered reg' = registered reg ++ [c];
}.

(** [for _, metric := range metrics { metrics.Registry.MustRegister(metric) }]. *)
Fixpoint registerAll `{Prometheus} (metrics : list CounterVec) (reg : Registry) : Outcome Registry :=
  match metrics with
  | [] => Done reg
  | metric :: metrics' =>
      match MustRegister reg metric with
      | Done reg' => registerAll metrics' reg'
      | Panicked why => Panicked why
      end
  end.

(** The registry it leaves in [metrics.Registry], whatever was there before. *)
Definition RegisterMetrics `{Prometheus} (registry : Registry) : Outcome Registry :=
  registerAll metricsList NewRegistry.

(** Counters under fresh, different names are all registered, in order. *)
Lemma registerAll_fresh `{Prometheus} metrics reg :
  NoDup (map ctr_Name (registered reg ++ metrics)) ->
  exists reg', registerAll metrics reg = Done reg' /\ registered reg' = registered reg ++ metrics.
Proof.
  revert reg. induction metrics as [|c metrics IH]; intros reg Hnd; cbn.
  - exists reg. by rewrite app_nil_r.
  - destruct (MustRegister_fresh reg c) as (reg1 & -> & Hreg1).
    { rewrite map_app, NoDup_app in Hnd. cbn in Hnd. set_solver. }
    destruct (IH reg1) as (reg' & Hrun & Hreg'); [by rewrite Hreg1, <- app_assoc|].
    exists reg'. by rewrite Hrun, Hreg', Hreg1, <- app_assoc.
Qed.

(** ** Per-node counters

    The elements of [NodeDevice] are pointers: dereferencing nil panics. *)
Section Counters.
Context `{X : External}.

Definition IncrementFailedNodeCounter (instance : NodeRecovery) (latestCondition : RecoveryCondition)
  : Op unit :=
  forM (fun _ nd =>
      nd ← deref nd;
      trigger (CounterInc FailedRecoveryForNodePrometheusCounter [("node", npv_NodeName nd)]))
    () (NodeDevice (nr_Status instance)).

Definition IncrementCompletedOperandCounter (instance : NodeRecovery) : Op unit :=
  forM (fun _ nd =>
      nd ← deref nd;
      trigger (CounterInc SuccessRecoveryForNodePrometheusCounter [("node", npv_NodeName nd)]))
    () (NodeDevice (nr_Status instance)).

End Counters.
