(* ===== verification/Ceph.v ===== *)
(** * Ceph: the operations on Ceph (internal/controller/ceph.go)

    The health query through the Ceph tools pod, the switch that deploys that
    pod, scaling and deleting OSD workloads, and the removal job's clean-up. *)

From Stdlib Require Import Ascii.
From S2P Require Import Prelude Effects GoStd GoStrings Json Api K8s Const.

(** ** The health report

    [json.Unmarshal] into [healthStatus]: a key selects a field when it equals
    its name under Unicode case folding, a null leaves the field alone, a
    value of another type is an error and decoding goes on, and of several
    members for a field the last one counts. *)

Record health := { Status : string }.
Record healthStatus := { Health : health }.

Definition upper_ascii (c : ascii) : ascii :=
  if ((97 <=? code c) && (code c <=? 122))%Z then byte (code c - 32) else c.

(** Folds a key: the letters to upper case, and the two non-ASCII runes that
    fold to an ASCII letter, U+017F to [S] and U+212A to [K]. *)
Fixpoint foldName (s : string) : string :=
  match s with
  | EmptyString => EmptyString
  | String a r =>
      match r with
      | String b r2 =>
          if (code a =? 197)%Z && (code b =? 191)%Z then String "S" (foldName r2)
          else
            match r2 with
            | String c r3 =>
                if (code a =? 226)%Z && (code b =? 132)%Z && (code c =? 170)%Z
                then String "K" (foldName r3)
                else String (upper_ascii a) (foldName r)
            | EmptyString => String (upper_ascii a) (foldName r)
            end
      | EmptyString => String (upper_ascii a) EmptyString
      end
  end.

(** A decoder returns the new value and whether a type error was met. *)
Definition decode_string (v : json) (cur : string) : string * bool :=
  match v with
  | JString s => (s, false)
  | JNull => (cur, false)
  | _ => (cur, true)
  end.

Definition decode_health (v : json) (h : health) : health * bool :=
  match v with
  | JObject ms =>
      foldl (fun '(h, bad) '(k, v) =>
        if decide (foldName k = "STATUS") then
          let '(s, b) := decode_string v (Status h) in ({| Status := s |}, bad || b)
        else (h, bad)) (h, false) ms
  | JNull => (h, false)
  | _ => (h, true)
  end.

Definition decode_healthStatus (v : json) (hs : healthStatus) : healthStatus * bool :=
  match v with
  | JObject ms =>
      foldl (fun '(hs, bad) '(k, v) =>
        if decide (foldName k = "HEALTH") then
          let '(h, b) := decode_health v (Health hs) in ({| Health := h |}, bad || b)
        else (hs, bad)) (hs, false) ms
  | JNull => (hs, false)
  | _ => (hs, true)
  end.

Section Ceph.
Context `{X : External} `{Init : !Initialized}.

Definition Unmarshal_healthStatus (stdout : string) (hs : healthStatus) : error + healthStatus :=
  match parse stdout with
  | None => inl (JSONSyntaxError stdout)
  | Some v =>
      let '(hs', bad) := decode_healthStatus v hs in
      if bad then inl (JSONTypeError stdout) else inr hs'
  end.

(** A selector on labels, and the options that list in the operator's
    namespace with it. *)
Definition fromLabels (m : labels) : error + Selector :=
  LabelSelectorAsSelector {| MatchLabels := m; MatchExpressions := [] |}.

Definition in_namespace (s : Selector) : ListOptions :=
  {| lo_Namespace := ODF_NAMESPACE; lo_LabelSelector := Some s |}.

(** ** Ceph tools pod *)

Definition getRunningCephToolsPod : Op (error + Pod) :=
  let selectorMap : labels := {[ "app" := "rook-ceph-tools" ]} in
  try selector ← mret (fromLabels selectorMap);
  try l ← trigger (ListPods [WithOptions (in_namespace selector)]);
  match l with
  | [] => mret (inl (Errorf ("no pods found with label "
                   +:+ FormatMap selectorMap)))
  | p :: _ => mret (inr p)
  end.

Definition getCephHealthStatus : Op (error + string) :=
  try p ← getRunningCephToolsPod;
  r ← trigger (RunCommand p ["ceph"; "status"; "-f"; "json"]);
  let '(stdout, stderr, err) := r in
  match err with
  | Some err => mret (inl err)
  | None =>
      if decide (0 < String.length stderr) then
        mret (inl (Errorf ("error while executing remote shell to retrieve the ceph health status: "
                             +:+ stderr)))
      else
        try h ← mret (Unmarshal_healthStatus stdout {| Health := {| Status := "" |} |});
        mret (inr (Status (Health h)))
  end.

Definition archiveCephDaemonCrashMessages : Op (option error) :=
  let cmd := ["ceph"; "crash"; "archive-all"] in
  need pod ← getRunningCephToolsPod;
  r ← trigger (RunCommand pod cmd);
  let '(_, _, err) := r in
  mret err.

Definition getCephToolsPodPhase : Op (error + string) :=
  try pod ← getRunningCephToolsPod;
  mret (inr (pod_Phase pod)).

(** ** OSD workloads *)

Definition set_Replicas (n : option Z) (d : Deployment) : Deployment :=
  {| dep_Name := dep_Name d; dep_ResourceVersion := dep_ResourceVersion d;
     dep_Labels := dep_Labels d; dep_Replicas := n |}.

Definition scaleRookCephOSDDeploymentToZero (osdID : string) : Op (option error) :=
  let selectorMap := <[ "app" := "rook-ceph-osd" ]> {[ OsdIdLabelKey := osdID ]} in
  need selector ← mret (fromLabels selectorMap);
  need l ← trigger (ListDeployments [WithOptions (in_namespace selector)]);
  for_check (fun d => trigger (UpdateDeployment (set_Replicas (Some 0%Z) d))) l.

Definition forceDeleteRookCephOSDPods (osdIDs : list string) : Op (option error) :=
  need selector ← mret (LabelSelectorAsSelector
    {| MatchLabels := ∅;
       MatchExpressions := [ {| lsr_Key := OsdIdLabelKey; lsr_Operator := LabelSelectorOpIn;
                                lsr_Values := osdIDs |} ] |});
  trigger (DeleteAllOfPods {| dao_ListOptions := in_namespace selector;
                              dao_GracePeriodSeconds := Some 0%Z |}).

Definition deleteOldOSDRemovalJob : Op (option error) :=
  job ← trigger (GetJob ODF_NAMESPACE "ocs-osd-removal-job");
  check (match job with
         | inl err => mret (if IsNotFound err then None else Some err)
         | inr job => trigger (DeleteJob job)
         end);
  let sm := {[ "job-name" := "ocs-osd-removal-job" ]} in
  need s ← mret (fromLabels sm);
  check (trigger (DeleteAllOfPods {| dao_ListOptions := in_namespace s;
                                     dao_GracePeriodSeconds := Some 0%Z |}));
  mret None.

Definition getOSDPods : Op (error + list Pod) :=
  let selectorMap := {[ "app" := "rook-ceph-osd" ]} in
  try selector ← mret (fromLabels selectorMap);
  try pods ← trigger (ListPods [WithOptions (in_namespace selector)]);
  mret (inr pods).

Definition getOSDPodsWithID (osdID : string) : Op (error + list Pod) :=
  let selectorMap := <[ "app" := "rook-ceph-osd" ]> {[ OsdIdLabelKey := osdID ]} in
  try selector ← mret (fromLabels selectorMap);
  try pods ← trigger (ListPods [WithOptions (in_namespace selector)]);
  mret (inr pods).

(** ** The switch of the tools pod

    [getOCPVersion], [getOSCInitialization] and [getStorageCluster] are in
    node_recovery_reconciler.go. *)

Definition getStorageCluster : Op (error + StorageCluster) :=
  trigger (GetStorageCluster ODF_NAMESPACE "ocs-storagecluster").

Definition getOSCInitialization : Op (error + OCSInitialization) :=
  trigger (GetOCSInitialization ODF_NAMESPACE "ocsinit").

(** The version of the first completed update in the history. *)
Fixpoint firstCompleted (h : list UpdateHistory) : option UpdateHistory :=
  match h with
  | [] => None
  | i :: h' => if decide (uh_State i = CompletedUpdate) then Some i else firstCompleted h'
  end.

Definition getOCPVersion : Op (error + Version) :=
  try c ← trigger (GetClusterVersion "version");
  match firstCompleted (cv_History c) with
  | Some i => mret (NewVersion (uh_Version i))
  | None => mret (inl (Errorf "no valid version found in clusterversion object"))
  end.

Definition isCephToolsEnabled : Op (error + bool) :=
  try v ← getOCPVersion;
  if LessThan v ocp4_15 then
    try o ← getOSCInitialization;
    mret (inr (ocsinit_EnableCephTools o))
  else
    try sc ← getStorageCluster;
    mret (inr (sc_EnableCephTools sc)).

Definition setEnableCephToolsValue (value : bool) : Op (option error) :=
  need v ← getOCPVersion;
  if LessThan v ocp4_15 then
    need o ← getOSCInitialization;
    trigger (UpdateOCSInitialization
      {| ocsinit_ResourceVersion := ocsinit_ResourceVersion o; ocsinit_EnableCephTools := value |})
  else
    need sc ← getStorageCluster;
    trigger (UpdateStorageCluster
      {| sc_ResourceVersion := sc_ResourceVersion sc; sc_EnableCephTools := value |}).

Definition enableCephTools : Op (option error) := setEnableCephToolsValue true.

Definition disableCephTools : Op (option error) := setEnableCephToolsValue false.

End Ceph.
