(* ===== verification/Recovery.v ===== *)
(** * Recovery: the building blocks of the reconciliation

    The helper methods of [NodeRecovery] in
    internal/controller/node_recovery_reconciler.go: what they read from the
    cluster, how they classify pods, and the changes they make (node labels,
    pods, persistent volumes, the OSD removal job). *)

From Stdlib Require Import Ascii.
From S2P Require Import Prelude Effects GoStd GoStrings Api K8s Const Ceph.

Section Recovery.
Context `{X : External} `{Init : !Initialized}.

(** ** Pods that are starting *)

Definition statuses (pod : Pod) : list ContainerStatus :=
  pod_InitContainerStatuses pod ++ pod_ContainerStatuses pod.

(** The loop of [checkPodStatus]: [podErrors] is the error joined so far. *)
Fixpoint checkStatuses (podName : string) (sts : list ContainerStatus) (podErrors : option error)
  : option error :=
  match sts with
  | [] => podErrors
  | status :: sts' =>
      match cs_Waiting status with
      | None => checkStatuses podName sts' podErrors
      | Some w =>
          if decide (waiting_Reason w = podStateReasonCrashLoopBackOff) then None
          else if decide (waiting_Reason w = ContainerCreating \/ waiting_Reason w = PodInitializing)
          then
            checkStatuses podName sts'
              (errors_Join [podErrors;
                     Some (Errorf ("pod " +:+ podName +:+ ": container " +:+ cs_Name status
                             +:+ " waiting in " +:+ waiting_Reason w +:+ ": " +:+ waiting_Message w))])
          else checkStatuses podName sts' podErrors
      end
  end.

Definition checkPodStatus (pod : Pod) : option error :=
  checkStatuses (pod_Name pod) (statuses pod) None.

Definition hasPodsInCreatingOrInitializingState : Op (error + option error) :=
  try pods ← trigger (ListPods [WithOptions {| lo_Namespace := ODF_NAMESPACE; lo_LabelSelector := None |}]);
  mret (inr (foldl (fun errs pod => errors_Join [errs; checkPodStatus pod]) None pods)).

(** ** Pending pods and node labels *)

Definition getPodsInPendingPhase : Op (error + list Pod) :=
  try l ← trigger (ListPods
    [ WithOptions {| lo_Namespace := ODF_NAMESPACE; lo_LabelSelector := None |};
      MatchingFields {[ podStatusPhaseFieldSelector := PodPending ]};
      MatchingLabels {[ "app" := "rook-ceph-osd" ]} ]);
  mret (inr l).

(** [m[k]] on a Go map of strings: the zero value when the key is missing. *)
Definition index (m : labels) (k : string) : string := default "" (m !! k).

(** [m[k] = v]: assigning through a nil map panics. *)
Definition assign (m : option labels) (k v : string) : Op labels :=
  match m with
  | Some m => mret (<[k := v]> m)
  | None => Panic "assignment to entry in nil map"
  end.

Definition nodeNames (pods : list Pod) : gset string :=
  list_to_set (map (fun p => index (pod_NodeSelector p) LabelHostname) pods).

Definition labelNode (nodeName : string) : Op (option error) :=
  need n ← trigger (GetNode nodeName);
  let ls := match node_Labels n with None => Some ∅ | Some m => Some m end in
  ls' ← assign ls NodeAffinityKey "";
  trigger (UpdateNode {| node_Name := node_Name n; node_ResourceVersion := node_ResourceVersion n;
                         node_Labels := Some ls' |}).

Definition labelNodesWithPodsInPendingState (pods : list Pod) : Op (option error) :=
  names ← trigger (RangeKeys (elements (nodeNames pods)));
  forM (fun errs nodeName =>
          err ← labelNode nodeName;
          mret (match err with Some err => errors_Join [errs; Some err] | None => errs end))
    None names.

(** ** Failed pods *)

Definition getPodsInFailedPhaseWithReasonNodeAffinity : Op (error + list Pod) :=
  try l ← trigger (ListPods
    [ WithOptions {| lo_Namespace := ODF_NAMESPACE; lo_LabelSelector := None |};
      MatchingFields {[ podStatusPhaseFieldSelector := PodFailed ]} ]);
  mret (inr (filter (fun pod => pod_Reason pod = NodeAffinity) l)).

Definition deleteFailedPodsWithReasonNodeAffinity : Op (option error) :=
  need failedPods ← getPodsInFailedPhaseWithReasonNodeAffinity;
  forM (fun errs pod =>
          err ← trigger (DeletePod pod);
          mret (match err with Some err => errors_Join [errs; Some err] | None => errs end))
    None failedPods.

(** ** Operational and failing OSD pods *)

Definition isStatusFailing (status : ContainerStatus) : bool :=
  match cs_Waiting status with
  | Some w => bool_decide (waiting_Reason w = podStateReasonCrashLoopBackOff)
  | None => false
  end ||
  match cs_Terminated status with
  | Some t => bool_decide (terminated_Reason t = podStateReasonError)
  | None => false
  end.

Fixpoint isPodInCrashBackLoopOffOrErrorStatus (sts : list ContainerStatus) : bool :=
  match sts with
  | [] => false
  | status :: sts' =>
      if isStatusFailing status then true else isPodInCrashBackLoopOffOrErrorStatus sts'
  end.

Definition getOSDPodsInOperationalAndFailingStatus : Op (error + (list Pod * list Pod)) :=
  try l ← getOSDPods;
  mret (inr (foldl (fun '(operational, failing) pod =>
                      if isPodInCrashBackLoopOffOrErrorStatus (statuses pod)
                      then (operational, failing ++ [pod])
                      else (operational ++ [pod], failing)) ([], []) l)).

(** The loop is a partition that keeps the order. *)
Lemma classification_filter op fl l :
  foldl (fun '(operational, failing) pod =>
           if isPodInCrashBackLoopOffOrErrorStatus (statuses pod)
           then (operational, failing ++ [pod])
           else (operational ++ [pod], failing)) (op, fl) l
  = (op ++ filter (fun p => isPodInCrashBackLoopOffOrErrorStatus (statuses p) = false) l,
     fl ++ filter (fun p => isPodInCrashBackLoopOffOrErrorStatus (statuses p) = true) l).
Proof.
  revert op fl. induction l as [|p l IH]; intros op fl; cbn [foldl]; [by rewrite !app_nil_r|].
  rewrite !filter_cons. destruct (isPodInCrashBackLoopOffOrErrorStatus _) eqn:E;
    rewrite IH; repeat (case_decide; try congruence); by rewrite <- ?app_assoc.
Qed.

Definition listOperationalOSDIDsFromPods (osdPods : list Pod) : list string :=
  map (fun p => index (pod_Labels p) "osd") osdPods.

(** The node and volume of a failing pod: a pointer, nil for a pod that has no
    PVC label. *)
Definition getNodeDeviceNameFromPV (pod : Pod) : Op (error + option NodePV) :=
  match pod_Labels pod !! OSDOverPVCLabelKey with
  | Some pvcName =>
      try pvc ← trigger (GetPVC (pod_Namespace pod) pvcName);
      try pv ← trigger (GetPV (pvc_VolumeName pvc));
      mret (inr (Some {| npv_NodeName := index (pv_Labels pv) LabelHostname;
                         npv_PersistentVolumeName := pv_Name pv;
                         npv_FailingOSDID := index (pod_Labels pod) "osd" |}))
  | None => mret (inr None)
  end.

(** ** Persistent volumes *)

Definition getPVsForNode (nodeName : string) : Op (error + list PersistentVolume) :=
  try selector ← mret (fromLabels {[ "kubernetes.io/hostname" := nodeName ]});
  try pvs ← trigger (ListPVs [WithOptions {| lo_Namespace := ""; lo_LabelSelector := Some selector |}]);
  mret (inr pvs).

Definition processPVForNode (nd : option NodePV) (pvs : list PersistentVolume) : Op (option error) :=
  errs ← match pvs with
         | [] => nd ← deref nd;
                 mret (errors_Join [None; Some (Errorf ("no PV found for host " +:+ npv_NodeName nd))])
         | _ => mret None
         end;
  forM (fun errs pv =>
          nd ← deref nd;
          if decide (pv_Name pv = npv_PersistentVolumeName nd /\ pv_Phase pv = VolumeReleased) then
            let errs := errors_Join [errs; Some (Errorf ("volume " +:+ pv_Name pv +:+ " in node "
                          +:+ npv_NodeName nd +:+ " is released and about to be deleted"))] in
            err ← trigger (DeletePV pv);
            mret (errors_Join [errs; err])
          else mret errs)
    errs pvs.

Definition getOSDIDsFromNodeDevices (nodeDevice : list (option NodePV)) : Op (list string) :=
  forM (fun r nd => nd ← deref nd; mret (r ++ [npv_FailingOSDID nd])) [] nodeDevice.

Lemma getOSDIDs_devices (nds : list NodePV) :
  getOSDIDsFromNodeDevices (map Some nds) = mret (map npv_FailingOSDID nds).
Proof.
  cut (forall acc, forM (fun r nd => nd ← deref nd; mret (r ++ [npv_FailingOSDID nd])) acc (map Some nds)
    = (mret (acc ++ map npv_FailingOSDID nds) : Op (list string))); [by intros H; apply H|].
  induction nds as [|nd nds IH]; intros acc; cbn; [by rewrite app_nil_r|].
  etransitivity; [apply IH|]. by rewrite <- app_assoc.
Qed.

Definition countPVCsBoundToODSPods : Op (error + nat) :=
  try l ← trigger (ListPVCs
    [ WithOptions {| lo_Namespace := ODF_NAMESPACE; lo_LabelSelector := None |};
      MatchingLabels {[ "ceph.rook.io/cephImageAtCreation" := "" ]};
      MatchingFields {[ pvcStatusPhaseFieldSelector := ClaimBound ]} ]);
  let n := map pvc_Name l in
  try ls ← mret (LabelSelectorAsSelector
    {| MatchLabels := {[ "app" := "rook-ceph-osd" ]};
       MatchExpressions := [ {| lsr_Key := OSDOverPVCLabelKey; lsr_Operator := LabelSelectorOpIn;
                                lsr_Values := n |} ] |});
  try pl ← trigger (ListPods [WithOptions (in_namespace ls)]);
  mret (inr (length pl)).

(** ** The OSD removal job *)

(** Writes through the pointer [GetParameterByName] returned. *)
Definition setParameterValue (p : option nat) (value : string) (t : Template) : Op Template :=
  match p with
  | None => Panic nil_dereference
  | Some i =>
      mret {| tmpl_Name := tmpl_Name t;
              tmpl_Parameters :=
                alter (fun p => {| param_Name := param_Name p; param_Value := value |}) i
                  (tmpl_Parameters t);
              tmpl_Objects := tmpl_Objects t |}
  end.

Definition createTemplateObject (obj : RawExtension) : Op (option error) :=
  need objToCreate ← mret (match raw_Object obj with
                           | None => Decode (raw_Raw obj)
                           | Some o => inr o
                           end);
  match asClientObject objToCreate with
  | None => mret (Some (Errorf ("failed to cast as client.Object: " +:+ formatObject objToCreate)))
  | Some cobj => trigger (Create (SetNamespace ODF_NAMESPACE cobj))
  end.

Definition processOCSOSDRemovalTemplate (ids : list string) (forceOSDRemovalParam : bool)
  : Op (option error) :=
  need t ← trigger (GetTemplate ODF_NAMESPACE OCS_OSD_REMOVAL_JOB);
  t ← setParameterValue (GetParameterByName (tmpl_Parameters t) FAILED_OSD_IDS)
        (strings_Join ids ",") t;
  t ← setParameterValue (GetParameterByName (tmpl_Parameters t) FORCE_OSD_REMOVAL)
        (FormatBool forceOSDRemovalParam) t;
  now ← trigger Now;
  '(t, errs) ← trigger (ProcessTemplate (UnixNano now) t);
  match errs with
  | _ :: _ => mret (Some (NewInvalidTemplate (tmpl_Name t) errs))
  | [] => for_check createTemplateObject (tmpl_Objects t)
  end.

Definition listPodsWithSelectors (selectors : labels) : Op (error + list Pod) :=
  keys ← trigger (RangeKeys (elements (dom selectors)));
  let s := map (fun k => {| lsr_Key := k; lsr_Operator := LabelSelectorOpIn;
                            lsr_Values := [index selectors k] |}) keys in
  try l ← mret (LabelSelectorAsSelector {| MatchLabels := ∅; MatchExpressions := s |});
  pods ← trigger (ListPods [WithOptions (in_namespace l)]);
  mret (match pods with
        | inl err => inl (Errorf ("failed to retrieve the list of pods that match the selected criteria "
                       +:+ FormatMap selectors +:+ ": " +:+ Error err))
        | inr pods => inr pods
        end).

Definition getOSDRemovalPodJobCompletionStatus : Op (error + Pod) :=
  try pods ← listPodsWithSelectors {[ "job-name" := "ocs-osd-removal-job" ]};
  match list_find (fun p => MetaTime_IsZero (pod_DeletionTimestamp p)) pods with
  | Some (_, p) => mret (inr p)
  | None =>
      mret (inl (Errorf ("failed to retrieve the status of the ODF removal job pod in "
              +:+ ODF_NAMESPACE +:+ ": no pod found or all pod instances are being deleted")))
  end.

Definition validateJobLogs (podName : string) : Op (option error) :=
  need logs ← trigger (GetLogs podName);
  let last := last_line (TrimSpace logs) in
  if Contains (ToLower last) osdJobSuccessMessage then mret None
  else mret (Some (Errorf ("osd job removal completed with failure: " +:+ last))).

(** ** The Rook operator pod *)

Definition deleteRookCephOperatorPod : Op (option error) :=
  need selector ← mret (LabelSelectorAsSelector
    {| MatchLabels := ∅;
       MatchExpressions := [ {| lsr_Key := "app"; lsr_Operator := LabelSelectorOpIn;
                                lsr_Values := ["rook-ceph-operator"] |} ] |});
  trigger (DeleteAllOfPods {| dao_ListOptions := in_namespace selector;
                              dao_GracePeriodSeconds := None |}).

End Recovery.
