(* ===== verification/Reconciler.v ===== *)
(** * Reconciler: one step of a recovery

    [NodeRecovery.Reconcile] of
    internal/controller/node_recovery_reconciler.go: the switch on the latest
    condition, one definition per case.  The instance is mutated through a
    pointer, so the functions are in the state monad over it; the pointer
    [latestCondition] into the slice of conditions is an index, and writing
    through it updates the element of the instance. *)

From Stdlib Require Import Ascii.
From S2P Require Import Prelude Effects GoStd GoStrings Api K8s Const Monitoring Ceph Recovery.

(** [ctrl.Result]. *)
Record Result := { Requeue : bool; RequeueAfter : Duration }.

Definition NoResult : Result := {| Requeue := false; RequeueAfter := 0%Z |}.
Definition RequeueNow : Result := {| Requeue := true; RequeueAfter := 0%Z |}.
Definition RequeueIn (d : Duration) : Result := {| Requeue := false; RequeueAfter := d |}.

Section Reconciler.
Context `{X : External} `{Init : !Initialized}.

Abbreviation RM := (StateT Req NodeRecovery).

(** What [Reconcile] returns. *)
Abbreviation Ret_ := (Result * option error)%type.

Definition setStatus (f : NodeRecoveryStatus -> NodeRecoveryStatus) : RM unit := modify (set_Status f).

Definition status : RM NodeRecoveryStatus := i ← get; mret (nr_Status i).

Definition index_out_of_range : string := "runtime error: index out of range".

(** ** Conditions *)

(** An assignment to the fields of [conditions[i]]. *)
Definition updateCondition (i : nat) (f : RecoveryCondition -> RecoveryCondition)
    (st : NodeRecoveryStatus) : NodeRecoveryStatus :=
  set_Conditions (alter f i (Conditions st)) st.

Definition getLatestCondition : RM nat :=
  st ← status;
  match length (Conditions st) with
  | O => panic index_out_of_range
  | S latest =>
      now ← lift (trigger Now);
      setStatus (updateCondition latest (set_cond_LastProbeTime now));;
      mret latest
  end.

(** Reading through the pointer. *)
Definition readCondition (i : nat) : RM RecoveryCondition :=
  st ← status;
  match Conditions st !! i with Some c => mret c | None => panic index_out_of_range end.

Definition setReason (i : nat) (r : string) : RM unit :=
  setStatus (updateCondition i (set_cond_Reason r)).
Definition setMessage (i : nat) (m : string) : RM unit :=
  setStatus (updateCondition i (set_cond_Message m)).

Definition transitionNextCondition (nextCondition : RecoveryConditionType) : RM unit :=
  st ← status;
  match length (Conditions st) with
  | O => panic index_out_of_range
  | S latest =>
      setStatus (updateCondition latest (set_cond_Status StatusFalse));;
      t1 ← lift (trigger Now);
      t2 ← lift (trigger Now);
      setStatus (fun st => set_Conditions (Conditions st ++
        [ {| cond_Type := nextCondition; cond_LastTransitionTime := t1; cond_LastProbeTime := t2;
             cond_Reason := ""; cond_Message := ""; cond_Status := StatusTrue |} ]) st)
  end.

(** [latestCondition.Reason = reason; latestCondition.Message = err.Error();
    return ctrl.Result{}, err] *)
Definition failWith (i : nat) (reason : string) (err : error) : RM Ret_ :=
  setReason i reason;; setMessage i (Error err);; mret (NoResult, Some err).

(** The same without a reason. *)
Definition failMessage (i : nat) (err : error) : RM Ret_ :=
  setMessage i (Error err);; mret (NoResult, Some err).

Definition goto (next : RecoveryConditionType) (res : Result) : RM Ret_ :=
  transitionNextCondition next;; mret (res, None).

(** ** The cases of the switch *)

Definition handleEnableCephToolsPod (i : nat) : RM Ret_ :=
  r ← lift isCephToolsEnabled;
  match r with
  | inl err => failWith i FailedCheckCephToolsPod err
  | inr enabled =>
      if negb enabled then
        err ← lift enableCephTools;
        match err with
        | Some err => failWith i FailedEnableCephToolsPod err
        | None => goto WaitForCephToolsPodRunning (RequeueIn (10 * Second))
        end
      else
        setStatus (set_KeepCephToolsPod true);;
        goto WaitForCephToolsPodRunning (RequeueIn (10 * Second))
  end.

Definition handleWaitForCephToolsPodRunning (i : nat) : RM Ret_ :=
  r ← lift getCephToolsPodPhase;
  match r with
  | inl err => failWith i FailedRetrieveCephToolPod err
  | inr phase =>
      if decide (phase <> PodRunning) then
        setReason i PodNotInRunningPhase;;
        setMessage i "Ceph Tool pod is not in Running phase";;
        mret (RequeueIn (10 * Second), None)
      else goto WaitForOSDPodsStabilize RequeueNow
  end.

Definition handleWaitForOSDPodsStabilize (i : nat) : RM Ret_ :=
  r ← lift hasPodsInCreatingOrInitializingState;
  match r with
  | inl err => failWith i FailedRetrievePodsPhase err
  | inr (Some podErr) =>
      setReason i WaitingForPodsToInitialize;;
      setMessage i ("OSD pods still in initializing status: " +:+ Error podErr);;
      mret (RequeueIn (10 * Second), None)
  | inr None => goto LabelNodesWithPendingPods RequeueNow
  end.

Definition handleLabelNodesWithPendingPods (i : nat) : RM Ret_ :=
  r ← lift getPodsInPendingPhase;
  match r with
  | inl err => failWith i FailedRetrievePendingPods err
  | inr pendingOSDPods =>
      if decide (0 < length pendingOSDPods) then
        setStatus (set_PendingPods true);;
        err ← lift (labelNodesWithPodsInPendingState pendingOSDPods);
        match err with
        | Some err => failWith i FailedLabelNodes err
        | None => goto ManageCrashLoopBackOffPods RequeueNow
        end
      else goto ManageCrashLoopBackOffPods RequeueNow
  end.

(** [handleCrashLoopBackOffPods]: the devices of the failing pods, each scaled
    to zero as it is found. *)
Definition handleCrashLoopBackOffPods (osdPods : list Pod)
  : Op (list (option NodePV) * Result * option error) :=
  r ← forM_ret (fun nodePV p =>
        nodeDevice ← getNodeDeviceNameFromPV p;
        match nodeDevice with
        | inl err => mret (inl ([], NoResult, Some err))
        | inr nodeDevice =>
            nd ← deref nodeDevice;
            err ← scaleRookCephOSDDeploymentToZero (npv_FailingOSDID nd);
            match err with
            | Some err => mret (inl ([], NoResult, Some err))
            | None => mret (inr (nodePV ++ [nodeDevice]))
            end
        end) [] osdPods;
  mret (match r with
        | inl ret => ret
        | inr nodePV => (nodePV, RequeueIn (15 * Second), None)
        end).

Definition handleManageCrashLoopBackOffPods (i : nat) : RM Ret_ :=
  r ← lift getOSDPodsInOperationalAndFailingStatus;
  match r with
  | inl err => failWith i FailedRetrieveCrashLoopBackOffPods err
  | inr (operational, failing) =>
      if decide (length failing = 0) then goto RestartStorageOperator RequeueNow
      else
        (if decide (0 < length operational)
         then setStatus (set_OperationalOSDIDs (listOperationalOSDIDsFromPods operational))
         else mret ());;
        setStatus (set_CrashLoopBackOffPods true);;
        r ← lift (handleCrashLoopBackOffPods failing);
        let '(nodeDevice, c, err) := r in
        match err with
        | Some err =>
            setReason i FailedHandleCrashLoopBackOffPods;;
            setMessage i (Error err);;
            mret (c, Some err)
        | None =>
            setStatus (set_NodeDevice nodeDevice);;
            goto ForceDeleteRookCephOSDPods (RequeueIn (15 * Second))
        end
  end.

(** The loop over the failing OSD ids: the number of ids that have pods which
    have been terminating for a minute, or an early return. *)
Definition countTerminating (ids : list string) : Op (Ret_ + nat) :=
  forM_ret (fun c id =>
      pods ← getOSDPodsWithID id;
      match pods with
      | inl err => mret (inl (NoResult, Some err))
      | inr [] => mret (inr c)
      | inr (p :: _) =>
          now ← trigger Now;
          ts ← deref (pod_DeletionTimestamp p);
          mret (if Before now (Add ts Minute) then inl (RequeueIn (15 * Second), None)
                else inr (S c))
      end) 0 ids.

Definition handleForceDeleteRookCephOSDPods (i : nat) : RM Ret_ :=
  st ← status;
  if negb (CrashLoopBackOffPods st) then goto RestartStorageOperator RequeueNow
  else
    ids ← lift (getOSDIDsFromNodeDevices (NodeDevice st));
    r ← lift (countTerminating ids);
    match r with
    | inl ret => mret ret
    | inr c =>
        if decide (0 < c) then
          err ← lift (forceDeleteRookCephOSDPods ids);
          match err with
          | Some err => mret (NoResult, Some err)
          | None => goto ForceDeleteRookCephOSDPods RequeueNow
          end
        else goto ProcessOCSRemovalTemplate RequeueNow
    end.

Definition handleProcessOCSRemovalTemplate (i : nat) : RM Ret_ :=
  err ← lift deleteOldOSDRemovalJob;
  match err with
  | Some err => mret (NoResult, Some err)
  | None =>
      osdPods ← lift getOSDPods;
      match osdPods with
      | inl err => mret (NoResult, Some err)
      | inr osdPods =>
          setStatus (set_ForcedOSDRemoval (bool_decide (length osdPods <= 3)));;
          st ← status;
          ids ← lift (getOSDIDsFromNodeDevices (NodeDevice st));
          err ← lift (processOCSOSDRemovalTemplate ids (ForcedOSDRemoval st));
          match err with
          | Some err => mret (NoResult, Some err)
          | None => goto CleanupOSDRemovalJob (RequeueIn (10 * Second))
          end
      end
  end.

(** The end of both clean-up cases, once the job's pod has succeeded. *)
Definition finishOSDRemovalJob (i : nat) (podName : string) : RM Ret_ :=
  err ← lift (validateJobLogs podName);
  match err with
  | Some err =>
      setMessage i (Error err);;
      setStatus (set_Phase FailedPhase);;
      mret (NoResult, Some err)
  | None =>
      err ← lift deleteOldOSDRemovalJob;
      match err with
      | Some err => mret (NoResult, Some err)
      | None => goto WaitForPersistenVolumeBound RequeueNow
      end
  end.

Definition handleCleanupOSDRemovalJob (i : nat) : RM Ret_ :=
  r ← lift getOSDRemovalPodJobCompletionStatus;
  match r with
  | inl err => failMessage i err
  | inr pod =>
      if decide (pod_Phase pod <> PodSucceeded) then
        now ← lift (trigger Now);
        latest ← readCondition i;
        if Before now (Add (cond_LastTransitionTime latest) osdRemovalJobTimeout) then
          mret (RequeueIn (10 * Second), None)
        else
          instance ← get;
          lift (trigger (Eventf instance "Warning" "Reconciliation"
            ("OSD removal job timed out after " +:+ format_minutes osdRemovalJobTimeout
               +:+ " minutes. Retrying with " +:+ FORCE_OSD_REMOVAL +:+ "="
               +:+ FormatBool enableForcedOSDRemoval) []));;
          err ← lift deleteOldOSDRemovalJob;
          match err with
          | Some err => mret (NoResult, Some err)
          | None =>
              st ← status;
              ids ← lift (getOSDIDsFromNodeDevices (NodeDevice st));
              err ← lift (processOCSOSDRemovalTemplate ids enableForcedOSDRemoval);
              match err with
              | Some err => mret (NoResult, Some err)
              | None =>
                  setStatus (set_ForcedOSDRemoval true);;
                  goto RetryForceCleanupOSDRemovalJob RequeueNow
              end
          end
      else finishOSDRemovalJob i (pod_Name pod)
  end.

Definition handleRetryForceCleanupOSDRemovalJob (i : nat) : RM Ret_ :=
  r ← lift getOSDRemovalPodJobCompletionStatus;
  match r with
  | inl err => failMessage i err
  | inr pod =>
      if decide (pod_Phase pod <> PodSucceeded) then
        now ← lift (trigger Now);
        latest ← readCondition i;
        if Before now (Add (cond_LastTransitionTime latest) osdRemovalJobTimeout) then
          mret (RequeueIn (10 * Second), None)
        else
          instance ← get;
          lift (trigger (Eventf instance "Warning" "Reconciliation"
            ("OSD removal job timed out after " +:+ format_minutes osdRemovalJobTimeout
               +:+ " minutes.") []));;
          setStatus (set_Phase FailedPhase);;
          mret (NoResult, None)
      else finishOSDRemovalJob i (pod_Name pod)
  end.

(** The loop over the recorded devices: the joined errors, or an early return. *)
Definition processNodeDevices (nds : list (option NodePV)) : Op (Ret_ + option error) :=
  forM_ret (fun errs nd =>
      nd' ← deref nd;
      pvs ← getPVsForNode (npv_NodeName nd');
      match pvs with
      | inl err => mret (inl (NoResult, Some err))
      | inr pvs =>
          err ← processPVForNode nd pvs;
          mret (inr (errors_Join [errs; err]))
      end) None nds.

Definition handleWaitForPersistenVolumeBound (i : nat) : RM Ret_ :=
  st ← status;
  r ← lift (processNodeDevices (NodeDevice st));
  match r with
  | inl ret => mret ret
  | inr (Some errs) =>
      setMessage i (Error errs);; mret (RequeueIn (15 * Second), None)
  | inr None =>
      let expectedPVCs := length (OperationalOSDIDs st) + length (NodeDevice st) in
      r ← lift countPVCsBoundToODSPods;
      match r with
      | inl err => setMessage i (Error err);; mret (RequeueIn (15 * Second), None)
      | inr pvcs =>
          if decide (pvcs < expectedPVCs) then
            setMessage i ("expected to find " +:+ FormatNat expectedPVCs
              +:+ " PVCs bound to OSD pods but found " +:+ FormatNat pvcs);;
            mret (RequeueIn (15 * Second), None)
          else goto RestartStorageOperator RequeueNow
      end
  end.

Definition handleRestartStorageOperator (i : nat) : RM Ret_ :=
  st ← status;
  if PendingPods st || CrashLoopBackOffPods st then
    err ← lift deleteRookCephOperatorPod;
    match err with
    | Some err => failWith i FailedRestartODFOperator err
    | None => goto DeleteFailedPodsNodeAffinity (RequeueIn (30 * Second))
    end
  else goto DeleteFailedPodsNodeAffinity (RequeueIn (30 * Second)).

Definition handleDeleteFailedPodsNodeAffinity (i : nat) : RM Ret_ :=
  err ← lift deleteFailedPodsWithReasonNodeAffinity;
  match err with
  | Some err => failWith i Api.FailedDeleteFailedPodsNodeAffinity err
  | None => goto StorageClusterFitnessCheck RequeueNow
  end.

Definition handleStorageClusterFitnessCheck (i : nat) : RM Ret_ :=
  r ← lift getCephHealthStatus;
  match r with
  | inl err => failWith i FailedRetrieveCephHealthStatus err
  | inr health =>
      if decide (health <> HEALTH_OK) then
        setMessage i ("Waiting for cluster to become healthy: " +:+ health);;
        err ← lift archiveCephDaemonCrashMessages;
        match err with
        | Some err => failWith i FailedArchiveCephDaemonCrashMessages err
        | None => mret (RequeueIn (15 * Second), None)
        end
      else goto DisableCephTools RequeueNow
  end.

(** The one case that falls out of the switch: [None] is "no return". *)
Definition handleDisableCephTools (i : nat) : RM (option Ret_) :=
  st ← status;
  err ← (if negb (KeepCephToolsPod st) then lift disableCephTools else mret None);
  match err with
  | Some err => r ← failWith i FailedDisableCephToolsPod err; mret (Some r)
  | None =>
      instance ← get;
      lift (IncrementCompletedOperandCounter instance);;
      mret None
  end.

Definition returned (m : RM Ret_) : RM (option Ret_) := r ← m; mret (Some r).

(** The switch on the type of the latest condition. *)
Definition dispatch (i : nat) (t : RecoveryConditionType) : RM (option Ret_) :=
  match t with
  | EnableCephToolsPod => returned (handleEnableCephToolsPod i)
  | WaitForCephToolsPodRunning => returned (handleWaitForCephToolsPodRunning i)
  | WaitForOSDPodsStabilize => returned (handleWaitForOSDPodsStabilize i)
  | LabelNodesWithPendingPods => returned (handleLabelNodesWithPendingPods i)
  | ManageCrashLoopBackOffPods => returned (handleManageCrashLoopBackOffPods i)
  | ForceDeleteRookCephOSDPods => returned (handleForceDeleteRookCephOSDPods i)
  | ProcessOCSRemovalTemplate => returned (handleProcessOCSRemovalTemplate i)
  | CleanupOSDRemovalJob => returned (handleCleanupOSDRemovalJob i)
  | RetryForceCleanupOSDRemovalJob => returned (handleRetryForceCleanupOSDRemovalJob i)
  | WaitForPersistenVolumeBound => returned (handleWaitForPersistenVolumeBound i)
  | RestartStorageOperator => returned (handleRestartStorageOperator i)
  | DeleteFailedPodsNodeAffinity => returned (handleDeleteFailedPodsNodeAffinity i)
  | StorageClusterFitnessCheck => returned (handleStorageClusterFitnessCheck i)
  | DisableCephTools => handleDisableCephTools i
  | OtherConditionType _ => mret None
  end.

(** After the switch. *)
Definition complete : RM Ret_ :=
  setStatus (set_Phase CompletedPhase);;
  now ← lift (trigger Now);
  setStatus (set_CompletionTime (Some now));;
  instance ← get;
  start ← lift (deref (StartTime (nr_Status instance)));
  lift (trigger (Eventf instance "Normal" "Reconciliation"
    "Successfully completed recovering cluster in %s" [ArgDuration (Sub now start)]));;
  lift (trigger (CounterInc CompletedOperandInstancesPrometheusCounter []));;
  mret (NoResult, None).

(** The condition has lasted longer than [reconciliationTimeout]. *)
Definition timedOut (latest : RecoveryCondition) : RM Ret_ :=
  setStatus (set_Phase FailedPhase);;
  instance ← get;
  lift (trigger (Eventf instance "Error" "Reconciliation"
    ("failed to reconcile after retrying for 5 minutes: " +:+ cond_Message latest) []));;
  lift (IncrementFailedNodeCounter instance latest);;
  lift (trigger (CounterInc FailedOperandInstancesPrometheusCounter
    [("last_condition", conditionTypeString (cond_Type latest))]));;
  mret (NoResult, None).

Definition Reconcile : RM Ret_ :=
  i ← getLatestCondition;
  latest ← readCondition i;
  now ← lift (trigger Now);
  if After now (Add (cond_LastTransitionTime latest) reconciliationTimeout) then timedOut latest
  else
    r ← dispatch i (cond_Type latest);
    match r with
    | Some ret => mret ret
    | None => complete
    end.

(** ** The beginning of a step, unfolded *)

(** The instance after [getLatestCondition], and its latest condition. *)
Definition probed (now : Time) (cs : list RecoveryCondition) (inst : NodeRecovery) : NodeRecovery :=
  set_Status (updateCondition (length cs) (set_cond_LastProbeTime now)) inst.

Lemma getLatestCondition_snoc cs c inst :
  Conditions (nr_Status inst) = cs ++ [c] ->
  getLatestCondition inst = Vis Now (fun now => Ret (length cs, probed now cs inst)).
Proof.
  intros Hc. unfold getLatestCondition. cbv [status mbind stateT_bind mret stateT_ret get].
  cbn [bind]. by rewrite Hc, length_snoc.
Qed.

Lemma readCondition_snoc cs c inst :
  Conditions (nr_Status inst) = cs ++ [c] -> readCondition (length cs) inst = Ret (c, inst).
Proof.
  intros Hc. unfold readCondition. cbv [status mbind stateT_bind mret stateT_ret get].
  cbn [bind]. by rewrite Hc, lookup_snoc.
Qed.

Lemma probed_snoc now cs c inst :
  Conditions (nr_Status inst) = cs ++ [c] ->
  Conditions (nr_Status (probed now cs inst)) = cs ++ [set_cond_LastProbeTime now c].
Proof. intros Hc. cbn. by rewrite Hc, alter_snoc. Qed.

(** Two readings of the clock, and then the time-out or the case of the latest
    condition. *)
Lemma Reconcile_unfold cs c inst :
  Conditions (nr_Status inst) = cs ++ [c] ->
  exists k, Reconcile inst = Vis Now k /\ forall now,
  exists k', k now = Vis Now k' /\ forall now',
    k' now' =
      if After now' (Add (cond_LastTransitionTime c) reconciliationTimeout)
      then timedOut (set_cond_LastProbeTime now c) (probed now cs inst)
      else (r ← dispatch (length cs) (cond_Type c);
            match r with Some ret => mret ret | None => complete end) (probed now cs inst).
Proof.
  intros Hc. unfold Reconcile, mbind at 1, stateT_bind at 1.
  rewrite (getLatestCondition_snoc cs c inst Hc). eexists; split; [reflexivity|].
  intros now. cbn [bind]. unfold mbind at 1, stateT_bind at 1.
  rewrite (readCondition_snoc cs _ _ (probed_snoc now cs c inst Hc)).
  eexists; split; [reflexivity|]. intros now'. cbn [bind].
  by destruct (After _ _).
Qed.

Lemma Reconcile_empty inst : Conditions (nr_Status inst) = [] ->
  Reconcile inst = Panic index_out_of_range.
Proof.
  intros Hc. unfold Reconcile, getLatestCondition.
  cbv [status mbind stateT_bind mret stateT_ret get]. cbn [bind]. by rewrite Hc.
Qed.

(** ** The operations on the instance, in the program logic *)

Lemma wp_setStatus {S A} (M : Monitor Req S) f (k : unit -> RM A) inst s Q QP :
  wp M (k () (set_Status f inst)) s Q QP -> wp M ((setStatus f ≫= k) inst) s Q QP.
Proof. done. Qed.

Lemma wp_status {S A} (M : Monitor Req S) (k : NodeRecoveryStatus -> RM A) inst s Q QP :
  wp M (k (nr_Status inst) inst) s Q QP -> wp M ((status ≫= k) inst) s Q QP.
Proof. done. Qed.

Lemma wp_get {S A} (M : Monitor Req S) (k : NodeRecovery -> RM A) inst s Q QP :
  wp M (k inst inst) s Q QP -> wp M ((get ≫= k) inst) s Q QP.
Proof. done. Qed.

End Reconciler.
