(* ===== verification/Controller.v ===== *)
(** * Controller: the reconcile entry point

    [NodeRecoveryReconciler.Reconcile] of
    internal/controller/noderecovery_controller.go: fetch the object, ignore it
    when it is gone, being deleted or finished, start it when it is new, run
    one step of the recovery and write its status back. *)

From S2P Require Import Prelude Effects GoStd Api K8s Const Monitoring Reconciler.

Section Controller.
Context `{X : External} `{Init : !Initialized}.

(** The first condition of a recovery. *)
Definition initialCondition (now : Time) : RecoveryCondition :=
  {| cond_Type := EnableCephToolsPod; cond_LastTransitionTime := now; cond_LastProbeTime := zeroTime;
     cond_Reason := ""; cond_Message := ""; cond_Status := StatusTrue |}.

(** [if instance.Status.StartTime.IsZero()]. *)
Definition startRecovery (instance : NodeRecovery) : Op NodeRecovery :=
  if MetaTime_IsZero (StartTime (nr_Status instance)) then
    t1 ← trigger Now;
    t2 ← trigger Now;
    trigger (CounterInc TotalOperandInstancesPrometheusCounter []);;
    mret (set_Status (fun st =>
            set_Conditions (Conditions st ++ [initialCondition t2])
              (set_Phase RunningPhase (set_StartTime (Some t1) st))) instance)
  else mret instance.

(** The step on an object to be processed, and the update of its status. *)
Definition processInstance (instance : NodeRecovery) : Op (Result * option error) :=
  instance ← startRecovery instance;
  r ← Reconciler.Reconcile instance;
  let '((result, err), instance) := r in
  serr ← trigger (StatusUpdate instance);
  mret (result, errors_Join [err; serr]).

Definition finished (instance : NodeRecovery) : bool :=
  bool_decide (Phase (nr_Status instance) = FailedPhase)
  || bool_decide (Phase (nr_Status instance) = CompletedPhase).

(** What follows [r.Get]: [got] is the error or the object it filled. *)
Definition reconcileFetched (got : error + NodeRecovery) : Op (Result * option error) :=
  let err := match got with inl err => Some err | inr _ => None end in
  let instance := match got with inl _ => zeroNodeRecovery | inr i => i end in
  match IgnoreNotFound err with
  | Some err => mret (NoResult, Some err)
  | None =>
      if match err with Some err => IsNotFound err | None => false end
         || negb (MetaTime_IsZero (nr_DeletionTimestamp instance))
      then mret (NoResult, None)
      else if finished instance then mret (NoResult, None)
      else processInstance instance
  end.

Definition Reconcile (name : string) : Op (Result * option error) :=
  got ← trigger (GetNodeRecovery name);
  reconcileFetched got.

End Controller.
