(* ===== verification/Footprint.v ===== *)
(** * Footprint: which requests each part of the operator can issue

    One lemma per function, for any class [P] of requests that contains the
    requests the function makes; Safety.v and StateMachine.v instantiate [P]. *)

From S2P Require Import Prelude Effects GoStd Api K8s Const Monitoring Ceph Recovery Reconciler Controller.

(** ** Kinds of requests *)

Inductive Kind :=
| KClock | KMapOrder | KGetCR | KStatusUpdate
| KClusterVersion | KReadOCSInitialization | KWriteOCSInitialization
| KReadStorageCluster | KWriteStorageCluster
| KReadNode | KWriteNode | KReadPVC | KReadPV | KDeletePV
| KListPods | KDeletePod | KDeletePods (force : bool)
| KListDeployments | KWriteDeployment | KReadJob | KDeleteJob
| KReadTemplate | KProcessTemplate | KCreate | KExec | KLogs | KEvent | KMetric.

#[export] Instance Kind_eq_dec : EqDecision Kind.
Proof. solve_decision. Defined.

Section Kinds.
Context `{X : External}.

Definition kind_of {R} (e : Req R) : Kind :=
  match e with
  | Now => KClock
  | RangeKeys _ => KMapOrder
  | GetNodeRecovery _ => KGetCR
  | StatusUpdate _ => KStatusUpdate
  | GetClusterVersion _ => KClusterVersion
  | GetOCSInitialization _ _ => KReadOCSInitialization
  | UpdateOCSInitialization _ => KWriteOCSInitialization
  | GetStorageCluster _ _ => KReadStorageCluster
  | UpdateStorageCluster _ => KWriteStorageCluster
  | GetNode _ => KReadNode
  | UpdateNode _ => KWriteNode
  | GetPVC _ _ | ListPVCs _ => KReadPVC
  | GetPV _ | ListPVs _ => KReadPV
  | DeletePV _ => KDeletePV
  | ListPods _ => KListPods
  | DeletePod _ => KDeletePod
  | DeleteAllOfPods o => KDeletePods (bool_decide (is_Some (dao_GracePeriodSeconds o)))
  | ListDeployments _ => KListDeployments
  | UpdateDeployment _ => KWriteDeployment
  | GetJob _ _ => KReadJob
  | DeleteJob _ => KDeleteJob
  | GetTemplate _ _ => KReadTemplate
  | ProcessTemplate _ _ => KProcessTemplate
  | Create _ => KCreate
  | RunCommand _ _ => KExec
  | GetLogs _ => KLogs
  | Eventf _ _ _ _ _ => KEvent
  | CounterInc _ _ => KMetric
  end.

Definition kind (c : Call Req) : Kind := kind_of (projT2 c).

(** The requests of the given kinds. *)
Definition within (ks : list Kind) (c : Call Req) : Prop := kind c ∈ ks.

End Kinds.

(** What the case of a condition may do, besides reading the clock.  The
    requests that change the cluster are the ones to look at. *)
Definition footprint_of (t : RecoveryConditionType) : list Kind :=
  let removal_job := [KReadJob; KDeleteJob; KDeletePods true] in
  let template := [KReadTemplate; KProcessTemplate; KCreate] in
  let tools := [KClusterVersion; KReadOCSInitialization; KReadStorageCluster;
                KWriteOCSInitialization; KWriteStorageCluster] in
  match t with
  | EnableCephToolsPod => tools
  | WaitForCephToolsPodRunning => [KListPods]
  | WaitForOSDPodsStabilize => [KListPods]
  | LabelNodesWithPendingPods => [KListPods; KMapOrder; KReadNode; KWriteNode]
  | ManageCrashLoopBackOffPods => [KListPods; KReadPVC; KReadPV; KListDeployments; KWriteDeployment]
  | ForceDeleteRookCephOSDPods => [KListPods; KDeletePods true]
  | ProcessOCSRemovalTemplate => KListPods :: removal_job ++ template
  | CleanupOSDRemovalJob => [KMapOrder; KListPods; KLogs; KEvent] ++ removal_job ++ template
  | RetryForceCleanupOSDRemovalJob => [KMapOrder; KListPods; KLogs; KEvent] ++ removal_job
  | WaitForPersistenVolumeBound => [KReadPV; KDeletePV; KReadPVC; KListPods]
  | RestartStorageOperator => [KDeletePods false]
  | DeleteFailedPodsNodeAffinity => [KListPods; KDeletePod]
  | StorageClusterFitnessCheck => [KListPods; KExec]
  | DisableCephTools => KMetric :: tools
  | OtherConditionType _ => []
  end.

Section Footprints.
Context `{X : External} `{Init : !Initialized}.

(** Membership of a concrete kind. *)
Ltac kind_ok := cbv [within kind call projT2 kind_of]; apply (bool_decide_unpack _); vm_compute; exact I.

(** Membership at the head of a list whose tail is not concrete. *)
Ltac kind_ok' := cbv [within kind call projT2 kind_of]; set_solver.

Ltac requests :=
  intros; repeat first
    [ progress (auto with footprint nocore)
    | lazymatch goal with
      | |- only _ (trigger _) => apply only_trigger; kind_ok
      end
    | footprint_step
    | progress unfold status, setStatus, updateCondition, readCondition, setReason, setMessage,
        transitionNextCondition, failWith, failMessage, goto, returned, getLatestCondition ].

Lemma setStatus_footprint ks f : onlyS (within ks) (setStatus f).
Proof. done. Qed.

Lemma status_footprint ks : onlyS (within ks) status.
Proof. done. Qed.

Lemma readCondition_footprint ks i : onlyS (within ks) (readCondition i).
Proof. requests. Qed.

Lemma transitionNextCondition_footprint ks t :
  KClock ∈ ks -> onlyS (within ks) (transitionNextCondition t).
Proof.
  intros Hk. assert (only (within ks) (trigger Now)) as Hnow by by apply only_trigger.
  requests.
Qed.

Lemma goto_footprint ks t r : KClock ∈ ks -> onlyS (within ks) (goto t r).
Proof. intros Hk. apply onlyS_bind; [by apply transitionNextCondition_footprint|requests]. Qed.

#[local] Hint Resolve setStatus_footprint status_footprint readCondition_footprint : footprint.
#[local] Hint Extern 2 (onlyS _ (goto _ _)) => (apply goto_footprint; kind_ok) : footprint.

Lemma EnableCephToolsPod_footprint i :
  onlyS (within (KClock :: footprint_of EnableCephToolsPod)) (handleEnableCephToolsPod i).
Proof.
  unfold handleEnableCephToolsPod, isCephToolsEnabled, enableCephTools, setEnableCephToolsValue, getOCPVersion,
    getOSCInitialization, getStorageCluster.
  requests.
Qed.

Lemma WaitForCephToolsPodRunning_footprint i :
  onlyS (within (KClock :: footprint_of WaitForCephToolsPodRunning)) (handleWaitForCephToolsPodRunning i).
Proof.
  unfold handleWaitForCephToolsPodRunning, getCephToolsPodPhase, getRunningCephToolsPod.
  requests.
Qed.

Lemma WaitForOSDPodsStabilize_footprint i :
  onlyS (within (KClock :: footprint_of WaitForOSDPodsStabilize)) (handleWaitForOSDPodsStabilize i).
Proof.
  unfold handleWaitForOSDPodsStabilize, hasPodsInCreatingOrInitializingState.
  requests.
Qed.

Lemma LabelNodesWithPendingPods_footprint i :
  onlyS (within (KClock :: footprint_of LabelNodesWithPendingPods)) (handleLabelNodesWithPendingPods i).
Proof.
  unfold handleLabelNodesWithPendingPods, getPodsInPendingPhase, labelNodesWithPodsInPendingState, labelNode, assign.
  requests.
Qed.

Lemma ManageCrashLoopBackOffPods_footprint i :
  onlyS (within (KClock :: footprint_of ManageCrashLoopBackOffPods)) (handleManageCrashLoopBackOffPods i).
Proof.
  unfold handleManageCrashLoopBackOffPods, getOSDPodsInOperationalAndFailingStatus, getOSDPods,
    handleCrashLoopBackOffPods, getNodeDeviceNameFromPV, scaleRookCephOSDDeploymentToZero.
  requests.
Qed.

Lemma ForceDeleteRookCephOSDPods_footprint i :
  onlyS (within (KClock :: footprint_of ForceDeleteRookCephOSDPods)) (handleForceDeleteRookCephOSDPods i).
Proof.
  unfold handleForceDeleteRookCephOSDPods, getOSDIDsFromNodeDevices, countTerminating, getOSDPodsWithID,
    forceDeleteRookCephOSDPods.
  requests.
Qed.

Lemma ProcessOCSRemovalTemplate_footprint i :
  onlyS (within (KClock :: footprint_of ProcessOCSRemovalTemplate)) (handleProcessOCSRemovalTemplate i).
Proof.
  unfold handleProcessOCSRemovalTemplate, deleteOldOSDRemovalJob, getOSDPods, getOSDIDsFromNodeDevices,
    processOCSOSDRemovalTemplate, setParameterValue, createTemplateObject.
  requests.
Qed.

Lemma CleanupOSDRemovalJob_footprint i :
  onlyS (within (KClock :: footprint_of CleanupOSDRemovalJob)) (handleCleanupOSDRemovalJob i).
Proof.
  unfold handleCleanupOSDRemovalJob, getOSDRemovalPodJobCompletionStatus, listPodsWithSelectors, finishOSDRemovalJob,
    validateJobLogs, deleteOldOSDRemovalJob, getOSDIDsFromNodeDevices, processOCSOSDRemovalTemplate,
    setParameterValue, createTemplateObject.
  requests.
Qed.

Lemma RetryForceCleanupOSDRemovalJob_footprint i :
  onlyS (within (KClock :: footprint_of RetryForceCleanupOSDRemovalJob)) (handleRetryForceCleanupOSDRemovalJob i).
Proof.
  unfold handleRetryForceCleanupOSDRemovalJob, getOSDRemovalPodJobCompletionStatus, listPodsWithSelectors, finishOSDRemovalJob,
    validateJobLogs, deleteOldOSDRemovalJob.
  requests.
Qed.

Lemma WaitForPersistenVolumeBound_footprint i :
  onlyS (within (KClock :: footprint_of WaitForPersistenVolumeBound)) (handleWaitForPersistenVolumeBound i).
Proof.
  unfold handleWaitForPersistenVolumeBound, processNodeDevices, getPVsForNode, processPVForNode, countPVCsBoundToODSPods.
  requests.
Qed.

Lemma RestartStorageOperator_footprint i :
  onlyS (within (KClock :: footprint_of RestartStorageOperator)) (handleRestartStorageOperator i).
Proof.
  unfold handleRestartStorageOperator, deleteRookCephOperatorPod.
  requests.
Qed.

Lemma DeleteFailedPodsNodeAffinity_footprint i :
  onlyS (within (KClock :: footprint_of DeleteFailedPodsNodeAffinity)) (handleDeleteFailedPodsNodeAffinity i).
Proof.
  unfold handleDeleteFailedPodsNodeAffinity, deleteFailedPodsWithReasonNodeAffinity,
    getPodsInFailedPhaseWithReasonNodeAffinity.
  requests.
Qed.

Lemma StorageClusterFitnessCheck_footprint i :
  onlyS (within (KClock :: footprint_of StorageClusterFitnessCheck)) (handleStorageClusterFitnessCheck i).
Proof.
  unfold handleStorageClusterFitnessCheck, getCephHealthStatus, archiveCephDaemonCrashMessages, getRunningCephToolsPod.
  requests.
Qed.

Lemma DisableCephTools_footprint i :
  onlyS (within (KClock :: footprint_of DisableCephTools)) (handleDisableCephTools i).
Proof.
  unfold handleDisableCephTools, disableCephTools, setEnableCephToolsValue, getOCPVersion,
    getOSCInitialization, getStorageCluster, IncrementCompletedOperandCounter.
  requests.
Qed.

Lemma returned_footprint ks m : onlyS (within ks) m -> onlyS (within ks) (returned m).
Proof. intros Hm. apply onlyS_bind; [done|]. intros r. apply onlyS_ret. Qed.

#[local] Hint Resolve EnableCephToolsPod_footprint WaitForCephToolsPodRunning_footprint
  WaitForOSDPodsStabilize_footprint LabelNodesWithPendingPods_footprint
  ManageCrashLoopBackOffPods_footprint ForceDeleteRookCephOSDPods_footprint
  ProcessOCSRemovalTemplate_footprint CleanupOSDRemovalJob_footprint
  RetryForceCleanupOSDRemovalJob_footprint WaitForPersistenVolumeBound_footprint
  RestartStorageOperator_footprint DeleteFailedPodsNodeAffinity_footprint
  StorageClusterFitnessCheck_footprint DisableCephTools_footprint returned_footprint : footprint.

Lemma dispatch_footprint i t : onlyS (within (KClock :: footprint_of t)) (dispatch i t).
Proof. destruct t; cbn [dispatch]; auto with footprint nocore. Qed.

Lemma complete_footprint : onlyS (within [KClock; KEvent; KMetric]) complete.
Proof. unfold complete. requests. Qed.

Lemma timedOut_footprint latest : onlyS (within [KEvent; KMetric]) (timedOut latest).
Proof. unfold timedOut, IncrementFailedNodeCounter. requests. Qed.

Lemma within_mono {A} ks ks' (p : Op A) : ks ⊆ ks' -> only (within ks) p -> only (within ks') p.
Proof. intros Hks. apply only_mono. intros c. apply Hks. Qed.

(** The requests of one step, from the type of the latest condition: the clock,
    the events and metrics of the end of a recovery, and those of its case. *)
Lemma Reconcile_footprint cs c inst :
  Conditions (nr_Status inst) = cs ++ [c] ->
  only (within (KClock :: KEvent :: KMetric :: footprint_of (cond_Type c))) (Reconciler.Reconcile inst).
Proof.
  intros Hc. destruct (Reconcile_unfold cs c inst Hc) as (k & -> & Hk).
  split; [kind_ok'|]. intros now. destruct (Hk now) as (k' & -> & Hk').
  split; [kind_ok'|]. intros now'. rewrite Hk'. destruct (After _ _).
  - eapply within_mono; [|apply timedOut_footprint]. set_solver.
  - apply only_bind; [eapply within_mono; [|apply dispatch_footprint]; set_solver|].
    intros [[r|] inst']; [done|]. eapply within_mono; [|apply complete_footprint]. set_solver.
Qed.

(** What the controller does around a step, for any class of requests: it
    reads and writes the object, reads the clock, counts the operand, and at
    the end of a recovery emits one event and increments counters.  The rest
    is the case of the latest condition. *)
Lemma Controller_footprint (P : Call Req -> Prop) name :
  P (call (GetNodeRecovery name)) ->
  P (call Now) ->
  (forall inst, P (call (StatusUpdate inst))) ->
  P (call (CounterInc TotalOperandInstancesPrometheusCounter [])) ->
  (forall latest, onlyS P (timedOut latest)) ->
  onlyS P complete ->
  (forall i t, onlyS P (dispatch i t)) ->
  only P (Controller.Reconcile name).
Proof.
  intros Hget Hnow Hupd Hinc Hto Hco Hdis. unfold Controller.Reconcile.
  apply only_bind; [by apply only_trigger|]. intros got. unfold reconcileFetched. cbv zeta.
  destruct (IgnoreNotFound _); [done|]. destruct (_ || _); [done|]. destruct (finished _); [done|].
  generalize (match got with inl _ => zeroNodeRecovery | inr i => i end). intros inst.
  unfold processInstance. apply only_bind; [|intros inst1; apply only_bind].
  - unfold startRecovery. destruct (MetaTime_IsZero _); [|done].
    split; [done|]. intros t1. split; [done|]. intros t2. by split.
  - destruct (Conditions (nr_Status inst1)) as [|c cs _] eqn:Hc using rev_ind;
      [by rewrite Reconcile_empty|].
    destruct (Reconcile_unfold cs c inst1 Hc) as (k & -> & Hk). split; [done|]. intros now.
    destruct (Hk now) as (k' & -> & Hk'). split; [done|]. intros now'. rewrite Hk'.
    destruct (After _ _); [apply Hto|]. apply only_bind; [apply Hdis|]. by intros [[r|] i1]; [|apply Hco].
  - intros [[res err] inst2]. by apply only_bind; [apply only_trigger|].
Qed.

(** Writing the custom resource is left to the controller. *)
Lemma footprint_of_no_update t : KStatusUpdate ∉ KClock :: KEvent :: KMetric :: footprint_of t.
Proof. destruct t; vm_compute; set_solver. Qed.

End Footprints.
