(* ===== verification/StateMachine.v ===== *)
(** * StateMachine: the recovery as a state machine

    The abstract specification of a recovery: the graph of condition types
    ([edge]), the trails through it, the moves one reconciliation may make on
    the status of the object, and the invariant of the statuses the operator
    writes.  Reconciler.v and Controller.v are shown to implement it for every
    answer the environment may give; the only assumption is that the clock is
    past Go's zero time ([env] may be any environment whose answers are within
    [clock]). *)

From S2P Require Import Prelude Effects GoStd Api K8s Const Monitoring Ceph Recovery Reconciler Footprint Controller.

(** ** The graph *)

Definition edge (t t' : RecoveryConditionType) : bool :=
  match t, t' with
  | EnableCephToolsPod, WaitForCephToolsPodRunning
  | WaitForCephToolsPodRunning, WaitForOSDPodsStabilize
  | WaitForOSDPodsStabilize, LabelNodesWithPendingPods
  | LabelNodesWithPendingPods, ManageCrashLoopBackOffPods
  | ManageCrashLoopBackOffPods, RestartStorageOperator
  | ManageCrashLoopBackOffPods, ForceDeleteRookCephOSDPods
  | ForceDeleteRookCephOSDPods, RestartStorageOperator
  | ForceDeleteRookCephOSDPods, ForceDeleteRookCephOSDPods
  | ForceDeleteRookCephOSDPods, ProcessOCSRemovalTemplate
  | ProcessOCSRemovalTemplate, CleanupOSDRemovalJob
  | CleanupOSDRemovalJob, RetryForceCleanupOSDRemovalJob
  | CleanupOSDRemovalJob, WaitForPersistenVolumeBound
  | RetryForceCleanupOSDRemovalJob, WaitForPersistenVolumeBound
  | WaitForPersistenVolumeBound, RestartStorageOperator
  | RestartStorageOperator, DeleteFailedPodsNodeAffinity
  | DeleteFailedPodsNodeAffinity, StorageClusterFitnessCheck
  | StorageClusterFitnessCheck, DisableCephTools => true
  | _, _ => false
  end.

(** The transitions of the recoveries that happen: [ForceDeleteRookCephOSDPods]
    is only entered with failing pods, and then it never goes straight to
    [RestartStorageOperator]. *)
Definition live_edge (t t' : RecoveryConditionType) : bool :=
  edge t t' && negb (bool_decide (t = ForceDeleteRookCephOSDPods /\ t' = RestartStorageOperator)).

Definition rank (t : RecoveryConditionType) : nat :=
  match t with
  | EnableCephToolsPod => 0
  | WaitForCephToolsPodRunning => 1
  | WaitForOSDPodsStabilize => 2
  | LabelNodesWithPendingPods => 3
  | ManageCrashLoopBackOffPods => 4
  | ForceDeleteRookCephOSDPods => 5
  | ProcessOCSRemovalTemplate => 6
  | CleanupOSDRemovalJob => 7
  | RetryForceCleanupOSDRemovalJob => 8
  | WaitForPersistenVolumeBound => 9
  | RestartStorageOperator => 10
  | DeleteFailedPodsNodeAffinity => 11
  | StorageClusterFitnessCheck => 12
  | DisableCephTools => 13
  | OtherConditionType _ => 14
  end.

Lemma live_edge_spec t t' :
  live_edge t t' = true <->
  edge t t' = true /\ ~ (t = ForceDeleteRookCephOSDPods /\ t' = RestartStorageOperator).
Proof. unfold live_edge. rewrite andb_true_iff, negb_true_iff, bool_decide_eq_false. done. Qed.

Lemma edge_rank t t' :
  edge t t' = true ->
  rank t < rank t' \/ (t = ForceDeleteRookCephOSDPods /\ t' = ForceDeleteRookCephOSDPods).
Proof. destruct t, t'; cbn; intros H; try discriminate H; auto with lia. Qed.

(** A trail: the types of the conditions of a recovery, oldest first, and the
    current one. *)
Inductive trail : list RecoveryConditionType -> RecoveryConditionType -> Prop :=
| trail_start : trail [EnableCephToolsPod] EnableCephToolsPod
| trail_step l t t' : trail l t -> live_edge t t' = true -> trail (l ++ [t']) t'.

Lemma live_edge_rank t t' :
  live_edge t t' = true ->
  rank t < rank t' \/ (t = ForceDeleteRookCephOSDPods /\ t' = ForceDeleteRookCephOSDPods).
Proof. intros [He _]%live_edge_spec. by apply edge_rank. Qed.

(** ** Moves *)

(** What a reconciliation may have written in a condition it leaves. *)
Definition touched (c c' : RecoveryCondition) : Prop :=
  cond_Type c' = cond_Type c /\ cond_LastTransitionTime c' = cond_LastTransitionTime c
  /\ cond_Status c' = cond_Status c.

Definition closed (c c' : RecoveryCondition) : Prop :=
  cond_Type c' = cond_Type c /\ cond_LastTransitionTime c' = cond_LastTransitionTime c
  /\ cond_Status c' = StatusFalse.

Definition fresh (n : RecoveryCondition) : Prop :=
  cond_Reason n = "" /\ cond_Message n = "" /\ cond_Status n = StatusTrue.

(** The rest of the status. *)
Record frame (t : RecoveryConditionType) (st st' : NodeRecoveryStatus) : Prop := {
  frame_StartTime : StartTime st' = StartTime st;
  frame_PendingPods : PendingPods st = true -> PendingPods st' = true;
  frame_CrashLoop : CrashLoopBackOffPods st = true -> CrashLoopBackOffPods st' = true;
  frame_Keep : t <> EnableCephToolsPod -> KeepCephToolsPod st' = KeepCephToolsPod st;
  frame_NodeDevice : Forall is_Some (NodeDevice st) -> Forall is_Some (NodeDevice st');
  frame_NodeDevice_eq : t <> ManageCrashLoopBackOffPods -> NodeDevice st' = NodeDevice st;
  frame_Pending_eq : t <> LabelNodesWithPendingPods -> PendingPods st' = PendingPods st;
  frame_CrashLoop_eq : t <> ManageCrashLoopBackOffPods -> CrashLoopBackOffPods st' = CrashLoopBackOffPods st;
  frame_Operational : t <> ManageCrashLoopBackOffPods -> OperationalOSDIDs st' = OperationalOSDIDs st;
}.

(** [move cs c st st']: from a status whose conditions are [cs ++ [c]]. *)
Inductive move (cs : list RecoveryCondition) (c : RecoveryCondition) (st st' : NodeRecoveryStatus)
  : Prop :=
| move_stay c' :
    Conditions st' = cs ++ [c'] -> touched c c' ->
    Phase st' = Phase st -> CompletionTime st' = CompletionTime st -> move cs c st st'
| move_advance c' n :
    Conditions st' = cs ++ [c'; n] -> closed c c' -> fresh n ->
    edge (cond_Type c) (cond_Type n) = true ->
    (cond_Type n = ForceDeleteRookCephOSDPods -> CrashLoopBackOffPods st' = true) ->
    (cond_Type c = ForceDeleteRookCephOSDPods -> cond_Type n = RestartStorageOperator ->
     CrashLoopBackOffPods st = false) ->
    Phase st' = Phase st -> CompletionTime st' = CompletionTime st -> move cs c st st'
| move_fail c' :
    Conditions st' = cs ++ [c'] -> touched c c' ->
    Phase st' = FailedPhase -> CompletionTime st' = CompletionTime st -> move cs c st st'
| move_complete c' t :
    Conditions st' = cs ++ [c'] -> touched c c' ->
    (cond_Type c = DisableCephTools \/ exists s, cond_Type c = OtherConditionType s) ->
    Phase st' = CompletedPhase -> CompletionTime st' = Some t -> move cs c st st'.

(** ** The invariant of a status *)

Record wf (st : NodeRecoveryStatus) : Prop := {
  wf_conditions : exists cs c,
    Conditions st = cs ++ [c] /\ trail (map cond_Type (Conditions st)) (cond_Type c)
    /\ Forall (fun c => cond_Status c = StatusFalse) cs /\ cond_Status c = StatusTrue;
  wf_started : exists t, StartTime st = Some t /\ t <> zeroTime;
  wf_phase : Phase st = RunningPhase \/ Phase st = FailedPhase \/ Phase st = CompletedPhase;
  wf_completed : is_Some (CompletionTime st) <-> Phase st = CompletedPhase;
  wf_completed_last : Phase st = CompletedPhase ->
    exists cs c, Conditions st = cs ++ [c] /\ cond_Type c = DisableCephTools;
  wf_devices : Forall is_Some (NodeDevice st);
  wf_crashloop : ForceDeleteRookCephOSDPods ∈ map cond_Type (Conditions st) ->
    CrashLoopBackOffPods st = true;
}.

(** ** Trails *)

Lemma trail_last l t : trail l t -> exists l', l = l' ++ [t].
Proof. induction 1 as [|l t t']; [by exists []|]. by exists l. Qed.

Lemma trail_rank l t : trail l t -> Forall (fun u => rank u <= rank t) l.
Proof.
  induction 1 as [|l t t' _ IH He]; [by constructor|].
  apply Forall_app. split; [|by constructor].
  eapply Forall_impl; [exact IH|]. cbn. intros u Hu.
  destruct (live_edge_rank _ _ He) as [?|[-> ->]]; lia.
Qed.

Lemma trail_named l t : trail l t -> forall s, t <> OtherConditionType s.
Proof. induction 1 as [|l t t' _ _ He]; intros s Hs; [done|]. subst t'. by destruct t. Qed.

(** Each condition type but the repeatable one occurs once. *)
Lemma trail_NoDup l t :
  trail l t -> NoDup (filter (fun u => u <> ForceDeleteRookCephOSDPods) l).
Proof.
  induction 1 as [|l t t' Ht IH He]; [by apply NoDup_singleton|].
  rewrite filter_app. apply NoDup_app. split; [done|]. split.
  - intros u [Hu1 Hu2]%list_elem_of_filter [Hu3 ->%list_elem_of_singleton]%list_elem_of_filter.
    pose proof (trail_rank _ _ Ht) as Hr. rewrite Forall_forall in Hr. specialize (Hr _ Hu2).
    destruct (live_edge_rank _ _ He) as [?|[_ ?]]; [lia|done].
  - rewrite filter_cons. case_decide; [apply NoDup_singleton|constructor].
Qed.

Lemma trail_incl l t : trail l t -> l ⊆ map fst namedConditionTypes.
Proof.
  induction 1 as [|l t t' Ht IH He]; [set_solver|].
  intros u [Hu|Hu]%elem_of_app; [by apply IH|]. apply list_elem_of_singleton in Hu as ->.
  pose proof (trail_named _ _ (trail_step _ _ _ Ht He)) as Hn.
  destruct t'; cbn; set_solver.
Qed.

(** The conditions a trail cannot go round: those of every recovery, and those of
    a recovery with failing pods. *)
Definition always : list RecoveryConditionType :=
  [EnableCephToolsPod; WaitForCephToolsPodRunning; WaitForOSDPodsStabilize; LabelNodesWithPendingPods;
   ManageCrashLoopBackOffPods; RestartStorageOperator; DeleteFailedPodsNodeAffinity;
   StorageClusterFitnessCheck; DisableCephTools].

Definition with_failing : list RecoveryConditionType :=
  [ProcessOCSRemovalTemplate; CleanupOSDRemovalJob; WaitForPersistenVolumeBound].

Lemma trail_always l t : trail l t -> forall m, m ∈ always -> rank m <= rank t -> m ∈ l.
Proof.
  induction 1 as [|l t t' Ht IH He]; intros m Hm Hr.
  - destruct m; cbn in Hr; try lia. set_solver.
  - destruct (decide (m = t')) as [->|Hne]; [set_solver|].
    apply elem_of_app; left. apply IH; [done|].
    apply live_edge_spec in He as [He _].
    destruct t; try discriminate He; destruct t'; try discriminate He; destruct m; cbn in *; try lia; set_solver.
Qed.

Lemma trail_with_failing l t :
  trail l t -> ForceDeleteRookCephOSDPods ∈ l -> forall m, m ∈ with_failing -> rank m <= rank t -> m ∈ l.
Proof.
  induction 1 as [|l t t' Ht IH He]; intros Hfd m Hm Hr.
  - apply list_elem_of_singleton in Hfd. done.
  - destruct (decide (m = t')) as [->|Hne]; [set_solver|].
    pose proof (trail_rank _ _ Ht) as Hrank. rewrite Forall_forall in Hrank.
    apply live_edge_spec in He as [He Hlive].
    apply elem_of_app in Hfd as [Hfd|Hfd%list_elem_of_singleton].
    + specialize (Hrank _ Hfd). apply elem_of_app; left. apply IH; [done|done|].
      destruct t; try discriminate He; destruct t'; try discriminate He; destruct m; cbn in *; try lia;
        try tauto; set_solver.
    + subst t'. exfalso. destruct m; cbn in Hr; try lia; set_solver.
Qed.

(** ** What holds of the status while a case of the switch is running *)

Record during (cs : list RecoveryCondition) (c : RecoveryCondition) (st st' : NodeRecoveryStatus)
  : Prop := {
  during_frame : frame (cond_Type c) st st';
  during_conditions : exists c', Conditions st' = cs ++ [c'] /\ touched c c';
  during_Phase : Phase st' = Phase st;
  during_CompletionTime : CompletionTime st' = CompletionTime st;
}.

Lemma frame_refl t st : frame t st st.
Proof. by constructor. Qed.

Lemma during_refl cs c st : Conditions st = cs ++ [c] -> during cs c st st.
Proof. intros H. constructor; [apply frame_refl| |done..]. by exists c. Qed.

Lemma during_update cs c st st' f :
  (forall c, touched c (f c)) -> during cs c st st' ->
  during cs c st (updateCondition (length cs) f st').
Proof.
  intros Hf [Hfr (c' & Hc & Ht) Hp Hct]. constructor; [by destruct Hfr| |done..].
  exists (f c'). cbn. rewrite Hc, alter_snoc. split; [done|].
  destruct (Hf c') as (? & ? & ?), Ht as (? & ? & ?). unfold touched. intuition congruence.
Qed.

Lemma touched_Reason r c : touched c (set_cond_Reason r c).
Proof. done. Qed.
Lemma touched_Message m c : touched c (set_cond_Message m c).
Proof. done. Qed.
Lemma touched_LastProbeTime t c : touched c (set_cond_LastProbeTime t c).
Proof. done. Qed.
#[export] Hint Resolve touched_Reason touched_Message touched_LastProbeTime : odf.
#[export] Hint Resolve during_update during_refl : odf.

(** The assignments to the other fields. *)
Ltac field_update := intros [[] ? ? ?]; constructor; [constructor|..]; cbn; intros; auto; congruence.

Lemma during_Keep cs c st st' b :
  cond_Type c = EnableCephToolsPod -> during cs c st st' -> during cs c st (set_KeepCephToolsPod b st').
Proof. intros Hc. field_update. Qed.

Lemma during_Pending cs c st st' :
  cond_Type c = LabelNodesWithPendingPods -> during cs c st st' -> during cs c st (set_PendingPods true st').
Proof. intros Hc. field_update. Qed.

Lemma during_CrashLoop cs c st st' :
  cond_Type c = ManageCrashLoopBackOffPods -> during cs c st st' ->
  during cs c st (set_CrashLoopBackOffPods true st').
Proof. intros Hc. field_update. Qed.

Lemma during_Forced cs c st st' b : during cs c st st' -> during cs c st (set_ForcedOSDRemoval b st').
Proof. field_update. Qed.

Lemma during_Operational cs c st st' ids :
  cond_Type c = ManageCrashLoopBackOffPods -> during cs c st st' ->
  during cs c st (set_OperationalOSDIDs ids st').
Proof. intros Hc. field_update. Qed.

Lemma during_NodeDevice cs c st st' nds :
  cond_Type c = ManageCrashLoopBackOffPods -> Forall is_Some nds -> during cs c st st' ->
  during cs c st (set_NodeDevice nds st').
Proof. intros Hc Hnds. field_update. Qed.

#[export] Hint Resolve during_Keep during_Pending during_CrashLoop during_Forced during_Operational
  during_NodeDevice : odf.

(** ** Every case of the switch makes a move *)

Section Moves.
Context `{X : External} `{Init : !Initialized} (env : Answers Req).

Abbreviation M := (permissive env).
Abbreviation trivial := (fun _ : unit => True).

(** The specification of a handler that was entered with [inst0]. *)
Definition moved (cs : list RecoveryCondition) (c : RecoveryCondition) (inst0 inst : NodeRecovery)
  : Prop :=
  nr_Name inst = nr_Name inst0 /\ nr_DeletionTimestamp inst = nr_DeletionTimestamp inst0
  /\ frame (cond_Type c) (nr_Status inst0) (nr_Status inst)
  /\ move cs c (nr_Status inst0) (nr_Status inst).

(** The state while it runs. *)
Definition running (cs : list RecoveryCondition) (c : RecoveryCondition) (inst0 inst : NodeRecovery)
  : Prop :=
  nr_Name inst = nr_Name inst0 /\ nr_DeletionTimestamp inst = nr_DeletionTimestamp inst0
  /\ during cs c (nr_Status inst0) (nr_Status inst).

Implicit Types (inst : NodeRecovery).

Lemma running_set cs c inst0 inst f :
  running cs c inst0 inst ->
  (during cs c (nr_Status inst0) (nr_Status inst) -> during cs c (nr_Status inst0) (f (nr_Status inst))) ->
  running cs c inst0 (set_Status f inst).
Proof. intros (? & ? & ?) Hf. split_and!; auto. Qed.

Lemma running_stay cs c inst0 inst : running cs c inst0 inst -> moved cs c inst0 inst.
Proof.
  intros (? & ? & [Hf (c' & ? & ?) ? ?]). split_and!; [done..|]. by eapply move_stay.
Qed.

Lemma running_fail cs c inst0 inst :
  running cs c inst0 inst -> moved cs c inst0 (set_Status (set_Phase FailedPhase) inst).
Proof.
  intros (? & ? & [Hf (c' & ? & ?) ? ?]). split_and!; [done..|by destruct Hf|]. by eapply move_fail.
Qed.

(** The state in which the case of the latest condition starts. *)
Lemma running_probed now cs c inst :
  Conditions (nr_Status inst) = cs ++ [c] -> running cs c inst (probed now cs inst).
Proof.
  intros Hc. apply running_set; [by split_and!; [..|apply during_refl]|].
  intros Hd. apply during_update; [auto with odf|done].
Qed.

(** Primitive operations. *)
Lemma wp_now {A} (k : Time -> StateT Req NodeRecovery A) inst Q QP :
  (forall now, wp M (k now inst) tt Q QP) -> wp M ((lift (trigger Now) ≫= k) inst) tt Q QP.
Proof. intros Hk. split; [done|]. intros now [] _. apply Hk. Qed.

Lemma wp_readCondition {A} cs c inst0 inst (k : RecoveryCondition -> StateT Req NodeRecovery A) s Q QP :
  running cs c inst0 inst ->
  (forall c', Conditions (nr_Status inst) = cs ++ [c'] -> touched c c' -> wp M (k c' inst) s Q QP) ->
  wp M ((readCondition (length cs) ≫= k) inst) s Q QP.
Proof.
  intros (_ & _ & [_ (c' & Hc & Ht) _ _]) Hk. apply wp_state_bind.
  unfold readCondition. apply wp_state_bind, wp_status. cbn. rewrite Hc, lookup_snoc. cbn. by apply Hk.
Qed.

Lemma wp_transition cs c inst0 inst next s (Q : unit * NodeRecovery -> unit -> Prop) QP :
  running cs c inst0 inst -> edge (cond_Type c) next = true ->
  (next = ForceDeleteRookCephOSDPods -> CrashLoopBackOffPods (nr_Status inst) = true) ->
  (cond_Type c = ForceDeleteRookCephOSDPods -> next = RestartStorageOperator ->
   CrashLoopBackOffPods (nr_Status inst) = false) ->
  (forall inst', moved cs c inst0 inst' -> Q ((), inst') s) ->
  wp M (transitionNextCondition next inst) s Q QP.
Proof.
  intros (Hn & Hd & [Hf (c' & Hc & Ht) Hp Hct]) He Hcr Hno HQ. destruct s.
  unfold transitionNextCondition. apply wp_status. rewrite Hc, length_snoc.
  apply wp_setStatus.
  apply wp_now. intros t1. apply wp_now. intros t2.
  cbn. apply HQ. split_and!; [done..|by destruct Hf|]. cbn.
  eapply move_advance; cbn.
  - rewrite Hc, alter_snoc, <- app_assoc. reflexivity.
  - destruct Ht as (? & ? & ?). by split_and!.
  - by split_and!.
  - done.
  - done.
  - intros Hfd Hnext. specialize (Hno Hfd Hnext). apply not_true_is_false. intros Htrue.
    apply (frame_CrashLoop _ _ _ Hf) in Htrue. congruence.
  - done.
  - done.
Qed.

Lemma wp_goto cs c inst0 inst next res s (Q : (Result * option error) * NodeRecovery -> unit -> Prop) QP :
  running cs c inst0 inst -> edge (cond_Type c) next = true ->
  (next = ForceDeleteRookCephOSDPods -> CrashLoopBackOffPods (nr_Status inst) = true) ->
  (cond_Type c = ForceDeleteRookCephOSDPods -> next = RestartStorageOperator ->
   CrashLoopBackOffPods (nr_Status inst) = false) ->
  (forall r inst', moved cs c inst0 inst' -> Q (r, inst') s) ->
  wp M (goto next res inst) s Q QP.
Proof.
  intros Hr He Hcr Hno HQ. unfold goto. apply wp_state_bind. eapply wp_transition; eauto.
  intros inst' Hm. by apply HQ.
Qed.

End Moves.

(** *** Symbolic execution of the handlers *)

(** [running] of the current instance, from the assignments made so far. *)
Ltac solve_running :=
  first
    [ eassumption
    | eapply running_set;
      [solve_running
      |intros; first [solve [auto with odf] | solve [apply during_update; [auto with odf|assumption]]]] ].

Ltac handler_step :=
  lazymatch goal with
  | |- wp _ (failWith _ _ _ _) _ _ _ => unfold failWith
  | |- wp _ (failMessage _ _ _) _ _ _ => unfold failMessage
  | |- wp _ ((setReason _ _ ≫= _) _) _ _ _ => unfold setReason
  | |- wp _ ((setMessage _ _ ≫= _) _) _ _ _ => unfold setMessage
  | |- wp _ ((setStatus _ ≫= _) _) _ _ _ => apply wp_setStatus
  | |- wp _ ((status ≫= _) _) _ _ _ => apply wp_status
  | |- wp _ ((get ≫= _) _) _ _ _ => apply wp_get
  | |- wp _ ((readCondition _ ≫= _) _) _ _ _ =>
      eapply wp_readCondition; [solve_running|intros ? ? ?]
  | |- wp _ ((lift _ ≫= _) _) _ _ _ => apply wp_lift_any; [done..|intros ? []]
  | |- wp _ (goto _ _ _) _ _ _ =>
      eapply wp_goto;
        [solve_running
        |match goal with H : cond_Type _ = _ |- _ => rewrite H end; reflexivity
        |by intros
        |intros; first [congruence|assumption]
        |by intros]
  | |- wp _ ((let '(_, _) := ?x in _) _) _ _ _ => destruct x
  | |- wp _ (match ?x with _ => _ end _) _ _ _ => destruct x
  | |- wp _ (mret _ _) _ _ _ => cbn; first [apply running_stay; solve_running | solve_running]
  end.

Ltac handler := intros Hrun Hc; repeat handler_step.

Section Handlers.
Context `{X : External} `{Init : !Initialized} (env : Answers Req).
Implicit Types (inst : NodeRecovery).

Abbreviation M := (permissive env).
Abbreviation trivial := (fun _ : unit => True).
Abbreviation spec cs c inst0 := (fun r (_ : unit) => moved cs c inst0 (snd r)).

Section Cases.
Context (cs : list RecoveryCondition) (c : RecoveryCondition) (inst0 inst : NodeRecovery).

Lemma EnableCephToolsPod_moves :
  running cs c inst0 inst -> cond_Type c = EnableCephToolsPod ->
  wp M (handleEnableCephToolsPod (length cs) inst) tt (spec cs c inst0) trivial.
Proof. unfold handleEnableCephToolsPod. handler. Qed.

Lemma WaitForCephToolsPodRunning_moves :
  running cs c inst0 inst -> cond_Type c = WaitForCephToolsPodRunning ->
  wp M (handleWaitForCephToolsPodRunning (length cs) inst) tt (spec cs c inst0) trivial.
Proof. unfold handleWaitForCephToolsPodRunning. handler. Qed.

Lemma WaitForOSDPodsStabilize_moves :
  running cs c inst0 inst -> cond_Type c = WaitForOSDPodsStabilize ->
  wp M (handleWaitForOSDPodsStabilize (length cs) inst) tt (spec cs c inst0) trivial.
Proof. unfold handleWaitForOSDPodsStabilize. handler. Qed.

Lemma LabelNodesWithPendingPods_moves :
  running cs c inst0 inst -> cond_Type c = LabelNodesWithPendingPods ->
  wp M (handleLabelNodesWithPendingPods (length cs) inst) tt (spec cs c inst0) trivial.
Proof. unfold handleLabelNodesWithPendingPods. handler. Qed.

Lemma ProcessOCSRemovalTemplate_moves :
  running cs c inst0 inst -> cond_Type c = ProcessOCSRemovalTemplate ->
  wp M (handleProcessOCSRemovalTemplate (length cs) inst) tt (spec cs c inst0) trivial.
Proof. unfold handleProcessOCSRemovalTemplate. handler. Qed.

Lemma RestartStorageOperator_moves :
  running cs c inst0 inst -> cond_Type c = RestartStorageOperator ->
  wp M (handleRestartStorageOperator (length cs) inst) tt (spec cs c inst0) trivial.
Proof. unfold handleRestartStorageOperator. handler. Qed.

Lemma DeleteFailedPodsNodeAffinity_moves :
  running cs c inst0 inst -> cond_Type c = DeleteFailedPodsNodeAffinity ->
  wp M (handleDeleteFailedPodsNodeAffinity (length cs) inst) tt (spec cs c inst0) trivial.
Proof. unfold handleDeleteFailedPodsNodeAffinity. handler. Qed.

Lemma StorageClusterFitnessCheck_moves :
  running cs c inst0 inst -> cond_Type c = StorageClusterFitnessCheck ->
  wp M (handleStorageClusterFitnessCheck (length cs) inst) tt (spec cs c inst0) trivial.
Proof. unfold handleStorageClusterFitnessCheck. handler. Qed.

Lemma WaitForPersistenVolumeBound_moves :
  running cs c inst0 inst -> cond_Type c = WaitForPersistenVolumeBound ->
  wp M (handleWaitForPersistenVolumeBound (length cs) inst) tt (spec cs c inst0) trivial.
Proof. unfold handleWaitForPersistenVolumeBound. handler. Qed.

Lemma finishOSDRemovalJob_moves podName :
  running cs c inst0 inst ->
  cond_Type c = CleanupOSDRemovalJob \/ cond_Type c = RetryForceCleanupOSDRemovalJob ->
  wp M (finishOSDRemovalJob (length cs) podName inst) tt (spec cs c inst0) trivial.
Proof.
  intros Hrun Hc. unfold finishOSDRemovalJob. repeat handler_step.
  - cbn. apply running_fail. solve_running.
  - destruct Hc as [Hc|Hc]; repeat handler_step.
Qed.

Lemma CleanupOSDRemovalJob_moves :
  running cs c inst0 inst -> cond_Type c = CleanupOSDRemovalJob ->
  wp M (handleCleanupOSDRemovalJob (length cs) inst) tt (spec cs c inst0) trivial.
Proof.
  unfold handleCleanupOSDRemovalJob. handler. apply finishOSDRemovalJob_moves; auto.
Qed.

Lemma RetryForceCleanupOSDRemovalJob_moves :
  running cs c inst0 inst -> cond_Type c = RetryForceCleanupOSDRemovalJob ->
  wp M (handleRetryForceCleanupOSDRemovalJob (length cs) inst) tt (spec cs c inst0) trivial.
Proof.
  unfold handleRetryForceCleanupOSDRemovalJob. handler.
  - cbn. apply running_fail. solve_running.
  - apply finishOSDRemovalJob_moves; auto.
Qed.

Lemma ForceDeleteRookCephOSDPods_moves :
  running cs c inst0 inst -> cond_Type c = ForceDeleteRookCephOSDPods ->
  wp M (handleForceDeleteRookCephOSDPods (length cs) inst) tt (spec cs c inst0) trivial.
Proof.
  intros Hrun Hc. unfold handleForceDeleteRookCephOSDPods. apply wp_status.
  destruct (CrashLoopBackOffPods (nr_Status inst)) eqn:Hcr; cbn [negb]; repeat handler_step.
Qed.

(** The devices it returns are all there: a pod without a PVC label is a nil
    pointer, which the next statement follows. *)
Lemma handleCrashLoopBackOffPods_devices pods :
  wp M (handleCrashLoopBackOffPods pods) tt
    (fun r _ => r.2 = None -> Forall is_Some r.1.1) trivial.
Proof.
  unfold handleCrashLoopBackOffPods. apply wp_bind.
  eapply wp_forM_ret with (I := fun _ nodePV _ => Forall is_Some nodePV); [constructor| |].
  - intros done_ p acc [] _ Hacc.
    eapply wp_seq with (Q1 := fun _ _ => True); [by apply wp_trivial|].
    intros [err|[nd|]] [] _; [by cbn| |by cbn].
    eapply wp_seq with (Q1 := fun _ _ => True); [by apply wp_trivial|].
    intros ? [] _. eapply wp_seq with (Q1 := fun _ _ => True); [by apply wp_trivial|].
    intros [err|] [] _; cbn; [by intros|]. apply Forall_app. split; [done|by repeat constructor].
  - intros acc [] Hacc. by cbn.
Qed.

Lemma ManageCrashLoopBackOffPods_moves :
  running cs c inst0 inst -> cond_Type c = ManageCrashLoopBackOffPods ->
  wp M (handleManageCrashLoopBackOffPods (length cs) inst) tt (spec cs c inst0) trivial.
Proof.
  intros Hrun Hc. unfold handleManageCrashLoopBackOffPods.
  apply wp_lift_any; [done..|]. intros [err|[operational failing]] []; [by repeat handler_step|].
  destruct (decide _); [by repeat handler_step|].
  assert (forall inst', running cs c inst0 inst' ->
    wp M ((lift (handleCrashLoopBackOffPods failing) ≫= fun '(nodeDevice, c', err) =>
      match err with
      | Some err => setReason (length cs) FailedHandleCrashLoopBackOffPods;;
                    setMessage (length cs) (Error err);; mret (c', Some err)
      | None => setStatus (set_NodeDevice nodeDevice);;
                goto ForceDeleteRookCephOSDPods (RequeueIn (15 * Second))
      end) (set_Status (set_CrashLoopBackOffPods true) inst')) tt (spec cs c inst0) trivial) as Hrest.
  { intros inst' Hrun'. eapply wp_lift_seq; [apply handleCrashLoopBackOffPods_devices|].
    intros [[nds res] [err|]] [] Hnds; cbn in Hnds; [repeat handler_step|].
    specialize (Hnds eq_refl). repeat handler_step. }
  destruct (decide (0 < length operational)).
  - apply (Hrest (set_Status (set_OperationalOSDIDs (listOperationalOSDIDsFromPods operational)) inst)).
    solve_running.
  - by apply (Hrest inst).
Qed.

(** *** The last case, and the end of the switch *)

Abbreviation ends := (cond_Type c = DisableCephTools \/ exists s, cond_Type c = OtherConditionType s).

(** [None]: the case fell out of the switch. *)
Abbreviation switch_spec := (fun r (_ : unit) =>
  match fst r with
  | Some _ => moved cs c inst0 (snd r)
  | None => running cs c inst0 (snd r) /\ ends
  end).

Lemma DisableCephTools_moves :
  running cs c inst0 inst -> cond_Type c = DisableCephTools ->
  wp M (handleDisableCephTools (length cs) inst) tt switch_spec trivial.
Proof.
  intros Hrun Hc. unfold handleDisableCephTools. apply wp_status, wp_state_bind.
  eapply wp_mono with (Q := fun r _ => r.2 = inst) (QP := trivial); [|done|].
  - intros [err inst'] [] ->. cbn [fst snd]. destruct err as [err|].
    + apply wp_state_bind. unfold failWith. repeat handler_step.
    + apply wp_get, wp_lift_any; [done..|]. intros _ []. cbn. auto.
  - destruct (negb _); [|by cbn]. apply wp_lift.
    eapply wp_mono; [| |by apply wp_trivial]; by auto.
Qed.

Lemma returned_moves (m : StateT Req NodeRecovery (Result * option error)) :
  wp M (m inst) tt (spec cs c inst0) trivial -> wp M (returned m inst) tt switch_spec trivial.
Proof.
  intros H. unfold returned. apply wp_state_bind. eapply wp_mono; [|done|exact H].
  intros [r inst'] []. by cbn.
Qed.

Lemma dispatch_moves t :
  running cs c inst0 inst -> cond_Type c = t ->
  wp M (dispatch (length cs) t inst) tt switch_spec trivial.
Proof.
  intros Hrun Hc. destruct t; cbn [dispatch];
    first [apply returned_moves | idtac].
  - by apply EnableCephToolsPod_moves.
  - by apply WaitForCephToolsPodRunning_moves.
  - by apply WaitForOSDPodsStabilize_moves.
  - by apply LabelNodesWithPendingPods_moves.
  - by apply ManageCrashLoopBackOffPods_moves.
  - by apply ForceDeleteRookCephOSDPods_moves.
  - by apply ProcessOCSRemovalTemplate_moves.
  - by apply CleanupOSDRemovalJob_moves.
  - by apply RetryForceCleanupOSDRemovalJob_moves.
  - by apply WaitForPersistenVolumeBound_moves.
  - by apply RestartStorageOperator_moves.
  - by apply DeleteFailedPodsNodeAffinity_moves.
  - by apply StorageClusterFitnessCheck_moves.
  - by apply DisableCephTools_moves.
  - cbn. split; [done|]. right. eauto.
Qed.

Lemma complete_moves :
  running cs c inst0 inst -> ends -> wp M (complete inst) tt (spec cs c inst0) trivial.
Proof.
  intros (? & ? & [Hf (c' & ? & ?) ? ?]) Hends. unfold complete.
  apply wp_setStatus, wp_lift_any; [done..|]. intros now [].
  apply wp_setStatus, wp_get. apply wp_lift_any; [done..|]. intros start [].
  apply wp_lift_any; [done..|]. intros _ []. apply wp_lift_any; [done..|]. intros _ []. cbn.
  split_and!; [done..|by destruct Hf|]. by eapply move_complete.
Qed.

Lemma timedOut_moves latest :
  running cs c inst0 inst -> wp M (timedOut latest inst) tt (spec cs c inst0) trivial.
Proof.
  intros Hrun. unfold timedOut. apply wp_setStatus, wp_get.
  apply wp_lift_any; [done..|]. intros _ []. apply wp_lift_any; [done..|]. intros _ [].
  apply wp_lift_any; [done..|]. intros _ []. cbn. by apply running_fail.
Qed.

End Cases.

(** One reconciliation of an object with conditions makes one move. *)
Lemma Reconcile_moves cs c inst :
  Conditions (nr_Status inst) = cs ++ [c] ->
  wp M (Reconciler.Reconcile inst) tt (fun r _ => moved cs c inst (snd r)) trivial.
Proof.
  intros Hc. unfold Reconciler.Reconcile. apply wp_state_bind.
  unfold getLatestCondition. apply wp_status. rewrite Hc, length_snoc.
  apply wp_lift_any; [done..|]. intros now []. apply wp_setStatus. cbn [wp mret stateT_ret fst snd].
  set (inst1 := set_Status _ inst).
  assert (running cs c inst inst1) as Hrun.
  { apply running_set; [by split_and!; [..|apply during_refl]|auto with odf]. }
  eapply wp_readCondition; [exact Hrun|]. intros c' Hc' (Hty & _).
  apply wp_lift_any; [done..|]. intros now' []. destruct (After _ _).
  - by apply timedOut_moves.
  - rewrite Hty. apply wp_state_bind. eapply wp_mono; [|done|by apply dispatch_moves].
    intros [[r|] inst2] [] H; cbn in *; [done|]. destruct H as [H1 H2]. by apply complete_moves.
Qed.

End Handlers.

(** ** The invariant is preserved *)

Lemma map_touched cs c c' :
  cond_Type c' = cond_Type c -> map cond_Type (cs ++ [c']) = map cond_Type (cs ++ [c]).
Proof. intros H. rewrite !map_app. cbn. by rewrite H. Qed.

Lemma types_update i f st :
  (forall c, cond_Type (f c) = cond_Type c) ->
  map cond_Type (Conditions (updateCondition i f st)) = map cond_Type (Conditions st).
Proof.
  intros Hf. unfold updateCondition. cbn. generalize (Conditions st). clear st.
  induction i as [|i IH]; intros [|c cs]; cbn; try done; f_equal; auto.
Qed.

Lemma trail_conditions cs c t :
  trail (map cond_Type (cs ++ [c])) t -> t = cond_Type c.
Proof.
  intros Ht. destruct (trail_last _ _ Ht) as [l' Hl]. rewrite map_app in Hl.
  by apply app_inj_2 in Hl as [_ [= ->]].
Qed.

(** A recovery in progress: the invariant of a status the controller works on. *)
Lemma move_wf cs c st st' :
  wf st -> Phase st = RunningPhase -> Conditions st = cs ++ [c] ->
  frame (cond_Type c) st st' -> move cs c st st' -> wf st'.
Proof.
  intros [(cs0 & c0 & Hc0 & Htr & Hfalse & Htrue) (t0 & Ht0 & Hz) _ Hcomp _ Hdev Hcr] Hrun Hc Hf Hm.
  rewrite Hc in Hc0. apply app_inj_2 in Hc0 as [<- [= <-]]; [|done].
  assert (CompletionTime st = None) as Hnone.
  { destruct (CompletionTime st) eqn:E; [|done]. exfalso.
    assert (Phase st = CompletedPhase) as HP by (apply Hcomp; eauto).
    rewrite Hrun in HP. discriminate HP. }
  destruct Hf as [HS HP HCL HK HND HNDe _ _ HO].
  assert (forall c', Conditions st' = cs ++ [c'] -> touched c c' ->
    (exists cs c, Conditions st' = cs ++ [c]
       /\ trail (map cond_Type (Conditions st')) (cond_Type c)
       /\ Forall (fun c => cond_Status c = StatusFalse) cs /\ cond_Status c = StatusTrue)
    /\ (ForceDeleteRookCephOSDPods ∈ map cond_Type (Conditions st') ->
        CrashLoopBackOffPods st' = true)) as Hsame.
  { intros c' Hc' (Hty & _ & Hst). rewrite Hc', (map_touched cs c c' Hty), <- Hc. split.
    - exists cs, c'. rewrite Hty, Hst. auto.
    - auto. }
  destruct Hm as [c' Hc' Ht Hp Hct | c' n Hc' (Hty & _ & Hst) (_ & _ & Hn) He Hfd Hno Hp Hct
                 | c' Hc' Ht Hp Hct | c' t Hc' Ht Hends Hp Hct].
  - destruct (Hsame c' Hc' Ht). constructor; rewrite ?Hct, ?Hp, ?HS; eauto; try done.
    rewrite Hrun. done.
  - assert (map cond_Type (Conditions st') = map cond_Type (Conditions st) ++ [cond_Type n]) as Hmap.
    { rewrite Hc', Hc. rewrite !map_app. cbn. by rewrite Hty, <- app_assoc. }
    constructor; rewrite ?Hct, ?Hp, ?HS; eauto.
    + exists (cs ++ [c']), n. split_and!.
      * by rewrite Hc', <- app_assoc.
      * rewrite Hmap. eapply trail_step; [done|]. apply live_edge_spec. split; [done|].
        intros [Hfrom Hto]. specialize (Hno Hfrom Hto).
        assert (ForceDeleteRookCephOSDPods ∈ map cond_Type (Conditions st)) as Hin.
        { rewrite Hc, map_app, <- Hfrom. set_solver. }
        specialize (Hcr Hin). congruence.
      * apply Forall_app. split; [done|by constructor].
      * done.
    + rewrite Hrun. done.
    + rewrite Hmap. intros [Hin|Hin]%elem_of_app; [auto|].
      apply Hfd. symmetry. by apply list_elem_of_singleton.
  - destruct (Hsame c' Hc' Ht). constructor; rewrite ?Hct, ?Hp, ?HS; eauto.
    + rewrite Hnone. split; [by intros [? ?]|done].
    + done.
  - destruct (Hsame c' Hc' Ht). constructor; rewrite ?Hct, ?Hp, ?HS; eauto.
    + done.
    + intros _. exists cs, c'. split; [done|]. destruct Ht as (Hty & _). rewrite Hty.
      destruct Hends as [?|[s Hs]]; [done|]. by destruct (trail_named _ _ Htr s).
Qed.

(** ** Storage *)

(** What comes back of a status that was written: everything but the times,
    which are serialised with less precision.  A time that was set is still set
    and is not Go's zero time. *)
Definition stored_time (t t' : option Time) : Prop :=
  (is_Some t <-> is_Some t')
  /\ (forall u u', t = Some u -> t' = Some u' -> u <> zeroTime -> u' <> zeroTime).

Definition stored_condition (c c' : RecoveryCondition) : Prop :=
  cond_Type c' = cond_Type c /\ cond_Reason c' = cond_Reason c
  /\ cond_Message c' = cond_Message c /\ cond_Status c' = cond_Status c.

Record stored (st st' : NodeRecoveryStatus) : Prop := {
  stored_Phase : Phase st' = Phase st;
  stored_Conditions : Forall2 stored_condition (Conditions st) (Conditions st');
  stored_StartTime : stored_time (StartTime st) (StartTime st');
  stored_CompletionTime : stored_time (CompletionTime st) (CompletionTime st');
  stored_Pending : PendingPods st' = PendingPods st;
  stored_CrashLoop : CrashLoopBackOffPods st' = CrashLoopBackOffPods st;
  stored_NodeDevice : NodeDevice st' = NodeDevice st;
  stored_Forced : ForcedOSDRemoval st' = ForcedOSDRemoval st;
  stored_Keep : KeepCephToolsPod st' = KeepCephToolsPod st;
  stored_Operational : OperationalOSDIDs st' = OperationalOSDIDs st;
}.

Lemma stored_refl st : stored st st.
Proof.
  assert (forall t, stored_time t t) as Ht by (split; [done|congruence]).
  constructor; auto. by induction (Conditions st); constructor.
Qed.

Lemma stored_types cs cs' :
  Forall2 stored_condition cs cs' -> map cond_Type cs' = map cond_Type cs.
Proof. induction 1 as [|c c' cs cs' (Ht & _) _ IH]; cbn; congruence. Qed.

Lemma stored_snoc cs c cs' :
  Forall2 stored_condition (cs ++ [c]) cs' ->
  exists ds d, cs' = ds ++ [d] /\ Forall2 stored_condition cs ds /\ stored_condition c d.
Proof.
  intros (ds & l & Hds & Hl & ->)%Forall2_app_inv_l.
  apply Forall2_cons_inv_l in Hl as (d & l' & Hd & ->%Forall2_nil_inv_l & ->). eauto.
Qed.

Lemma wf_stored st st' : stored st st' -> wf st -> wf st'.
Proof.
  intros [HP HC [HS HSz] [HCT _] _ HCL HND _ _ _]
    [(cs & c & Hc & Htr & Hfalse & Htrue) (t & Ht & Htz) Hph Hcomp Hlast Hdev Hfd].
  pose proof (stored_types _ _ HC) as Hty.
  rewrite Hc in HC. destruct (stored_snoc _ _ _ HC) as (ds & d & Hd & Hds & (Htd & _ & _ & Hst)).
  constructor; rewrite ?HP, ?Hty, ?HND, ?HCL; auto.
  - exists ds, d. split_and!; [done|by rewrite Htd| |congruence].
    clear -Hds Hfalse. induction Hds as [|? ? ? ? (_ & _ & _ & Hs) _ IH]; [constructor|].
    inversion Hfalse; subst. constructor; [congruence|auto].
  - destruct (StartTime st') as [u|] eqn:Hu.
    + exists u. split; [done|]. eauto.
    + exfalso. destruct (proj1 HS) as [? ?]; [by exists t|congruence].
  - rewrite <- Hcomp. split; apply HCT.
  - intros Hcp. destruct (Hlast Hcp) as (cs1 & c1 & Hc1 & Hty1). rewrite Hc in Hc1.
    apply app_inj_2 in Hc1 as [_ [= <-]]; [|done]. exists ds, d. split; congruence.
Qed.

(** ** The controller *)

(** Any answer to every request, but the clock is past Go's zero time. *)
Definition clock `{X : External} : Answers Req := fun R e =>
  match e in Req R return R -> Prop with
  | Now => fun now => (0 < now)%Z
  | _ => fun _ => True
  end.

Section Controller.
Context `{X : External} `{Init : !Initialized}.

(** An environment whose clock is past Go's zero time. *)
Context (env : Answers Req) (Hclock : forall R (e : Req R) r, env R e r -> clock R e r).

(** The statuses of an object over its life: of a new object, and what the API
    server kept of the status the controller wrote when it was given an object
    with a reachable status. *)
Inductive reachable : NodeRecoveryStatus -> Prop :=
| reachable_new : reachable zeroStatus
| reachable_update inst inst' st :
    reachable (nr_Status inst) ->
    issues env (reconcileFetched (inr inst)) (call (StatusUpdate inst')) ->
    stored (nr_Status inst') st ->
    reachable st.

(** An object a step may be run on. *)
Definition in_progress (inst : NodeRecovery) : Prop :=
  wf (nr_Status inst) /\ Phase (nr_Status inst) = RunningPhase.

(** What the controller writes back: from the object it fetched, started if it
    was new, one move later. *)
Definition update_of (inst0 inst : NodeRecovery) : Prop :=
  exists inst1 cs c,
    in_progress inst1 /\ (nr_Status inst0 = nr_Status inst1 \/ nr_Status inst0 = zeroStatus)
    /\ (nr_Status inst0 = zeroStatus -> Conditions (nr_Status inst1) = [c] /\ cond_Type c = EnableCephToolsPod)
    /\ Conditions (nr_Status inst1) = cs ++ [c] /\ moved cs c inst1 inst
    /\ nr_Name inst1 = nr_Name inst0.

Definition updates_from (inst0 : NodeRecovery) (c : Call Req) : Prop :=
  match projT2 c with StatusUpdate inst => update_of inst0 inst | _ => True end.

Lemma started_wf t1 t2 : (0 < t1)%Z ->
  wf (set_Conditions (Conditions zeroStatus ++ [initialCondition t2])
        (set_Phase RunningPhase (set_StartTime (Some t1) zeroStatus))).
Proof.
  intros Ht. constructor; cbn.
  - exists [], (initialCondition t2). split_and!; [done|apply trail_start|constructor|done].
  - exists t1. split; [done|]. unfold zeroTime. lia.
  - by left.
  - split; [by intros [? ?]|done].
  - done.
  - constructor.
  - intros H%list_elem_of_singleton. discriminate H.
Qed.

Lemma startRecovery_spec P inst :
  (forall R (e : Req R), kind_of e = KClock \/ kind_of e = KMetric -> P (call e)) ->
  nr_Status inst = zeroStatus \/ in_progress inst ->
  wp (allowing env P) (startRecovery inst) tt
    (fun inst1 _ => in_progress inst1
       /\ (nr_Status inst = nr_Status inst1 \/ nr_Status inst = zeroStatus)
       /\ (nr_Status inst = zeroStatus ->
           exists c, Conditions (nr_Status inst1) = [c] /\ cond_Type c = EnableCephToolsPod)
       /\ nr_Name inst1 = nr_Name inst) (fun _ => True).
Proof using Hclock.
  intros HP [Hz|Hin]; unfold startRecovery.
  - rewrite Hz. cbn [StartTime zeroStatus]. rewrite MetaTime_IsZero_nil. cbn.
    split; [apply HP; by left|]. intros t1 _ Ht1%Hclock. split; [apply HP; by left|]. intros t2 _ _.
    split; [apply HP; by right|]. intros _ _ _. rewrite Hz.
    split_and!; [|by right|intros _; by eexists|done]. split; [|done].
    cbn. rewrite Hz. by apply (started_wf t1 t2).
  - destruct Hin as [Hwf Hr]. destruct (wf_started _ Hwf) as (t & Ht & Htz). rewrite Ht, MetaTime_IsZero_time.
    unfold Time_IsZero, zeroTime in *. rewrite (proj2 (Z.eqb_neq t 0) Htz). cbn.
    split_and!; [done..|by left| |done].
    intros Hz. rewrite Hz in Ht. discriminate Ht.
Qed.

(** Every status the controller writes for an object is one move away. *)
Lemma processInstance_updates inst :
  nr_Status inst = zeroStatus \/ in_progress inst ->
  wp (allowing env (updates_from inst)) (processInstance inst) tt (fun _ _ => True) (fun _ => True).
Proof using Hclock.
  intros Hin. unfold processInstance.
  assert (forall R (e : Req R), kind_of e <> KStatusUpdate -> updates_from inst (call e)) as HP.
  { intros R e. by destruct e. }
  eapply wp_seq; [apply startRecovery_spec; [|done]; intros R e He; apply HP; intros Hs; rewrite Hs in He; naive_solver|].
  intros inst1 [] (Hin1 & Hz & Hfirst & Hname).
  destruct (wf_conditions _ (proj1 Hin1)) as (cs & c & Hc & _).
  eapply wp_seq.
  - apply (only_wp (updates_from inst)); [done| |apply (Reconcile_moves env cs c _ Hc)].
    eapply only_mono; [|apply (Reconcile_footprint cs c _ Hc)].
    intros [R e] Hk. apply HP. intros Heq. unfold within, kind in Hk. cbn in Hk. rewrite Heq in Hk.
    by apply (footprint_of_no_update (cond_Type c)).
  - intros [[res err] inst2] [] Hm. cbn. split; [|done].
    exists inst1, cs, c. split_and!; try done.
    intros Hzero. destruct (Hfirst Hzero) as (c0 & Hc0 & Hty).
    rewrite Hc0 in Hc. destruct cs as [|? [|? ?]]; try done. injection Hc as ->. done.
Qed.

Lemma finished_spec inst :
  finished inst = false <->
  Phase (nr_Status inst) <> FailedPhase /\ Phase (nr_Status inst) <> CompletedPhase.
Proof. unfold finished. rewrite orb_false_iff, !bool_decide_eq_false. done. Qed.

(** The object as the controller fetched it. *)
Lemma reconcileFetched_updates inst :
  nr_Status inst = zeroStatus \/ wf (nr_Status inst) ->
  wp (allowing env (updates_from inst)) (reconcileFetched (inr inst)) tt (fun _ _ => True) (fun _ => True).
Proof using Hclock.
  intros Hin. unfold reconcileFetched. rewrite IgnoreNotFound_nil. cbn.
  destruct (negb _); cbn; [done|]. destruct (finished inst) eqn:Hfin; [done|].
  apply processInstance_updates. apply finished_spec in Hfin as [Hf1 Hf2].
  destruct Hin as [?|Hwf]; [by left|right]. split; [done|].
  by destruct (wf_phase _ Hwf) as [?|[?|?]].
Qed.

Lemma update_of_wf inst0 inst : update_of inst0 inst -> wf (nr_Status inst).
Proof.
  intros (inst1 & cs & c & [Hwf Hr] & _ & _ & Hc & (_ & _ & Hf & Hm) & _). by eapply move_wf.
Qed.

Lemma reachable_cases st : reachable st -> st = zeroStatus \/ wf st.
Proof using Hclock.
  induction 1 as [|inst inst' st _ IH Hi Hst]; [by left|right]. apply (wf_stored _ _ Hst).
  eapply update_of_wf, (wp_issues env (updates_from inst) _ _ _ (call (StatusUpdate inst'))); [|done].
  by apply reconcileFetched_updates.
Qed.

End Controller.
