(* ===== verification/Times.v ===== *)
(** * Times: where the times of a status come from

    The controller only ever writes times it read from the clock: in an
    environment whose clock shows times with a property [D], every time of a
    status it writes has the property if those of the object it was given have. *)

From S2P Require Import Prelude Effects GoStd Api K8s Const Monitoring Ceph Recovery Reconciler Controller.
From S2P Require Import Footprint StateMachine.

Section Times.
Context `{X : External} `{Init : !Initialized} (D : Time -> Prop).

(** A condition with such times, whose type has a name of its own. *)
Definition timed_condition (c : RecoveryCondition) : Prop :=
  D (cond_LastProbeTime c) /\ D (cond_LastTransitionTime c)
  /\ forall s, cond_Type c <> OtherConditionType s.

Record timed (st : NodeRecoveryStatus) : Prop := {
  timed_conditions : Forall timed_condition (Conditions st);
  timed_start : forall t, StartTime st = Some t -> D t;
  timed_completion : forall t, CompletionTime st = Some t -> D t;
}.

(** Any answer to every request, but the clock shows such a time. *)
Definition clocked : Answers Req := fun R e =>
  match e in Req R return R -> Prop with
  | Now => D
  | _ => fun _ => True
  end.

Abbreviation M := (permissive clocked).

(** The function leaves a status with times one with times. *)
Definition keeps {A} (m : StateT Req NodeRecovery A) : Prop := forall inst,
  timed (nr_Status inst) ->
  wp M (m inst) tt (fun r _ => timed (nr_Status r.2)) (fun _ => True).

Lemma keeps_ret {A} (a : A) : keeps (mret a).
Proof. by intros inst Hi. Qed.

Lemma keeps_bind {A B} (m : StateT Req NodeRecovery A) (f : A -> StateT Req NodeRecovery B) :
  keeps m -> (forall a, keeps (f a)) -> keeps (m ≫= f).
Proof.
  intros Hm Hf inst Hi. apply wp_state_bind. eapply wp_mono; [| |by apply Hm]; [|done]. intros [a i] [] Ha. by apply Hf.
Qed.

Lemma keeps_lift {A} (p : Op A) : keeps (lift p).
Proof. intros inst Hi. apply wp_lift. eapply wp_mono; [| |by apply wp_trivial]; done. Qed.

Lemma keeps_get : keeps get.
Proof. by intros inst Hi. Qed.

Lemma keeps_panic {A} why : keeps (@panic Req NodeRecovery A why).
Proof. done. Qed.

Lemma keeps_setStatus f : (forall st, timed st -> timed (f st)) -> keeps (setStatus f).
Proof. intros Hf inst Hi. by apply Hf. Qed.

Lemma keeps_match_option {A B} (o : option A) (f : A -> StateT Req NodeRecovery B) g :
  (forall a, keeps (f a)) -> keeps g -> keeps (match o with Some a => f a | None => g end).
Proof. by destruct o. Qed.

Lemma timed_update i f st :
  (forall c, timed_condition c -> timed_condition (f c)) ->
  timed st -> timed (updateCondition i f st).
Proof.
  intros Hf [Hc Hs Hct]. constructor; [|done..]. apply Forall_alter; [done|]. intros c _. apply Hf.
Qed.

Lemma timed_same st st' :
  Conditions st' = Conditions st -> StartTime st' = StartTime st -> CompletionTime st' = CompletionTime st ->
  timed st -> timed st'.
Proof. intros Hc Hs Hct [H1 H2 H3]. constructor; by rewrite ?Hc, ?Hs, ?Hct. Qed.

(** Assignments: to the fields without a time. *)
Ltac untimed := apply keeps_setStatus; intros; first [apply timed_update; [let H := fresh in intros ? H; exact H|done] | eapply timed_same; [..|eassumption]; reflexivity].

Lemma keeps_status : keeps status.
Proof. by intros inst Hi. Qed.

Lemma keeps_setReason i r : keeps (setReason i r).
Proof. untimed. Qed.

Lemma keeps_setMessage i r : keeps (setMessage i r).
Proof. untimed. Qed.

Lemma keeps_readCondition i : keeps (readCondition i).
Proof. apply keeps_bind; [apply keeps_status|]. intros st. destruct (_ !! _); [apply keeps_ret|apply keeps_panic]. Qed.

Lemma keeps_transition t : (forall s, t <> OtherConditionType s) -> keeps (transitionNextCondition t).
Proof.
  intros Ht. apply keeps_bind; [apply keeps_status|]. intros st. destruct (length _) as [|n]; [apply keeps_panic|].
  apply keeps_bind; [untimed|]. intros _ inst [Hc Hs Hct]. cbn. split; [done|]. intros t1 [] Ht1.
  split; [done|]. intros t2 [] Ht2. constructor; [|done..]. cbn. apply Forall_app. split; [done|]. apply Forall_singleton. by split_and!.
Qed.

Lemma keeps_goto t r : (forall s, t <> OtherConditionType s) -> keeps (goto t r).
Proof. intros Ht. apply keeps_bind; [by apply keeps_transition|]. intros []. apply keeps_ret. Qed.

(** Follows the structure of a case. *)
Ltac keeps_step :=
  lazymatch goal with
  | |- keeps (mret _) => apply keeps_ret
  | |- keeps (lift _) => apply keeps_lift
  | |- keeps get => apply keeps_get
  | |- keeps status => apply keeps_status
  | |- keeps (readCondition _) => apply keeps_readCondition
  | |- keeps (setReason _ _) => apply keeps_setReason
  | |- keeps (setMessage _ _) => apply keeps_setMessage
  | |- keeps (goto _ _) => apply keeps_goto; discriminate
  | |- keeps (setStatus _) => untimed
  | |- keeps (_ ≫= _) => apply keeps_bind; [|intros]
  | |- keeps (match ?x with _ => _ end) => destruct x
  end.

Ltac keeps_times := intros; unfold failWith, failMessage, finishOSDRemovalJob, returned; repeat keeps_step.

Lemma dispatch_keeps i t : keeps (dispatch i t).
Proof.
  destruct t; cbn [dispatch];
    unfold handleEnableCephToolsPod, handleWaitForCephToolsPodRunning, handleWaitForOSDPodsStabilize,
      handleLabelNodesWithPendingPods, handleManageCrashLoopBackOffPods, handleForceDeleteRookCephOSDPods,
      handleProcessOCSRemovalTemplate, handleCleanupOSDRemovalJob, handleRetryForceCleanupOSDRemovalJob,
      handleWaitForPersistenVolumeBound, handleRestartStorageOperator, handleDeleteFailedPodsNodeAffinity,
      handleStorageClusterFitnessCheck, handleDisableCephTools; keeps_times.
Qed.

Lemma timedOut_keeps latest : keeps (timedOut latest).
Proof. unfold timedOut. keeps_times. Qed.

Lemma complete_keeps : keeps complete.
Proof.
  unfold complete. apply keeps_bind; [untimed|]. intros [] inst Hi. cbn. split; [done|]. intros now [] Hnow.
  assert (keeps (instance ← get; start ← lift (deref (StartTime (nr_Status instance)));
    lift (trigger (Eventf instance "Normal" "Reconciliation"
      "Successfully completed recovering cluster in %s" [ArgDuration (Sub now start)]));;
    lift (trigger (CounterInc CompletedOperandInstancesPrometheusCounter []));;
    mret (NoResult, @None error))) as Hk by keeps_times.
  apply Hk. destruct Hi as [Hc Hs _]. constructor; [done|done|]. by intros t [= <-].
Qed.

(** What a reconciliation writes has its times when what it was given does. *)
Definition writes_timed (c : Call Req) : Prop :=
  match projT2 c with StatusUpdate inst => timed (nr_Status inst) | _ => True end.

Lemma writes_timed_other R (e : Req R) : kind_of e <> KStatusUpdate -> writes_timed (call e).
Proof. by destruct e. Qed.

(** All but the last probe. *)
Definition started_timed (st : NodeRecoveryStatus) : Prop :=
  (forall cs c, Conditions st = cs ++ [c] ->
     Forall timed_condition cs /\ forall t, D t -> timed_condition (set_cond_LastProbeTime t c))
  /\ (forall t, StartTime st = Some t -> D t) /\ (forall t, CompletionTime st = Some t -> D t).

Lemma timed_started st : timed st -> started_timed st.
Proof.
  intros [Hc Hs Hct]. split_and!; [|done..]. intros cs c Heq. rewrite Heq in Hc.
  apply Forall_app in Hc as [H1 (H2 & H3 & H4)%Forall_singleton]. by split.
Qed.

Lemma startRecovery_timed inst :
  timed (nr_Status inst) ->
  wp (allowing clocked writes_timed) (startRecovery inst) tt
    (fun inst1 _ => started_timed (nr_Status inst1)) (fun _ => True).
Proof.
  intros Hi. unfold startRecovery. destruct (MetaTime_IsZero _); [|by apply timed_started].
  cbn. split; [done|]. intros t1 [] Ht1. split; [done|]. intros t2 [] Ht2. split; [done|]. intros _ [] _.
  destruct Hi as [Hc Hs Hct]. split_and!; [|by intros t [= <-]|done].
  intros cs c [<- [= <-]]%app_inj_2; [|done]. split; [done|]. intros t Ht. by split_and!.
Qed.

Lemma Reconcile_timed inst :
  started_timed (nr_Status inst) ->
  wp (permissive clocked) (Reconciler.Reconcile inst) tt
    (fun r _ => timed (nr_Status r.2)) (fun _ => True).
Proof.
  intros (Hc & Hs & Hct). destruct (Conditions (nr_Status inst)) as [|c cs _] eqn:Heq using rev_ind;
    [by rewrite Reconcile_empty|]. destruct (Hc cs c eq_refl) as [Hcs Hprobe].
  destruct (Reconcile_unfold cs c inst Heq) as (k & -> & Hk). cbn. split; [done|]. intros now [] Hnow.
  destruct (Hk now) as (k' & -> & Hk'). cbn. split; [done|]. intros now' [] _. rewrite Hk'.
  assert (timed (nr_Status (probed now cs inst))) as Hp.
  { constructor; [|done..]. rewrite (probed_snoc now cs c inst Heq). apply Forall_app. split; [done|].
    apply Forall_singleton. by apply Hprobe. }
  destruct (After _ _); [by apply timedOut_keeps|].
  apply keeps_bind; [apply dispatch_keeps| |done]. intros [r|]; [apply keeps_ret|apply complete_keeps].
Qed.

Lemma reconcileFetched_timed inst :
  timed (nr_Status inst) ->
  wp (allowing clocked writes_timed) (reconcileFetched (inr inst)) tt (fun _ _ => True) (fun _ => True).
Proof.
  intros Hi. unfold reconcileFetched. rewrite IgnoreNotFound_nil. cbn.
  destruct (negb _); cbn; [done|]. destruct (finished inst); [done|]. unfold processInstance.
  eapply wp_seq; [by apply startRecovery_timed|]. intros inst1 [] H1.
  eapply (wp_seq _ _ _ _ (fun r _ => timed (nr_Status r.2))).
  - apply (only_wp writes_timed); [done| |by apply Reconcile_timed].
    destruct (Conditions (nr_Status inst1)) as [|c cs _] eqn:Heq using rev_ind; [by rewrite Reconcile_empty|].
    eapply only_mono; [|by apply (Reconcile_footprint cs c)].
    intros [R e] Hk. apply writes_timed_other. intros He. unfold within, kind in Hk. cbn in Hk. rewrite He in Hk.
    by apply (footprint_of_no_update (cond_Type c)).
  - intros [[res err] inst2] [] H2. by split.
Qed.

Lemma written_timed inst inst' :
  timed (nr_Status inst) ->
  issues clocked (reconcileFetched (inr inst)) (call (StatusUpdate inst')) -> timed (nr_Status inst').
Proof.
  intros Hi. apply (wp_issues clocked writes_timed (reconcileFetched (inr inst)) _ _ (call (StatusUpdate inst'))
    (reconcileFetched_timed inst Hi)).
Qed.

End Times.
