(* ===== verification/Fake.v ===== *)
(** * Fake: a cluster in memory

    A concrete instance of [External] and a [Handler] that answers every
    request from a small cluster kept in a record, with a clock.  The theorems
    are about every environment; this one shows that their hypotheses can hold
    and runs whole recoveries: [Settled] is a cluster with nothing wrong,
    [Broken] one with an OSD pod in CrashLoopBackOff. *)

From S2P Require Import Prelude Effects GoStd GoStrings Json Api K8s Const Monitoring Ceph Recovery.
From S2P Require Import Reconciler Controller StateMachine.

(** ** The libraries *)

(** Selection by [In] with no values is an error, as in apimachinery. *)
Definition fake_selector (s : LabelSelector) : error + LabelSelector :=
  if existsb (fun e => bool_decide (lsr_Values e = [])) (MatchExpressions s)
  then inl (ExtError "" "values: Invalid value: []: for 'in', 'notin' operators, values set can't be empty")
  else inr s.

Fixpoint fake_parameter (ps : list Parameter_) (name : string) : option nat :=
  match ps with
  | [] => None
  | p :: ps' => if decide (param_Name p = name) then Some 0 else S <$> fake_parameter ps' name
  end.

Definition fake_versions : list (string * (Z * Z)) :=
  [("v4.15", (4, 15)%Z); ("4.14.9", (4, 14)%Z); ("4.16.2", (4, 16)%Z)].

Definition fake_version (s : string) : error + (Z * Z) :=
  match list_find (fun p => p.1 = s) fake_versions with
  | Some (_, (_, v)) => inr v
  | None => inl (ExtError "" "malformed version")
  end.

Definition fake_less (v w : Z * Z) : bool :=
  ((v.1 <? w.1) || (v.1 =? w.1) && (v.2 <? w.2))%Z.

Definition fake_not_found (e : error) : bool :=
  match e with ExtError r _ => bool_decide (r = "NotFound") | _ => false end.

#[export] Instance fake : External := {|
  Selector := LabelSelector;
  LabelSelectorAsSelector := fake_selector;
  LabelSelectorOpIn := "In";
  IsNotFound := fake_not_found;
  MetaTime_IsZero t := match t with None => true | Some t => Time_IsZero t end;
  MetaTime_IsZero_nil := eq_refl;
  MetaTime_IsZero_time t := eq_refl;
  IgnoreNotFound err := match err with Some e => if fake_not_found e then None else Some e | None => None end;
  IgnoreNotFound_nil := eq_refl;
  IgnoreNotFound_error e := eq_refl;
  LabelHostname := "kubernetes.io/hostname";
  PodPending := "Pending"; PodRunning := "Running"; PodSucceeded := "Succeeded"; PodFailed := "Failed";
  VolumeReleased := "Released"; ClaimBound := "Bound";
  ContainerCreating := "ContainerCreating"; PodInitializing := "PodInitializing";
  NodeAffinity := "NodeAffinity";
  OSDOverPVCLabelKey := "ceph.rook.io/pvc"; OsdIdLabelKey := "ceph-osd-id";
  NodeAffinityKey := "cluster.ocs.openshift.io/openshift-storage";
  CompletedUpdate := "Completed";
  Version := Z * Z; NewVersion := fake_version; LessThan := fake_less;
  JSONSyntaxError s := ExtError "" "invalid character";
  JSONTypeError s := ExtError "" "cannot unmarshal";
  RuntimeObject := string; ClientObject := string * string;
  GetParameterByName := fake_parameter;
  NewInvalidTemplate name errs := ExtError "Invalid" name;
  Decode raw := inr raw;
  asClientObject o := Some ("", o);
  formatObject o := o;
  SetNamespace ns o := (ns, o.2);
|}.

#[export] Instance fake_initialized : Initialized := {| ocp4_15 := (4, 15)%Z; init_ok := eq_refl |}.

(** A selector on labels is always valid. *)
Lemma fake_fromLabels (m : labels) : exists sel, fromLabels m = inr sel.
Proof. by eexists. Qed.

(** ** The cluster *)

Record World := {
  w_clock : Time;
  w_cr : NodeRecovery;
  w_pods : list Pod;
  w_nodes : list Node;
  w_pvcs : list PersistentVolumeClaim;
  w_pvs : list PersistentVolume;
  w_deployments : list Deployment;
  w_job : option Job;
  w_ocsinit : OCSInitialization;
  w_sc : StorageCluster;
  w_history : list UpdateHistory;
  w_template : option Template;
  w_stdout : string;
  w_logs : string;
  (** what Rook brings up once the removal job has run *)
  w_spare_pods : list Pod;
  w_spare_pvs : list PersistentVolume;
}.

Definition not_found : error := ExtError "NotFound" "not found".

Definition matches (s : LabelSelector) (l : labels) : bool :=
  bool_decide (MatchLabels s ⊆ l)
  && forallb (fun e => bool_decide (index l (lsr_Key e) ∈ lsr_Values e)) (MatchExpressions s).

Definition selected (o : ListOptions) (l : labels) : bool :=
  match lo_LabelSelector o with Some s => matches s l | None => true end.

Definition pod_option (p : Pod) (o : ListOption) : bool :=
  match o with
  | WithOptions o => selected o (pod_Labels p)
  | MatchingFields m => bool_decide (m !! podStatusPhaseFieldSelector = Some (pod_Phase p))
  | MatchingLabels m => bool_decide (m ⊆ pod_Labels p)
  end.

Definition labels_option (l : labels) (o : ListOption) : bool :=
  match o with WithOptions o => selected o l | _ => true end.

Definition find_or {A} (P : A -> bool) (xs : list A) : error + A :=
  match find P xs with Some x => inr x | None => inl not_found end.

Definition named (n m : string) : bool := bool_decide (n = m).

(** Updates of the world. *)
Definition with_clock t (w : World) : World := Build_World t (w_cr w) (w_pods w) (w_nodes w) (w_pvcs w)
  (w_pvs w) (w_deployments w) (w_job w) (w_ocsinit w) (w_sc w) (w_history w) (w_template w)
  (w_stdout w) (w_logs w) (w_spare_pods w) (w_spare_pvs w).
Definition with_cr i (w : World) : World := Build_World (w_clock w) i (w_pods w) (w_nodes w) (w_pvcs w)
  (w_pvs w) (w_deployments w) (w_job w) (w_ocsinit w) (w_sc w) (w_history w) (w_template w)
  (w_stdout w) (w_logs w) (w_spare_pods w) (w_spare_pvs w).
Definition with_pods ps (w : World) : World := Build_World (w_clock w) (w_cr w) ps (w_nodes w) (w_pvcs w)
  (w_pvs w) (w_deployments w) (w_job w) (w_ocsinit w) (w_sc w) (w_history w) (w_template w)
  (w_stdout w) (w_logs w) (w_spare_pods w) (w_spare_pvs w).
Definition with_nodes ns (w : World) : World := Build_World (w_clock w) (w_cr w) (w_pods w) ns (w_pvcs w)
  (w_pvs w) (w_deployments w) (w_job w) (w_ocsinit w) (w_sc w) (w_history w) (w_template w)
  (w_stdout w) (w_logs w) (w_spare_pods w) (w_spare_pvs w).
Definition with_pvs pvs (w : World) : World := Build_World (w_clock w) (w_cr w) (w_pods w) (w_nodes w)
  (w_pvcs w) pvs (w_deployments w) (w_job w) (w_ocsinit w) (w_sc w) (w_history w) (w_template w)
  (w_stdout w) (w_logs w) (w_spare_pods w) (w_spare_pvs w).
Definition with_job j (w : World) : World := Build_World (w_clock w) (w_cr w) (w_pods w) (w_nodes w)
  (w_pvcs w) (w_pvs w) (w_deployments w) j (w_ocsinit w) (w_sc w) (w_history w) (w_template w)
  (w_stdout w) (w_logs w) (w_spare_pods w) (w_spare_pvs w).
Definition with_tools oi sc (w : World) : World := Build_World (w_clock w) (w_cr w) (w_pods w) (w_nodes w)
  (w_pvcs w) (w_pvs w) (w_deployments w) (w_job w) oi sc (w_history w) (w_template w)
  (w_stdout w) (w_logs w) (w_spare_pods w) (w_spare_pvs w).
Definition with_spares ps pvs (w : World) : World := Build_World (w_clock w) (w_cr w) (w_pods w)
  (w_nodes w) (w_pvcs w) (w_pvs w) (w_deployments w) (w_job w) (w_ocsinit w) (w_sc w) (w_history w)
  (w_template w) (w_stdout w) (w_logs w) ps pvs.

Definition with_logs logs (w : World) : World := Build_World (w_clock w) (w_cr w) (w_pods w) (w_nodes w)
  (w_pvcs w) (w_pvs w) (w_deployments w) (w_job w) (w_ocsinit w) (w_sc w) (w_history w) (w_template w)
  (w_stdout w) logs (w_spare_pods w) (w_spare_pvs w).

Definition terminate (now : Time) (osd : string) (p : Pod) : Pod :=
  if decide (pod_Labels p !! "ceph-osd-id" = Some osd) then
    {| pod_Name := pod_Name p; pod_Namespace := pod_Namespace p; pod_Labels := pod_Labels p;
       pod_DeletionTimestamp := Some now; pod_NodeSelector := pod_NodeSelector p;
       pod_Phase := pod_Phase p; pod_Reason := pod_Reason p;
       pod_InitContainerStatuses := pod_InitContainerStatuses p;
       pod_ContainerStatuses := pod_ContainerStatuses p |}
  else p.

Definition simple_pod (name : string) (l : labels) (phase : string) : Pod :=
  {| pod_Name := name; pod_Namespace := ODF_NAMESPACE; pod_Labels := l; pod_DeletionTimestamp := None;
     pod_NodeSelector := ∅; pod_Phase := phase; pod_Reason := "";
     pod_InitContainerStatuses := []; pod_ContainerStatuses := [] |}.

Definition job_pod : Pod :=
  simple_pod "ocs-osd-removal-job-x" {[ "job-name" := "ocs-osd-removal-job" ]} "Succeeded".

(** Creating the removal job runs it to success. *)
Definition create (w : World) : World :=
  with_spares [] []
    (with_pvs (w_pvs w ++ w_spare_pvs w)
      (with_job (Some {| job_Name := "ocs-osd-removal-job"; job_Namespace := ODF_NAMESPACE |})
        (with_pods (w_pods w ++ job_pod :: w_spare_pods w) w))).

(** ** The answers *)

Definition cluster : Handler Req World := fun R e =>
  match e in Req R return World -> R * World with
  | Now => fun w => (w_clock w, with_clock (w_clock w + 1000000)%Z w)
  | RangeKeys ks => fun w => (ks, w)
  | GetNodeRecovery n => fun w =>
      (if named n (nr_Name (w_cr w)) then inr (w_cr w) else inl not_found, w)
  | StatusUpdate i => fun w => (None, with_cr i w)
  | GetClusterVersion _ => fun w => (inr {| cv_History := w_history w |}, w)
  | GetOCSInitialization _ _ => fun w => (inr (w_ocsinit w), w)
  | UpdateOCSInitialization o => fun w => (None, with_tools o (w_sc w) w)
  | GetStorageCluster _ _ => fun w => (inr (w_sc w), w)
  | UpdateStorageCluster sc => fun w => (None, with_tools (w_ocsinit w) sc w)
  | GetNode n => fun w => (find_or (fun x => named n (node_Name x)) (w_nodes w), w)
  | UpdateNode n => fun w =>
      (None, with_nodes (map (fun x => if named (node_Name n) (node_Name x) then n else x) (w_nodes w)) w)
  | GetPVC _ n => fun w => (find_or (fun x => named n (pvc_Name x)) (w_pvcs w), w)
  | GetPV n => fun w => (find_or (fun x => named n (pv_Name x)) (w_pvs w), w)
  | DeletePV pv => fun w =>
      (None, with_pvs (filter (fun x => pv_Name x <> pv_Name pv) (w_pvs w)) w)
  | ListPVs opts => fun w =>
      (inr (filter (fun x => forallb (labels_option (pv_Labels x)) opts = true) (w_pvs w)), w)
  | ListPVCs _ => fun w => (inr (w_pvcs w), w)
  | ListPods opts => fun w =>
      (inr (filter (fun p => forallb (pod_option p) opts = true) (w_pods w)), w)
  | DeletePod p => fun w => (None, with_pods (filter (fun x => pod_Name x <> pod_Name p) (w_pods w)) w)
  | DeleteAllOfPods o => fun w =>
      (None, with_pods (filter (fun p => selected (dao_ListOptions o) (pod_Labels p) = false) (w_pods w)) w)
  | ListDeployments opts => fun w =>
      (inr (filter (fun x => forallb (labels_option (dep_Labels x)) opts = true) (w_deployments w)), w)
  | UpdateDeployment d => fun w =>
      (None, with_pods (map (terminate (w_clock w) (index (dep_Labels d) "ceph-osd-id")) (w_pods w)) w)
  | GetJob _ _ => fun w => (match w_job w with Some j => inr j | None => inl not_found end, w)
  | DeleteJob _ => fun w => (None, with_job None w)
  | GetTemplate _ _ => fun w =>
      (match w_template w with Some t => inr t | None => inl not_found end, w)
  | ProcessTemplate _ t => fun w => ((t, []), w)
  | Create _ => fun w => (None, create w)
  | RunCommand _ _ => fun w => ((w_stdout w, "", None), w)
  | GetLogs _ => fun w => (inr (w_logs w), w)
  | Eventf _ _ _ _ _ => fun w => (tt, w)
  | CounterInc _ _ => fun w => (tt, w)
  end.

(** ** Traces *)

Section Trace.
Context {E : Type -> Type} {W : Type} (h : Handler E W).

(** The requests a run makes. *)
Fixpoint trace {A} (p : Prog E A) (w : W) : list (Call E) :=
  match p with
  | Vis e k => let '(r, w') := h _ e w in call e :: trace (k r) w'
  | Ret _ | Panic _ => []
  end.

(** A run is one of the behaviours of any environment that contains its answers. *)
Lemma trace_issues {A} (env : Answers E) (Inv : W -> Prop) (p : Prog E A) w c :
  (forall R (e : E R) w, Inv w -> env R e (h R e w).1 /\ Inv (h R e w).2) ->
  Inv w -> c ∈ trace p w -> issues env p c.
Proof.
  intros Henv. revert w. induction p as [a|R e k IH|why]; intros w Hw; cbn; [set_solver| |set_solver].
  destruct (Henv R e w Hw) as [Hr Hw']. destruct (h R e w) as [r w']. cbn in Hr, Hw'.
  intros [->|Hc]%elem_of_cons; [by left|right]. eauto.
Qed.

End Trace.

(** One reconciliation of the object, and the pause before the next. *)
Definition reconcile_cr (w : World) : World :=
  let w' := (run cluster (reconcileFetched (inr (w_cr w))) w).2 in
  with_clock (w_clock w' + 60 * Second)%Z w'.

Definition after (n : nat) (w : World) : World := Nat.iter n reconcile_cr w.

(** A cluster whose custom resource only changes by the requests [upd] holds what
    the last of them wrote. *)
Lemma last_write {E A} (h : Handler E World) (env : Answers E) (upd : NodeRecovery -> Call E)
    (Inv : World -> Prop) (p : Prog E A) w :
  (forall R (e : E R) w, Inv w -> env R e (h R e w).1 /\ Inv (h R e w).2) ->
  (forall R (e : E R) w, w_cr (h R e w).2 = w_cr w \/ call e = upd (w_cr (h R e w).2)) ->
  Inv w ->
  Inv (run h p w).2 /\ (w_cr (run h p w).2 = w_cr w \/ issues env p (upd (w_cr (run h p w).2))).
Proof.
  intros Henv Hupd. revert w. induction p as [a|R e k IH|why]; intros w Hw; cbn; [by auto| |by auto].
  destruct (Henv R e w Hw) as [Hr Hw']. pose proof (Hupd R e w) as Hcr.
  destruct (h R e w) as [r w']. cbn in Hr, Hw', Hcr.
  destruct (IH r w' Hw') as [Hc Hi]. split; [done|].
  destruct Hi as [->|Hi]; [|by right; eauto]. destruct Hcr as [->|<-]; auto.
Qed.

(** A status that is not the same. *)
Definition differs (i i' : NodeRecovery) : bool :=
  bool_decide (Phase (nr_Status i) <> Phase (nr_Status i'))
  || bool_decide (map cond_Type (Conditions (nr_Status i)) <> map cond_Type (Conditions (nr_Status i')))
  || bool_decide (map cond_LastProbeTime (Conditions (nr_Status i)) <> map cond_LastProbeTime (Conditions (nr_Status i'))).

Lemma differs_neq i i' : differs i i' = true -> i' <> i.
Proof. intros H ->. unfold differs in H. by repeat case_bool_decide. Qed.

(** ** Lives

    An environment that contains the answers of the clusters with the property
    [Inv] contains their lives. *)
Section Lives.
Context (env : Answers Req) (Inv : World -> Prop).
Context (Henv : forall R (e : Req R) w, Inv w -> env R e (cluster R e w).1 /\ Inv (cluster R e w).2).
Context (Hpause : forall w, Inv w -> Inv (with_clock (w_clock w + 60 * Second) w)%Z).

Lemma cluster_issues {A} (p : Op A) w c : Inv w -> c ∈ trace cluster p w -> issues env p c.
Proof using Henv. by apply trace_issues. Qed.

(** The custom resource is what the last [StatusUpdate] wrote. *)
Lemma cluster_cr {A} (p : Op A) w :
  Inv w ->
  Inv (run cluster p w).2
  /\ (w_cr (run cluster p w).2 = w_cr w
      \/ issues env p (call (StatusUpdate (w_cr (run cluster p w).2)))).
Proof using Henv.
  intros Hw. apply (last_write cluster env (fun i => call (StatusUpdate i)) Inv); [exact Henv| |done].
  intros R e w'. destruct e; cbn; auto.
Qed.

Lemma reconcile_cr_reachable w :
  Inv w -> reachable env (nr_Status (w_cr w)) ->
  Inv (reconcile_cr w) /\ reachable env (nr_Status (w_cr (reconcile_cr w))).
Proof using Henv Hpause.
  intros Hw Hr. unfold reconcile_cr.
  destruct (cluster_cr (reconcileFetched (inr (w_cr w))) w Hw) as [Hc Hi].
  set (w' := (run _ _ _).2) in *. clearbody w'. split; [by apply Hpause|].
  cbn [w_cr with_clock]. destruct Hi as [->|Hi]; [done|].
  eapply reachable_update; [exact Hr|exact Hi|apply stored_refl].
Qed.

Lemma after_reachable n w :
  Inv w -> nr_Status (w_cr w) = zeroStatus ->
  Inv (after n w) /\ reachable env (nr_Status (w_cr (after n w))).
Proof using Henv Hpause.
  intros Hw Hz. induction n as [|n [IHw IH]].
  - split; [done|]. cbn. rewrite Hz. constructor.
  - by apply reconcile_cr_reachable.
Qed.

End Lives.

(** The clock of the cluster is past Go's zero time and does not go back. *)
Definition past_zero (w : World) : Prop := (0 < w_clock w)%Z.

Lemma cluster_clock R (e : Req R) w :
  past_zero w -> clock R e (cluster R e w).1 /\ past_zero (cluster R e w).2.
Proof. unfold past_zero. intros Hw. destruct e; cbn; split; try done. lia. Qed.

Lemma past_zero_pause w : past_zero w -> past_zero (with_clock (w_clock w + 60 * Second) w)%Z.
Proof. unfold past_zero, Second, Nanosecond. cbn. lia. Qed.

Definition after_reachable_clock n w Hw Hz : reachable clock (nr_Status (w_cr (after n w))) :=
  proj2 (after_reachable clock past_zero cluster_clock past_zero_pause n w Hw Hz).

(** ** Clusters *)

Definition new_cr : NodeRecovery :=
  {| nr_Name := "recovery"; nr_DeletionTimestamp := None; nr_Status := zeroStatus |}.

Definition health_report (s : string) : string :=
  print (JObject [("health", JObject [("status", JString s)])]).

Definition tools_pod : Pod := simple_pod "rook-ceph-tools-0" {[ "app" := "rook-ceph-tools" ]} "Running".

Definition osd_pod (id : string) (waiting : option string) : Pod :=
  {| pod_Name := String.append "rook-ceph-osd-" id; pod_Namespace := ODF_NAMESPACE;
     pod_Labels := list_to_map [("app", "rook-ceph-osd"); ("osd", id); ("ceph-osd-id", id);
                                ("ceph.rook.io/pvc", String.append "pvc-" id)];
     pod_DeletionTimestamp := None;
     pod_NodeSelector := {[ "kubernetes.io/hostname" := String.append "node-" id ]};
     pod_Phase := "Running"; pod_Reason := "";
     pod_InitContainerStatuses := [];
     pod_ContainerStatuses :=
       [ {| cs_Name := "osd";
            cs_Waiting := (fun r => {| waiting_Reason := r; waiting_Message := "" |}) <$> waiting;
            cs_Terminated := None |} ] |}.

Definition pvc (id : string) : PersistentVolumeClaim :=
  {| pvc_Name := String.append "pvc-" id; pvc_VolumeName := String.append "pv-" id; pvc_Phase := "Bound" |}.

Definition pv (id phase : string) : PersistentVolume :=
  {| pv_Name := String.append "pv-" id;
     pv_Labels := {[ "kubernetes.io/hostname" := String.append "node-" id ]}; pv_Phase := phase |}.

Definition deployment (id : string) : Deployment :=
  {| dep_Name := String.append "rook-ceph-osd-" id; dep_ResourceVersion := "1";
     dep_Labels := list_to_map [("app", "rook-ceph-osd"); ("ceph-osd-id", id)]; dep_Replicas := Some 1%Z |}.

Definition removal_template : Template :=
  {| tmpl_Name := "ocs-osd-removal";
     tmpl_Parameters := [ {| param_Name := FAILED_OSD_IDS; param_Value := "" |};
                          {| param_Name := FORCE_OSD_REMOVAL; param_Value := "false" |} ];
     tmpl_Objects := [ {| raw_Object := None; raw_Raw := "job" |} ] |}.

(** Three OSD pods; the third one waits for the given reason. *)
Definition world (third : option string) (third_pv health : string) : World := {|
  w_clock := unixEpoch;
  w_cr := new_cr;
  w_pods := [tools_pod; osd_pod "0" None; osd_pod "1" None; osd_pod "2" third];
  w_nodes := [ {| node_Name := "node-2"; node_ResourceVersion := "7"; node_Labels := None |} ];
  w_pvcs := [pvc "0"; pvc "1"; pvc "2"];
  w_pvs := [pv "0" "Bound"; pv "1" "Bound"; pv "2" third_pv];
  w_deployments := [deployment "0"; deployment "1"; deployment "2"];
  w_job := None;
  w_ocsinit := {| ocsinit_ResourceVersion := "3"; ocsinit_EnableCephTools := false |};
  w_sc := {| sc_ResourceVersion := "4"; sc_EnableCephTools := false |};
  w_history := [ {| uh_State := "Partial"; uh_Version := "4.17.0" |};
                 {| uh_State := "Completed"; uh_Version := "4.16.2" |} ];
  w_template := Some removal_template;
  w_stdout := health_report health;
  w_logs := String.append "purged" (String nl (String.append "completed removal of OSD 2" (String nl "")));
  w_spare_pods := [osd_pod "2" None];
  w_spare_pvs := [ {| pv_Name := "pv-new"; pv_Labels := {[ "kubernetes.io/hostname" := "node-2" ]};
                      pv_Phase := "Bound" |} ];
|}.

Definition Settled : World := world None "Bound" "HEALTH_OK".
Definition Broken : World := world (Some "CrashLoopBackOff") "Released" "HEALTH_OK".

Definition cr_types (w : World) : list RecoveryConditionType :=
  map cond_Type (Conditions (nr_Status (w_cr w))).

Example settled_life :
  cr_types (after 9 Settled)
    = [EnableCephToolsPod; WaitForCephToolsPodRunning; WaitForOSDPodsStabilize; LabelNodesWithPendingPods;
       ManageCrashLoopBackOffPods; RestartStorageOperator; DeleteFailedPodsNodeAffinity;
       StorageClusterFitnessCheck; DisableCephTools]
  /\ Phase (nr_Status (w_cr (after 9 Settled))) = CompletedPhase.
Proof. vm_compute. split; reflexivity. Qed.

Lemma Broken_reachable n : reachable clock (nr_Status (w_cr (after n Broken))).
Proof. exact (after_reachable_clock n Broken eq_refl eq_refl). Qed.

Lemma Settled_reachable n : reachable clock (nr_Status (w_cr (after n Settled))).
Proof. exact (after_reachable_clock n Settled eq_refl eq_refl). Qed.

(** The conditions of the two recoveries, at the moments the witnesses use. *)
Lemma Broken_types_6 : map cond_Type (Conditions (nr_Status (w_cr (after 6 Broken)))) =
  [EnableCephToolsPod; WaitForCephToolsPodRunning; WaitForOSDPodsStabilize; LabelNodesWithPendingPods;
   ManageCrashLoopBackOffPods; ForceDeleteRookCephOSDPods; ForceDeleteRookCephOSDPods].
Proof. vm_compute. reflexivity. Qed.

Lemma Broken_types_17 : map cond_Type (Conditions (nr_Status (w_cr (after 17 Broken)))) =
  [EnableCephToolsPod; WaitForCephToolsPodRunning; WaitForOSDPodsStabilize; LabelNodesWithPendingPods;
   ManageCrashLoopBackOffPods; ForceDeleteRookCephOSDPods; ForceDeleteRookCephOSDPods;
   ProcessOCSRemovalTemplate; CleanupOSDRemovalJob; WaitForPersistenVolumeBound; RestartStorageOperator;
   DeleteFailedPodsNodeAffinity; StorageClusterFitnessCheck; DisableCephTools].
Proof. vm_compute. reflexivity. Qed.

Lemma Broken_completed : Phase (nr_Status (w_cr (after 17 Broken))) = CompletedPhase.
Proof. vm_compute. reflexivity. Qed.
