(* ===== verification/NoPanic.v ===== *)
(** * NoPanic: when the operator does not crash

    [safe]: a program does not panic, whatever the environment answers.  The
    four cases of the switch that follow a pointer without checking it need
    something of the environment ([justified]); the others need nothing, once
    the status is well formed. *)

From S2P Require Import Prelude Effects GoStd GoStrings Api K8s Const Monitoring Ceph Recovery.
From S2P Require Import Reconciler Controller Footprint StateMachine.

Create HintDb safe.

Section Safe.
Context `{X : External} (env : Answers Req).

Definition safe {A} (p : Op A) : Prop :=
  wp (permissive env) p tt (fun _ _ => True) (fun _ => False).

Lemma safe_ret {A} (a : A) : safe (mret a).
Proof. exact I. Qed.

Lemma safe_trigger {R} (e : Req R) : safe (trigger e).
Proof. done. Qed.

Lemma safe_bind {A B} (p : Op A) (f : A -> Op B) : safe p -> (forall a, safe (f a)) -> safe (p ≫= f).
Proof. intros Hp Hf. eapply wp_seq; [exact Hp|]. intros a [] _. apply Hf. Qed.

Lemma safe_deref {A} (o : option A) : is_Some o -> safe (deref o).
Proof. by intros [a ->]. Qed.

Lemma safe_forM {A B} (body : B -> A -> Op B) acc xs :
  (forall acc x, x ∈ xs -> safe (body acc x)) -> safe (forM body acc xs).
Proof.
  intros Hb. apply wp_forM with (I := fun _ _ _ => True); [done| |done].
  intros _ x acc' [] Hx _. by apply Hb.
Qed.

Lemma safe_forM_ret {A B R} (body : B -> A -> Op (R + B)) acc xs :
  (forall acc x, x ∈ xs -> safe (body acc x)) -> safe (forM_ret body acc xs).
Proof.
  intros Hb. apply wp_forM_ret with (I := fun _ _ _ => True); [done| |done].
  intros _ x acc' [] Hx _. eapply wp_mono; [| |by apply (Hb acc')]; [by intros [] ? _|done].
Qed.

Lemma safe_for_check {A Err} (body : A -> Op (option Err)) xs :
  (forall x, x ∈ xs -> safe (body x)) -> safe (for_check body xs).
Proof.
  intros Hb. apply safe_bind; [|done]. apply safe_forM_ret. intros _ x Hx.
  apply safe_bind; [by apply Hb|done].
Qed.

End Safe.

(** Proves [safe] by following the structure of the program. *)
Ltac safety_step :=
  lazymatch goal with
  | |- safe _ (trigger _) => apply safe_trigger
  | |- safe _ (mret _) => apply safe_ret
  | |- safe _ (deref (Some _)) => apply safe_ret
  | |- safe _ (forM _ _ _) => apply safe_forM; intros
  | |- safe _ (forM_ret _ _ _) => apply safe_forM_ret; intros
  | |- safe _ (for_check _ _) => apply safe_for_check; intros
  | |- safe _ (_ ≫= _) => apply safe_bind; [|intros]
  | |- safe _ (match ?x with _ => _ end) => destruct x
  end.
Ltac as_safe := lazymatch goal with |- wp (permissive ?env) ?p tt _ _ => change (safe env p) end; cbv beta.
Ltac safety := intros; repeat first [progress (auto with safe nocore) | safety_step].

(** [GetParameterByName] finds the parameters a template has. *)
Definition parameters_found `{X : External} : Prop := forall ps name,
  name ∈ map param_Name ps -> is_Some (GetParameterByName ps name).

(** What the unchecked pointers need: a failing OSD pod is labelled with its
    volume claim, a pod of an OSD that was scaled down is terminating, and the
    removal template has its two parameters. *)
Section Pointers.
Context `{X : External} (env : Answers Req).

Definition failing_have_claims : Prop := forall sel pods p,
  fromLabels {[ "app" := "rook-ceph-osd" ]} = inr sel ->
  env _ (ListPods [WithOptions (in_namespace sel)]) (inr pods) -> p ∈ pods ->
  isPodInCrashBackLoopOffOrErrorStatus (statuses p) = true ->
  is_Some (pod_Labels p !! OSDOverPVCLabelKey).

Definition scaled_down_terminate : Prop := forall id sel p ps,
  fromLabels (<[ "app" := "rook-ceph-osd" ]> {[ OsdIdLabelKey := id ]}) = inr sel ->
  env _ (ListPods [WithOptions (in_namespace sel)]) (inr (p :: ps)) ->
  is_Some (pod_DeletionTimestamp p).

Definition template_complete : Prop := forall t,
  env _ (GetTemplate ODF_NAMESPACE OCS_OSD_REMOVAL_JOB) (inr t) ->
  FAILED_OSD_IDS ∈ map param_Name (tmpl_Parameters t)
  /\ FORCE_OSD_REMOVAL ∈ map param_Name (tmpl_Parameters t).

(** The case that follows such a pointer, by the type of its condition: there are
    four (the clean-up makes a second, forced removal job). *)
Definition justified (t : RecoveryConditionType) : Prop :=
  match t with
  | ManageCrashLoopBackOffPods => failing_have_claims
  | ForceDeleteRookCephOSDPods => scaled_down_terminate
  | ProcessOCSRemovalTemplate | CleanupOSDRemovalJob => template_complete /\ parameters_found
  | _ => True
  end.

(** The next step of an object. *)
Definition justified_step (inst : NodeRecovery) : Prop := forall cs c,
  Conditions (nr_Status inst) = cs ++ [c] -> justified (cond_Type c).

End Pointers.

Section Operations.
Context `{X : External} `{Init : !Initialized} (env : Answers Req).

Lemma getOSDIDsFromNodeDevices_safe nds :
  Forall is_Some nds -> safe env (getOSDIDsFromNodeDevices nds).
Proof.
  intros Hnds. unfold getOSDIDsFromNodeDevices. safety. apply safe_deref.
  rewrite Forall_forall in Hnds. by apply Hnds.
Qed.

Lemma processNodeDevices_safe nds : Forall is_Some nds -> safe env (processNodeDevices nds).
Proof.
  intros Hnds. rewrite Forall_forall in Hnds.
  unfold processNodeDevices, getPVsForNode, processPVForNode.
  safety; apply safe_deref; auto.
Qed.

Lemma counter_safe c (f : NodePV -> list (string * string)) nds :
  Forall is_Some nds ->
  safe env (forM (fun _ nd => nd ← deref nd; trigger (CounterInc c (f nd))) () nds).
Proof.
  intros Hnds. rewrite Forall_forall in Hnds. safety. apply safe_deref. auto.
Qed.

Lemma labelNode_safe name : safe env (labelNode name).
Proof.
  unfold labelNode. apply safe_bind; [done|]. intros [err|n]; [done|]. by destruct (node_Labels n).
Qed.

Lemma labelNodes_safe pods : safe env (labelNodesWithPodsInPendingState pods).
Proof. unfold labelNodesWithPodsInPendingState. safety. apply labelNode_safe. Qed.

Lemma set_parameter_names i v ps :
  map param_Name (alter (fun p => {| param_Name := param_Name p; param_Value := v |}) i ps)
  = map param_Name ps.
Proof. revert i. induction ps as [|p ps IH]; intros [|i]; cbn; try done. f_equal. apply IH. Qed.

Lemma setParameterValue_safe p v t :
  is_Some p ->
  wp (permissive env) (setParameterValue p v t) tt
    (fun t' _ => map param_Name (tmpl_Parameters t') = map param_Name (tmpl_Parameters t)) (fun _ => False).
Proof. intros [i ->]. apply set_parameter_names. Qed.

Lemma template_safe ids force :
  template_complete env -> parameters_found -> safe env (processOCSOSDRemovalTemplate ids force).
Proof.
  intros Hcomplete Hparam.
  unfold processOCSOSDRemovalTemplate. split; [done|]. intros [err|t] [] Ht; [done|].
  destruct (Hcomplete t Ht) as [H1 H2].
  eapply wp_seq; [by apply setParameterValue_safe, Hparam|]. intros t1 [] Hn1.
  rewrite <- Hn1 in H2.
  eapply wp_seq; [by apply setParameterValue_safe, Hparam|]. intros t2 [] _.
  as_safe.
  unfold createTemplateObject. safety.
Qed.

(** The pods the classification calls failing have the label. *)
Lemma classification_safe :
  failing_have_claims env ->
  wp (permissive env) getOSDPodsInOperationalAndFailingStatus tt
    (fun r _ => match r with
                | inr (_, failing) => Forall (fun p => is_Some (pod_Labels p !! OSDOverPVCLabelKey)) failing
                | inl _ => True
                end) (fun _ => False).
Proof.
  intros Hclaims. unfold getOSDPodsInOperationalAndFailingStatus, getOSDPods. apply wp_bind, wp_bind, wp_ret.
  destruct (fromLabels _) as [err|sel] eqn:Hsel; [done|].
  apply wp_bind, wp_trigger; [done|]. intros [err|pods] [] Hpods; [done|]. cbn [wp mret prog_ret].
  rewrite classification_filter. cbn [app]. apply Forall_forall.
  intros p [Hc Hin]%list_elem_of_filter. by apply (Hclaims sel pods p).
Qed.

Lemma handleCrashLoop_safe pods :
  Forall (fun p => is_Some (pod_Labels p !! OSDOverPVCLabelKey)) pods ->
  safe env (handleCrashLoopBackOffPods pods).
Proof.
  intros Hp. rewrite Forall_forall in Hp. unfold handleCrashLoopBackOffPods.
  apply safe_bind; [|done]. apply safe_forM_ret. intros nodePV p Hin.
  destruct (Hp p Hin) as [pvc Hpvc]. unfold getNodeDeviceNameFromPV. rewrite Hpvc.
  eapply wp_seq with (Q1 := fun r _ => match r with inr nd => is_Some nd | inl _ => True end).
  - apply wp_bind, wp_trigger; [done|]. intros [err|c] [] _; [done|].
    apply wp_bind, wp_trigger; [done|]. intros [err|v] [] _; [done|]. by eexists.
  - intros [err|nd] [] Hnd; [done|]. destruct Hnd as [nd' ->].
    as_safe.
    unfold scaleRookCephOSDDeploymentToZero. safety.
Qed.

Lemma countTerminating_safe ids : scaled_down_terminate env -> safe env (countTerminating ids).
Proof.
  intros Hterm.
  unfold countTerminating, getOSDPodsWithID. apply safe_forM_ret. intros c id _.
  eapply wp_seq with (Q1 := fun r _ => match r with
    | inr (p :: _) => is_Some (pod_DeletionTimestamp p) | _ => True end).
  - apply wp_bind, wp_ret. destruct (fromLabels _) as [err|sel] eqn:Hsel; [done|].
    apply wp_bind, wp_trigger; [done|]. intros [err|[|p ps]] [] Hps; [done..|].
    cbn [wp mret prog_ret]. by eapply (Hterm id sel p ps).
  - intros [err|[|p ps]] [] Hp; [done..|].
    as_safe.
    safety. by apply safe_deref.
Qed.

(** The functions with no unchecked pointers. *)
Lemma plain_safe :
  safe env isCephToolsEnabled /\ safe env enableCephTools /\ safe env disableCephTools
  /\ safe env getCephToolsPodPhase /\ safe env hasPodsInCreatingOrInitializingState
  /\ safe env getPodsInPendingPhase /\ safe env deleteOldOSDRemovalJob /\ safe env getOSDPods
  /\ safe env getOSDRemovalPodJobCompletionStatus /\ safe env countPVCsBoundToODSPods
  /\ safe env deleteRookCephOperatorPod /\ safe env deleteFailedPodsWithReasonNodeAffinity
  /\ safe env getCephHealthStatus /\ safe env archiveCephDaemonCrashMessages
  /\ (forall ids, safe env (forceDeleteRookCephOSDPods ids))
  /\ (forall name, safe env (validateJobLogs name)).
Proof.
  unfold isCephToolsEnabled, enableCephTools, disableCephTools, setEnableCephToolsValue, getOCPVersion,
    getOSCInitialization, getStorageCluster, getCephToolsPodPhase, getRunningCephToolsPod,
    hasPodsInCreatingOrInitializingState, getPodsInPendingPhase, deleteOldOSDRemovalJob, getOSDPods,
    getOSDRemovalPodJobCompletionStatus, listPodsWithSelectors, countPVCsBoundToODSPods,
    deleteRookCephOperatorPod, deleteFailedPodsWithReasonNodeAffinity,
    getPodsInFailedPhaseWithReasonNodeAffinity, getCephHealthStatus, archiveCephDaemonCrashMessages,
    getRunningCephToolsPod, forceDeleteRookCephOSDPods, validateJobLogs.
  split_and!; safety.
Qed.

End Operations.

(** ** The cases of the switch *)

Section Cases.
Context `{X : External} `{Init : !Initialized} (env : Answers Req).
Context (cs : list RecoveryCondition) (c : RecoveryCondition) (inst0 : NodeRecovery).
Context (Hdev : Forall is_Some (NodeDevice (nr_Status inst0))).
Context (Hstart : is_Some (StartTime (nr_Status inst0))).

Abbreviation M := (permissive env).

Lemma goto_safe inst next res :
  running cs c inst0 inst ->
  wp M (goto next res inst) tt (fun _ _ => True) (fun _ => False).
Proof.
  intros (_ & _ & [_ (c' & Hc & _) _ _]). unfold goto, transitionNextCondition.
  apply wp_state_bind, wp_status. rewrite Hc, length_snoc. apply wp_setStatus.
  apply wp_now. intros t1. by apply wp_now.
Qed.

Lemma running_devices inst : running cs c inst0 inst -> Forall is_Some (NodeDevice (nr_Status inst)).
Proof using Hdev. intros (_ & _ & [Hf _ _ _]). by apply (frame_NodeDevice _ _ _ Hf). Qed.

Lemma running_start inst : running cs c inst0 inst -> is_Some (StartTime (nr_Status inst)).
Proof using Hstart. intros (_ & _ & [Hf _ _ _]). by rewrite (frame_StartTime _ _ _ Hf). Qed.

Lemma wp_lift_safe {A B} (p : Op A) (f : A -> StateT Req NodeRecovery B) inst Q :
  safe env p -> (forall a, wp M (f a inst) tt Q (fun _ => False)) ->
  wp M ((lift p ≫= f) inst) tt Q (fun _ => False).
Proof. intros Hp Hf. eapply wp_lift_seq; [exact Hp|]. intros a [] _. apply Hf. Qed.

#[local] Ltac plain := pose proof (plain_safe env) as Hplain; tauto || apply Hplain.

Ltac case_step :=
  lazymatch goal with
  | |- wp _ (failWith _ _ _ _) _ _ _ => unfold failWith
  | |- wp _ (failMessage _ _ _) _ _ _ => unfold failMessage
  | |- wp _ ((setReason _ _ ≫= _) _) _ _ _ => unfold setReason
  | |- wp _ ((setMessage _ _ ≫= _) _) _ _ _ => unfold setMessage
  | |- wp _ ((setStatus _ ≫= _) _) _ _ _ => apply wp_setStatus
  | |- wp _ ((status ≫= _) _) _ _ _ => apply wp_status
  | |- wp _ ((get ≫= _) _) _ _ _ => apply wp_get
  | |- wp _ ((readCondition _ ≫= _) _) _ _ _ => eapply wp_readCondition; [solve_running|intros ? ? ?]
  | |- wp _ ((lift (trigger _) ≫= _) _) _ _ _ => apply wp_lift_safe; [done|intros ?]
  | |- wp _ ((lift _ ≫= _) _) _ _ _ =>
      apply wp_lift_safe;
        [first [solve [plain] | match goal with H : _ /\ parameters_found |- _ => exact (template_safe env _ _ (proj1 H) (proj2 H)) end | apply labelNodes_safe
               | apply countTerminating_safe; assumption
               | apply getOSDIDsFromNodeDevices_safe; eapply running_devices; solve_running
               | apply processNodeDevices_safe; eapply running_devices; solve_running
               | apply counter_safe; eapply running_devices; solve_running ]
        |intros ?]
  | |- wp _ (goto _ _ _) _ _ _ => eapply goto_safe; solve_running
  | |- wp _ ((let '(_, _) := ?x in _) _) _ _ _ => destruct x
  | |- wp _ (match ?x with _ => _ end _) _ _ _ => destruct x
  | |- wp _ (mret _ _) _ _ _ => exact I
  end.

Abbreviation Done_ := (fun _ _ => True).
Abbreviation Never := (fun _ => False).

Lemma manage_safe i inst :
  failing_have_claims env -> cond_Type c = ManageCrashLoopBackOffPods -> running cs c inst0 inst ->
  wp M (handleManageCrashLoopBackOffPods i inst) tt Done_ Never.
Proof.
  intros Hclaims Hc Hrun. unfold handleManageCrashLoopBackOffPods.
  eapply wp_lift_seq; [by apply classification_safe|].
  intros [err|[op fl]] [] Hfl; [by repeat case_step|].
  destruct (decide _); [by repeat case_step|].
  assert (forall inst', running cs c inst0 inst' ->
    wp M ((setStatus (set_CrashLoopBackOffPods true);;
      r ← lift (handleCrashLoopBackOffPods fl);
      let '(nodeDevice, c', err) := r in
      match err with
      | Some err => setReason i FailedHandleCrashLoopBackOffPods;;
                    setMessage i (Error err);; mret (c', Some err)
      | None => setStatus (set_NodeDevice nodeDevice);;
                goto ForceDeleteRookCephOSDPods (RequeueIn (15 * Second))
      end) inst') tt Done_ Never) as Hrest.
  { intros inst' Hrun'. apply wp_setStatus.
    eapply wp_lift_seq.
    - eapply wp_and; [by apply handleCrashLoop_safe|apply handleCrashLoopBackOffPods_devices].
    - intros [[nds res] [err|]] [] [_ Hnds]; [by repeat case_step|]. specialize (Hnds eq_refl).
      repeat case_step. }
  destruct (decide (0 < length op)); [|by apply Hrest].
  apply wp_setStatus, Hrest. solve_running.
Qed.

(** A case that falls out of the switch leaves the start time. *)
Lemma disable_safe i inst :
  running cs c inst0 inst ->
  wp M (handleDisableCephTools i inst) tt
    (fun r _ => r.1 = None -> is_Some (StartTime (nr_Status r.2))) Never.
Proof using Hdev Hstart.
  intros Hrun. unfold handleDisableCephTools. apply wp_status.
  assert (forall err, wp M (match err with
      | Some err => r ← failWith i FailedDisableCephToolsPod err; mret (Some r)
      | None => instance ← get; lift (IncrementCompletedOperandCounter instance);; mret None
      end inst) tt (fun r _ => r.1 = None -> is_Some (StartTime (nr_Status r.2))) Never) as Hrest.
  { intros [err|]; [done|]. apply wp_get, wp_lift_safe.
    - apply counter_safe. by apply running_devices.
    - intros _ _. by apply running_start. }
  destruct (negb _); [|exact (Hrest None)]. apply wp_lift_safe; [plain|]. intros err. apply Hrest.
Qed.

Lemma returned_safe inst (m : StateT Req NodeRecovery (Result * option error)) :
  wp M (m inst) tt Done_ Never ->
  wp M (returned m inst) tt (fun r _ => r.1 = None -> is_Some (StartTime (nr_Status r.2))) Never.
Proof. intros H. apply wp_state_bind. eapply wp_mono; [| |exact H]; done. Qed.

Lemma dispatch_safe inst :
  justified env (cond_Type c) -> running cs c inst0 inst ->
  wp M (dispatch (length cs) (cond_Type c) inst) tt
    (fun r _ => r.1 = None -> is_Some (StartTime (nr_Status r.2))) Never.
Proof using Hdev Hstart.
  intros Hjust Hrun. revert Hjust. destruct (cond_Type c) eqn:Hc; intros Hjust; cbn [justified] in Hjust; cbn [dispatch];
    lazymatch goal with
    | |- wp _ (returned _ _) _ _ _ => apply returned_safe
    | |- wp _ (handleDisableCephTools _ _) _ _ _ => by apply disable_safe
    | _ => intros _; by apply running_start
    end;
    lazymatch goal with
    | |- wp _ (handleManageCrashLoopBackOffPods _ _) _ _ _ => by apply manage_safe
    | _ => idtac
    end;
    unfold handleEnableCephToolsPod, handleWaitForCephToolsPodRunning, handleWaitForOSDPodsStabilize,
      handleLabelNodesWithPendingPods, handleForceDeleteRookCephOSDPods, handleProcessOCSRemovalTemplate,
      handleCleanupOSDRemovalJob, handleRetryForceCleanupOSDRemovalJob, finishOSDRemovalJob,
      handleWaitForPersistenVolumeBound, handleRestartStorageOperator,
      handleDeleteFailedPodsNodeAffinity, handleStorageClusterFitnessCheck;
    repeat case_step.
Qed.

Lemma complete_safe inst :
  is_Some (StartTime (nr_Status inst)) -> wp M (complete inst) tt Done_ Never.
Proof.
  intros [t Ht]. unfold complete. apply wp_setStatus, wp_now. intros now.
  apply wp_setStatus, wp_get. apply wp_lift_safe; [cbn; rewrite Ht; done|].
  intros start. repeat case_step.
Qed.

Lemma timedOut_safe latest inst :
  running cs c inst0 inst -> wp M (timedOut latest inst) tt Done_ Never.
Proof using Hdev.
  intros Hrun. unfold timedOut. apply wp_setStatus, wp_get. apply wp_lift_safe; [done|]. intros _.
  apply wp_lift_safe; [apply counter_safe; exact (running_devices inst Hrun)|]. intros _. repeat case_step.
Qed.

End Cases.

Section Whole.
Context `{X : External} `{Init : !Initialized} (env : Answers Req).
Context (Hclock : forall R (e : Req R) r, env R e r -> clock R e r).

Lemma Reconcile_safe inst :
  wf (nr_Status inst) -> justified_step env inst -> safe env (Reconciler.Reconcile inst).
Proof using Type.
  intros Hwf Hjust. destruct (wf_conditions _ Hwf) as (cs & c & Hc & _).
  pose proof (wf_devices _ Hwf) as Hdev.
  assert (is_Some (StartTime (nr_Status inst))) as Hstart.
  { destruct (wf_started _ Hwf) as (t & -> & _). by eexists. }
  unfold safe. destruct (Reconcile_unfold cs c inst Hc) as (k & -> & Hk).
  split; [done|]. intros now [] _. destruct (Hk now) as (k' & -> & Hk').
  split; [done|]. intros now' [] _. rewrite Hk'.
  pose proof (running_probed now cs c inst Hc) as Hrun.
  destruct (After _ _); [by eapply timedOut_safe|].
  apply wp_state_bind. eapply wp_mono; [| |eapply dispatch_safe; [done|done|by apply (Hjust cs)|done]]; [|done].
  intros [[r|] inst2] [] H2; [exact I|]. by apply complete_safe, H2.
Qed.

(** A new object starts in a condition that needs nothing. *)
Lemma processInstance_safe inst :
  nr_Status inst = zeroStatus \/ in_progress inst -> justified_step env inst -> safe env (processInstance inst).
Proof using Hclock.
  intros Hin Hjust. unfold processInstance.
  assert (safe env (startRecovery inst)) as Hs by (unfold startRecovery; safety).
  eapply wp_seq.
  - eapply wp_and; [exact Hs|].
    apply (startRecovery_spec env Hclock (fun _ => True)); [done|exact Hin].
  - intros inst1 [] (_ & [Hwf _] & Hz & Hfirst & _). as_safe. apply safe_bind.
    + apply Reconcile_safe; [done|]. intros cs c Hc. destruct Hz as [Hz|Hz]; [apply (Hjust cs); by rewrite Hz|].
      destruct (Hfirst Hz) as (c0 & Hc0 & Hty). rewrite Hc0 in Hc.
      apply (app_inj_2 [] cs [c0] [c]) in Hc as [_ [= <-]]; [|done]. by rewrite Hty.
    + intros [[res err] inst2]. safety.
Qed.

Lemma fetched_safe inst :
  nr_Status inst = zeroStatus \/ wf (nr_Status inst) -> justified_step env inst ->
  safe env (reconcileFetched (inr inst)).
Proof using Hclock.
  intros Hr Hjust. unfold reconcileFetched. rewrite IgnoreNotFound_nil.
  destruct (_ || _); [done|]. destruct (finished inst) eqn:Hfin; [done|].
  apply processInstance_safe; [|done]. apply finished_spec in Hfin as [Hf1 Hf2].
  destruct Hr as [?|Hwf]; [by left|right]. split; [done|].
  by destruct (wf_phase _ Hwf) as [?|[?|?]].
Qed.

Lemma reconcileFetched_safe inst :
  reachable env (nr_Status inst) -> justified_step env inst -> safe env (reconcileFetched (inr inst)).
Proof using Hclock. intros Hr. apply fetched_safe. by apply (reachable_cases env Hclock). Qed.

Lemma new_object_safe inst : nr_Status inst = zeroStatus -> safe env (reconcileFetched (inr inst)).
Proof using Hclock.
  intros Hz. apply fetched_safe; [by left|]. intros cs c Hc. rewrite Hz in Hc. by destruct cs.
Qed.

End Whole.
