(* ===== verification/Gates.v ===== *)
(** * Gates: conditions that are only entered after a check

    A condition type [t] is gated in an environment when no step from a
    condition with an edge to [t] enters it there; a gated type never occurs
    in a recovery in that environment.  The theorems that use this are in
    Lifecycle.v. *)

From S2P Require Import Prelude Effects GoStd GoStrings Json Api K8s Const Monitoring Ceph Recovery.
From S2P Require Import Reconciler Controller Footprint StateMachine.

Section Gates.
Context `{X : External} `{Init : !Initialized} (env : Answers Req).
Implicit Types (inst : NodeRecovery).

Abbreviation M := (permissive env).
Abbreviation trivial := (fun _ : unit => True).

Definition types inst : list RecoveryConditionType := map cond_Type (Conditions (nr_Status inst)).

(** The type [t] is not entered. *)
Definition keeps_out (t : RecoveryConditionType) (inst0 inst : NodeRecovery) : Prop :=
  t ∉ types inst0 -> t ∉ types inst.

Lemma running_types cs c inst0 inst :
  Conditions (nr_Status inst0) = cs ++ [c] -> running cs c inst0 inst -> types inst = types inst0.
Proof.
  intros Hc (_ & _ & [_ (c' & Hc' & Hty & _) _ _]). unfold types. rewrite Hc, Hc'.
  by apply map_touched.
Qed.

Lemma running_keeps_out t cs c inst0 inst :
  Conditions (nr_Status inst0) = cs ++ [c] -> running cs c inst0 inst -> keeps_out t inst0 inst.
Proof. intros Hc Hr. unfold keeps_out. by rewrite (running_types cs c inst0 inst). Qed.

(** Entering another condition. *)
Lemma goto_keeps_out t cs c inst0 inst next res :
  Conditions (nr_Status inst0) = cs ++ [c] -> running cs c inst0 inst -> next <> t ->
  wp M (goto next res inst) tt (fun r _ => keeps_out t inst0 r.2) trivial.
Proof.
  intros Hc Hr Hne. pose proof (running_types _ _ _ _ Hc Hr) as Hty.
  destruct Hr as (_ & _ & [_ (c' & Hc' & _) _ _]).
  unfold goto, transitionNextCondition. apply wp_state_bind, wp_status. rewrite Hc', length_snoc.
  apply wp_setStatus. apply wp_lift_any; [done..|]. intros t1 []. apply wp_lift_any; [done..|]. intros t2 [].
  unfold keeps_out. rewrite <- Hty. unfold types. cbn. rewrite Hc', alter_snoc, !map_app. cbn. set_solver.
Qed.

Lemma complete_conditions inst :
  wp M (complete inst) tt (fun r _ => Conditions (nr_Status r.2) = Conditions (nr_Status inst)) trivial.
Proof.
  unfold complete. apply wp_setStatus, wp_lift_any; [done..|]. intros now [].
  apply wp_setStatus, wp_get. apply wp_lift_any; [done..|]. intros start [].
  apply wp_lift_any; [done..|]. intros _ []. apply wp_lift_any; [done..|]. by intros _ [].
Qed.

Lemma timedOut_ends latest inst :
  wp M (timedOut latest inst) tt (fun r _ =>
    Conditions (nr_Status r.2) = Conditions (nr_Status inst) /\ Phase (nr_Status r.2) = FailedPhase) trivial.
Proof.
  unfold timedOut. apply wp_setStatus, wp_get.
  apply wp_lift_any; [done..|]. intros _ []. apply wp_lift_any; [done..|]. intros _ [].
  apply wp_lift_any; [done..|]. by intros _ [].
Qed.

(** A step keeps a type out when its case does. *)
Lemma Reconcile_keeps_out t cs c inst :
  Conditions (nr_Status inst) = cs ++ [c] ->
  (forall inst1, running cs c inst inst1 ->
     wp M (dispatch (length cs) (cond_Type c) inst1) tt (fun r _ => keeps_out t inst r.2) trivial) ->
  wp M (Reconciler.Reconcile inst) tt (fun r _ => keeps_out t inst r.2) trivial.
Proof.
  intros Hc Hd. destruct (Reconcile_unfold cs c inst Hc) as (k & -> & Hk).
  split; [done|]. intros now [] _. destruct (Hk now) as (k' & -> & Hk').
  split; [done|]. intros now' [] _. rewrite Hk'.
  pose proof (running_probed now cs c inst Hc) as Hrun.
  destruct (After _ _).
  - eapply wp_mono; [|done|apply timedOut_ends]. intros r [] [Hr _].
    unfold keeps_out, types. rewrite Hr. by apply (running_keeps_out t cs c).
  - apply wp_state_bind. eapply wp_mono; [|done|by apply Hd].
    intros [[r|] inst2] [] H2; [done|]. cbn [fst snd] in *.
    eapply wp_mono; [|done|apply complete_conditions]. intros r [] Hr.
    unfold keeps_out, types in *. by rewrite Hr.
Qed.

(** ** Gated condition types *)

Definition gated (t : RecoveryConditionType) : Prop :=
  forall cs c inst, Conditions (nr_Status inst) = cs ++ [c] -> edge (cond_Type c) t = true ->
    forall inst1, running cs c inst inst1 ->
    wp M (dispatch (length cs) (cond_Type c) inst1) tt (fun r _ => keeps_out t inst r.2) trivial.

(** No status with the type [t] is written. *)
Definition without (t : RecoveryConditionType) (c : Call Req) : Prop :=
  match projT2 c with StatusUpdate inst => t ∉ types inst | _ => True end.

Lemma moved_types cs c inst0 inst t :
  Conditions (nr_Status inst0) = cs ++ [c] -> moved cs c inst0 inst ->
  edge (cond_Type c) t = false -> t ∉ types inst0 -> t ∉ types inst.
Proof.
  intros Hc (_ & _ & _ & Hm) He Hin. unfold types in *. rewrite Hc in Hin.
  destruct Hm as [c' Hc' (Hty & _) | c' n Hc' (Hty & _) _ Hedge | c' Hc' (Hty & _) | c' u Hc' (Hty & _)];
    rewrite Hc', ?map_app in *; cbn in *; rewrite Hty; [done| |done|done].
  set_unfold. assert (cond_Type n <> t) by congruence. naive_solver.
Qed.

Lemma Reconcile_without t cs c inst :
  gated t -> Conditions (nr_Status inst) = cs ++ [c] -> t ∉ types inst ->
  wp M (Reconciler.Reconcile inst) tt (fun r _ => t ∉ types r.2) trivial.
Proof.
  intros Hg Hc Hin. destruct (edge (cond_Type c) t) eqn:He.
  - eapply wp_mono; [|done|apply (Reconcile_keeps_out t cs c inst Hc); by apply (Hg cs c)].
    intros r [] Hk. by apply Hk.
  - eapply wp_mono; [|done|by apply (Reconcile_moves env cs c inst Hc)].
    intros r [] Hm. by eapply moved_types.
Qed.

Context (Hclock : forall R (e : Req R) r, env R e r -> clock R e r).

Lemma processInstance_without t inst :
  gated t -> t <> EnableCephToolsPod -> nr_Status inst = zeroStatus \/ in_progress inst ->
  t ∉ types inst ->
  wp (allowing env (without t)) (processInstance inst) tt (fun _ _ => True) trivial.
Proof using Hclock.
  intros Hg Hne Hin Ht. unfold processInstance.
  assert (forall R (e : Req R), kind_of e <> KStatusUpdate -> without t (call e)) as HP.
  { intros R e. by destruct e. }
  eapply wp_seq; [apply (startRecovery_spec env Hclock (without t)); [|exact Hin]; intros R e He; apply HP;
    intros Hs; rewrite Hs in He; naive_solver|].
  intros inst1 [] (Hin1 & Hz & Hfirst & Hname).
  destruct (wf_conditions _ (proj1 Hin1)) as (cs & c & Hc & _).
  assert (t ∉ types inst1) as Ht1.
  { destruct Hz as [Hz|Hz]; [unfold types in *; by rewrite <- Hz|].
    destruct (Hfirst Hz) as (c0 & Hc0 & Hty). unfold types. rewrite Hc0. cbn. rewrite Hty. set_solver. }
  eapply wp_seq.
  - apply (only_wp (without t)); [done| |by apply (Reconcile_without t cs c)].
    eapply only_mono; [|apply (Reconcile_footprint cs c _ Hc)].
    intros [R e] Hk. apply HP. intros Heq. unfold within, kind in Hk. cbn in Hk. rewrite Heq in Hk.
    by apply (footprint_of_no_update (cond_Type c)).
  - intros [[res err] inst2] [] Hm. by cbn.
Qed.

Lemma fetched_without t inst :
  gated t -> t <> EnableCephToolsPod -> nr_Status inst = zeroStatus \/ wf (nr_Status inst) -> t ∉ types inst ->
  wp (allowing env (without t)) (reconcileFetched (inr inst)) tt (fun _ _ => True) trivial.
Proof using Hclock.
  intros Hg Hne Hst Ht. unfold reconcileFetched. rewrite IgnoreNotFound_nil. cbn.
  destruct (negb _); cbn; [done|]. destruct (finished inst) eqn:Hfin; [done|].
  apply processInstance_without; [done..| |done]. apply finished_spec in Hfin as [Hf1 Hf2].
  destruct Hst as [?|Hwf]; [by left|right]. split; [done|]. by destruct (wf_phase _ Hwf) as [?|[?|?]].
Qed.

Lemma gated_unreachable t st :
  gated t -> t <> EnableCephToolsPod -> reachable env st -> t ∉ map cond_Type (Conditions st).
Proof using Hclock.
  intros Hg Hne. induction 1 as [|inst inst' st Hr IH Hi Hst]; [cbn; set_solver|].
  rewrite (stored_types _ _ (stored_Conditions _ _ Hst)).
  change (without t (call (StatusUpdate inst'))).
  eapply (wp_issues env (without t) (reconcileFetched (inr inst)) (fun _ _ => True) trivial); [|exact Hi].
  apply fetched_without; [done..|by apply (reachable_cases env Hclock)|exact IH].
Qed.

End Gates.
