(* ===== verification/Lifecycle.v ===== *)
(** * Lifecycle: the theorems about whole recoveries

    What holds of every status an object can have, from the state machine:
    the invariant, the refinement of the controller by the moves, the order of
    the conditions, and the gates a recovery cannot go round. *)

From S2P Require Import Prelude Effects GoStd GoStrings Json Api K8s Const Monitoring Ceph Recovery.
From S2P Require Import Reconciler Controller Footprint StateMachine Gates Fake.

Section Lifecycle.
Context `{X : External} `{Init : !Initialized}.

(** C1: Invariant.  Every status an object can have, whatever the cluster
    answers and however the stored times are rounded, is either the empty one or
    well formed: the types of its conditions are a trail of the state machine,
    only the last condition is marked "True", the start time is set, the
    completion time is set exactly in the Completed phase, every recorded device
    is there, and a recovery that has force-deleted had failing pods. *)
Theorem status_invariant (st : NodeRecoveryStatus) :
  reachable clock st -> st <> zeroStatus -> wf st.
Proof. intros Hr Hne. by destruct (reachable_cases clock (fun _ _ _ H => H) st Hr). Qed.

(** C2: Refinement.  Whatever status the controller writes for an object it was
    given, it is one move of the abstract state machine away from the status of
    the object (started first, when the object is new): the latest condition is
    annotated, or closed and followed by a fresh successor along an edge of the
    graph, or the phase becomes Failed, or, from the last condition, Completed. *)
Theorem update_is_one_move (inst inst' : NodeRecovery) :
  reachable clock (nr_Status inst) ->
  issues clock (reconcileFetched (inr inst)) (call (StatusUpdate inst')) -> update_of inst inst'.
Proof.
  intros Hr Hi.
  apply (wp_issues clock (updates_from inst) (reconcileFetched (inr inst)) (fun _ _ => True)
    (fun _ => True) (call (StatusUpdate inst'))); [|done].
  by apply reconcileFetched_updates, (reachable_cases clock).
Qed.

Lemma reachable_trail (st : NodeRecoveryStatus) :
  reachable clock st -> Conditions st <> [] ->
  exists cs c, Conditions st = cs ++ [c] /\ trail (map cond_Type (Conditions st)) (cond_Type c).
Proof.
  intros [->|Hwf]%(reachable_cases clock (fun _ _ _ H => H)) Hne; [done|].
  destruct (wf_conditions _ Hwf) as (cs & c & ? & ? & _). eauto.
Qed.

(** C27: Bound.  But for [ForceDeleteRookCephOSDPods], no condition type occurs
    twice in the conditions of an object, and there are at most thirteen of
    these: however often it is reconciled, a recovery makes at most that much
    progress. *)
Theorem conditions_bounded (st : NodeRecoveryStatus) :
  reachable clock st ->
  let ts := filter (fun t => t <> ForceDeleteRookCephOSDPods) (map cond_Type (Conditions st)) in
  NoDup ts /\ length ts <= 13.
Proof.
  intros Hr ts. destruct (decide (Conditions st = [])) as [He|Hne].
  { subst ts. rewrite He. cbn. split; [constructor|lia]. }
  destruct (reachable_trail st Hr Hne) as (cs & c & _ & Ht).
  pose proof (trail_NoDup _ _ Ht) as Hnd. split; [done|].
  change 13 with (length (filter (fun t => t <> ForceDeleteRookCephOSDPods) (map fst namedConditionTypes))).
  apply submseteq_length, NoDup_submseteq; [done|].
  intros t [H1 H2]%list_elem_of_filter. apply list_elem_of_filter. split; [done|].
  by apply (trail_incl _ _ Ht).
Qed.


(** C15: Safety.  A recovery that found failing OSD pods does not restart the
    Rook operator before the removal template was processed, the removal job
    cleaned up and the volumes waited for. *)
Theorem removal_before_restart (st : NodeRecoveryStatus) :
  reachable clock st ->
  ForceDeleteRookCephOSDPods ∈ map cond_Type (Conditions st) ->
  RestartStorageOperator ∈ map cond_Type (Conditions st) ->
  with_failing ⊆ map cond_Type (Conditions st).
Proof.
  intros Hr Hfd Hrs m Hm.
  destruct (reachable_trail st Hr) as (cs & c & _ & Ht); [by intros E; rewrite E in Hfd; set_solver|].
  apply (trail_with_failing _ _ Ht Hfd); [done|].
  pose proof (trail_rank _ _ Ht) as Hk. rewrite Forall_forall in Hk. specialize (Hk _ Hrs).
  unfold with_failing in Hm. set_unfold. naive_solver lia.
Qed.

(** ** Gates *)

Section HealthGate.
Context (env : Answers Req).

(** What the ceph status command answers never reads as HEALTH_OK. *)
Definition unhealthy : Prop := forall p stdout stderr err,
  env _ (RunCommand p ["ceph"; "status"; "-f"; "json"]) (stdout, stderr, err) ->
  is_Some err \/ 0 < String.length stderr
  \/ forall h, Unmarshal_healthStatus stdout {| Health := {| Status := "" |} |} = inr h ->
        Status (Health h) <> HEALTH_OK.

Lemma getCephHealthStatus_unhealthy :
  unhealthy ->
  wp (permissive env) getCephHealthStatus tt (fun r _ => r <> inr HEALTH_OK) (fun _ => True).
Proof.
  intros Hu. unfold getCephHealthStatus.
  eapply wp_seq with (Q1 := fun _ _ => True); [by apply wp_trivial|].
  intros [err|p] [] _; [done|]. apply wp_bind, wp_trigger; [done|].
  intros [[stdout stderr] err] [] Hans. specialize (Hu p stdout stderr err Hans).
  destruct err as [err|]; [done|]. destruct (decide _) as [|Hlen]; [done|]. apply wp_bind. cbn.
  destruct (Unmarshal_healthStatus _ _) as [e|h] eqn:E; cbn; [done|].
  destruct Hu as [[? ?]|[?|Hh]]; [done..|]. intros [= Hs]. by apply (Hh h).
Qed.

Lemma health_gate : unhealthy -> gated env DisableCephTools.
Proof.
  intros Hu cs c inst Hc He inst1 Hrun. destruct (cond_Type c) eqn:Hty; try discriminate He.
  cbn [dispatch]. unfold returned. apply wp_state_bind.
  eapply wp_mono with (Q := fun r _ => running cs c inst r.2) (QP := fun _ => True);
    [intros r [] Hr; cbn; by apply (running_keeps_out _ cs c)|done|].
  unfold handleStorageClusterFitnessCheck.
  eapply wp_lift_seq; [by apply getCephHealthStatus_unhealthy|].
  intros [err|h] [] Hh; [by repeat handler_step|].
  destruct (decide _) as [_|Hok]; [by repeat handler_step|].
  destruct Hok. congruence.
Qed.

End HealthGate.

(** C6: Safety.  As long as Ceph does not report HEALTH_OK (the command fails,
    writes to its standard error, or prints anything whose health status is
    another text), no recovery gets past the health check: the tools pod is not
    disabled and the object is never Completed. *)
Theorem never_completed_while_unhealthy (env : Answers Req) (st : NodeRecoveryStatus) :
  (forall R (e : Req R) r, env R e r -> clock R e r) -> unhealthy env -> reachable env st ->
  DisableCephTools ∉ map cond_Type (Conditions st) /\ Phase st <> CompletedPhase.
Proof.
  intros Hclock Hu Hr.
  assert (DisableCephTools ∉ map cond_Type (Conditions st)) as Hno.
  { by apply (gated_unreachable env Hclock); [apply health_gate| |]. }
  split; [done|]. intros Hp.
  destruct (reachable_cases env Hclock _ Hr) as [->|Hwf]; [discriminate Hp|].
  destruct (wf_completed_last _ Hwf Hp) as (cs & c & Hc & Hty).
  apply Hno. rewrite Hc, map_app, <- Hty. set_solver.
Qed.

Section LogGate.
Context (env : Answers Req).

(** No log says that the removal completed. *)
Definition no_success : Prop := forall name logs,
  env _ (GetLogs name) (inr logs) ->
  Contains (ToLower (last_line (TrimSpace logs))) osdJobSuccessMessage = false.

Lemma validateJobLogs_fails name :
  no_success -> wp (permissive env) (validateJobLogs name) tt (fun r _ => is_Some r) (fun _ => True).
Proof.
  intros Hn. unfold validateJobLogs. apply wp_bind, wp_trigger; [done|].
  intros [err|logs] [] Hans; [by eexists|]. cbv zeta. rewrite (Hn name logs Hans). by eexists.
Qed.

Lemma finish_stays cs c inst inst1 name :
  no_success -> Conditions (nr_Status inst) = cs ++ [c] -> running cs c inst inst1 ->
  wp (permissive env) (finishOSDRemovalJob (length cs) name inst1) tt (fun r _ => keeps_out WaitForPersistenVolumeBound inst r.2) (fun _ => True).
Proof.
  intros Hn Hc Hrun. unfold finishOSDRemovalJob.
  eapply wp_lift_seq; [by apply validateJobLogs_fails|].
  intros [err|] [] Hs; [|by destruct Hs]. cbn.
  apply (running_keeps_out _ cs c inst (set_Status (updateCondition (length cs) (set_cond_Message (Error err))) inst1) Hc).
  apply running_set; [done|]. intros Hd. apply during_update; [auto with odf|done].
Qed.

(** A step of a handler that does not enter the condition. *)
Ltac gate_step :=
  first
    [ handler_step
    | lazymatch goal with
      | |- wp _ (goto _ _ _) _ _ _ => eapply goto_keeps_out; [eassumption|solve_running|done]
      | Hc : Conditions (nr_Status ?inst) = ?cs ++ [?c], Hr : running ?cs ?c ?inst ?i
        |- wp _ (mret _ _) _ (fun r _ => keeps_out ?t ?inst _) _ =>
          first [ exact (running_keeps_out t cs c inst i Hc Hr)
                | cbn; apply (running_keeps_out t cs c); [exact Hc|solve_running] ]
      end ].

Lemma log_gate : no_success -> gated env WaitForPersistenVolumeBound.
Proof.
  intros Hn cs c inst Hc He inst1 Hrun.
  destruct (cond_Type c) eqn:Hty; try discriminate He; cbn [dispatch];
    unfold returned; apply wp_state_bind; cbn [wp mret stateT_ret fst snd];
    unfold handleCleanupOSDRemovalJob, handleRetryForceCleanupOSDRemovalJob;
    repeat gate_step; by eapply finish_stays.
Qed.

End LogGate.

(** Safety.  As long as no log of a removal job ends in a line that says
    "completed removal", no recovery gets past the clean-up of the job: it does
    not go on to wait for the volumes, whether or not the job was retried with
    forced removal. *)
Lemma volumes_wait_for_validated_log (env : Answers Req) (st : NodeRecoveryStatus) :
  (forall R (e : Req R) r, env R e r -> clock R e r) -> no_success env -> reachable env st ->
  WaitForPersistenVolumeBound ∉ map cond_Type (Conditions st).
Proof. intros Hclock Hn Hr. by apply (gated_unreachable env Hclock); [apply log_gate| |]. Qed.

End Lifecycle.

(** The controller appends a second condition of the type
    [ForceDeleteRookCephOSDPods] when the pods it force-deleted were terminating,
    although the conditions are declared as a list-map keyed by the type
    (noderecovery_types.go, [+listMapKey=type]): the recovery of the cluster
    [Broken] reaches such a status. *)
Theorem force_delete_duplicates_the_key :
  exists st, reachable clock st /\ ~ NoDup (map cond_Type (Conditions st)).
Proof.
  exists (nr_Status (w_cr (after 6 Broken))). split.
  - exact (Broken_reachable _).
  - rewrite Broken_types_6. apply (bool_decide_unpack _). vm_compute. exact I.
Qed.

(** ** Witnesses *)

Lemma status_invariant_witness : wf (nr_Status (w_cr (after 17 Broken))).
Proof.
  apply (status_invariant (nr_Status (w_cr (after 17 Broken)))).
  - exact (Broken_reachable _).
  - intros H. pose proof Broken_completed as Hp. rewrite H in Hp. discriminate Hp.
Defined.

Lemma update_is_one_move_witness :
  update_of (w_cr (after 5 Broken)) (w_cr (reconcile_cr (after 5 Broken))).
Proof.
  apply (update_is_one_move (w_cr (after 5 Broken)) (w_cr (reconcile_cr (after 5 Broken)))).
  - exact (Broken_reachable _).
  - apply (cluster_issues clock past_zero cluster_clock _ (after 5 Broken)).
    + exact (proj1 (after_reachable clock past_zero cluster_clock past_zero_pause 5 Broken eq_refl eq_refl)).
    + apply list_elem_of_lookup. exists 7. vm_compute. reflexivity.
Defined.

Lemma conditions_bounded_witness :
  length (filter (fun t => t <> ForceDeleteRookCephOSDPods)
            (map cond_Type (Conditions (nr_Status (w_cr (after 17 Broken)))))) <= 13.
Proof.
  apply (conditions_bounded (nr_Status (w_cr (after 17 Broken)))). exact (Broken_reachable 17).
Defined.


Lemma removal_before_restart_witness :
  with_failing ⊆ map cond_Type (Conditions (nr_Status (w_cr (after 17 Broken)))).
Proof.
  apply (removal_before_restart (nr_Status (w_cr (after 17 Broken)))).
  - exact (Broken_reachable 17).
  - rewrite Broken_types_17. apply (bool_decide_unpack _). vm_compute. exact I.
  - rewrite Broken_types_17. apply (bool_decide_unpack _). vm_compute. exact I.
Defined.

(** A cluster in which Ceph never becomes healthy. *)
Definition warned_env : Answers Req := fun R e =>
  match e in Req R return R -> Prop with
  | RunCommand _ _ => fun r => r.1.1 = health_report "HEALTH_WARN"
  | e => clock _ e
  end.

Definition warned (w : World) : Prop := past_zero w /\ w_stdout w = health_report "HEALTH_WARN".

Lemma cluster_warned R (e : Req R) w :
  warned w -> warned_env R e (cluster R e w).1 /\ warned (cluster R e w).2.
Proof.
  intros [Hw Ho]. destruct (cluster_clock R e w Hw) as [Hc Hw'].
  destruct e; cbn in *; split; try done; by split.
Qed.

Lemma warned_pause w : warned w -> warned (with_clock (w_clock w + 60 * Second) w)%Z.
Proof. intros [Hw Ho]. split; [by apply past_zero_pause|done]. Qed.

Lemma warned_clock R (e : Req R) r : warned_env R e r -> clock R e r.
Proof. by destruct e. Qed.

Lemma warned_unhealthy : unhealthy warned_env.
Proof.
  intros p stdout stderr err Ho. cbn in Ho. subst stdout. right. right. intros h Hh.
  vm_compute in Hh. by injection Hh as <-.
Qed.

Lemma warned_reachable n :
  reachable warned_env (nr_Status (w_cr (after n (world None "Bound" "HEALTH_WARN")))).
Proof.
  apply (after_reachable warned_env warned cluster_warned warned_pause n (world None "Bound" "HEALTH_WARN"));
    [split; reflexivity|reflexivity].
Qed.

Lemma never_completed_while_unhealthy_witness :
  Phase (nr_Status (w_cr (after 12 (world None "Bound" "HEALTH_WARN")))) <> CompletedPhase.
Proof.
  apply (never_completed_while_unhealthy warned_env
    (nr_Status (w_cr (after 12 (world None "Bound" "HEALTH_WARN"))))).
  - exact warned_clock.
  - exact warned_unhealthy.
  - exact (warned_reachable 12).
Defined.

(** A cluster in which the removal job's log never says that it completed. *)
Definition failed_log : string := "timed out removing OSD 2".

Definition failed_env : Answers Req := fun R e =>
  match e in Req R return R -> Prop with
  | GetLogs _ => fun r => r = inr failed_log
  | e => clock _ e
  end.

Definition Unremovable : World := with_logs failed_log Broken.

Definition failed (w : World) : Prop := past_zero w /\ w_logs w = failed_log.

Lemma cluster_failed R (e : Req R) w :
  failed w -> failed_env R e (cluster R e w).1 /\ failed (cluster R e w).2.
Proof.
  intros [Hw Ho]. destruct (cluster_clock R e w Hw) as [Hc Hw'].
  destruct e; cbn in *; split; try done; try (by split). by rewrite Ho.
Qed.

Lemma failed_pause w : failed w -> failed (with_clock (w_clock w + 60 * Second) w)%Z.
Proof. intros [Hw Ho]. split; [by apply past_zero_pause|done]. Qed.

Lemma failed_clock R (e : Req R) r : failed_env R e r -> clock R e r.
Proof. by destruct e. Qed.

Lemma failed_no_success : no_success failed_env.
Proof. intros name logs [= ->]. vm_compute. reflexivity. Qed.

Lemma failed_reachable n : reachable failed_env (nr_Status (w_cr (after n Unremovable))).
Proof.
  apply (after_reachable failed_env failed cluster_failed failed_pause n Unremovable);
    [split; reflexivity|reflexivity].
Qed.

Lemma volumes_wait_for_validated_log_witness :
  WaitForPersistenVolumeBound ∉ map cond_Type (Conditions (nr_Status (w_cr (after 12 Unremovable)))).
Proof.
  apply (volumes_wait_for_validated_log failed_env (nr_Status (w_cr (after 12 Unremovable)))).
  - exact failed_clock.
  - exact failed_no_success.
  - exact (failed_reachable 12).
Defined.
