(* ===== verification/Endings.v ===== *)
(** * Endings: every recovery comes to an end

    In a cluster that may answer anything, a recovery that is attempted again
    and again is over once a bounded number of its attempts have reached the
    server.  An attempt may panic, or write a status that the server refuses
    because two conditions have one type ([Wire.status_schema]), or change
    nothing but a message; what bounds those is the time-out of the latest
    condition, and what bounds the attempts that change the condition is the
    number of condition types.  An attempt may also be lost: its object could
    not be read, or its status was refused for another reason (a conflict) or
    never arrived.  Nothing bounds those, so they are not counted. *)

From S2P Require Import Prelude Effects GoStd GoStrings Json Api K8s Const Monitoring Ceph Recovery Reconciler Controller.
From S2P Require Import Footprint StateMachine Times NoPanic Gates Fake.

(** ** The attempts *)

(** Any answer to every request, but the clock shows times from [lo] to [hi]. *)
Abbreviation between lo hi := (clocked (fun t => (lo <= t <= hi)%Z)).

(** What the server gives back of a status it accepted: its times may have been
    rounded down. *)
Record saved (st st' : NodeRecoveryStatus) : Prop := {
  saved_stored : stored st st';
  saved_conditions : Forall2 (fun c c' =>
    (cond_LastProbeTime c' <= cond_LastProbeTime c)%Z
    /\ (cond_LastTransitionTime c' <= cond_LastTransitionTime c)%Z) (Conditions st) (Conditions st');
  saved_start : forall t', StartTime st' = Some t' -> exists t, StartTime st = Some t /\ (t' <= t)%Z;
  saved_completion : forall t', CompletionTime st' = Some t' -> exists t, CompletionTime st = Some t /\ (t' <= t)%Z;
}.

Section Attempts.
Context `{X : External} `{Init : !Initialized}.

Implicit Types (inst : NodeRecovery).

(** No two conditions have the same type. *)
Definition distinct inst : Prop := NoDup (types inst).

(** A reconciliation of the object in an environment, and what the server has
    of it afterwards: its status was written and accepted, or written and
    refused for a repeated type, or it panicked before it wrote, or there was
    nothing left to do. *)
Inductive attempt (env : Answers Req) inst : NodeRecovery -> Prop :=
| attempt_written inst' st :
    issues env (reconcileFetched (inr inst)) (call (StatusUpdate inst')) ->
    distinct inst' -> saved (nr_Status inst') st -> attempt env inst (set_Status (fun _ => st) inst)
| attempt_refused inst' :
    issues env (reconcileFetched (inr inst)) (call (StatusUpdate inst')) ->
    ~ distinct inst' -> attempt env inst inst
| attempt_crashed : panics env (reconcileFetched (inr inst)) -> attempt env inst inst
| attempt_ignored : finished inst = true -> attempt env inst inst.

(** The environment from [lo] to [hi]. *)
Definition during_times (env : Answers Req) (lo hi : Time) : Answers Req :=
  fun R e r => env R e r /\ between lo hi R e r.

(** Attempts one after the other, the first at [now] at the earliest and each
    [delay] after the one before it started at the earliest, of which [n] were
    not lost. *)
Inductive attempts (env : Answers Req) (delay : Duration) : Time -> nat -> NodeRecovery -> NodeRecovery -> Prop :=
| attempts_none now inst : attempts env delay now 0 inst inst
| attempts_lost now lo hi n inst inst' :
    (now <= lo <= hi)%Z ->
    attempts env delay (Z.max hi (lo + delay)) n inst inst' -> attempts env delay now n inst inst'
| attempts_more now lo hi n inst inst1 inst' :
    (now <= lo <= hi)%Z -> attempt (during_times env lo hi) inst inst1 ->
    attempts env delay (Z.max hi (lo + delay)) n inst1 inst' -> attempts env delay now (S n) inst inst'.

Lemma attempt_mono (env env' : Answers Req) inst inst1 :
  (forall R (e : Req R) r, env R e r -> env' R e r) -> attempt env inst inst1 -> attempt env' inst inst1.
Proof.
  intros He [inst' st Hi|inst' Hi|Hp|Hf].
  - by eapply attempt_written; [eapply issues_mono|..].
  - by eapply attempt_refused; [eapply issues_mono|..].
  - by eapply attempt_crashed, panics_mono.
  - by apply attempt_ignored.
Qed.

Lemma attempt_between env lo hi inst inst1 :
  attempt (during_times env lo hi) inst inst1 -> attempt (between lo hi) inst inst1.
Proof. apply attempt_mono. by intros R e r [_ ?]. Qed.

(** ** The last attempt of a condition *)

Lemma late_step D cs c inst :
  Conditions (nr_Status inst) = cs ++ [c] -> Forall is_Some (NodeDevice (nr_Status inst)) ->
  (forall t, D t -> (cond_LastTransitionTime c + reconciliationTimeout < t)%Z) ->
  wp (permissive (clocked D)) (Reconciler.Reconcile inst) tt
    (fun r _ => Phase (nr_Status r.2) = FailedPhase /\ types r.2 = types inst) (fun _ => False).
Proof using Type.
  intros Hc Hdev Hlate. destruct (Reconcile_unfold cs c inst Hc) as (k & -> & Hk).
  split; [done|]. intros now [] _. destruct (Hk now) as (k' & -> & Hk').
  split; [done|]. intros now' [] Hnow'%Hlate. rewrite Hk'.
  rewrite (proj2 (After_spec now' (Add (cond_LastTransitionTime c) reconciliationTimeout)) Hnow').
  pose proof (running_probed now cs c inst Hc) as Hrun.
  rewrite <- (running_types _ _ _ _ Hc Hrun).
  eapply wp_mono with (QP := fun _ => False); [|done|eapply wp_and;
    [by eapply timedOut_safe|apply (timedOut_ends (clocked D))]]. intros r [] [_ [Hr Hph]]. split; [done|]. unfold types. by rewrite Hr.
Qed.

(** What a step writes. *)
Definition ends_here inst (c : Call Req) : Prop :=
  match projT2 c with
  | StatusUpdate inst' => Phase (nr_Status inst') = FailedPhase /\ types inst' = types inst
  | _ => True
  end.

Lemma late_fetched D cs c inst :
  in_progress inst -> Conditions (nr_Status inst) = cs ++ [c] ->
  (forall t, D t -> (cond_LastTransitionTime c + reconciliationTimeout < t)%Z) ->
  wp (allowing (clocked D) (ends_here inst)) (reconcileFetched (inr inst)) tt (fun _ _ => True) (fun _ => False).
Proof using Type.
  intros [Hwf Hph] Hc Hlate. unfold reconcileFetched. rewrite IgnoreNotFound_nil.
  destruct (_ || _); [done|]. destruct (finished inst); [done|]. unfold processInstance.
  destruct (wf_started _ Hwf) as (t & Ht & Htz). unfold startRecovery.
  rewrite Ht, MetaTime_IsZero_time. unfold Time_IsZero. rewrite (proj2 (Z.eqb_neq t 0) Htz). apply wp_bind, wp_ret.
  eapply wp_seq.
  - apply (only_wp (ends_here inst)); [done| |apply (late_step D cs c); [done|apply Hwf|done]].
    eapply only_mono; [|apply (Reconcile_footprint cs c _ Hc)].
    intros [R e] Hk. destruct e; try exact I. by apply (footprint_of_no_update (cond_Type c)) in Hk.
  - intros [[res err] inst2] [] H2. by split.
Qed.

(** ** What an attempt does to a recovery that is not over *)

(** An object the operator may be given at [now]. *)
Record alive (now : Time) inst : Prop := {
  alive_status : nr_Status inst = zeroStatus \/ wf (nr_Status inst);
  alive_distinct : distinct inst;
  alive_timed : timed (fun t => (t <= now)%Z) (nr_Status inst);
  alive_present : MetaTime_IsZero (nr_DeletionTimestamp inst) = true;
}.

Lemma saved_types st st' : saved st st' -> map cond_Type (Conditions st') = map cond_Type (Conditions st).
Proof. intros [Hst _ _ _]. apply stored_types, Hst. Qed.

Lemma kept_types inst inst' st : saved (nr_Status inst') st -> types (set_Status (fun _ => st) inst) = types inst'.
Proof. apply saved_types. Qed.

Lemma saved_timed now st st' :
  saved st st' -> timed (fun t => (t <= now)%Z) st -> timed (fun t => (t <= now)%Z) st'.
Proof.
  intros [[_ Hs _ _ _ _ _ _ _ _] Hcs H1 H2] [Hc Hst Hct]. constructor.
  - clear -Hs Hcs Hc. induction Hcs as [|c c' cs cs' [Hp Ht] _ IH]; [constructor|].
    inversion_clear Hs as [|? ? ? ? (Hty & _) Hs']. inversion_clear Hc as [|? ? (Hp' & Ht' & Hn) Hc'].
    constructor; [|by apply IH]. split_and!; [lia..|]. by rewrite Hty.
  - intros t' (t & Ht & Hle)%H1. specialize (Hst t Ht). cbn in Hst. lia.
  - intros t' (t & Ht & Hle)%H2. specialize (Hct t Ht). cbn in Hct. lia.
Qed.

Lemma timed_later now now' st :
  (now <= now')%Z -> timed (fun t => (t <= now)%Z) st -> timed (fun t => (t <= now')%Z) st.
Proof.
  intros Hle [Hc Hs Hct]. constructor.
  - eapply Forall_impl; [exact Hc|]. intros c (H1 & H2 & H3). split_and!; [lia..|done].
  - intros t Ht%Hs. cbn in *. lia.
  - intros t Ht%Hct. cbn in *. lia.
Qed.

Lemma alive_later now now' inst : (now <= now')%Z -> alive now inst -> alive now' inst.
Proof. intros Hle [H1 H2 H3 H4]. constructor; [done..|by eapply timed_later|done]. Qed.

Lemma between_clock now lo hi : (0 < now)%Z -> (now <= lo)%Z ->
  forall R (e : Req R) r, between lo hi R e r -> clock R e r.
Proof. intros Hnow Hlo R e r. destruct e; try done. cbn. lia. Qed.

(** A status it writes. *)
Lemma written_spec now lo hi inst inst' :
  (0 < now)%Z -> (now <= lo <= hi)%Z -> alive now inst ->
  issues (between lo hi) (reconcileFetched (inr inst)) (call (StatusUpdate inst')) ->
  update_of inst inst' /\ timed (fun t => (t <= hi)%Z) (nr_Status inst').
Proof.
  intros Hnow [Hlo Hhi] [Hst _ Ht _] Hi. split.
  - eapply (wp_issues (between lo hi) (updates_from inst) _ _ _ (call (StatusUpdate inst')));
      [apply reconcileFetched_updates; [by eapply between_clock|exact Hst]|exact Hi].
  - eapply (written_timed (fun t => (t <= hi)%Z)); [eapply timed_later; [|exact Ht]; lia|].
    eapply issues_mono; [|exact Hi]. intros R e r. destruct e; try done. cbn. lia.
Qed.

Lemma attempt_alive now lo hi inst inst1 :
  (0 < now)%Z -> (now <= lo <= hi)%Z -> alive now inst -> attempt (between lo hi) inst inst1 -> alive hi inst1.
Proof.
  intros Hnow Hle Ha Hat. destruct Hat as [inst' st Hi Hd Hs|inst' Hi Hd|Hp|Hf]; [|(eapply alive_later; [|exact Ha]; lia)..].
  destruct (written_spec now lo hi inst inst' Hnow Hle Ha Hi) as [Hu Ht]. constructor.
  - right. eapply wf_stored; [apply Hs|by eapply update_of_wf].
  - unfold distinct. by rewrite (kept_types inst inst' st Hs).
  - by eapply saved_timed.
  - apply Ha.
Qed.

(** The last moment of the latest condition, if there is one. *)
Definition due inst : option Time :=
  (fun c => (cond_LastTransitionTime c + reconciliationTimeout)%Z) <$> last (Conditions (nr_Status inst)).

(** How far an attempt gets: to the end, to the next condition, or nowhere,
    before the latest one is due. *)
Inductive advances (lo hi : Time) inst inst1 : Prop :=
| advances_over : finished inst1 = true -> advances lo hi inst inst1
| advances_next d :
    length (types inst) < length (types inst1) ->
    due inst1 = Some d -> (d <= hi + reconciliationTimeout)%Z -> advances lo hi inst inst1
| advances_not d d' :
    length (types inst1) = length (types inst) ->
    due inst = Some d -> due inst1 = Some d' -> (d' <= d)%Z -> (lo <= d)%Z -> advances lo hi inst inst1.

Lemma alive_due now inst :
  alive now inst -> 0 < length (types inst) -> exists d, due inst = Some d /\ (d <= now + reconciliationTimeout)%Z.
Proof.
  intros [_ _ [Hc _ _] _] Hlen. unfold types in Hlen. rewrite length_map in Hlen. unfold due.
  destruct (Conditions (nr_Status inst)) as [|c cs _] using rev_ind; [cbn in Hlen; lia|].
  rewrite last_snoc. eexists. split; [reflexivity|].
  apply Forall_app in Hc as [_ (_ & Ht & _)%Forall_singleton]. cbn in Ht. lia.
Qed.

Lemma saved_due cs c inst inst1 st :
  Conditions (nr_Status inst) = cs ++ [c] -> saved (nr_Status inst) st -> nr_Status inst1 = st ->
  exists d, due inst1 = Some d /\ (d <= cond_LastTransitionTime c + reconciliationTimeout)%Z.
Proof.
  intros Hc [_ Hcs _ _] <-. rewrite Hc in Hcs. apply Forall2_app_inv_l in Hcs as (ds & l & _ & Hl & Heq).
  apply Forall2_cons_inv_l in Hl as (d & l' & [_ Hd] & ->%Forall2_nil_inv_l & ->).
  unfold due. rewrite Heq, last_snoc. eexists. split; [reflexivity|]. lia.
Qed.

Lemma moved_cases cs c inst inst' :
  Conditions (nr_Status inst) = cs ++ [c] -> moved cs c inst inst' ->
  finished inst' = true
  \/ (exists c', Conditions (nr_Status inst') = cs ++ [c'] /\ cond_LastTransitionTime c' = cond_LastTransitionTime c)
  \/ length (types inst') = S (length (types inst)).
Proof.
  intros Hc (_ & _ & _ & Hm). unfold types, finished. rewrite !length_map, Hc.
  destruct Hm as [c' Hc' (_ & Ht & _) | c' n Hc' | c' Hc' _ -> | c' t Hc' _ _ ->]; [..|by left|by left].
  - right; left. by exists c'.
  - right; right. rewrite Hc', !length_app. cbn. lia.
Qed.

(** The first attempt. *)
Lemma first_advances now lo hi inst inst1 :
  (0 < now)%Z -> (now <= lo <= hi)%Z -> alive now inst -> nr_Status inst = zeroStatus -> finished inst = false ->
  attempt (between lo hi) inst inst1 -> advances lo hi inst inst1.
Proof.
  intros Hnow Hle Ha Hz Hfin Hat. pose proof (attempt_alive now lo hi inst inst1 Hnow Hle Ha Hat) as Ha1.
  assert (forall inst', issues (between lo hi) (reconcileFetched (inr inst)) (call (StatusUpdate inst')) ->
    distinct inst' /\ 0 < length (types inst')) as Hw.
  { intros inst' Hi. destruct (written_spec now lo hi inst inst' Hnow Hle Ha Hi) as [(inst0 & cs & c & _ & _ & Hf & Hc & Hm & _) _].
    destruct (Hf Hz) as [Hc0 Hty]. rewrite Hc0 in Hc. apply (app_inj_2 [] cs [c] [c]) in Hc as [<- _]; [|done].
    destruct Hm as (_ & _ & _ & Hm). unfold distinct, types.
    destruct Hm as [c' -> _|c' n -> (Hty' & _) _ He|c' -> _|c' t -> _]; cbn; split; try lia; try apply NoDup_singleton.
    rewrite Hty', Hty. rewrite Hty in He. apply NoDup_cons. split; [|apply NoDup_singleton].
    intros Hn%list_elem_of_singleton. by rewrite <- Hn in He. }
  destruct Hat as [inst' st Hi Hd Hs|inst' Hi Hd|Hp|Hf]; [|by destruct (Hw inst' Hi)| |by rewrite Hf in Hfin].
  - destruct (Hw inst' Hi) as [_ Hlen].
    assert (0 < length (types (set_Status (fun _ => st) inst))) as Hlen1 by by rewrite (kept_types inst inst' st Hs).
    destruct (alive_due _ _ Ha1 Hlen1) as (d & Hd1 & Hd2). eapply advances_next; [|exact Hd1|exact Hd2].
    replace (types inst) with (@nil RecoveryConditionType) by (unfold types; by rewrite Hz). exact Hlen1.
  - exfalso. revert Hp. eapply (wp_panics (between lo hi) (fun _ => True)), new_object_safe; [|done]. apply (between_clock now); lia.
Qed.

(** The others. *)
Lemma later_advances now lo hi inst inst1 :
  (0 < now)%Z -> (now <= lo <= hi)%Z -> alive now inst -> in_progress inst -> finished inst = false ->
  attempt (between lo hi) inst inst1 -> advances lo hi inst inst1.
Proof.
  intros Hnow Hle Ha Hin Hfin Hat. pose proof (attempt_alive now lo hi inst inst1 Hnow Hle Ha Hat) as Ha1.
  destruct (wf_conditions _ (proj1 Hin)) as (cs & c & Hc & _).
  assert (due inst = Some (cond_LastTransitionTime c + reconciliationTimeout)%Z) as Hdue
    by (unfold due; by rewrite Hc, last_snoc).
  destruct (decide (lo <= cond_LastTransitionTime c + reconciliationTimeout)%Z) as [Hlate|Hlate].
  - destruct Hat as [inst' st Hi Hd Hs|inst' Hi Hd|Hp|Hf]; [|(eapply advances_not; [reflexivity|exact Hdue|exact Hdue|lia|done])..].
    destruct (written_spec now lo hi inst inst' Hnow Hle Ha Hi) as [(inst0 & cs' & c0 & _ & Hz & _ & Hc0 & Hm & _) _].
    assert (nr_Status inst0 = nr_Status inst) as Heq.
    { destruct Hz as [Hz|Hz]; [done|]. rewrite Hz in Hc. by destruct cs. }
    pose proof (f_equal length (kept_types inst inst' st Hs)) as Hlen.
    assert (length (types inst0) = length (types inst)) as Hlen0 by (unfold types; by rewrite Heq).
    destruct (moved_cases cs' c0 inst0 inst' Hc0 Hm) as [Hf|[(c' & Hc' & Ht)|Hl]].
    + apply advances_over. unfold finished in *. cbn. by rewrite (stored_Phase _ _ (saved_stored _ _ Hs)).
    + rewrite Heq, Hc in Hc0. apply app_inj_2 in Hc0 as [<- [= <-]]; [|done].
      destruct (saved_due cs c' inst' (set_Status (fun _ => st) inst) st Hc' Hs eq_refl) as (d & Hd1 & Hd2).
      eapply advances_not; [|exact Hdue|exact Hd1|lia|done].
      rewrite Hlen. unfold types. rewrite Hc', Hc, !length_map, !length_app. done.
    + assert (length (types inst) < length (types (set_Status (fun _ => st) inst))) as Hlt by lia.
      destruct (alive_due _ _ Ha1 ltac:(lia)) as (d & Hd1 & Hd2). by eapply advances_next.
  - assert (wp (allowing (between lo hi) (ends_here inst)) (reconcileFetched (inr inst)) tt (fun _ _ => True) (fun _ => False))
      as Hlast by (apply (late_fetched _ cs c inst Hin Hc); lia).
    assert (forall inst', issues (between lo hi) (reconcileFetched (inr inst)) (call (StatusUpdate inst')) ->
      Phase (nr_Status inst') = FailedPhase /\ types inst' = types inst) as Hw.
    { intros inst' Hi. exact (wp_issues _ _ _ _ _ (call (StatusUpdate inst')) Hlast Hi). }
    destruct Hat as [inst' st Hi Hd Hs|inst' Hi Hd|Hp|Hf]; [| | |by rewrite Hf in Hfin].
    + apply advances_over. destruct (Hw inst' Hi) as [Hph _]. unfold finished. cbn.
      by rewrite (stored_Phase _ _ (saved_stored _ _ Hs)), Hph.
    + destruct Hd. destruct (Hw inst' Hi) as [_ Hty]. unfold distinct. rewrite Hty. apply Ha.
    + by destruct (wp_panics _ _ _ _ Hlast).
Qed.

Lemma attempt_advances now lo hi inst inst1 :
  (0 < now)%Z -> (now <= lo <= hi)%Z -> alive now inst -> finished inst = false ->
  attempt (between lo hi) inst inst1 -> advances lo hi inst inst1.
Proof.
  intros Hnow Hle Ha Hfin. destruct (alive_status _ _ Ha) as [Hz|Hwf]; [by eapply first_advances|].
  eapply later_advances; [done..| |done]. split; [done|]. apply finished_spec in Hfin as [Hf1 Hf2].
  by destruct (wf_phase _ Hwf) as [?|[?|?]].
Qed.

(** ** The attempts that are left *)

(** The condition types there are, and the attempts that fit before a moment. *)
Abbreviation stages := (length namedConditionTypes).

Definition fitting (delay : Duration) (now due : Time) : nat :=
  if (due <? now)%Z then 0 else S (Z.to_nat ((due - now) / delay)).

(** The attempts that fit in the time-out of a condition. *)
Definition patience (delay : Duration) : nat := S (Z.to_nat (reconciliationTimeout / delay)).

Definition left_over (delay : Duration) (now : Time) inst : nat :=
  if finished inst then 0
  else (stages - length (types inst)) * S (patience delay)
       + S (match due inst with Some d => fitting delay now d | None => patience delay end).

Lemma fitting_mono delay now d d' : (0 < delay)%Z -> (d' <= d)%Z -> fitting delay now d' <= fitting delay now d.
Proof.
  intros Hd Hle. unfold fitting. destruct (Z.ltb_spec d' now); [lia|]. destruct (Z.ltb_spec d now); [lia|].
  apply le_n_S, Z2Nat.inj_le; [apply Z.div_pos; lia..|]. apply Z.div_le_mono; lia.
Qed.

Lemma fitting_later delay now now' d :
  (0 < delay)%Z -> (now + delay <= now')%Z -> (now <= d)%Z -> S (fitting delay now' d) <= fitting delay now d.
Proof.
  intros Hd Hnow Hle. unfold fitting. rewrite (proj2 (Z.ltb_ge d now)) by done.
  destruct (Z.ltb_spec d now') as [?|?]; [lia|]. apply le_n_S.
  assert ((d - now') / delay + 1 <= (d - now) / delay)%Z as Hq.
  { rewrite <- Z.div_add by lia. apply Z.div_le_mono; lia. }
  assert (0 <= (d - now') / delay)%Z by (apply Z.div_pos; lia). lia.
Qed.

Lemma fitting_patience delay now d :
  (0 < delay)%Z -> (d <= now + reconciliationTimeout)%Z -> fitting delay now d <= patience delay.
Proof.
  intros Hd Hle. unfold fitting, patience. destruct (Z.ltb_spec d now); [lia|].
  apply le_n_S, Z2Nat.inj_le; [apply Z.div_pos; lia..|]. apply Z.div_le_mono; lia.
Qed.

Lemma alive_stages now inst : alive now inst -> length (types inst) <= stages.
Proof.
  intros [Hst Hd _ _]. rewrite <- (length_map fst namedConditionTypes). apply submseteq_length, NoDup_submseteq; [exact Hd|].
  destruct Hst as [Hz|Hwf]; [unfold types; rewrite Hz; set_solver|].
  destruct (wf_conditions _ Hwf) as (cs & c & _ & Ht & _). apply (trail_incl _ _ Ht).
Qed.

(** Each attempt uses one up. *)
Lemma attempt_left delay now lo hi inst inst1 :
  (0 < delay)%Z -> (0 < now)%Z -> (now <= lo <= hi)%Z -> alive now inst -> attempt (between lo hi) inst inst1 ->
  finished inst = false ->
  left_over delay (Z.max hi (lo + delay)) inst1 < left_over delay now inst.
Proof.
  intros Hd Hnow Hle Ha Hat Hfin. unfold left_over at 2. rewrite Hfin. unfold left_over.
  destruct (finished inst1) eqn:Hfin1; [rewrite Nat.add_succ_r; apply Nat.lt_0_succ|].
  pose proof (alive_stages _ _ (attempt_alive now lo hi inst inst1 Hnow Hle Ha Hat)) as Hmax.
  destruct (attempt_advances now lo hi inst inst1 Hnow Hle Ha Hfin Hat) as [Hf|d Hlen Hd1 Hdue|d d' Hlen Hd0 Hd1 Hdd Hlo].
  - by rewrite Hf in Hfin1.
  - rewrite Hd1. pose proof (fitting_patience delay (Z.max hi (lo + delay)) d Hd ltac:(lia)).
    assert (stages - length (types inst) = S (stages - S (length (types inst)))) as -> by lia.
    assert (stages - length (types inst1) <= stages - S (length (types inst))) as Hst by lia.
    apply (Nat.mul_le_mono_r _ _ (S (patience delay))) in Hst. cbn [Nat.mul]. lia.
  - rewrite Hd0, Hd1, Hlen. apply Nat.add_lt_mono_l, le_n_S.
    etransitivity; [|apply (fitting_later delay now (Z.max hi (lo + delay)) d Hd); lia].
    by apply le_n_S, fitting_mono.
Qed.

(** An attempt that is lost gives none back. *)
Lemma left_over_later delay now now' inst :
  (0 < delay)%Z -> (now <= now')%Z -> left_over delay now' inst <= left_over delay now inst.
Proof.
  intros Hd Hle. unfold left_over. destruct (finished inst); [done|]. apply Nat.add_le_mono_l, le_n_S.
  destruct (due inst) as [d|]; [|done]. unfold fitting. destruct (Z.ltb_spec d now'); [lia|].
  rewrite (proj2 (Z.ltb_ge d now)) by lia. apply le_n_S, Z2Nat.inj_le; [apply Z.div_pos; lia..|].
  apply Z.div_le_mono; lia.
Qed.

Lemma finished_stays env inst inst1 :
  MetaTime_IsZero (nr_DeletionTimestamp inst) = true -> finished inst = true -> attempt env inst inst1 -> inst1 = inst.
Proof.
  intros Hdel Hf [inst'' st Hi|? Hi|Hp|?]; [|done..]. exfalso.
  unfold reconcileFetched in Hi. by rewrite IgnoreNotFound_nil, Hdel, Hf in Hi.
Qed.

Lemma finished_attempts env delay now n inst inst' :
  (0 < delay)%Z -> (0 < now)%Z -> alive now inst -> attempts env delay now n inst inst' ->
  left_over delay now inst <= n -> finished inst' = true.
Proof.
  intros Hd Hnow Ha Hat. revert Ha Hnow.
  induction Hat as [now inst|now lo hi n inst inst' Hle _ IH|now lo hi n inst inst1 inst' Hle H1 _ IH]; intros Ha Hnow Hn.
  - unfold left_over in Hn. destruct (finished inst); [done|]. rewrite Nat.add_succ_r in Hn. by apply Nat.nle_succ_0 in Hn.
  - apply IH; [by eapply alive_later; [|exact Ha]; lia|lia|].
    etransitivity; [|exact Hn]. apply left_over_later; lia.
  - apply attempt_between in H1. pose proof (attempt_alive now lo hi inst inst1 Hnow Hle Ha H1) as Ha1.
    apply IH; [by eapply alive_later; [|exact Ha1]; lia|lia|].
    destruct (finished inst) eqn:Hfin.
    + rewrite (finished_stays _ _ _ (alive_present _ _ Ha) Hfin H1). unfold left_over. rewrite Hfin. lia.
    + pose proof (attempt_left delay now lo hi inst inst1 Hd Hnow Hle Ha H1 Hfin). lia.
Qed.

Lemma new_alive now inst :
  nr_Status inst = zeroStatus -> MetaTime_IsZero (nr_DeletionTimestamp inst) = true -> alive now inst.
Proof.
  intros Hz Hdel. constructor; [by left| | |done].
  - unfold distinct, types. rewrite Hz. constructor.
  - rewrite Hz. by constructor.
Qed.

(** The attempts that are enough. *)
Definition enough (delay : Duration) : nat := 15 * (Z.to_nat (reconciliationTimeout / delay) + 2).

Lemma alive_enough delay now inst :
  (0 < delay)%Z -> alive now inst -> left_over delay now inst <= enough delay.
Proof.
  intros Hd Ha. unfold left_over, enough. destruct (finished inst); [lia|].
  assert (match due inst with Some d => fitting delay now d | None => patience delay end <= patience delay) as Hw.
  { destruct (due inst) as [d|] eqn:Hdue; [|done]. destruct (types inst) as [|t ts] eqn:Hty.
    - unfold types in Hty. apply map_eq_nil in Hty. unfold due in Hdue. by rewrite Hty in Hdue.
    - destruct (alive_due now inst Ha) as (d' & Hd' & Hle); [rewrite Hty; cbn; lia|].
      apply fitting_patience; [done|]. congruence. }
  assert ((stages - length (types inst)) * S (patience delay) <= 14 * S (patience delay)) as Hst
    by (apply Nat.mul_le_mono_r; change stages with 14; lia).
  unfold patience in *. revert Hw Hst. generalize (Z.to_nat (reconciliationTimeout / delay)).
  generalize (match due inst with Some d => fitting delay now d | None => S (Z.to_nat (reconciliationTimeout / delay)) end).
  intros m q. lia.
Qed.

(** C9: Termination.  A recovery comes to an end, whatever the cluster answers,
    whichever requests fail, whether attempts panic, and whatever delays there
    are (but that attempts are at least [delay] apart), on a server that refuses
    statuses of which two conditions have one type: as soon as fifteen times
    (and thirty) as many attempts have reached the server as fit in thirty
    minutes, the phase is Failed or Completed.  Attempts that are lost - the
    object could not be read, its status was refused for another reason, or
    never reached the server - are not counted, but there may be any number of
    them in between; a status that was stored counts, also when its answer was
    lost.  The object is new, is not being deleted, and nobody else writes its
    status. *)
Theorem every_recovery_ends env (delay : Duration) (now : Time) (n : nat) inst inst' :
  (0 < delay)%Z -> (0 < now)%Z ->
  nr_Status inst = zeroStatus -> MetaTime_IsZero (nr_DeletionTimestamp inst) = true ->
  attempts env delay now n inst inst' -> 15 * (Z.to_nat (reconciliationTimeout / delay) + 2) <= n ->
  finished inst' = true.
Proof.
  intros Hd Hnow Hz Hdel Hat Hn. pose proof (new_alive now inst Hz Hdel) as Ha.
  eapply finished_attempts; [exact Hd|exact Hnow|exact Ha|exact Hat|].
  etransitivity; [by apply alive_enough|exact Hn].
Qed.

End Attempts.

(** ** A cluster whose server is strict

    In a cluster whose clock stands still during an attempt, a server that
    refuses repeated types, and a minute from one attempt to the next. *)

Lemma saved_refl `{X : External} st : saved st st.
Proof.
  constructor; [apply stored_refl| |intros t ?; exists t; split; [done|lia]..]. induction (Conditions st); constructor; [|done]. by split.
Qed.

Lemma ignored_attempts `{X : External} `{Init : !Initialized} env delay now n inst :
  finished inst = true -> attempts env delay now n inst inst.
Proof.
  intros Hf. revert now. induction n as [|n IH]; intros now; [constructor|].
  eapply (attempts_more env delay now now now); [lia|by apply attempt_ignored|apply IH].
Qed.

Section Strict.
Context (env : Answers Req) (h : Handler Req World).
Context (Henv : forall R (e : Req R) w,
  during_times env (w_clock w) (w_clock w) R e (h R e w).1 /\ w_clock (h R e w).2 = w_clock w).
Context (Hcr : forall R (e : Req R) w, w_cr (h R e w).2 = w_cr w \/ call e = call (StatusUpdate (w_cr (h R e w).2))).

Definition attempted (w : World) : World := (run h (reconcileFetched (inr (w_cr w))) w).2.

(** An attempt, what the server makes of it, and a minute. *)
Definition strict (w : World) : World :=
  let i := w_cr (attempted w) in
  let st := if bool_decide (distinct i) then nr_Status i else nr_Status (w_cr w) in
  with_clock (w_clock w + 60 * Second) (with_cr (set_Status (fun _ => st) (w_cr w)) (attempted w)).

Fixpoint strictly (n : nat) (w : World) : World :=
  match n with 0 => w | S n' => strictly n' (strict w) end.

Fixpoint over_after (n : nat) (w : World) : bool :=
  match n with
  | 0 => finished (w_cr w)
  | S n' => differs (w_cr w) (w_cr (attempted w)) && over_after n' (strict w)
  end.

Lemma strict_attempt w :
  differs (w_cr w) (w_cr (attempted w)) = true ->
  attempt (during_times env (w_clock w) (w_clock w)) (w_cr w) (w_cr (strict w)).
Proof using Henv Hcr.
  intros Hd%differs_neq.
  assert (issues (during_times env (w_clock w) (w_clock w)) (reconcileFetched (inr (w_cr w)))
    (call (StatusUpdate (w_cr (attempted w))))) as Hi.
  { unfold attempted in *. destruct (last_write h (during_times env (w_clock w) (w_clock w)) (fun i => call (StatusUpdate i))
      (fun w' => w_clock w' = w_clock w) (reconcileFetched (inr (w_cr w))) w) as [_ [Heq|Hi]]; [|exact Hcr|done|done|exact Hi].
    intros R e w' Hw. rewrite <- Hw. apply Henv. }
  unfold strict. cbn. destruct (bool_decide_reflect (distinct (w_cr (attempted w)))).
  - by eapply attempt_written, saved_refl.
  - replace (set_Status _ (w_cr w)) with (w_cr w) by by destruct (w_cr w). by eapply attempt_refused.
Qed.

Lemma strict_attempts n m w :
  over_after n w = true -> attempts env (60 * Second) (w_clock w) (n + m) (w_cr w) (w_cr (strictly n w)).
Proof using Henv Hcr.
  revert w. induction n as [|n IH]; intros w; cbn [over_after strictly Nat.add]; [by apply ignored_attempts|].
  intros [Hd Ho]%andb_true_iff.
  eapply (attempts_more _ _ _ (w_clock w) (w_clock w)); [lia|by apply strict_attempt|].
  rewrite Z.max_r by (change Second with 1000000000%Z; lia). exact (IH (strict w) Ho).
Qed.

End Strict.

(** The cluster of [Fake], with its clock stopped. *)
Definition frozen : Handler Req World := fun R e w =>
  let '(r, w') := cluster R e w in (r, with_clock (w_clock w) w').

Lemma frozen_env R (e : Req R) w :
  during_times any_answer (w_clock w) (w_clock w) R e (frozen R e w).1 /\ w_clock (frozen R e w).2 = w_clock w.
Proof. unfold frozen, during_times. destruct e; cbn; split_and!; try done; lia. Qed.

Lemma frozen_cr R (e : Req R) w :
  w_cr (frozen R e w).2 = w_cr w \/ call e = call (StatusUpdate (w_cr (frozen R e w).2)).
Proof. unfold frozen. destruct e; cbn; auto. Qed.

(** ** Witness

    A failing OSD in a cluster whose health stays at a warning: one status is
    refused, and the health check times out. *)
Definition Warned : World := world (Some "CrashLoopBackOff") "Released" "HEALTH_WARN".

Example refused_and_timed_out :
  map (fun n => bool_decide (distinct (w_cr (attempted frozen (strictly frozen n Warned))))) [4; 5; 6] = [true; false; true]
  /\ Phase (nr_Status (w_cr (strictly frozen 43 Warned))) = RunningPhase
  /\ Phase (nr_Status (w_cr (strictly frozen 44 Warned))) = FailedPhase.
Proof. vm_compute. repeat split. Qed.

(** Two attempts are lost before. *)
Lemma every_recovery_ends_witness : finished (w_cr (strictly frozen 44 Warned)) = true.
Proof.
  apply (every_recovery_ends any_answer (60 * Second) (unixEpoch - 120 * Second) 480 new_cr (w_cr (strictly frozen 44 Warned))).
  - reflexivity.
  - reflexivity.
  - reflexivity.
  - reflexivity.
  - eapply (attempts_lost _ _ _ (unixEpoch - 120 * Second) (unixEpoch - 120 * Second)); [lia|].
    eapply (attempts_lost _ _ _ (unixEpoch - 60 * Second) (unixEpoch - 60 * Second)); [vm_compute; split; discriminate|].
    apply (strict_attempts any_answer frozen frozen_env frozen_cr 44 436 Warned). vm_compute. reflexivity.
  - change (15 * (Z.to_nat (reconciliationTimeout / (60 * Second)) + 2)) with 480. reflexivity.
Defined.
