(* ===== verification/System.v ===== *)
(** * System: several objects, and copies that are out of date

    The operator reads its objects from a cache, which may lag behind the
    server, and a queue decides which object is reconciled next.  Here the
    server numbers its revisions, a reconciliation may be given any copy of any
    object that the server ever had, and the server refuses a status that comes
    with a revision that is not the latest one: the code sends back the revision
    of the object it read. *)

From S2P Require Import Prelude Effects GoStd GoStrings Json Api K8s Const Monitoring Ceph Recovery Reconciler Controller.
From S2P Require Import Footprint StateMachine Fake.

(** ** The server *)

Record Object := { ob_revision : nat; ob_recovery : NodeRecovery }.

Record System := {
  sys_revision : nat;
  sys_objects : gmap string Object;
  (** every copy of an object there was, the latest first *)
  sys_history : gmap string (list Object);
}.

Definition history (s : System) (n : string) : list Object := default [] (sys_history s !! n).

Definition store (n : string) (i : NodeRecovery) (s : System) : System :=
  let ob := {| ob_revision := S (sys_revision s); ob_recovery := i |} in
  {| sys_revision := S (sys_revision s); sys_objects := <[n := ob]> (sys_objects s);
     sys_history := <[n := ob :: history s n]> (sys_history s) |}.

Definition remove (n : string) (s : System) : System :=
  {| sys_revision := sys_revision s; sys_objects := delete n (sys_objects s); sys_history := sys_history s |}.

(** A status for the revision [rev] of an object. *)
Definition put (n : string) (rev : nat) (st : NodeRecoveryStatus) (s : System) : System :=
  match sys_objects s !! n with
  | Some ob =>
      if decide (ob_revision ob = rev) then store n (set_Status (fun _ => st) (ob_recovery ob)) s else s
  | None => s
  end.

Definition empty_system : System := {| sys_revision := 0; sys_objects := ∅; sys_history := ∅ |}.

Definition created (n : string) : NodeRecovery :=
  {| nr_Name := n; nr_DeletionTimestamp := None; nr_Status := zeroStatus |}.

Definition edited (deletion : option Time) (i : NodeRecovery) : NodeRecovery :=
  {| nr_Name := nr_Name i; nr_DeletionTimestamp := deletion; nr_Status := nr_Status i |}.

Section System.
Context `{X : External} `{Init : !Initialized}.

(** What happens to the server: users create, edit and delete objects, and the
    operator reconciles a copy of one. *)
Inductive happens (s : System) : System -> Prop :=
| happens_create n : sys_objects s !! n = None -> happens s (store n (created n) s)
| happens_edit n ob deletion :
    sys_objects s !! n = Some ob -> happens s (store n (edited deletion (ob_recovery ob)) s)
| happens_delete n : happens s (remove n s)
| happens_reconcile n copy inst' st :
    copy ∈ history s n ->
    issues clock (reconcileFetched (inr (ob_recovery copy))) (call (StatusUpdate inst')) ->
    stored (nr_Status inst') st -> happens s (put n (ob_revision copy) st s).

Inductive happened : System -> Prop :=
| happened_nothing : happened empty_system
| happened_next s s' : happened s -> happens s s' -> happened s'.

(** The recovery as a path of the state machine, the latest copy first: objects
    start new, and a status changes by one move of a recovery that is not over. *)
Inductive path : list NodeRecovery -> Prop :=
| path_nil : path []
| path_new i l : nr_Status i = zeroStatus -> path l -> path (i :: l)
| path_edit i j l : nr_Status i = nr_Status j -> path (j :: l) -> path (i :: j :: l)
| path_move inst' st j l :
    finished j = false -> update_of j inst' -> stored (nr_Status inst') st ->
    path (j :: l) -> path (set_Status (fun _ => st) j :: j :: l).

Lemma path_wf l : path l -> Forall (fun i => nr_Status i = zeroStatus \/ wf (nr_Status i)) l.
Proof.
  induction 1 as [|i l Hz _ IH|i j l Heq _ IH|inst' st j l Hf Hu Hst _ IH]; constructor; try done.
  - by left.
  - rewrite Heq. by apply Forall_cons_1 in IH as [? _].
  - right. eapply wf_stored; [exact Hst|by eapply update_of_wf].
Qed.

(** ** The invariant *)

(** The revisions of the copies of an object. *)
Definition revisions (s : System) (n : string) : list nat := map ob_revision (history s n).

Record consistent (s : System) : Prop := {
  consistent_latest n ob : sys_objects s !! n = Some ob -> exists l, history s n = ob :: l;
  consistent_bound n : Forall (fun r => r <= sys_revision s) (revisions s n);
  consistent_unique n : NoDup (revisions s n);
  consistent_path n : path (map ob_recovery (history s n));
}.

Lemma history_store n i s m :
  history (store n i s) m =
    (if decide (n = m) then {| ob_revision := S (sys_revision s); ob_recovery := i |} :: history s n else history s m).
Proof.
  unfold history at 1. cbn. case_decide as Hm; [subst m; by rewrite lookup_insert_eq|by rewrite lookup_insert_ne].
Qed.

Lemma store_consistent n i s :
  consistent s -> path (i :: map ob_recovery (history s n)) -> consistent (store n i s).
Proof.
  intros [Hl Hb Hu Hp] Hi. constructor.
  - intros m ob. rewrite history_store. cbn. case_decide as Hm.
    + subst m. rewrite lookup_insert_eq. intros [= <-]. by eexists.
    + rewrite lookup_insert_ne by done. apply Hl.
  - intros m. unfold revisions. rewrite history_store. cbn.
    assert (forall k, Forall (fun r => r <= S (sys_revision s)) (map ob_revision (history s k))) as Hb'.
    { intros k. eapply Forall_impl; [apply Hb|]. cbn. lia. }
    case_decide; [|apply Hb']. constructor; [cbn; lia|apply Hb'].
  - intros m. unfold revisions. rewrite history_store. case_decide; [|apply Hu]. cbn. apply NoDup_cons. split; [|apply Hu].
    intros Hin. pose proof (Hb n) as Hbn. rewrite Forall_forall in Hbn. specialize (Hbn _ Hin). cbn in Hbn. lia.
  - intros m. rewrite history_store. case_decide; [exact Hi|apply Hp].
Qed.

Lemma remove_consistent n s : consistent s -> consistent (remove n s).
Proof. intros [Hl Hb Hu Hp]. constructor; [|done..]. intros m ob Hob. cbn in Hob. apply lookup_delete_Some in Hob as [_ Hob]. by apply Hl. Qed.

(** A copy that comes with the revision of the object is the object. *)
Lemma current_copy s n ob copy :
  consistent s -> sys_objects s !! n = Some ob -> copy ∈ history s n -> ob_revision ob = ob_revision copy -> copy = ob.
Proof.
  intros Hs Hob Hin Heq. destruct (consistent_latest _ Hs n ob Hob) as [l Hl].
  pose proof (consistent_unique _ Hs n) as Hu. unfold revisions in Hu. rewrite Hl in Hin, Hu.
  apply elem_of_cons in Hin as [?|Hin]; [done|]. cbn in Hu. apply NoDup_cons in Hu as [Hno _].
  destruct Hno. rewrite Heq. by apply list_elem_of_fmap_2.
Qed.

Lemma written_copy i inst' :
  nr_Status i = zeroStatus \/ wf (nr_Status i) ->
  issues clock (reconcileFetched (inr i)) (call (StatusUpdate inst')) -> finished i = false /\ update_of i inst'.
Proof.
  intros Hi Hw. split.
  - destruct (finished i) eqn:Hf; [|done]. exfalso. unfold reconcileFetched in Hw. rewrite IgnoreNotFound_nil, Hf in Hw.
    by destruct (_ || _).
  - eapply (wp_issues clock (updates_from i) _ _ _ (call (StatusUpdate inst'))); [|exact Hw].
    by apply reconcileFetched_updates.
Qed.

Lemma happens_consistent s s' : consistent s -> happens s s' -> consistent s'.
Proof.
  intros Hs Hh. destruct Hh as [n _|n ob deletion Hob|n|n copy inst' st Hin Hi Hst].
  - apply store_consistent; [done|]. by apply path_new, Hs.
  - destruct (consistent_latest _ Hs n ob Hob) as [l Hl]. apply store_consistent; [done|].
    pose proof (consistent_path _ Hs n) as Hp. rewrite Hl in *. by apply path_edit.
  - by apply remove_consistent.
  - unfold put. destruct (sys_objects s !! n) as [ob|] eqn:Hob; [|done]. case_decide as Heq; [|done].
    pose proof (current_copy s n ob copy Hs Hob Hin Heq) as ->.
    destruct (consistent_latest _ Hs n ob Hob) as [l Hl]. pose proof (consistent_path _ Hs n) as Hp.
    assert (nr_Status (ob_recovery ob) = zeroStatus \/ wf (nr_Status (ob_recovery ob))) as Hwf.
    { apply path_wf in Hp. rewrite Hl in Hp. by apply Forall_cons_1 in Hp as [? _]. }
    destruct (written_copy _ _ Hwf Hi) as [Hf Hu]. apply store_consistent; [done|].
    rewrite Hl in *. by eapply path_move.
Qed.

Lemma happened_consistent s : happened s -> consistent s.
Proof.
  induction 1 as [|s s' _ IH Hh]; [|by eapply happens_consistent].
  constructor; intros n; unfold revisions, history; cbn; rewrite ?lookup_empty; [done|..]; constructor.
Qed.

(** C4: Refinement, of the whole system.  However objects are created, edited
    and deleted, in whatever order they are reconciled, and however old the
    copies are that reconciliations read: the statuses every object had on the
    server are a path of the state machine, one move of a recovery that was not
    over from one to the next, and the latest is the object's. *)
Theorem stored_statuses_form_a_path (s : System) (n : string) :
  happened s ->
  path (map ob_recovery (history s n))
  /\ (forall ob, sys_objects s !! n = Some ob -> head (history s n) = Some ob).
Proof.
  intros Hs%happened_consistent. split; [apply Hs|].
  intros ob Hob. by destruct (consistent_latest _ Hs n ob Hob) as [l ->].
Qed.

End System.

(** ** A system with one operator

    A play is a sequence of reconciliations in the cluster of [Fake], each with
    the age of the copy that it reads; each writes something. *)

Definition reconciled (copy : Object) (w : World) : World :=
  (run cluster (reconcileFetched (inr (ob_recovery copy))) (with_cr (ob_recovery copy) w)).2.

Fixpoint play (ages : list nat) (s : System) (w : World) : option System :=
  match ages with
  | [] => Some s
  | age :: ages' =>
      copy ← history s "recovery" !! age;
      let w' := reconciled copy w in
      if differs (ob_recovery copy) (w_cr w')
      then play ages' (put "recovery" (ob_revision copy) (nr_Status (w_cr w')) s) w'
      else None
  end.

Lemma play_happened ages s w s' : past_zero w -> happened s -> play ages s w = Some s' -> happened s'.
Proof.
  revert s w. induction ages as [|age ages IH]; intros s w Hw Hs; cbn [play]; [by intros [= <-]|].
  destruct (history s "recovery" !! age) as [copy|] eqn:Hcopy; [|done]. cbn [mbind option_bind].
  destruct (differs _ _) eqn:Hd; [|done]. apply differs_neq in Hd. unfold reconciled in *.
  destruct (cluster_cr clock past_zero cluster_clock (reconcileFetched (inr (ob_recovery copy)))
    (with_cr (ob_recovery copy) w) Hw) as [Hw' [Heq|Hi]]; [by rewrite Heq in Hd|].
  apply IH; [exact Hw'|]. eapply happened_next; [exact Hs|].
  eapply happens_reconcile; [by eapply list_elem_of_lookup_2|exact Hi|apply stored_refl].
Qed.

Definition one_object : System := store "recovery" (created "recovery") empty_system.

(** The object is new at first; a copy that is one step behind is reconciled
    again after each step, and refused. *)
Definition behind : option System := play [0; 1; 0; 1; 0; 2; 0; 3] one_object Settled.

Example behind_history :
  (fun s => (map ob_revision (history s "recovery"),
             map (fun i => length (Conditions (nr_Status (ob_recovery i)))) (history s "recovery"))) <$> behind
  = Some ([5; 4; 3; 2; 1], [5; 4; 3; 2; 0]).
Proof. vm_compute. reflexivity. Qed.

Lemma behind_happened : happened (default empty_system behind).
Proof.
  destruct behind as [s|] eqn:Hb; [|vm_compute in Hb; discriminate Hb].
  apply (play_happened [0; 1; 0; 1; 0; 2; 0; 3] one_object Settled); [done| |exact Hb].
  eapply happened_next; [apply happened_nothing|]. by apply happens_create.
Qed.

(** ** Witness *)

Lemma stored_statuses_form_a_path_witness :
  path (map ob_recovery (history (default empty_system behind) "recovery")).
Proof. apply (stored_statuses_form_a_path (default empty_system behind) "recovery"). exact behind_happened. Defined.
