(* ===== verification/Steps.v ===== *)
(** * Steps: the theorems about single reconciliations

    What one call of the controller does: which objects it leaves alone, that
    it writes the status once, what a time-out does and nothing else, when it
    cannot crash, and that the steps of a cluster with nothing wrong lead to
    completion. *)

From S2P Require Import Prelude Effects GoStd GoStrings Json Api K8s Const Monitoring Ceph Recovery.
From S2P Require Import Reconciler Controller Footprint StateMachine NoPanic Fake.

Section Steps.
Context `{X : External} `{Init : !Initialized}.

(** Total safety.  Reconciling an object whose status is reachable never
    panics, for any answers, except in four of the fourteen conditions; and
    there it does not when the failing OSD pods are labelled with their volume
    claims, the pods of the OSDs that were scaled down are terminating, or the
    removal template has its two parameters: the indexing of the conditions and
    every other pointer the code follows is justified by the invariant. *)
Lemma reachable_steps_do_not_panic (env : Answers Req) (inst : NodeRecovery) :
  (forall R (e : Req R) r, env R e r -> clock R e r) ->
  reachable env (nr_Status inst) -> justified_step env inst ->
  wp (permissive env) (reconcileFetched (inr inst)) tt (fun _ _ => True) (fun _ => False).
Proof.
  intros Hclock Hr Hjust. by apply reconcileFetched_safe.
Qed.

(** A failing OSD pod without the label of its volume
    claim crashes the operator: the nil device of [getNodeDeviceNameFromPV] is
    followed without a check, before anything is asked of the cluster. *)
Lemma unlabelled_failing_pod (p : Pod) (ps : list Pod) :
  pod_Labels p !! OSDOverPVCLabelKey = None ->
  handleCrashLoopBackOffPods (p :: ps) = Panic nil_dereference.
Proof.
  intros Hp. unfold handleCrashLoopBackOffPods, getNodeDeviceNameFromPV. cbn [forM_ret].
  by rewrite Hp.
Qed.

(** The pods with an id are there, and the first one is not being deleted. *)
Definition first_pod_lives (id : string) : Answers Req := fun R e =>
  match e in Req R return R -> Prop with
  | ListPods opts => fun r =>
      (forall sel, fromLabels (<[ "app" := "rook-ceph-osd" ]> {[ OsdIdLabelKey := id ]}) = inr sel ->
         opts = [WithOptions (in_namespace sel)] ->
         exists p ps, r = inr (p :: ps) /\ pod_DeletionTimestamp p = None)
  | _ => fun _ => True
  end.

(** The wait for the termination of the pods of an OSD looks at a deletion
    timestamp that is not there. *)
Lemma living_pod (id : string) (ids : list string) (sel : Selector) :
  fromLabels (<[ "app" := "rook-ceph-osd" ]> {[ OsdIdLabelKey := id ]}) = inr sel ->
  wp (permissive (first_pod_lives id)) (countTerminating (id :: ids)) tt
    (fun _ _ => False) (fun _ => True).
Proof.
  intros Hsel. unfold countTerminating, getOSDPodsWithID. cbn [forM_ret]. rewrite Hsel.
  split; [done|]. intros r [] Hr. destruct (Hr sel Hsel eq_refl) as (p & ps & -> & Hp).
  split; [done|]. intros now [] _. by rewrite Hp.
Qed.

(** C37: Error behaviour.  Two pointers that are followed without a check crash
    the operator, so that the step never returns and its status is never
    written.  A failing OSD pod without the label of its volume claim does so
    before anything is asked of the cluster; and so does, in the wait for the
    termination of the pods of the recorded OSDs, an OSD whose first pod is not
    being deleted (its deployment was scaled down, but the pod was not yet
    marked or was created again). *)
Theorem unchecked_pointers_panic (p : Pod) (ps : list Pod) (id : string) (ids : list string) (sel : Selector) :
  pod_Labels p !! OSDOverPVCLabelKey = None ->
  fromLabels (<[ "app" := "rook-ceph-osd" ]> {[ OsdIdLabelKey := id ]}) = inr sel ->
  handleCrashLoopBackOffPods (p :: ps) = Panic nil_dereference
  /\ wp (permissive (first_pod_lives id)) (countTerminating (id :: ids)) tt
       (fun _ _ => False) (fun _ => True).
Proof. intros Hp Hsel. split; [by apply unlabelled_failing_pod|by eapply living_pod]. Qed.

(** ** Time-outs *)

(** The clock has passed [t]. *)
Definition late (t : Time) : Answers Req := fun R e =>
  match e in Req R return R -> Prop with Now => fun now => (t < now)%Z | _ => fun _ => True end.

Definition node_counts (c : CounterVec) (nds : list NodePV) : list (Call Req) :=
  map (fun nd => call (CounterInc c [("node", npv_NodeName nd)])) nds.

Lemma forM_counts env c nds log :
  wp (recording env)
    (forM (fun _ nd => nd ← deref nd; trigger (CounterInc c [("node", npv_NodeName nd)])) () (map Some nds))
    log (fun _ log' => log' = log ++ node_counts c nds) (fun _ => False).
Proof.
  revert log. induction nds as [|nd nds IH]; intros log; cbn; [by rewrite app_nil_r|].
  split; [done|]. intros [] log' [_ ->]. eapply wp_mono; [| |apply IH]; [|done].
  intros _ log'' ->. by rewrite <- app_assoc.
Qed.

Lemma failed_counts env inst c nds log :
  NodeDevice (nr_Status inst) = map Some nds ->
  wp (recording env) (IncrementFailedNodeCounter inst c) log
    (fun _ log' => log' = log ++ node_counts FailedRecoveryForNodePrometheusCounter nds) (fun _ => False).
Proof. intros Hnds. unfold IncrementFailedNodeCounter. rewrite Hnds. apply forM_counts. Qed.

(** C19: Functional behaviour of the time-out.  When the clock is more than
    thirty minutes past the transition to the latest condition, the step reads
    the clock twice, emits one event with the last message, counts a failure for
    every recorded node and one for the last condition, touches nothing else in
    the cluster, and returns an object in phase Failed whose conditions have
    kept their types; it does not requeue. *)
Theorem timed_out_step (inst : NodeRecovery) cs c nds :
  Conditions (nr_Status inst) = cs ++ [c] -> NodeDevice (nr_Status inst) = map Some nds ->
  wp (recording (late (cond_LastTransitionTime c + 30 * Minute)%Z)) (Reconciler.Reconcile inst) []
    (fun r log =>
       r.1 = (NoResult, None) /\ Phase (nr_Status r.2) = FailedPhase
       /\ map cond_Type (Conditions (nr_Status r.2)) = map cond_Type (Conditions (nr_Status inst))
       /\ log = [call Now; call Now;
                 call (Eventf r.2 "Error" "Reconciliation"
                   ("failed to reconcile after retrying for 5 minutes: " +:+ cond_Message c) [])]
              ++ node_counts FailedRecoveryForNodePrometheusCounter nds
              ++ [call (CounterInc FailedOperandInstancesPrometheusCounter
                    [("last_condition", conditionTypeString (cond_Type c))])])
    (fun _ => False).
Proof.
  intros Hc Hnds. destruct (Reconcile_unfold cs c inst Hc) as (k & -> & Hk).
  split; [done|]. intros now log [_ ->]. destruct (Hk now) as (k' & -> & Hk').
  split; [done|]. intros now' log [Hlate ->]. rewrite Hk'. clear Hk Hk'. cbn in Hlate.
  rewrite (proj2 (After_spec now' (Add (cond_LastTransitionTime c) reconciliationTimeout))); [|done].
  set (inst1 := set_Status (set_Phase FailedPhase) (probed now cs inst)).
  assert (Conditions (nr_Status inst1) = cs ++ [set_cond_LastProbeTime now c]) as Hc1
    by (cbn; by rewrite Hc, alter_snoc).
  unfold timedOut. apply wp_setStatus, wp_get. fold inst1.
  eapply wp_lift_seq with (Q1 := fun _ log => log = _); [by split; [|intros [] log [_ ->]]|].
  intros _ log ->. eapply wp_lift_seq; [apply (failed_counts _ inst1 _ nds); exact Hnds|].
  intros _ log ->. eapply wp_lift_seq with (Q1 := fun _ log => log = _); [by split; [|intros [] log [_ ->]]|].
  intros _ log ->. cbn [wp mret stateT_ret fst snd]. split_and!; [done|done| |].
  - by rewrite Hc1, Hc, !map_app.
  - by rewrite <- !app_assoc.
Qed.

(** ** Objects that are left alone *)

(** An object that is gone, that is being deleted, or that is Failed or
    Completed is left alone: the controller makes no request at all and does not
    requeue.  Another error of the API server is returned. *)
Theorem finished_objects_are_ignored (got : error + NodeRecovery) :
  match got with
  | inl err => reconcileFetched got = mret (NoResult, if IsNotFound err then None else Some err)
  | inr inst =>
      MetaTime_IsZero (nr_DeletionTimestamp inst) = false
      \/ Phase (nr_Status inst) = FailedPhase \/ Phase (nr_Status inst) = CompletedPhase ->
      reconcileFetched got = mret (NoResult, None)
  end.
Proof.
  unfold reconcileFetched. destruct got as [err|inst]; cbn.
  - rewrite IgnoreNotFound_error. by destruct (IsNotFound err) eqn:E; cbn; rewrite ?E.
  - rewrite IgnoreNotFound_nil. intros H. destruct (MetaTime_IsZero _); cbn; [|done].
    assert (finished inst = true) as ->; [|done]. unfold finished.
    apply orb_true_iff. rewrite !bool_decide_eq_true. naive_solver.
Qed.

(** ** The status is written once *)

(** Keeps the status updates and their answers. *)
Definition updates : Monitor Req (list (NodeRecovery * option error)) := {|
  m_pre _ _ _ := True;
  m_post R e s r s' :=
    match e in Req R return R -> Prop with
    | StatusUpdate i => fun r => s' = s ++ [(i, r)]
    | _ => fun _ => s' = s
    end r |}.

Lemma no_updates {A} (p : Op A) s :
  only (fun c => kind c <> KStatusUpdate) p -> wp updates p s (fun _ s' => s' = s) (fun _ => True).
Proof.
  induction p as [a|R e k IH|why]; cbn; [done| |done].
  intros [He Hk]. split; [done|]. intros r s' Hs. destruct e; subst; try (by apply IH). by destruct He.
Qed.

Lemma startRecovery_no_updates inst : only (fun c => kind c <> KStatusUpdate) (startRecovery inst).
Proof. unfold startRecovery. by destruct (MetaTime_IsZero _). Qed.

Lemma Reconcile_no_updates inst : only (fun c => kind c <> KStatusUpdate) (Reconciler.Reconcile inst).
Proof.
  destruct (Conditions (nr_Status inst)) as [|c cs _] eqn:Hc using rev_ind.
  - unfold Reconciler.Reconcile, getLatestCondition. cbv [status mbind stateT_bind mret stateT_ret get].
    cbn [bind]. by rewrite Hc.
  - eapply only_mono; [|apply (Reconcile_footprint cs c inst Hc)].
    intros [R e] Hk Heq. unfold within in Hk. rewrite Heq in Hk.
    by apply (footprint_of_no_update (cond_Type c)).
Qed.

(** Functional behaviour.  Whatever a step did, unless it crashed, the
    controller then writes the status of the object, exactly once, also when
    the step failed, and an error of that write is part of the error returned
    (the step's error, if any, is kept too). *)
Lemma status_written_once (inst : NodeRecovery) :
  wp updates (processInstance inst) []
    (fun r ups => exists inst' err serr,
       ups = [(inst', serr)] /\ r.2 = errors_Join [err; serr]
       /\ (r.2 = None <-> err = None /\ serr = None))
    (fun _ => True).
Proof.
  unfold processInstance. eapply wp_seq; [apply no_updates, startRecovery_no_updates|].
  intros inst1 ups ->. eapply wp_seq; [apply no_updates, Reconcile_no_updates|].
  intros [[res err] inst2] ups ->. split; [done|]. intros serr ups ->. cbn [wp mret prog_ret].
  exists inst2, err, serr. split_and!; [done..|apply errors_Join2_None].
Qed.

End Steps.

(** ** Witnesses *)

Definition tidy : Answers Req := fun R e =>
  match e in Req R return R -> Prop with
  | ListPods _ => fun r => match r with
      | inr pods => Forall (fun p => is_Some (pod_Labels p !! OSDOverPVCLabelKey)
                                     /\ is_Some (pod_DeletionTimestamp p)) pods
      | inl _ => True
      end
  | GetTemplate _ _ => fun r => match r with
      | inr t => map param_Name (tmpl_Parameters t) = [FAILED_OSD_IDS; FORCE_OSD_REMOVAL]
      | inl _ => True
      end
  | e => clock _ e
  end.

Lemma tidy_clock R (e : Req R) r : tidy R e r -> clock R e r.
Proof. by destruct e. Qed.

Lemma fake_parameters_found : parameters_found.
Proof.
  intros ps name. change (GetParameterByName ps name) with (fake_parameter ps name).
  induction ps as [|p ps IH]; cbn; [set_solver|].
  intros [->|Hin]%elem_of_cons; destruct (decide _); try done; try (by eexists).
  by apply fmap_is_Some, IH.
Qed.

Lemma tidy_justified t : justified tidy t.
Proof.
  destruct t; try exact I; [| |split; [|exact fake_parameters_found]..].
  - intros sel pods p _ Hp Hin _. cbn in Hp. rewrite Forall_forall in Hp. by apply Hp.
  - intros id sel p ps _ Hp. cbn in Hp. by apply Forall_cons in Hp as [[_ ?] _].
  - intros t Ht. cbn in Ht. rewrite Ht. set_solver.
  - intros t Ht. cbn in Ht. rewrite Ht. set_solver.
Qed.

(** A recovery that has been waiting since 1970. *)
Definition stuck : NodeRecovery := set_Status (fun st =>
  set_NodeDevice [Some {| npv_NodeName := "node-2"; npv_PersistentVolumeName := "pv-2"; npv_FailingOSDID := "2" |}]
    (set_Conditions [initialCondition unixEpoch] st)) new_cr.

Lemma timed_out_step_witness :
  exists ret inst w, run cluster (Reconciler.Reconcile stuck)
      (with_clock (unixEpoch + 31 * Minute)%Z Settled) = (Done (ret, inst), w)
    /\ Phase (nr_Status inst) = FailedPhase.
Proof.
  pose proof (timed_out_step stuck [] (initialCondition unixEpoch)
    [{| npv_NodeName := "node-2"; npv_PersistentVolumeName := "pv-2"; npv_FailingOSDID := "2" |}]
    eq_refl eq_refl) as Hwp.
  eapply (wp_adequate _ cluster (fun w _ => unixEpoch + 30 * Minute < w_clock w)%Z _
    (with_clock (unixEpoch + 31 * Minute)%Z Settled)) in Hwp as (log & _ & Hp).
  - destruct (run cluster _ _) as [[[ret inst]|why] w]; [|destruct Hp].
    exists ret, inst, w. split; [reflexivity|]. apply Hp.
  - intros R e w log Hw _. exists (log ++ [call e]). destruct e; cbn in *; split; try done; lia.
  - reflexivity.
Defined.

Lemma finished_objects_are_ignored_witness :
  reconcileFetched (inr (set_Status (set_Phase CompletedPhase) new_cr)) = mret (NoResult, None).
Proof.
  apply (finished_objects_are_ignored (inr (set_Status (set_Phase CompletedPhase) new_cr))).
  right. right. reflexivity.
Defined.

Definition osd_2_selector : @Selector fake := {|
  MatchLabels := list_to_map [("app", "rook-ceph-osd"); ("ceph-osd-id", "2")]; MatchExpressions := [] |}.

Lemma unchecked_pointers_panic_witness :
  handleCrashLoopBackOffPods [tools_pod; osd_pod "0" None] = Panic nil_dereference
  /\ wp (permissive (first_pod_lives "2")) (countTerminating ["2"]) tt (fun _ _ => False) (fun _ => True).
Proof.
  apply (unchecked_pointers_panic (X := fake) tools_pod [osd_pod "0" None] "2" [] osd_2_selector);
    vm_compute; reflexivity.
Defined.
