(* ===== verification/Progress.v ===== *)
(** * Progress: a recovery that is not over is called again

    The controller watches NodeRecovery objects for changes of their generation
    only, which a change of the status is not: what runs the next step is the
    result of this one.  Every case of the switch either returns an error, or
    asks to be called again, or has ended the recovery. *)

From S2P Require Import Prelude Effects GoStd Api K8s Const Monitoring Ceph Recovery Reconciler Controller.
From S2P Require Import StateMachine Fake.

Section Progress.
Context `{X : External} `{Init : !Initialized}.

(** controller-runtime calls the controller again. *)
Definition requeues (r : Result) : Prop := Requeue r = true \/ (0 < RequeueAfter r)%Z.

(** The result and the phase go together. *)
Definition decided (r : Result) (inst : NodeRecovery) : Prop := requeues r <-> finished inst = false.




(** ** The cases *)

Section Cases.
Context {S : Type} (M : Monitor Req S) (HM : forall R (e : Req R) s, m_pre M e s).

Abbreviation Any := (fun _ : S => True).

(** What a step that returns no error has done. *)
Abbreviation good := (fun (r : (Result * option error) * NodeRecovery) (_ : S) => r.1.2 = None -> decided r.1.1 r.2).


















End Cases.


End Progress.

(** ** Witness *)

