(* ===== verification/Healthy.v ===== *)
(** * Healthy: liveness in a cluster with nothing wrong

    [healthy] is a cluster, with the stored object as its ghost state, in which
    no condition lasts longer than its time-out, the API server answers, the
    tools pod and the OSD pods run, no pod is pending or failed, and Ceph
    reports HEALTH_OK.  Nine reconciliations complete a recovery there. *)

From S2P Require Import Prelude Effects GoStd GoStrings Json Api K8s Const Monitoring Ceph Recovery.
From S2P Require Import Reconciler Controller StateMachine Fake.

Section Healthy.
Context `{X : External} `{Init : !Initialized} (lo : Time).

(** ** Time *)

(** How long the operator lets a condition last. *)
Definition limit (t : RecoveryConditionType) : Duration :=
  if decide (t = RetryForceCleanupOSDRemovalJob) then (osdRemovalJobTimeout - 1)%Z else reconciliationTimeout.

(** The last moment of a step on the stored object: the first step starts at
    [lo] at the earliest. *)
Definition deadline (inst : NodeRecovery) : Time :=
  match last (Conditions (nr_Status inst)) with
  | None => (lo + reconciliationTimeout)%Z
  | Some c => (cond_LastTransitionTime c + limit (cond_Type c))%Z
  end.

Lemma deadline_last c inst :
  last (Conditions (nr_Status inst)) = Some c ->
  deadline inst = (cond_LastTransitionTime c + limit (cond_Type c))%Z.
Proof. intros Hc. unfold deadline. by rewrite Hc. Qed.

Lemma limit_timeout t : (limit t <= reconciliationTimeout)%Z.
Proof. unfold limit. by destruct (decide _). Qed.

Lemma deadline_probed now cs c inst :
  Conditions (nr_Status inst) = cs ++ [c] -> deadline (probed now cs inst) = deadline inst.
Proof.
  intros Hc. rewrite (deadline_last c inst) by by rewrite Hc, last_snoc.
  apply (deadline_last (set_cond_LastProbeTime now c)). by rewrite (probed_snoc now cs c inst Hc), last_snoc.
Qed.

(** The clock during a step on the stored object. *)
Definition in_time (inst : NodeRecovery) (now : Time) : Prop :=
  (now <= deadline inst)%Z /\ (Conditions (nr_Status inst) = [] -> (lo <= now)%Z).

(** A recovery that was started in time may last as long. *)
Lemma deadline_started inst t t1 :
  Conditions (nr_Status inst) = [] -> in_time inst t ->
  (deadline inst <= deadline (set_Status (fun st => set_Conditions (Conditions st ++ [initialCondition t])
     (set_Phase RunningPhase (set_StartTime (Some t1) st))) inst))%Z.
Proof.
  intros Hc [_ Ht]. unfold deadline. cbn. rewrite Hc. cbn. change (limit EnableCephToolsPod) with reconciliationTimeout.
  specialize (Ht Hc). lia.
Qed.

(** The latest condition has not timed out. *)
Lemma in_time_After c inst inst' now :
  in_time inst now -> (deadline inst <= deadline inst')%Z -> last (Conditions (nr_Status inst')) = Some c ->
  After now (Add (cond_LastTransitionTime c) reconciliationTimeout) = false.
Proof.
  intros [Hnow _] Hdue Hc. apply After_false. rewrite (deadline_last c inst' Hc) in Hdue.
  pose proof (limit_timeout (cond_Type c)). unfold Add. lia.
Qed.

(** ** The cluster *)

Definition settled (p : Pod) : Prop :=
  pod_Phase p = PodRunning /\ checkPodStatus p = None
  /\ isPodInCrashBackLoopOffOrErrorStatus (statuses p) = false.

Definition healthy_answer {R} (e : Req R) (s : NodeRecovery) : R -> Prop :=
  match e in Req R return R -> Prop with
  | Now => in_time s
  | GetNodeRecovery _ => fun r => r = inr s
  | StatusUpdate i => fun r => r = None
  | GetClusterVersion _ => fun r => exists cv h v,
      r = inr cv /\ firstCompleted (cv_History cv) = Some h /\ NewVersion (uh_Version h) = inr v
  | GetOCSInitialization _ _ => fun r => exists o, r = inr o
  | GetStorageCluster _ _ => fun r => exists sc, r = inr sc
  | UpdateOCSInitialization _ => fun r => r = None
  | UpdateStorageCluster _ => fun r => r = None
  | ListPods [WithOptions _] => fun r => exists p ps, r = inr (p :: ps) /\ Forall settled (p :: ps)
  | ListPods _ => fun r => r = inr []
  | RunCommand _ _ => fun r => exists stdout h,
      r = (stdout, "", None) /\ Unmarshal_healthStatus stdout {| Health := {| Status := "" |} |} = inr h
      /\ Status (Health h) = HEALTH_OK
  | _ => fun _ => True
  end.

Definition healthy : Monitor Req NodeRecovery := {|
  m_pre _ _ _ := True;
  m_post R e s r s' :=
    healthy_answer e s r /\ s' = match e with StatusUpdate i => i | _ => s end |}.

(** An object whose recovery is at [t], as far as a healthy cluster lets it be. *)
Record at_ (t : RecoveryConditionType) (inst : NodeRecovery) : Prop := {
  at_deletion : MetaTime_IsZero (nr_DeletionTimestamp inst) = true;
  at_phase : Phase (nr_Status inst) = RunningPhase;
  at_condition : exists cs c, Conditions (nr_Status inst) = cs ++ [c] /\ cond_Type c = t;
  at_start : exists t0, StartTime (nr_Status inst) = Some t0 /\ Time_IsZero t0 = false;
  at_devices : NodeDevice (nr_Status inst) = [];
  at_pending : PendingPods (nr_Status inst) = false;
  at_crash : CrashLoopBackOffPods (nr_Status inst) = false;
}.

Definition next_of (t : RecoveryConditionType) : option RecoveryConditionType :=
  match t with
  | EnableCephToolsPod => Some WaitForCephToolsPodRunning
  | WaitForCephToolsPodRunning => Some WaitForOSDPodsStabilize
  | WaitForOSDPodsStabilize => Some LabelNodesWithPendingPods
  | LabelNodesWithPendingPods => Some ManageCrashLoopBackOffPods
  | ManageCrashLoopBackOffPods => Some RestartStorageOperator
  | RestartStorageOperator => Some DeleteFailedPodsNodeAffinity
  | DeleteFailedPodsNodeAffinity => Some StorageClusterFitnessCheck
  | StorageClusterFitnessCheck => Some DisableCephTools
  | _ => None
  end.

Abbreviation Never := (fun _ : NodeRecovery => False).

(** The requests that leave the stored object alone. *)
Lemma healthy_ask {R A} (e : Req R) (k : R -> Op A) s Q :
  (forall i, call e <> call (StatusUpdate i)) ->
  (forall r, healthy_answer e s r -> wp healthy (k r) s Q Never) -> wp healthy (Vis e k) s Q Never.
Proof.
  intros He Hk. split; [done|]. intros r s' [Hr ->].
  destruct e; try (by apply Hk). by destruct (He i).
Qed.

Ltac ask := apply healthy_ask; [intros ? [=]|cbn [healthy_answer]].

Lemma getOCPVersion_healthy s :
  wp healthy getOCPVersion s (fun r s' => (exists v, r = inr v) /\ s' = s) Never.
Proof. unfold getOCPVersion. ask. intros ? (cv & h & v & -> & Hh & Hv). cbn. rewrite Hh, Hv. cbn. eauto. Qed.

Lemma isCephToolsEnabled_healthy s :
  wp healthy isCephToolsEnabled s (fun r s' => (exists b, r = inr b) /\ s' = s) Never.
Proof.
  unfold isCephToolsEnabled. eapply wp_seq; [apply getOCPVersion_healthy|]. intros r ? [[v ->] ->].
  destruct (LessThan v ocp4_15); ask; intros ? [o ->]; cbn; eauto.
Qed.

Lemma setEnableCephToolsValue_healthy b s :
  wp healthy (setEnableCephToolsValue b) s (fun r s' => r = None /\ s' = s) Never.
Proof.
  unfold setEnableCephToolsValue. eapply wp_seq; [apply getOCPVersion_healthy|]. intros r ? [[v ->] ->].
  destruct (LessThan v ocp4_15); ask; intros ? [o ->]; cbn; split; try done; by intros ? ? [-> ->].
Qed.

(** Listings in the operator's namespace by a valid selector. *)
Context (Htools : exists sel, fromLabels {[ "app" := "rook-ceph-tools" ]} = inr sel).
Context (Hosd : exists sel, fromLabels {[ "app" := "rook-ceph-osd" ]} = inr sel).

Lemma getRunningCephToolsPod_healthy s :
  wp healthy getRunningCephToolsPod s (fun r s' => (exists p, r = inr p /\ settled p) /\ s' = s) Never.
Proof using Htools.
  destruct Htools as [sel Hsel]. unfold getRunningCephToolsPod. cbv zeta. rewrite Hsel.
  ask. intros ? (p & ps & -> & [Hp _]%Forall_cons). cbn. eauto.
Qed.

Lemma getCephHealthStatus_healthy s :
  wp healthy getCephHealthStatus s (fun r s' => r = inr HEALTH_OK /\ s' = s) Never.
Proof using Htools.
  unfold getCephHealthStatus. eapply wp_seq; [apply getRunningCephToolsPod_healthy|].
  intros r ? [(p & -> & _) ->]. ask. intros ? (stdout & h & -> & Hh & Hok).
  destruct (decide _); [cbn in *; lia|]. rewrite Hh. cbn. by rewrite Hok.
Qed.

Lemma settling_healthy s :
  wp healthy hasPodsInCreatingOrInitializingState s (fun r s' => r = inr None /\ s' = s) Never.
Proof.
  unfold hasPodsInCreatingOrInitializingState. ask. intros ? (p & ps & -> & Hps).
  cbn [wp mret prog_ret]. split; [|done]. f_equal.
  induction Hps as [|q l (_ & Hq & _) _ IH]; cbn; [done|]. by rewrite Hq.
Qed.

Lemma classification_healthy s :
  wp healthy getOSDPodsInOperationalAndFailingStatus s
    (fun r s' => (exists op, r = inr (op, [])) /\ s' = s) Never.
Proof using Hosd.
  destruct Hosd as [sel Hsel]. unfold getOSDPodsInOperationalAndFailingStatus, getOSDPods. rewrite Hsel.
  ask. intros ? (p & ps & -> & Hps). cbn [wp mret prog_ret]. split; [|done].
  rewrite classification_filter. eexists. do 2 f_equal. cbn [app].
  induction Hps as [|q l (_ & _ & Hq) _ IH]; [done|]. rewrite filter_cons. case_decide; [congruence|done].
Qed.

(** ** The cases *)

Lemma goto_at t t' res inst s :
  at_ t inst ->
  wp healthy (goto t' res inst) s (fun r s' => r.1 = (res, None) /\ at_ t' r.2 /\ s' = s) Never.
Proof.
  intros [Hd Hp (cs & c & Hc & Hty) Hs Hn Hpe Hcr].
  unfold goto, transitionNextCondition. apply wp_state_bind, wp_status. rewrite Hc, length_snoc.
  apply wp_setStatus. ask. intros t1 Ht1. ask. intros t2 _. cbn.
  split; [done|]. split; [|done]. constructor; cbn; try done.
  by eexists _, _.
Qed.

Lemma at_keep t inst b : at_ t inst -> at_ t (set_Status (set_KeepCephToolsPod b) inst).
Proof. by intros []. Qed.

Lemma dispatch_healthy t t' i inst s :
  at_ t inst -> next_of t = Some t' ->
  wp healthy (dispatch i t inst) s
    (fun r s' => (exists res, r.1 = Some (res, None)) /\ at_ t' r.2 /\ s' = s) Never.
Proof using Htools Hosd.
  intros Hat Hn.
  assert (forall (m : StateT Req NodeRecovery (Result * option error)),
    wp healthy (m inst) s (fun r s' => (exists res, r.1 = (res, None)) /\ at_ t' r.2 /\ s' = s) Never ->
    wp healthy (returned m inst) s
      (fun r s' => (exists res, r.1 = Some (res, None)) /\ at_ t' r.2 /\ s' = s) Never) as Hret.
  { intros m Hm. apply wp_state_bind. eapply wp_mono; [| |exact Hm]; [|done].
    intros [r inst'] s' ((res & Hr) & ? & ?). cbn in *. subst r. eauto. }
  assert (forall res inst', at_ t inst' -> wp healthy (goto t' res inst') s
    (fun r s' => (exists res, r.1 = (res, None)) /\ at_ t' r.2 /\ s' = s) Never) as Hgoto.
  { intros res inst' H. eapply wp_mono; [| |by apply (goto_at t)]; [|done]. intros r s' (? & ? & ?). eauto. }
  destruct t; cbn in Hn; try discriminate Hn; injection Hn as <-; cbn [dispatch]; apply Hret.
  - eapply wp_lift_seq; [apply isCephToolsEnabled_healthy|]. intros r ? [[b ->] ->].
    destruct b; cbn [negb]; [apply wp_setStatus; by apply Hgoto, at_keep|].
    eapply wp_lift_seq; [apply setEnableCephToolsValue_healthy|]. intros r ? [-> ->]. by apply Hgoto.
  - unfold handleWaitForCephToolsPodRunning. eapply wp_lift_seq with (Q1 := fun r s' => r = inr PodRunning /\ s' = s).
    + eapply wp_seq; [apply getRunningCephToolsPod_healthy|]. intros r ? [(p & -> & Hp & _) ->].
      cbn. by rewrite Hp.
    + intros r ? [-> ->]. destruct (decide _); [done|]. by apply Hgoto.
  - eapply wp_lift_seq; [apply settling_healthy|]. intros r ? [-> ->]. by apply Hgoto.
  - eapply wp_lift_seq with (Q1 := fun r s' => r = inr [] /\ s' = s); [ask; by intros r ->|].
    intros r ? [-> ->]. destruct (decide _); [cbn in *; lia|]. by apply Hgoto.
  - eapply wp_lift_seq; [apply classification_healthy|]. intros r ? [[op ->] ->].
    destruct (decide _); [by apply Hgoto|done].
  - apply wp_status. rewrite (at_pending _ _ Hat), (at_crash _ _ Hat). by apply Hgoto.
  - eapply wp_lift_seq with (Q1 := fun r s' => r = None /\ s' = s); [ask; by intros r ->|].
    intros r ? [-> ->]. by apply Hgoto.
  - eapply wp_lift_seq; [apply getCephHealthStatus_healthy|]. intros r ? [-> ->].
    destruct (decide _); [done|]. by apply Hgoto.
Qed.

(** ** Reconciliations *)

Lemma at_probed now cs c t inst :
  Conditions (nr_Status inst) = cs ++ [c] -> at_ t inst -> at_ t (probed now cs inst).
Proof.
  intros Hc [Hd Hp (cs' & c' & Hc' & Hty) Hs Hn Hpe Hcr]. constructor; try done.
  rewrite Hc' in Hc. apply app_inj_2 in Hc as [-> [= ->]]; [|done].
  eexists cs, _. split; [by apply (probed_snoc now cs c)|done].
Qed.

(** The part of a step before the switch. *)
Lemma Reconcile_at t inst s Q :
  at_ t inst -> (deadline s <= deadline inst)%Z ->
  (forall i inst1, at_ t inst1 ->
     wp healthy ((r ← dispatch i t; match r with Some ret => mret ret | None => complete end) inst1)
       s Q Never) ->
  wp healthy (Reconciler.Reconcile inst) s Q Never.
Proof.
  intros Hat Hdue Hk. destruct (at_condition _ _ Hat) as (cs & c & Hc & Hty).
  destruct (Reconcile_unfold cs c inst Hc) as (k & -> & Hk1).
  ask. intros now _. destruct (Hk1 now) as (k' & -> & Hk'). ask. intros now' Hnow. rewrite Hk'.
  rewrite (in_time_After c s inst) by (done || by rewrite Hc, last_snoc).
  rewrite Hty. apply Hk. by eapply at_probed.
Qed.

Lemma processInstance_at t inst s Q :
  at_ t inst ->
  wp healthy (Reconciler.Reconcile inst) s
    (fun r _ => forall serr, serr = None -> Q (r.1.1, errors_Join [r.1.2; serr]) r.2) Never ->
  wp healthy (processInstance inst) s Q Never.
Proof.
  intros Hat HQ. destruct (at_start _ _ Hat) as (t0 & Ht0 & Hz).
  unfold processInstance, startRecovery. rewrite Ht0. rewrite MetaTime_IsZero_time, Hz.
  eapply wp_seq with (Q1 := fun i s' => i = inst /\ s' = s); [done|]. intros ? ? [-> ->].
  eapply wp_seq; [exact HQ|]. intros [[res err] inst2] s' H. split; [done|].
  intros serr s'' [-> ->]. by apply H.
Qed.

Lemma at_not_finished t inst : at_ t inst -> finished inst = false.
Proof. intros Hat. apply finished_spec. by rewrite (at_phase _ _ Hat). Qed.

Lemma Controller_Reconcile_at t name s Q :
  at_ t s -> wp healthy (processInstance s) s Q Never ->
  wp healthy (Controller.Reconcile name) s Q Never.
Proof.
  intros Hat HQ. unfold Controller.Reconcile. ask. intros ? ->.
  unfold reconcileFetched. rewrite IgnoreNotFound_nil.
  by rewrite (at_deletion _ _ Hat), (at_not_finished _ _ Hat).
Qed.

Lemma process_next t t' inst s :
  at_ t inst -> (deadline s <= deadline inst)%Z -> next_of t = Some t' ->
  wp healthy (processInstance inst) s (fun r s' => r.2 = None /\ at_ t' s') Never.
Proof using Htools Hosd.
  intros Hat Hdue Hn. apply (processInstance_at t); [done|]. apply (Reconcile_at t); [done..|].
  intros i inst1 Hat1. apply wp_state_bind.
  eapply wp_mono; [| |by apply (dispatch_healthy t t')]; [|done].
  intros [r inst2] s' ((res & Hr) & Hat2 & ->). cbn in Hr, Hat2. subst r.
  cbn [fst snd wp mret stateT_ret]. by intros ? ->.
Qed.

Lemma process_last inst s :
  at_ DisableCephTools inst -> (deadline s <= deadline inst)%Z ->
  wp healthy (processInstance inst) s
    (fun r s' => r.2 = None /\ Phase (nr_Status s') = CompletedPhase
       /\ is_Some (CompletionTime (nr_Status s'))) Never.
Proof.
  intros Hat Hdue. apply (processInstance_at DisableCephTools); [done|].
  apply (Reconcile_at DisableCephTools); [done..|]. intros i inst1 Hat1. apply wp_state_bind.
  eapply wp_mono with (Q := fun r s' => r = (None, inst1) /\ s' = s) (QP := Never); [|done|].
  - intros ? ? [-> ->]. cbn [fst snd]. unfold complete. apply wp_setStatus. ask. intros now _.
    destruct (at_start _ _ Hat1) as (t0 & Ht0 & _). apply wp_setStatus, wp_get.
    eapply wp_lift_seq with (Q1 := fun r s' => s' = s).
    + cbn [nr_Status set_Status StartTime set_CompletionTime set_Phase]. by rewrite Ht0.
    + intros start ? ->. ask. intros _ _. ask. intros _ _. intros serr ->. cbn. by eauto.
  - cbn [dispatch]. unfold handleDisableCephTools. apply wp_status.
    assert (forall inst', at_ DisableCephTools inst' ->
      wp healthy (IncrementCompletedOperandCounter inst') s (fun _ s' => s' = s) Never) as Hcount.
    { intros inst' H. unfold IncrementCompletedOperandCounter. by rewrite (at_devices _ _ H). }
    destruct (negb _).
    + eapply wp_lift_seq; [apply setEnableCephToolsValue_healthy|]. intros r ? [-> ->].
      apply wp_get. eapply wp_lift_seq; [by apply Hcount|]. by intros _ ? ->.
    + apply (wp_get healthy (fun instance => lift (IncrementCompletedOperandCounter instance);; mret None)).
      eapply wp_lift_seq; [by apply Hcount|]. by intros _ ? ->.
Qed.

(** The first step also starts the recovery. *)
Lemma process_first s :
  (0 < lo)%Z -> nr_Status s = zeroStatus -> MetaTime_IsZero (nr_DeletionTimestamp s) = true ->
  wp healthy (processInstance s) s (fun r s' => r.2 = None /\ at_ WaitForCephToolsPodRunning s') Never.
Proof using Htools Hosd.
  intros Hlo Hz Hd. unfold processInstance, startRecovery. rewrite Hz. cbn [StartTime zeroStatus]. rewrite MetaTime_IsZero_nil.
  assert (Conditions (nr_Status s) = []) as Hnil by by rewrite Hz.
  eapply wp_seq with (Q1 := fun i s' => at_ EnableCephToolsPod i /\ (deadline s <= deadline i)%Z /\ s' = s).
  - ask. intros t1 Ht1. ask. intros t2 Ht2. ask. intros _ _. cbn [wp mret prog_ret].
    split; [|split; [by apply deadline_started|done]]. pose proof (proj2 Ht1 Hnil) as Hge.
    constructor; cbn; try done; rewrite ?Hz; try done.
    + by exists [], (initialCondition t2).
    + exists t1. split; [done|]. apply Z.eqb_neq. lia.
  - intros inst1 ? (Hat & Hdue & ->).
    assert (wp healthy (processInstance inst1) s
      (fun r s' => r.2 = None /\ at_ WaitForCephToolsPodRunning s') Never) as H by by apply (process_next EnableCephToolsPod).
    unfold processInstance, startRecovery in H. destruct (at_start _ _ Hat) as (t0 & Ht0 & Hz0).
    rewrite Ht0 in H. rewrite MetaTime_IsZero_time in H. by rewrite Hz0 in H.
Qed.

(** [n] reconciliations of an object. *)
Definition reconciliations (n : nat) (name : string) : Op (list (option error)) :=
  forM (fun errs _ => r ← Controller.Reconcile name; mret (errs ++ [r.2])) [] (seq 0 n).

Lemma reconciliations_step name errs (xs : list nat) x t t' s Q :
  at_ t s -> next_of t = Some t' -> Forall (fun e => e = None) errs ->
  (forall errs s', Forall (fun e => e = None) errs -> at_ t' s' ->
     wp healthy (forM (fun errs _ => r ← Controller.Reconcile name; mret (errs ++ [r.2])) errs xs) s' Q Never) ->
  wp healthy (forM (fun errs _ => r ← Controller.Reconcile name; mret (errs ++ [r.2])) errs (x :: xs)) s Q Never.
Proof using Htools Hosd.
  intros Hat Hn He HQ. cbn [forM]. eapply wp_seq.
  - eapply wp_seq; [by apply (Controller_Reconcile_at t), (process_next t t')|].
    intros r s' Hr. apply wp_ret with (Q := fun errs' s' => Forall (fun e => e = None) errs' /\ at_ t' s').
    destruct Hr as [Hr Hat']. split; [|done]. apply Forall_app. split; [done|]. by constructor.
  - intros errs' s' [He' Hat']. by apply HQ.
Qed.

(** C7: Liveness.  In a healthy cluster nine reconciliations take a new object
    to Completed, each without an error and without a panic, whatever the
    answers are within what [healthy] allows (no condition outlasts its
    time-out), and whatever the version of the platform and the state of the
    tools switch are. *)
Theorem healthy_recovery_completes (name : string) (inst : NodeRecovery) :
  (0 < lo)%Z -> nr_Status inst = zeroStatus -> MetaTime_IsZero (nr_DeletionTimestamp inst) = true ->
  wp healthy (reconciliations 9 name) inst
    (fun errs s => Forall (fun e => e = None) errs
       /\ Phase (nr_Status s) = CompletedPhase /\ is_Some (CompletionTime (nr_Status s)))
    (fun _ => False).
Proof using Htools Hosd.
  intros Hlo Hz Hd. unfold reconciliations. cbn [seq].
  set (Q := fun (errs : list (option error)) (s : NodeRecovery) => Forall (fun e => e = None) errs /\ _).
  assert (forall errs s, Forall (fun e => e = None) errs -> at_ WaitForCephToolsPodRunning s ->
    wp healthy (forM (fun errs _ => r ← Controller.Reconcile name; mret (errs ++ [r.2])) errs (seq 1 8)) s Q Never)
    as Htail.
  { intros errs s He Hat. cbn [seq].
    do 7 (eapply reconciliations_step; [exact Hat|reflexivity|exact He|]; clear dependent errs; clear dependent s;
          intros errs s He Hat).
    eapply wp_seq; [|intros errs' s' H; exact H].
    eapply wp_seq; [by eapply Controller_Reconcile_at, process_last|].
    intros r s' (Hr & Hp & Hct). split; [|by split]. apply Forall_app. split; [done|by constructor]. }
  eapply wp_seq with (Q1 := fun errs s => Forall (fun e => e = None) errs /\ at_ WaitForCephToolsPodRunning s);
    [|intros errs s [He Hat]; by apply Htail].
  ask. intros ? ->. unfold reconcileFetched, finished. rewrite Hz, Hd. rewrite IgnoreNotFound_nil. cbn [negb orb Phase zeroStatus].
  eapply wp_seq; [by apply process_first|]. intros r s' [Hr Hat]. split; [by repeat constructor|done].
Qed.

End Healthy.

(** ** Witness *)

(** Nine minutes after the last step; none is too late. *)
Definition nine_minutes_later (s : NodeRecovery) : Time :=
  match last (Conditions (nr_Status s)) with
  | Some c => (cond_LastTransitionTime c + 9 * Minute)%Z
  | None => unixEpoch
  end.

Lemma nine_minutes_in_time s : in_time unixEpoch s (nine_minutes_later s).
Proof.
  assert (forall t, 9 * Minute <= limit t)%Z as Hlim by (intros t; unfold limit; by destruct (decide _)).
  unfold in_time, deadline, nine_minutes_later. destruct (last _) as [c|] eqn:Hc.
  - split; [specialize (Hlim (cond_Type c)); lia|]. intros Hnil. by rewrite Hnil in Hc.
  - split; [|done]. assert (0 <= reconciliationTimeout)%Z by done. lia.
Qed.

(** A healthy cluster that keeps the object only. *)
Definition frozen : Handler Req NodeRecovery := fun R e s =>
  match e in Req R return R * NodeRecovery with
  | Now => (nine_minutes_later s, s)
  | RangeKeys ks => (ks, s)
  | GetNodeRecovery _ => (inr s, s)
  | StatusUpdate i => (None, i)
  | GetClusterVersion _ =>
      (inr {| cv_History := [ {| uh_State := "Completed"; uh_Version := "4.14.9" |} ] |}, s)
  | GetOCSInitialization _ _ => (inr {| ocsinit_ResourceVersion := "1"; ocsinit_EnableCephTools := false |}, s)
  | UpdateOCSInitialization _ => (None, s)
  | GetStorageCluster _ _ => (inr {| sc_ResourceVersion := "1"; sc_EnableCephTools := false |}, s)
  | UpdateStorageCluster _ => (None, s)
  | GetNode _ => (inl not_found, s)
  | UpdateNode _ => (None, s)
  | GetPVC _ _ => (inl not_found, s)
  | GetPV _ => (inl not_found, s)
  | DeletePV _ => (None, s)
  | ListPVs _ => (inr [], s)
  | ListPVCs _ => (inr [], s)
  | ListPods [WithOptions _] => (inr [tools_pod], s)
  | ListPods _ => (inr [], s)
  | DeletePod _ => (None, s)
  | DeleteAllOfPods _ => (None, s)
  | ListDeployments _ => (inr [], s)
  | UpdateDeployment _ => (None, s)
  | GetJob _ _ => (inl not_found, s)
  | DeleteJob _ => (None, s)
  | GetTemplate _ _ => (inl not_found, s)
  | ProcessTemplate _ t => ((t, []), s)
  | Create _ => (None, s)
  | RunCommand _ _ => ((health_report "HEALTH_OK", "", None), s)
  | GetLogs _ => (inl not_found, s)
  | Eventf _ _ _ _ _ => (tt, s)
  | CounterInc _ _ => (tt, s)
  end.

Lemma frozen_healthy R (e : Req R) w s :
  w = s -> m_pre (healthy unixEpoch) e s ->
  exists s', m_post (healthy unixEpoch) e s (frozen R e w).1 s' /\ (frozen R e w).2 = s'.
Proof.
  intros -> _. exists (frozen R e s).2. split; [|done].
  destruct e as [| | | | | | | | | | | | | | | |[|[] []]| | | | | | | | | | | | |]; cbn; split; try done;
    try (by eexists); try apply nine_minutes_in_time.
  - eexists _, _, _. split; [reflexivity|]. split; vm_compute; reflexivity.
  - eexists _, _. split; [reflexivity|]. constructor; [|constructor]. split_and!; vm_compute; reflexivity.
  - eexists _, _. split; [reflexivity|]. split; vm_compute; reflexivity.
Qed.

Lemma healthy_recovery_completes_witness : exists errs s,
  run frozen (reconciliations 9 "recovery") new_cr = (Done errs, s)
  /\ Phase (nr_Status s) = CompletedPhase.
Proof.
  destruct (wp_adequate (healthy unixEpoch) frozen eq (reconciliations 9 "recovery") new_cr new_cr _ _
    frozen_healthy eq_refl
    (healthy_recovery_completes unixEpoch (fake_fromLabels _) (fake_fromLabels _)
       "recovery" new_cr eq_refl eq_refl eq_refl)) as (s & Hs & Hp).
  destruct (run frozen (reconciliations 9 "recovery") new_cr) as [[errs|why] s'].
  - exists errs, s'. split; [reflexivity|]. cbn in Hs, Hp. rewrite Hs. apply Hp.
  - destruct Hp.
Defined.
