(* ===== verification/Repair.v ===== *)
(** * Repair: liveness with failing OSDs

    [repairing] is a cluster that can be repaired, with the stored object as its
    ghost state: no condition lasts longer than the time-outs of the operator
    allow - thirty minutes, and less than ten for the second, forced removal job
    -, the requests of the operator are answered without an error, failing OSD
    pods have their claims and volumes, the removal job, or the forced one that
    follows it after ten minutes, ends with success.  Nothing has to be ready when it is first looked at: the tools pod
    may not run yet, pods may be initialising or terminating, the job running,
    volumes released but not deleted, pods not bound, Ceph not healthy.  Each
    such answer uses up one unit of the [patience] in the ghost state, so that
    there are finitely many.  A recovery then completes, in at most fourteen
    reconciliations more than there were such answers. *)

From S2P Require Import Prelude Effects GoStd GoStrings Json Api K8s Const Monitoring Ceph Recovery.
From S2P Require Import Reconciler Controller Footprint StateMachine Fake NoPanic Steps Healthy.

Section Repair.
Context `{X : External} `{Init : !Initialized} (lo : Time).

(** The label selectors of [metav1.LabelSelector] that are documented to be valid. *)
Context (Hselector : forall s, Forall (fun e => lsr_Values e <> []) (MatchExpressions s) ->
  exists sel, LabelSelectorAsSelector s = inr sel).
Context (Hparam : parameters_found).

(** ** The cluster *)

Record Ghost := { g_cr : NodeRecovery; g_patience : nat }.

Definition succeeds {A} (r : error + A) : Prop := exists a, r = inr a.

Definition creatable (obj : RawExtension) : Prop := exists o c,
  match raw_Object obj with None => Decode (raw_Raw obj) | Some o => inr o end = inr o
  /\ asClientObject o = Some c.

Definition is_failing (p : Pod) : Prop := isPodInCrashBackLoopOffOrErrorStatus (statuses p) = true.

(** The selector of the removal job's pods, and that of the pods bound to claims. *)
Definition jobSelector : LabelSelector := {|
  MatchLabels := ∅;
  MatchExpressions := [ {| lsr_Key := "job-name"; lsr_Operator := LabelSelectorOpIn;
                           lsr_Values := ["ocs-osd-removal-job"] |} ] |}.

Definition claimSelector (names : list string) : LabelSelector := {|
  MatchLabels := {[ "app" := "rook-ceph-osd" ]};
  MatchExpressions := [ {| lsr_Key := OSDOverPVCLabelKey; lsr_Operator := LabelSelectorOpIn;
                           lsr_Values := names |} ] |}.

(** The request lists the pods of this selector. *)
Definition lists_by (s : LabelSelector) (opts : list ListOption) : Prop :=
  exists sel, LabelSelectorAsSelector s = inr sel /\ opts = [WithOptions (in_namespace sel)].

Definition labelSelector (m : labels) : LabelSelector := {| MatchLabels := m; MatchExpressions := [] |}.
Definition toolsSelector : LabelSelector := labelSelector {[ "app" := "rook-ceph-tools" ]}.
Definition osdSelector : LabelSelector := labelSelector {[ "app" := "rook-ceph-osd" ]}.
Definition idSelector (id : string) : LabelSelector :=
  labelSelector (<[ "app" := "rook-ceph-osd" ]> {[ OsdIdLabelKey := id ]}).

(** What holds of every listing of pods. *)
Definition pods_listed (opts : list ListOption) (pods : list Pod) : Prop :=
  (lists_by toolsSelector opts -> pods <> [])
  /\ (lists_by osdSelector opts ->
      Forall (fun p => is_failing p -> is_Some (pod_Labels p !! OSDOverPVCLabelKey)) pods)
  /\ (forall id, lists_by (idSelector id) opts -> Forall (fun p => is_Some (pod_DeletionTimestamp p)) pods)
  /\ (lists_by jobSelector opts -> Exists (fun p => MetaTime_IsZero (pod_DeletionTimestamp p) = true) pods).

(** What holds once nothing has to be waited for. *)
Definition pods_ready (inst : NodeRecovery) (opts : list ListOption) (pods : list Pod) : Prop :=
  (lists_by toolsSelector opts -> Forall (fun p => pod_Phase p = PodRunning) pods)
  /\ (opts = [WithOptions {| lo_Namespace := ODF_NAMESPACE; lo_LabelSelector := None |}] ->
      Forall (fun p => checkPodStatus p = None) pods)
  /\ (forall id, lists_by (idSelector id) opts -> pods = [])
  /\ (lists_by jobSelector opts -> Forall (fun p => pod_Phase p = PodSucceeded) pods)
  /\ (forall names, lists_by (claimSelector names) opts ->
      length (OperationalOSDIDs (nr_Status inst)) + length (NodeDevice (nr_Status inst)) <= length pods).

(** What holds of every answer. *)
Definition answer {R} (e : Req R) (s : Ghost) : R -> Prop :=
  match e in Req R return R -> Prop with
  | Now => in_time lo (g_cr s)
  | RangeKeys keys => fun r => r ≡ₚ keys
  | GetNodeRecovery _ => fun r => r = inr (g_cr s)
  | StatusUpdate _ => fun r => r = None
  | GetClusterVersion _ => fun r => exists cv h v,
      r = inr cv /\ firstCompleted (cv_History cv) = Some h /\ NewVersion (uh_Version h) = inr v
  | GetOCSInitialization _ _ => succeeds
  | GetStorageCluster _ _ => succeeds
  | UpdateOCSInitialization _ => fun r => r = None
  | UpdateStorageCluster _ => fun r => r = None
  | GetNode _ => succeeds
  | UpdateNode _ => fun r => r = None
  | GetPVC _ _ => succeeds
  | GetPV _ => succeeds
  | ListPVs _ => succeeds
  | ListPVCs _ => fun r => exists l, r = inr l /\ l <> []
  | ListPods opts => fun r => exists pods, r = inr pods /\ pods_listed opts pods
  | DeletePod _ => fun r => r = None
  | DeleteAllOfPods _ => fun r => r = None
  | ListDeployments _ => succeeds
  | UpdateDeployment _ => fun r => r = None
  | GetJob _ _ => fun r => match r with inl err => IsNotFound err = true | inr _ => True end
  | DeleteJob _ => fun r => r = None
  | GetTemplate _ _ => fun r => exists t, r = inr t
      /\ FAILED_OSD_IDS ∈ map param_Name (tmpl_Parameters t)
      /\ FORCE_OSD_REMOVAL ∈ map param_Name (tmpl_Parameters t)
  | ProcessTemplate _ _ => fun r => r.2 = [] /\ Forall creatable (tmpl_Objects r.1)
  | Create _ => fun r => r = None
  | RunCommand _ cmd => fun r => exists stdout, r = (stdout, "", None)
      /\ (cmd = ["ceph"; "status"; "-f"; "json"] ->
          succeeds (Unmarshal_healthStatus stdout {| Health := {| Status := "" |} |}))
  | GetLogs _ => fun r => exists logs, r = inr logs
      /\ Contains (ToLower (last_line (TrimSpace logs))) osdJobSuccessMessage = true
  | DeletePV _ | Eventf _ _ _ _ _ | CounterInc _ _ => fun _ => True
  end.

(** What holds of an answer that does not have to be waited for. *)
Definition ready {R} (e : Req R) (s : Ghost) : R -> Prop :=
  match e in Req R return R -> Prop with
  | ListPods opts => fun r => exists pods, r = inr pods /\ pods_ready (g_cr s) opts pods
  | ListPVs _ => fun r => exists pvs, r = inr pvs /\ pvs <> [] /\ Forall (fun pv => pv_Phase pv <> VolumeReleased) pvs
  | RunCommand _ cmd => fun r => cmd = ["ceph"; "status"; "-f"; "json"] -> exists h,
      Unmarshal_healthStatus r.1.1 {| Health := {| Status := "" |} |} = inr h /\ Status (Health h) = HEALTH_OK
  | _ => fun _ => True
  end.

(** One unit of patience less. *)
Definition waited (s s' : Ghost) : Prop := g_cr s' = g_cr s /\ g_patience s = S (g_patience s').

Definition repairing : Monitor Req Ghost := {|
  m_pre _ _ _ := True;
  m_post R e s r s' :=
    match e with
    | StatusUpdate i => answer e s r /\ s' = {| g_cr := i; g_patience := g_patience s |}
    | _ => answer e s r /\ (ready e s r /\ s' = s \/ waited s s')
    end |}.

(** ** Asking *)

(** The object is kept and the patience has not grown, or is less. *)
Definition le (s s' : Ghost) : Prop := g_cr s' = g_cr s /\ g_patience s' <= g_patience s.
Definition lt (s s' : Ghost) : Prop := g_cr s' = g_cr s /\ g_patience s' < g_patience s.

Abbreviation Never := (fun _ : Ghost => False).

Lemma ask {R A} (e : Req R) (k : R -> Op A) s Q :
  (forall i, call e <> call (StatusUpdate i)) ->
  (forall r, answer e s r -> ready e s r -> wp repairing (k r) s Q Never) ->
  (forall r s', answer e s r -> lt s s' -> wp repairing (k r) s' Q Never) ->
  wp repairing (Vis e k) s Q Never.
Proof.
  intros He Hready Hlate. split; [done|].
  assert (forall r s', answer e s r /\ (ready e s r /\ s' = s \/ waited s s') -> wp repairing (k r) s' Q Never) as H.
  { intros r s' [Ha [[Hr ->]|[Hc Hp]]]; [by apply Hready|]. apply Hlate; [done|]. split; [done|lia]. }
  destruct e; try exact H. by destruct (He i).
Qed.

(** A request whose answer never has to be waited for. *)
Lemma ask_any {R A} (e : Req R) (k : R -> Op A) s Q :
  (forall i, call e <> call (StatusUpdate i)) ->
  (forall r s', answer e s r -> le s s' -> wp repairing (k r) s' Q Never) ->
  wp repairing (Vis e k) s Q Never.
Proof.
  intros He Hk. apply ask; [done|..].
  - intros r Ha _. apply Hk; [done|]. by split.
  - intros r s' Ha [Hc Hp]. apply Hk; [done|]. split; [done|lia].
Qed.

Ltac patience := clear Hselector Hparam; unfold le, lt in *; intuition (congruence || lia).
Ltac ask := apply ask; [intros ? [=]|cbn [answer ready]|cbn [answer]].
Ltac ask_any := apply ask_any; [intros ? [=]|cbn [answer]].

(** ** The functions *)

Lemma selector_ok m : exists sel, fromLabels m = inr sel.
Proof using Hselector. apply Hselector. constructor. Qed.

(** Every function ends, with a result that is as it should be or after a wait. *)
Definition ends {A} (good okay : A -> Prop) (s : Ghost) (r : A) (s' : Ghost) : Prop :=
  good r /\ le s s' \/ okay r /\ lt s s'.

Lemma getOCPVersion_repair s : wp repairing getOCPVersion s (fun r s' => succeeds r /\ le s s') Never.
Proof.
  unfold getOCPVersion. ask_any. intros ? s' (cv & h & v & -> & Hh & Hv) Hle. cbn. rewrite Hh, Hv.
  split; [by eexists|done].
Qed.

Lemma isCephToolsEnabled_repair s : wp repairing isCephToolsEnabled s (fun r s' => succeeds r /\ le s s') Never.
Proof.
  unfold isCephToolsEnabled. eapply wp_seq; [apply getOCPVersion_repair|]. intros r s1 [[v ->] H1].
  destruct (LessThan v ocp4_15); ask_any; intros ? s2 [o ->] H2; (split; [by eexists|patience]).
Qed.

Lemma setEnableCephToolsValue_repair b s :
  wp repairing (setEnableCephToolsValue b) s (fun r s' => r = None /\ le s s') Never.
Proof.
  unfold setEnableCephToolsValue. eapply wp_seq; [apply getOCPVersion_repair|]. intros r s1 [[v ->] H1].
  destruct (LessThan v ocp4_15); ask_any; intros ? s2 [o ->] H2; ask_any; intros ? s3 -> H3; (split; [done|patience]).
Qed.

Lemma getRunningCephToolsPod_repair s :
  wp repairing getRunningCephToolsPod s
    (ends (fun r => exists p, r = inr p /\ pod_Phase p = PodRunning) succeeds s) Never.
Proof using Hselector.
  unfold getRunningCephToolsPod. cbv zeta. destruct (Hselector toolsSelector) as [sel Hsel]; [constructor|].
  unfold fromLabels. fold (labelSelector {[ "app" := "rook-ceph-tools" ]}). fold toolsSelector. rewrite Hsel.
  assert (lists_by toolsSelector [WithOptions (in_namespace sel)]) as Hby by by exists sel.
  ask.
  - intros ? (pods & -> & Hl & _) (pods' & [= <-] & Hr & _). specialize (Hl Hby). specialize (Hr Hby).
    destruct pods as [|p pods]; [done|]. apply Forall_cons in Hr as [Hp _]. left. split; [by exists p|by split].
  - intros ? s' (pods & -> & Hl & _) Hlt. specialize (Hl Hby). destruct pods as [|p pods]; [done|].
    right. split; [by exists p|done].
Qed.

Lemma getCephHealthStatus_repair s :
  wp repairing getCephHealthStatus s (ends (fun r => r = inr HEALTH_OK) succeeds s) Never.
Proof using Hselector.
  unfold getCephHealthStatus. eapply wp_seq; [apply getRunningCephToolsPod_repair|].
  intros r s1 Hr. assert ((exists p, r = inr p) /\ le s s1) as [[p ->] H1].
  { destruct Hr as [[(p & -> & _) ?]|[[p ->] ?]]; (split; [by eexists|patience]). }
  clear Hr. ask.
  - intros ? (stdout & -> & _) Hh. destruct (Hh eq_refl) as (h & Hh' & Hok). cbn in Hh'.
    destruct (decide _); [cbn in *; lia|]. rewrite Hh'. left. cbn. rewrite Hok. split; [done|patience].
  - intros ? s2 (stdout & -> & Hh) Hlt. destruct (Hh eq_refl) as [h Hh'].
    destruct (decide _); [cbn in *; lia|]. rewrite Hh'. right. split; [by eexists|patience].
Qed.

Lemma archiveCephDaemonCrashMessages_repair s :
  wp repairing archiveCephDaemonCrashMessages s (fun r s' => r = None /\ le s s') Never.
Proof using Hselector.
  unfold archiveCephDaemonCrashMessages. cbv zeta. eapply wp_seq; [apply getRunningCephToolsPod_repair|].
  intros r s1 Hr. assert ((exists p, r = inr p) /\ le s s1) as [[p ->] H1].
  { destruct Hr as [[(p & -> & _) ?]|[[p ->] ?]]; (split; [by eexists|patience]). }
  ask_any. intros ? s2 (stdout & -> & _) Hle. split; [done|patience].
Qed.

Lemma settling_repair s :
  wp repairing hasPodsInCreatingOrInitializingState s (ends (fun r => r = inr None) succeeds s) Never.
Proof.
  unfold hasPodsInCreatingOrInitializingState. ask.
  - intros ? (pods & -> & _) (pods' & [= <-] & _ & Hr & _). left. split; [|by split]. f_equal.
    specialize (Hr eq_refl). induction Hr as [|q l Hq _ IH]; cbn; [done|]. by rewrite Hq.
  - intros ? s' (pods & -> & _) Hlt. right. split; [by eexists|done].
Qed.

Lemma getPodsInPendingPhase_repair s :
  wp repairing getPodsInPendingPhase s (fun r s' => succeeds r /\ le s s') Never.
Proof. unfold getPodsInPendingPhase. ask_any. intros ? s' (pods & -> & _) Hle. by split; [eexists|]. Qed.

(** A loop that joins the errors of requests that succeed. *)
Lemma forM_repair {A} (body : option error -> A -> Op (option error)) xs s :
  (forall x s, x ∈ xs -> wp repairing (body None x) s (fun r s' => r = None /\ le s s') Never) ->
  wp repairing (forM body None xs) s (fun r s' => r = None /\ le s s') Never.
Proof.
  intros Hb. apply wp_forM with (I := fun _ r s' => r = None /\ le s s'); [by split; [|split]| |done].
  intros done_ x acc s1 Hx [-> H1]. eapply wp_mono; [| |by apply Hb]; [|done].
  intros r s2 [-> H2]. split; [done|patience].
Qed.

Lemma for_check_repair {A} (body : A -> Op (option error)) xs s :
  (forall x s, x ∈ xs -> wp repairing (body x) s (fun r s' => r = None /\ le s s') Never) ->
  wp repairing (for_check body xs) s (fun r s' => r = None /\ le s s') Never.
Proof.
  intros Hb. unfold for_check. eapply wp_seq with (Q1 := fun r s' => r = inr () /\ le s s').
  - apply wp_forM_ret with (I := fun _ _ s' => le s s'); [by split| |by intros [] s' H].
    intros done_ x [] s1 Hx H1. eapply wp_seq; [by apply Hb|]. intros r s2 [-> H2]. cbn. patience.
  - intros r s' [-> H]. by split.
Qed.

Lemma labelNodes_repair pods s :
  wp repairing (labelNodesWithPodsInPendingState pods) s (fun r s' => r = None /\ le s s') Never.
Proof.
  unfold labelNodesWithPodsInPendingState. ask_any. intros keys s1 _ H1.
  eapply wp_mono; [| |apply forM_repair]; [intros r s2 [-> H2]; split; [done|patience]|done|].
  intros n s2 _. eapply wp_seq with (Q1 := fun r s' => r = None /\ le s2 s'); [|by intros r s3 [-> H3]].
  unfold labelNode. ask_any. intros ? s3 [nd ->] H3.
  destruct (node_Labels nd); ask_any; intros ? s4 -> H4; (split; [done|patience]).
Qed.

Lemma deleteFailedPods_repair s :
  wp repairing deleteFailedPodsWithReasonNodeAffinity s (fun r s' => r = None /\ le s s') Never.
Proof.
  unfold deleteFailedPodsWithReasonNodeAffinity.
  eapply wp_seq with (Q1 := fun r s' => succeeds r /\ le s s').
  - unfold getPodsInFailedPhaseWithReasonNodeAffinity. ask_any. intros ? s1 (pods & -> & _) H1.
    by split; [eexists|].
  - intros r s1 [[pods ->] H1].
    eapply wp_mono; [| |apply forM_repair]; [intros r s2 [-> H2]; split; [done|patience]|done|].
    intros p s2 _. ask_any. intros ? s3 -> H3. by split.
Qed.

Lemma deleteOldOSDRemovalJob_repair s :
  wp repairing deleteOldOSDRemovalJob s (fun r s' => r = None /\ le s s') Never.
Proof using Hselector.
  unfold deleteOldOSDRemovalJob. ask_any. intros r s1 Hr H1.
  eapply wp_seq with (Q1 := fun r s' => r = None /\ le s s').
  - destruct r as [err|job]; [rewrite Hr; by split|]. ask_any. intros ? s2 -> H2. split; [done|patience].
  - intros ? s2 [-> H2]. cbv zeta. destruct (selector_ok {[ "job-name" := "ocs-osd-removal-job" ]}) as [sel ->].
    ask_any. intros ? s3 -> H3. split; [done|patience].
Qed.

Lemma getOSDPods_repair s :
  wp repairing getOSDPods s
    (fun r s' => (exists pods, r = inr pods
       /\ Forall (fun p => is_failing p -> is_Some (pod_Labels p !! OSDOverPVCLabelKey)) pods) /\ le s s') Never.
Proof using Hselector.
  unfold getOSDPods. cbv zeta. destruct (Hselector osdSelector) as [sel Hsel]; [constructor|].
  unfold fromLabels. fold (labelSelector {[ "app" := "rook-ceph-osd" ]}). fold osdSelector. rewrite Hsel.
  ask_any. intros ? s1 (pods & -> & _ & Hl & _) H1. split; [|done]. exists pods. split; [done|].
  apply Hl. by exists sel.
Qed.

Lemma scale_repair id s :
  wp repairing (scaleRookCephOSDDeploymentToZero id) s (fun r s' => r = None /\ le s s') Never.
Proof using Hselector.
  unfold scaleRookCephOSDDeploymentToZero. cbv zeta.
  destruct (selector_ok (<[ "app" := "rook-ceph-osd" ]> {[ OsdIdLabelKey := id ]})) as [sel ->].
  ask_any. intros ? s1 [l ->] H1.
  eapply wp_mono; [| |apply for_check_repair]; [intros r s2 [-> H2]; split; [done|patience]|done|].
  intros d s2 _. ask_any. intros ? s3 -> H3. by split.
Qed.

(** A device that is there. *)
Definition present (nds : list (option NodePV)) : Prop := exists l, nds = map Some l.

Lemma present_snoc nds nd : present nds -> present (nds ++ [Some nd]).
Proof. intros [l ->]. exists (l ++ [nd]). by rewrite map_app. Qed.

Lemma getNodeDeviceNameFromPV_repair p s :
  is_Some (pod_Labels p !! OSDOverPVCLabelKey) ->
  wp repairing (getNodeDeviceNameFromPV p) s (fun r s' => (exists nd, r = inr (Some nd)) /\ le s s') Never.
Proof.
  intros [claim Hclaim]. unfold getNodeDeviceNameFromPV. rewrite Hclaim.
  ask_any. intros ? s1 [c ->] H1. ask_any. intros ? s2 [v ->] H2. split; [by eexists|patience].
Qed.

Lemma handleCrashLoopBackOffPods_repair pods s :
  Forall (fun p => is_Some (pod_Labels p !! OSDOverPVCLabelKey)) pods ->
  wp repairing (handleCrashLoopBackOffPods pods) s
    (fun r s' => present r.1.1 /\ r.2 = None /\ le s s') Never.
Proof using Hselector.
  intros Hpods. unfold handleCrashLoopBackOffPods.
  eapply wp_seq with (Q1 := fun r s' => exists nds, r = inr nds /\ present nds /\ le s s').
  - apply wp_forM_ret with (I := fun _ nds s' => present nds /\ le s s').
    + split; [by exists []|by split].
    + intros done_ p nds s1 Hp [Hnds H1]. rewrite Forall_forall in Hpods.
      eapply wp_seq; [by apply getNodeDeviceNameFromPV_repair, Hpods|]. intros r s2 [[nd ->] H2].
      eapply wp_seq with (Q1 := fun d s' => d = nd /\ s' = s2); [done|]. intros ? ? [-> ->].
      eapply wp_seq; [apply scale_repair|]. intros ? s3 [-> H3]. split; [by apply present_snoc|patience].
    + intros nds s1 [? ?]. by exists nds.
  - intros r s' (nds & -> & Hnds & H). by split.
Qed.

Lemma classification_repair s :
  wp repairing getOSDPodsInOperationalAndFailingStatus s
    (fun r s' => (exists op failing, r = inr (op, failing)
       /\ Forall (fun p => is_Some (pod_Labels p !! OSDOverPVCLabelKey)) failing) /\ le s s') Never.
Proof using Hselector.
  unfold getOSDPodsInOperationalAndFailingStatus. eapply wp_seq; [apply getOSDPods_repair|].
  intros r s1 [(pods & -> & Hpods) H1]. cbn [wp mret prog_ret]. split; [|done].
  rewrite classification_filter. eexists _, _. split; [reflexivity|]. cbn [app].
  rewrite Forall_forall. intros p [Hf Hp]%list_elem_of_filter. rewrite Forall_forall in Hpods. by apply Hpods.
Qed.

(** No pods were counted, or something was waited for. *)
Definition counted (ids : list string) (s : Ghost) (r : (Result * option error) + nat) (s' : Ghost) : Prop :=
  (r = inr 0 /\ le s s')
  \/ ((exists res, r = inl (res, None)) \/ (exists c, r = inr c /\ ids <> [])) /\ lt s s'.

Lemma countTerminating_repair ids s :
  wp repairing (countTerminating ids) s (counted ids s) Never.
Proof using Hselector.
  unfold countTerminating.
  apply wp_forM_ret with (I := fun done_ c s' => (c = 0 /\ le s s') \/ ids <> [] /\ lt s s').
  - left. by split.
  - intros done_ id c s1 Hid HI. assert (ids <> []) as Hne by (intros ->; by apply elem_of_nil in Hid).
    unfold getOSDPodsWithID. cbv zeta.
    destruct (Hselector (idSelector id)) as [sel Hsel]; [constructor|].
    unfold fromLabels. fold (labelSelector (<[ "app" := "rook-ceph-osd" ]> {[ OsdIdLabelKey := id ]})).
    fold (idSelector id). rewrite Hsel.
    assert (lists_by (idSelector id) [WithOptions (in_namespace sel)]) as Hby by by exists sel.
    ask.
    + intros ? (pods & -> & _) (pods' & [= <-] & _ & _ & Hr & _). rewrite (Hr id Hby).
      destruct HI as [[-> ?]|[? ?]]; [left|right]; (split; [done|patience]).
    + intros ? s2 (pods & -> & _ & _ & Hl & _) Hlt. destruct pods as [|p pods].
      { right. split; [done|patience]. }
      pose proof (Hl id Hby) as [[ts Hts] _]%Forall_cons.
      ask_any. intros now s3 _ H3. rewrite Hts. apply wp_ret.
      destruct (Before now (Add ts Minute)); right; [split; [left; by eexists|]|split; [done|]]; patience.
  - intros c s' [[-> H]|[Hn H]]; [by left|right]. split; [|done]. right. by exists c.
Qed.

Lemma forceDelete_repair ids s :
  ids <> [] -> wp repairing (forceDeleteRookCephOSDPods ids) s (fun r s' => r = None /\ le s s') Never.
Proof using Hselector.
  intros Hids. unfold forceDeleteRookCephOSDPods.
  match goal with |- context [LabelSelectorAsSelector ?l] => destruct (Hselector l) as [sel ->] end.
  { by repeat constructor. }
  ask_any. intros ? s1 -> H1. by split.
Qed.

Lemma setParameterValue_repair p v t s :
  is_Some p ->
  wp repairing (setParameterValue p v t) s
    (fun t' s' => map param_Name (tmpl_Parameters t') = map param_Name (tmpl_Parameters t) /\ s' = s) Never.
Proof. intros [i ->]. split; [apply set_parameter_names|done]. Qed.

Lemma processTemplate_repair ids force s :
  wp repairing (processOCSOSDRemovalTemplate ids force) s (fun r s' => r = None /\ le s s') Never.
Proof using Hparam.
  unfold processOCSOSDRemovalTemplate. ask_any. intros ? s1 (t & -> & Hf & Hfo) H1.
  eapply wp_seq; [by apply setParameterValue_repair, Hparam|]. intros t1 ? [Hn1 ->]. rewrite <- Hn1 in Hfo.
  eapply wp_seq; [by apply setParameterValue_repair, Hparam|]. intros t2 ? [_ ->].
  ask_any. intros now s2 _ H2. ask_any. intros [t3 errs] s3 [Herrs Hobj] H3. cbn in Herrs, Hobj. subst errs.
  eapply wp_mono; [| |apply for_check_repair]; [intros r s4 [-> H4]; split; [done|patience]|done|].
  intros obj s4 Hin. rewrite Forall_forall in Hobj. destruct (Hobj obj Hin) as (o & c & Ho & Hc).
  unfold createTemplateObject. rewrite Ho.
  eapply wp_seq with (Q1 := fun r s' => r = inr o /\ s' = s4); [done|]. intros ? ? [-> ->]. rewrite Hc.
  ask_any. intros ? s5 -> H5. by split.
Qed.

Lemma job_repair s :
  wp repairing getOSDRemovalPodJobCompletionStatus s
    (ends (fun r => exists p, r = inr p /\ pod_Phase p = PodSucceeded) succeeds s) Never.
Proof using Hselector.
  unfold getOSDRemovalPodJobCompletionStatus.
  eapply wp_seq with (Q1 := fun r s' => exists pods, r = inr pods
    /\ Exists (fun p => MetaTime_IsZero (pod_DeletionTimestamp p) = true) pods
    /\ (Forall (fun p => pod_Phase p = PodSucceeded) pods /\ le s s' \/ lt s s')).
  - unfold listPodsWithSelectors. ask_any. intros keys s1 Hkeys H1.
    assert (keys = ["job-name"]) as ->.
    { apply Permutation_singleton_r. rewrite Hkeys. vm_compute. reflexivity. }
    cbn [map]. replace (index {[ "job-name" := "ocs-osd-removal-job" ]} "job-name") with "ocs-osd-removal-job"
      by (vm_compute; reflexivity).
    fold jobSelector. destruct (Hselector jobSelector) as [sel Hsel]; [by repeat constructor|]. rewrite Hsel.
    assert (lists_by jobSelector [WithOptions (in_namespace sel)]) as Hby by by exists sel.
    ask.
    + intros ? (pods & -> & _ & _ & _ & Hl) (pods' & [= <-] & _ & _ & _ & Hr & _).
      exists pods. split_and!; [done|by apply Hl|left]. split; [by apply Hr|done].
    + intros ? s2 (pods & -> & _ & _ & _ & Hl) Hlt. exists pods. split_and!; [done|by apply Hl|right]. patience.
  - intros r s1 (pods & -> & Hex & Hs). apply Exists_exists in Hex as (p & Hp & Hz).
    destruct (list_find _ pods) as [[n q]|] eqn:Hfind.
    + apply list_find_Some in Hfind as (Hq & _ & _). apply list_elem_of_lookup_2 in Hq.
      destruct Hs as [[Hall Hle]|Hlt]; [left|right; split; [by eexists|done]].
      split; [|done]. exists q. split; [done|]. rewrite Forall_forall in Hall. by apply Hall.
    + apply list_find_None in Hfind. rewrite Forall_forall in Hfind. specialize (Hfind p Hp). by rewrite Hz in Hfind.
Qed.

Lemma validateJobLogs_repair name s :
  wp repairing (validateJobLogs name) s (fun r s' => r = None /\ le s s') Never.
Proof. unfold validateJobLogs. ask_any. intros ? s1 (logs & -> & Hok) H1. cbv zeta. rewrite Hok. by split. Qed.

Lemma deleteOperator_repair s :
  wp repairing deleteRookCephOperatorPod s (fun r s' => r = None /\ le s s') Never.
Proof using Hselector.
  unfold deleteRookCephOperatorPod.
  match goal with |- context [LabelSelectorAsSelector ?l] => destruct (Hselector l) as [sel ->] end.
  { by repeat constructor. }
  ask_any. intros ? s1 -> H1. by split.
Qed.

(** ** The volumes *)

Lemma processPVForNode_ready nd pvs s :
  pvs <> [] -> Forall (fun pv => pv_Phase pv <> VolumeReleased) pvs ->
  wp repairing (processPVForNode (Some nd) pvs) s (fun r s' => r = None /\ le s s') Never.
Proof.
  intros Hne Hall. unfold processPVForNode.
  eapply wp_seq with (Q1 := fun r s' => r = None /\ s' = s); [by destruct pvs|]. intros ? ? [-> ->].
  apply forM_repair. intros pv s1 Hpv. rewrite Forall_forall in Hall. cbn [deref].
  eapply wp_seq with (Q1 := fun d s' => d = nd /\ s' = s1); [done|]. intros ? ? [-> ->].
  rewrite decide_False by (intros [_ Hr]; by apply (Hall pv)). by split.
Qed.

Lemma processPVForNode_any nd pvs s :
  wp repairing (processPVForNode (Some nd) pvs) s (fun _ s' => le s s') Never.
Proof.
  unfold processPVForNode.
  eapply wp_seq with (Q1 := fun _ s' => s' = s); [by destruct pvs|]. intros errs ? ->.
  apply wp_forM with (I := fun _ _ s' => le s s'); [by split| |done].
  intros done_ pv errs' s1 _ H1. eapply wp_seq with (Q1 := fun d s' => s' = s1); [done|]. intros d ? ->.
  destruct (decide _); [|done]. ask_any. intros err s2 _ H2. cbn. patience.
Qed.

Lemma processNodeDevices_repair nds s :
  present nds ->
  wp repairing (processNodeDevices nds) s
    (ends (fun r => r = inr None) (fun r => exists errs, r = inr errs) s) Never.
Proof using Hselector.
  intros [l ->]. unfold processNodeDevices.
  apply wp_forM_ret with (I := fun _ errs s' => errs = None /\ le s s' \/ lt s s').
  - left. by split.
  - intros done_ nd errs s1 Hnd HI. apply list_elem_of_fmap in Hnd as (d & -> & _).
    eapply wp_seq with (Q1 := fun x s' => x = d /\ s' = s1); [done|]. intros ? ? [-> ->].
    eapply wp_seq with (Q1 := fun r s' => exists pvs, r = inr pvs
      /\ (pvs <> [] /\ Forall (fun pv => pv_Phase pv <> VolumeReleased) pvs /\ le s1 s' \/ lt s1 s')).
    + unfold getPVsForNode. destruct (selector_ok {[ "kubernetes.io/hostname" := npv_NodeName d ]}) as [sel ->].
      ask.
      * intros ? [pvs ->] (pvs' & [= <-] & Hne & Hall). exists pvs. split; [done|left]. by split_and!.
      * intros ? s2 [pvs ->] Hlt. exists pvs. by split; [|right].
    + intros r s2 (pvs & -> & Hs). destruct Hs as [(Hne & Hall & H2)|H2].
      * eapply wp_seq; [by apply processPVForNode_ready|]. intros r s3 [-> H3]. cbn.
        destruct HI as [[-> ?]|?]; [left|right]; [split; [done|]|]; patience.
      * eapply wp_seq; [by apply processPVForNode_any|]. intros r s3 H3. cbn. right. patience.
  - intros errs s' [[-> H]|H]; [left; by split|right]. split; [by eexists|done].
Qed.

Lemma countPVCs_repair (inst : NodeRecovery) s :
  NodeDevice (nr_Status inst) = NodeDevice (nr_Status (g_cr s)) ->
  OperationalOSDIDs (nr_Status inst) = OperationalOSDIDs (nr_Status (g_cr s)) ->
  wp repairing countPVCsBoundToODSPods s
    (ends (fun r => exists n, r = inr n
            /\ length (OperationalOSDIDs (nr_Status inst)) + length (NodeDevice (nr_Status inst)) <= n)
       succeeds s) Never.
Proof using Hselector.
  intros Hnd Hids. unfold countPVCsBoundToODSPods. ask_any. intros ? s1 (l & -> & Hl) H1. cbv zeta.
  fold (claimSelector (map pvc_Name l)).
  destruct (Hselector (claimSelector (map pvc_Name l))) as [sel Hsel].
  { constructor; [|constructor]. cbn. by destruct l. }
  eapply wp_seq with (Q1 := fun r s' => r = inr sel /\ s' = s1); [by rewrite Hsel|]. intros ? ? [-> ->].
  assert (lists_by (claimSelector (map pvc_Name l)) [WithOptions (in_namespace sel)]) as Hby by by exists sel.
  ask.
  - intros ? (pods & -> & _) (pods' & [= <-] & _ & _ & _ & _ & Hr). left. split; [|done].
    exists (length pods). split; [done|]. specialize (Hr _ Hby). destruct H1 as [Hcr _]. by rewrite Hcr, <- Hnd, <- Hids in Hr.
  - intros ? s2 (pods & -> & _) Hlt. right. split; [by eexists|patience].
Qed.

(** ** The conditions *)

(** An object whose recovery is at [t]. *)
Record going (t : RecoveryConditionType) (inst : NodeRecovery) : Prop := {
  go_deletion : MetaTime_IsZero (nr_DeletionTimestamp inst) = true;
  go_phase : Phase (nr_Status inst) = RunningPhase;
  go_condition : exists cs c, Conditions (nr_Status inst) = cs ++ [c] /\ cond_Type c = t;
  go_start : exists t0, StartTime (nr_Status inst) = Some t0 /\ Time_IsZero t0 = false;
  go_devices : present (NodeDevice (nr_Status inst));
}.

(** How many reconciliations are left from a condition, if nothing is waited for. *)
Definition left_from (t : RecoveryConditionType) : option nat :=
  match t with
  | EnableCephToolsPod => Some 14
  | WaitForCephToolsPodRunning => Some 13
  | WaitForOSDPodsStabilize => Some 12
  | LabelNodesWithPendingPods => Some 11
  | ManageCrashLoopBackOffPods => Some 10
  | ForceDeleteRookCephOSDPods => Some 9
  | ProcessOCSRemovalTemplate => Some 8
  | CleanupOSDRemovalJob => Some 7
  | RetryForceCleanupOSDRemovalJob => Some 6
  | WaitForPersistenVolumeBound => Some 5
  | RestartStorageOperator => Some 4
  | DeleteFailedPodsNodeAffinity => Some 3
  | StorageClusterFitnessCheck => Some 2
  | DisableCephTools => Some 1
  | OtherConditionType _ => None
  end.

Lemma left_from_positive t k : left_from t = Some k -> 0 < k.
Proof. destruct t; cbn; intros [= <-]; lia. Qed.

(** A recovery with at most [n] reconciliations left. *)
Definition within (n : nat) (inst : NodeRecovery) (s : Ghost) : Prop :=
  exists t k, going t inst /\ left_from t = Some k /\ k + g_patience s <= n.

(** A case of the switch returns no error and uses up a reconciliation that was left. *)
Definition moves (n : nat) (s : Ghost) (r : (Result * option error) * NodeRecovery) (s' : Ghost) : Prop :=
  r.1.2 = None /\ g_cr s' = g_cr s /\ within n r.2 s'.

Lemma goto_repair t t' k' n res inst s s1 :
  going t inst -> left_from t' = Some k' -> g_cr s1 = g_cr s -> k' + g_patience s1 <= n ->
  wp repairing (goto t' res inst) s1 (moves n s) Never.
Proof.
  intros [Hd Hp (cs & c & Hc & Hty) Hs Hn] Hk Hcr Hle.
  unfold goto, transitionNextCondition. apply wp_state_bind, wp_status. rewrite Hc, length_snoc.
  apply wp_setStatus. ask_any. intros t1 s2 Ht1 H2. ask_any. intros t2 s3 _ H3. cbn.
  split; [done|]. split; [patience|]. exists t', k'. cbn. split; [|split; [done|patience]].
  constructor; cbn; try done. by eexists _, _.
Qed.

(** A case that stays has waited. *)
Lemma stay_repair t k n res inst s s1 :
  going t inst -> left_from t = Some k -> lt s s1 -> k + g_patience s <= S n ->
  moves n s (res, None, inst) s1.
Proof.
  intros Hg Hk [Hcr Hlt] Hn. split; [done|]. split; [done|]. exists t, k. split; [done|]. split; [done|lia].
Qed.

Lemma going_note t inst i f :
  (forall c, cond_Type (f c) = cond_Type c) ->
  going t inst -> going t (set_Status (updateCondition i f) inst).
Proof.
  intros Hf [Hd Hp (cs & c & Hc & Hty) Hs Hn]. constructor; try done. cbn. rewrite Hc.
  destruct (decide (i < length cs)) as [Hi|Hi].
  - rewrite alter_app_l by done. by exists (alter f i cs), c.
  - rewrite alter_app_r_alt by lia. destruct (i - length cs) as [|j]; cbn.
    + exists cs, (f c). by rewrite Hf.
    + by exists cs, c.
Qed.

Lemma going_set t inst f :
  (forall st, Phase (f st) = Phase st /\ Conditions (f st) = Conditions st /\ StartTime (f st) = StartTime st
     /\ (present (NodeDevice st) -> present (NodeDevice (f st)))) ->
  going t inst -> going t (set_Status f inst).
Proof.
  intros Hf [Hd Hp Hc Hs Hn]. destruct (Hf (nr_Status inst)) as (Ep & Ec & Es & Ed).
  constructor; cbn; rewrite ?Ep, ?Ec, ?Es; auto.
Qed.

Lemma getOSDIDs_repair inst t s :
  going t inst ->
  wp repairing (getOSDIDsFromNodeDevices (NodeDevice (nr_Status inst))) s (fun _ s' => s' = s) Never.
Proof. intros Hg. destruct (go_devices _ _ Hg) as [l ->]. by rewrite getOSDIDs_devices. Qed.

(** ** The cases *)

Section Cases.
Context (n i : nat) (inst : NodeRecovery) (s : Ghost).

(** The object of the step has the record of the stored one, and its latest
    condition may last as long. *)
Definition recorded : Prop :=
  NodeDevice (nr_Status inst) = NodeDevice (nr_Status (g_cr s))
  /\ OperationalOSDIDs (nr_Status inst) = OperationalOSDIDs (nr_Status (g_cr s))
  /\ (deadline lo (g_cr s) <= deadline lo inst)%Z.

(** What a case that is not the last one does. *)
Definition progresses (t : RecoveryConditionType) (m : StateT Req NodeRecovery (Result * option error)) : Prop :=
  going t inst -> (forall k, left_from t = Some k -> k + g_patience s <= S n) ->
  wp repairing (m inst) s (moves n s) Never.

Ltac advance t := eapply (goto_repair t); [|reflexivity|patience|patience].

Lemma Enable_progresses : progresses EnableCephToolsPod (handleEnableCephToolsPod i).
Proof.
  intros Hg Hk. specialize (Hk 14 eq_refl). unfold handleEnableCephToolsPod.
  eapply wp_lift_seq; [apply isCephToolsEnabled_repair|]. intros r s1 [[b ->] H1]. destruct b; cbn [negb].
  - apply wp_setStatus. advance EnableCephToolsPod. by apply going_set.
  - eapply wp_lift_seq; [apply setEnableCephToolsValue_repair|]. intros r s2 [-> H2]. by advance EnableCephToolsPod.
Qed.

Lemma Tools_progresses : progresses WaitForCephToolsPodRunning (handleWaitForCephToolsPodRunning i).
Proof using Hselector.
  intros Hg Hk. specialize (Hk 13 eq_refl). unfold handleWaitForCephToolsPodRunning.
  eapply wp_lift_seq with (Q1 := ends (fun r => r = inr PodRunning) succeeds s).
  - unfold getCephToolsPodPhase. eapply wp_seq; [apply getRunningCephToolsPod_repair|].
    intros r s1 [[(p & -> & Hp) H1]|[[p ->] H1]]; [left; by rewrite Hp|right; split; [by eexists|done]].
  - intros r s1 [[-> H1]|[[phase ->] H1]].
    + destruct (decide _); [done|]. by advance WaitForCephToolsPodRunning.
    + destruct (decide _); [|by advance WaitForCephToolsPodRunning].
      do 2 apply wp_setStatus. apply (stay_repair WaitForCephToolsPodRunning 13); [|done..].
      by apply going_note, going_note.
Qed.

Lemma Stabilize_progresses : progresses WaitForOSDPodsStabilize (handleWaitForOSDPodsStabilize i).
Proof.
  intros Hg Hk. specialize (Hk 12 eq_refl). unfold handleWaitForOSDPodsStabilize.
  eapply wp_lift_seq; [apply settling_repair|]. intros r s1 [[-> H1]|[[[podErr|] ->] H1]].
  - by advance WaitForOSDPodsStabilize.
  - do 2 apply wp_setStatus. apply (stay_repair WaitForOSDPodsStabilize 12); [|done..]. by apply going_note, going_note.
  - by advance WaitForOSDPodsStabilize.
Qed.

Lemma Label_progresses : progresses LabelNodesWithPendingPods (handleLabelNodesWithPendingPods i).
Proof.
  intros Hg Hk. specialize (Hk 11 eq_refl). unfold handleLabelNodesWithPendingPods.
  eapply wp_lift_seq; [apply getPodsInPendingPhase_repair|]. intros r s1 [[pods ->] H1].
  destruct (decide _); [|by advance LabelNodesWithPendingPods].
  apply wp_setStatus. eapply wp_lift_seq; [apply labelNodes_repair|]. intros r s2 [-> H2].
  advance LabelNodesWithPendingPods. by apply going_set.
Qed.

Lemma Manage_progresses : progresses ManageCrashLoopBackOffPods (handleManageCrashLoopBackOffPods i).
Proof using Hselector.
  intros Hg Hk. specialize (Hk 10 eq_refl). unfold handleManageCrashLoopBackOffPods.
  eapply wp_lift_seq; [apply classification_repair|]. intros r s1 [(op & failing & -> & Hf) H1].
  destruct (decide _); [by advance ManageCrashLoopBackOffPods|].
  apply wp_state_bind.
  apply wp_mono with (Q := fun r s' => going ManageCrashLoopBackOffPods r.2 /\ s' = s1) (QP := Never); [|done|].
  - intros [[] inst1] ? [Hg1 ->]. cbn [fst snd] in *. apply wp_setStatus.
    eapply wp_lift_seq; [by apply handleCrashLoopBackOffPods_repair|].
    intros [[nds c] err] s2 (Hnds & Herr & H2). cbn in Hnds, Herr. subst err.
    apply wp_setStatus. advance ManageCrashLoopBackOffPods. apply going_set; [by intros|]. by apply going_set.
  - destruct (decide _); cbn; (split; [|done]); [by apply going_set|done].
Qed.

Lemma Force_progresses : progresses ForceDeleteRookCephOSDPods (handleForceDeleteRookCephOSDPods i).
Proof using Hselector.
  intros Hg Hk. specialize (Hk 9 eq_refl). unfold handleForceDeleteRookCephOSDPods. apply wp_status.
  destruct (negb _); [by advance ForceDeleteRookCephOSDPods|].
  eapply wp_lift_seq; [by eapply getOSDIDs_repair|]. intros ids ? ->.
  eapply wp_lift_seq; [apply countTerminating_repair|].
  intros r s1 [[-> H1]|[[[res ->]|(c & -> & Hne)] H1]].
  - destruct (decide _); [lia|]. by advance ForceDeleteRookCephOSDPods.
  - by apply (stay_repair ForceDeleteRookCephOSDPods 9).
  - destruct (decide _); [|by advance ForceDeleteRookCephOSDPods].
    eapply wp_lift_seq; [by apply forceDelete_repair|]. intros r s2 [-> H2]. by advance ForceDeleteRookCephOSDPods.
Qed.

Lemma Process_progresses : progresses ProcessOCSRemovalTemplate (handleProcessOCSRemovalTemplate i).
Proof using Hselector Hparam.
  intros Hg Hk. specialize (Hk 8 eq_refl). unfold handleProcessOCSRemovalTemplate.
  eapply wp_lift_seq; [apply deleteOldOSDRemovalJob_repair|]. intros r s1 [-> H1].
  eapply wp_lift_seq; [apply getOSDPods_repair|]. intros r s2 [(pods & -> & _) H2].
  apply wp_setStatus, wp_status.
  eapply wp_lift_seq; [eapply getOSDIDs_repair; by apply going_set|]. intros ids ? ->.
  eapply wp_lift_seq; [apply processTemplate_repair|]. intros r s3 [-> H3].
  advance ProcessOCSRemovalTemplate. by apply going_set.
Qed.

Lemma finish_repair t podName s1 :
  going t inst -> 5 + g_patience s1 <= n -> g_cr s1 = g_cr s ->
  wp repairing (finishOSDRemovalJob i podName inst) s1 (moves n s) Never.
Proof using Hselector.
  intros Hg Hk Hcr. unfold finishOSDRemovalJob.
  eapply wp_lift_seq; [apply validateJobLogs_repair|]. intros r s2 [-> H2].
  eapply wp_lift_seq; [apply deleteOldOSDRemovalJob_repair|]. intros r s3 [-> H3]. by advance t.
Qed.

(** Reading the latest condition. *)
Lemma read_latest {A} (k : RecoveryCondition -> StateT Req NodeRecovery A) t s1 Q :
  S i = length (Conditions (nr_Status inst)) -> going t inst ->
  (forall c, last (Conditions (nr_Status inst)) = Some c -> wp repairing (k c inst) s1 Q Never) ->
  wp repairing ((readCondition i ≫= k) inst) s1 Q Never.
Proof.
  intros Hi Hg Hk. destruct (go_condition _ _ Hg) as (cs & c & Hc & _).
  assert (i = length cs) as -> by (rewrite Hc, length_snoc in Hi; lia).
  apply wp_state_bind. rewrite (readCondition_snoc cs c inst Hc). cbn [wp fst snd]. apply Hk. by rewrite Hc, last_snoc.
Qed.

Lemma Cleanup_progresses :
  S i = length (Conditions (nr_Status inst)) ->
  progresses CleanupOSDRemovalJob (handleCleanupOSDRemovalJob i).
Proof using Hselector Hparam.
  intros Hi Hg Hk. specialize (Hk 7 eq_refl). unfold handleCleanupOSDRemovalJob.
  eapply wp_lift_seq; [apply job_repair|]. intros r s1 [[(p & -> & Hp) H1]|[[p ->] H1]]; destruct (decide _).
  - done.
  - apply (finish_repair CleanupOSDRemovalJob); [done|patience..].
  - ask_any. intros now s2 _ H2. eapply read_latest; [done..|]. intros c _.
    destruct (Before _ _); [apply (stay_repair CleanupOSDRemovalJob 7); [done..|patience|done]|].
    apply wp_get. ask_any. intros _ s3 _ H3.
    eapply wp_lift_seq; [apply deleteOldOSDRemovalJob_repair|]. intros r s4 [-> H4].
    apply wp_status. eapply wp_lift_seq; [by eapply getOSDIDs_repair|]. intros ids ? ->.
    eapply wp_lift_seq; [apply processTemplate_repair|]. intros r s5 [-> H5].
    apply wp_setStatus. advance CleanupOSDRemovalJob. by apply going_set.
  - apply (finish_repair CleanupOSDRemovalJob); [done|patience..].
Qed.

(** The forced job has succeeded before its time is up. *)
Lemma Retry_progresses :
  S i = length (Conditions (nr_Status inst)) -> recorded ->
  progresses RetryForceCleanupOSDRemovalJob (handleRetryForceCleanupOSDRemovalJob i).
Proof using Hselector.
  intros Hi (_ & _ & Hdue) Hg Hk. specialize (Hk 6 eq_refl). unfold handleRetryForceCleanupOSDRemovalJob.
  eapply wp_lift_seq; [apply job_repair|]. intros r s1 [[(p & -> & Hp) H1]|[[p ->] H1]]; destruct (decide _).
  - done.
  - apply (finish_repair RetryForceCleanupOSDRemovalJob); [done|patience..].
  - ask_any. intros now s2 [Hnow _] H2. eapply read_latest; [done..|]. intros c Hc.
    destruct (Before _ _) eqn:Hb; [apply (stay_repair RetryForceCleanupOSDRemovalJob 6); [done..|patience|done]|].
    exfalso. rewrite (deadline_last lo c inst) in Hdue by done.
    destruct (go_condition _ _ Hg) as (cs & c' & Hc' & Hty). rewrite Hc', last_snoc in Hc. injection Hc as ->.
    rewrite Hty in Hdue. change (limit RetryForceCleanupOSDRemovalJob) with (osdRemovalJobTimeout - 1)%Z in Hdue.
    destruct H1 as [E1 _]. rewrite E1 in Hnow. unfold Before, Add in Hb. lia.
  - apply (finish_repair RetryForceCleanupOSDRemovalJob); [done|patience..].
Qed.

Lemma Volumes_progresses :
  recorded -> progresses WaitForPersistenVolumeBound (handleWaitForPersistenVolumeBound i).
Proof using Hselector.
  intros (Hnd & Hids & _) Hg Hk. specialize (Hk 5 eq_refl). unfold handleWaitForPersistenVolumeBound. apply wp_status.
  assert (forall m s1, lt s s1 ->
    moves n s (RequeueIn (15 * Second), None, set_Status (updateCondition i (set_cond_Message m)) inst) s1) as Hstay.
  { intros m s1 H1. apply (stay_repair WaitForPersistenVolumeBound 5); [by apply going_note|done..]. }
  eapply wp_lift_seq; [apply processNodeDevices_repair, (go_devices _ _ Hg)|].
  intros r s1 Hr. assert (exists errs, r = inr errs /\ (errs = None /\ le s s1 \/ lt s s1)) as (errs & -> & Hs).
  { destruct Hr as [[-> ?]|[[errs ->] ?]]; eexists; (split; [done|]); [by left|by right]. }
  clear Hr. destruct errs as [err|]; [apply wp_setStatus, Hstay; by destruct Hs as [[[=] _]|?]|]. cbv zeta.
  eapply wp_lift_seq; [apply (countPVCs_repair inst)|].
  - destruct Hs as [[_ [-> _]]|[-> _]]; done.
  - destruct Hs as [[_ [-> _]]|[-> _]]; done.
  - intros r s2 [[(m & -> & Hm) H2]|[[m ->] H2]].
    + destruct (decide _); [lia|]. by advance WaitForPersistenVolumeBound.
    + destruct (decide _); [apply wp_setStatus, Hstay; patience|]. by advance WaitForPersistenVolumeBound.
Qed.

Lemma Restart_progresses : progresses RestartStorageOperator (handleRestartStorageOperator i).
Proof using Hselector.
  intros Hg Hk. specialize (Hk 4 eq_refl). unfold handleRestartStorageOperator. apply wp_status.
  destruct (_ || _); [|by advance RestartStorageOperator].
  eapply wp_lift_seq; [apply deleteOperator_repair|]. intros r s1 [-> H1]. by advance RestartStorageOperator.
Qed.

Lemma Delete_progresses : progresses DeleteFailedPodsNodeAffinity (handleDeleteFailedPodsNodeAffinity i).
Proof.
  intros Hg Hk. specialize (Hk 3 eq_refl). unfold handleDeleteFailedPodsNodeAffinity.
  eapply wp_lift_seq; [apply deleteFailedPods_repair|]. intros r s1 [-> H1]. by advance DeleteFailedPodsNodeAffinity.
Qed.

Lemma Fitness_progresses : progresses StorageClusterFitnessCheck (handleStorageClusterFitnessCheck i).
Proof using Hselector.
  intros Hg Hk. specialize (Hk 2 eq_refl). unfold handleStorageClusterFitnessCheck.
  eapply wp_lift_seq; [apply getCephHealthStatus_repair|]. intros r s1 [[-> H1]|[[health ->] H1]].
  - destruct (decide _); [done|]. by advance StorageClusterFitnessCheck.
  - destruct (decide _); [|by advance StorageClusterFitnessCheck].
    apply wp_setStatus. eapply wp_lift_seq; [apply archiveCephDaemonCrashMessages_repair|]. intros r s2 [-> H2].
    apply (stay_repair StorageClusterFitnessCheck 2); [by apply going_note|done|patience|done].
Qed.

(** Every case but the last moves on. *)
Lemma dispatch_repair t k :
  going t inst -> left_from t = Some k -> k + g_patience s <= S n -> t <> DisableCephTools ->
  recorded -> S i = length (Conditions (nr_Status inst)) ->
  wp repairing (dispatch i t inst) s
    (fun r s' => exists ret, r.1 = Some ret /\ moves n s (ret, r.2) s') Never.
Proof using Hselector Hparam.
  intros Hg Hk Hle Ht Hrec Hi.
  assert (forall m, progresses t m -> wp repairing (returned m inst) s
    (fun r s' => exists ret, r.1 = Some ret /\ moves n s (ret, r.2) s') Never) as Hret.
  { intros m Hm. apply wp_state_bind. eapply wp_mono; [| |apply Hm; [done|]]; [|done|].
    - intros [ret inst'] s' H. by exists ret.
    - intros k' Hk'. rewrite Hk in Hk'. by injection Hk' as <-. }
  destruct t; cbn in Hk; try discriminate Hk; try done; cbn [dispatch]; apply Hret;
    auto using Enable_progresses, Tools_progresses, Stabilize_progresses, Label_progresses, Manage_progresses,
      Force_progresses, Process_progresses, Cleanup_progresses, Retry_progresses, Volumes_progresses, Restart_progresses,
      Delete_progresses, Fitness_progresses.
Qed.

End Cases.

(** ** Reconciliations *)

Definition completed (inst : NodeRecovery) : Prop :=
  Phase (nr_Status inst) = CompletedPhase /\ is_Some (CompletionTime (nr_Status inst)).

(** At most [n] reconciliations are left, or none. *)
Definition remaining (n : nat) (inst : NodeRecovery) (s : Ghost) : Prop := within n inst s \/ completed inst.

Lemma going_probed now cs c t inst :
  Conditions (nr_Status inst) = cs ++ [c] -> going t inst -> going t (probed now cs inst).
Proof. intros _ Hg. by apply going_note. Qed.

Lemma counter_repair t inst s :
  going t inst -> wp repairing (IncrementCompletedOperandCounter inst) s (fun _ s' => le s s') Never.
Proof.
  intros Hg. destruct (go_devices _ _ Hg) as [l Hl]. unfold IncrementCompletedOperandCounter. rewrite Hl.
  apply wp_forM with (I := fun _ _ s' => le s s'); [by split| |done].
  intros done_ nd [] s1 Hnd H1. apply list_elem_of_fmap in Hnd as (d & -> & _).
  eapply wp_seq with (Q1 := fun _ s' => s' = s1); [done|]. intros x ? ->. ask_any. intros ? s2 _ H2. cbn. patience.
Qed.

Lemma Disable_repair i inst s :
  going DisableCephTools inst ->
  wp repairing (handleDisableCephTools i inst) s (fun r s' => r = (None, inst)) Never.
Proof.
  intros Hg. unfold handleDisableCephTools. apply wp_status.
  assert (forall s1, wp repairing ((instance ← get; lift (IncrementCompletedOperandCounter instance);; mret None) inst)
    s1 (fun (r : option (Result * option error) * NodeRecovery) _ => r = (None, inst)) Never) as Hcount.
  { intros s1. apply wp_get. eapply wp_lift_seq; [by eapply counter_repair|]. by intros _ s2 _. }
  destruct (negb _).
  - eapply wp_lift_seq; [apply setEnableCephToolsValue_repair|]. intros r s1 [-> _]. apply Hcount.
  - apply (Hcount s).
Qed.

Lemma complete_repair inst s :
  going DisableCephTools inst ->
  wp repairing (complete inst) s (fun r s' => r.1.2 = None /\ completed r.2) Never.
Proof.
  intros Hg. unfold complete. apply wp_setStatus. ask_any. intros now s1 _ H1.
  destruct (go_start _ _ Hg) as (t0 & Ht0 & _). apply wp_setStatus, wp_get.
  eapply wp_lift_seq with (Q1 := fun r s' => s' = s1).
  - cbn [nr_Status set_Status StartTime set_CompletionTime set_Phase]. by rewrite Ht0.
  - intros start ? ->. ask_any. intros _ s2 _ H2. ask_any. intros _ s3 _ H3. cbn. by split; [|split].
Qed.

(** One step of the recovery. *)
Lemma Reconcile_repair n inst s :
  within (S n) inst s -> recorded inst s ->
  wp repairing (Reconciler.Reconcile inst) s (fun r s' => r.1.2 = None /\ remaining n r.2 s') Never.
Proof using Hselector Hparam.
  intros (t & k & Hg & Hk & Hle) Hrec. destruct (go_condition _ _ Hg) as (cs & c & Hc & Hty).
  destruct (Reconcile_unfold cs c inst Hc) as (k1 & -> & Hk1).
  ask_any. intros now s1 _ H1. destruct (Hk1 now) as (k2 & -> & Hk2).
  ask_any. intros now' s2 Hnow H2. rewrite Hk2.
  rewrite (in_time_After lo c (g_cr s1) inst) by (done || (by rewrite Hc, last_snoc) || by rewrite (proj1 H1); apply Hrec).
  rewrite Hty. pose proof (going_probed now cs c t inst Hc Hg) as Hg'.
  apply wp_state_bind. destruct (decide (t = DisableCephTools)) as [->|Ht].
  - eapply wp_mono; [| |by apply Disable_repair]; [|done]. intros r s3 ->. cbn [fst snd].
    eapply wp_mono; [| |by apply complete_repair]; [|done]. intros r' s4 [? ?]. split; [done|by right].
  - eapply wp_mono; [| |apply (dispatch_repair n _ _ s2 t k); try done]; [|done|patience| |].
    + intros [r inst2] s3 (ret & Hr & Hn & _ & Hw). cbn in Hr. subst r. cbn [fst snd] in *. apply wp_ret.
      split; [done|by left].
    + destruct H1 as [E1 _], H2 as [E2 _]. unfold recorded. by rewrite E2, E1, (deadline_probed lo now cs c inst Hc).
    + rewrite (probed_snoc now cs c inst Hc), length_snoc. done.
Qed.

(** The status is written after the step. *)
Lemma stored_repair n inst s :
  within (S n) inst s -> recorded inst s ->
  wp repairing (r ← Reconciler.Reconcile inst;
                let '((result, err), instance) := r in
                serr ← trigger (StatusUpdate instance);
                mret (result, errors_Join [err; serr])) s
    (fun r s' => r.2 = None /\ remaining n (g_cr s') s') Never.
Proof using Hselector Hparam.
  intros Hw Hrec. eapply wp_seq; [by apply Reconcile_repair|].
  intros [[res err] inst2] s1 [Herr Hn]. cbn in Herr, Hn. subst err. split; [done|]. by intros serr ? [-> ->].
Qed.

Lemma Controller_Reconcile_repair n name s :
  remaining (S n) (g_cr s) s ->
  wp repairing (Controller.Reconcile name) s (fun r s' => r.2 = None /\ remaining n (g_cr s') s') Never.
Proof using Hselector Hparam.
  intros Hn. unfold Controller.Reconcile. ask_any. intros ? s1 -> [Hcr Hle].
  unfold reconcileFetched. rewrite IgnoreNotFound_nil. rewrite <- Hcr in *.
  destruct Hn as [Hw|[Hp Hct]].
  - destruct Hw as (t & k & Hg & Hk & Hkn). rewrite (go_deletion _ _ Hg). cbn [negb orb].
    assert (finished (g_cr s1) = false) as -> by (apply finished_spec; by rewrite (go_phase _ _ Hg)).
    unfold processInstance, startRecovery. destruct (go_start _ _ Hg) as (t0 & -> & Hz).
    rewrite MetaTime_IsZero_time, Hz. eapply wp_seq with (Q1 := fun i s' => i = g_cr s1 /\ s' = s1); [done|].
    intros ? ? [-> ->]. apply stored_repair; [exists t, k; split_and!; (done || lia)|by split_and!].
  - cbn [orb]. unfold finished. rewrite Hp. destruct (negb _); cbn; (split; [done|by right]).
Qed.

(** The first reconciliation starts the recovery and takes its first step. *)
Lemma first_repair n name s :
  (0 < lo)%Z -> nr_Status (g_cr s) = zeroStatus -> MetaTime_IsZero (nr_DeletionTimestamp (g_cr s)) = true ->
  14 + g_patience s <= S n ->
  wp repairing (Controller.Reconcile name) s (fun r s' => r.2 = None /\ remaining n (g_cr s') s') Never.
Proof using Hselector Hparam.
  intros Hlo Hz Hd Hn. unfold Controller.Reconcile. ask_any. intros ? s1 -> [Hcr Hle].
  unfold reconcileFetched, finished. rewrite IgnoreNotFound_nil, Hz, Hd. cbn [negb orb Phase zeroStatus].
  unfold processInstance, startRecovery. rewrite Hz. cbn [StartTime zeroStatus]. rewrite MetaTime_IsZero_nil.
  eapply wp_seq with (Q1 := fun i s' => within (S n) i s' /\ recorded i s'); [|intros i s2 []; by apply stored_repair].
  ask_any. intros t1 s2 Ht1 H2. ask_any. intros t2 s3 Ht2 H3. ask_any. intros _ s4 _ H4.
  assert (g_cr s4 = g_cr s) as Hcr4 by patience.
  assert (Conditions (nr_Status (g_cr s)) = []) as Hnil by by rewrite Hz.
  assert (g_cr s1 = g_cr s /\ g_cr s2 = g_cr s) as [E1 E2] by patience. rewrite E1 in Ht1. rewrite E2 in Ht2.
  pose proof (proj2 Ht1 Hnil) as Hge1.
  split; [|unfold recorded; rewrite Hcr4; split_and!; [done..|by apply deadline_started]].
  exists EnableCephToolsPod, 14. split_and!; [|done|patience].
  constructor; cbn; rewrite ?Hz; try done.
  - by exists [], (initialCondition t2).
  - exists t1. split; [done|]. apply Z.eqb_neq. lia.
  - by exists [].
Qed.

Lemma reconciliations_repair name (xs : list nat) errs s :
  Forall (fun e => e = None) errs -> remaining (length xs) (g_cr s) s ->
  wp repairing (forM (fun errs _ => r ← Controller.Reconcile name; mret (errs ++ [r.2])) errs xs) s
    (fun errs s' => Forall (fun e => e = None) errs /\ completed (g_cr s')) Never.
Proof using Hselector Hparam.
  revert errs s. induction xs as [|x xs IH]; intros errs s He Hn.
  - split; [done|]. destruct Hn as [(t & k & _ & Hk & Hle)|?]; [|done]. apply left_from_positive in Hk. cbn in Hle. lia.
  - cbn [forM]. apply wp_bind. eapply wp_seq; [by apply Controller_Reconcile_repair|]. intros r s1 [Hr Hn1].
    apply wp_ret, IH; [|done]. apply Forall_app. split; [done|by constructor].
Qed.

(** C8: Liveness with failing OSDs.  In a cluster that can be repaired, as many
    reconciliations as there are cases on the way, the forced removal job
    included, and one more for every answer that has to be waited for, take a
    new object to Completed, each without an error and without a panic, as long
    as no condition outlasts its time-out; more of them change nothing. *)
Theorem failing_recovery_completes (name : string) (n : nat) (s : Ghost) :
  (0 < lo)%Z -> nr_Status (g_cr s) = zeroStatus -> MetaTime_IsZero (nr_DeletionTimestamp (g_cr s)) = true ->
  14 + g_patience s <= n ->
  wp repairing (reconciliations n name) s
    (fun errs s' => Forall (fun e => e = None) errs
       /\ Phase (nr_Status (g_cr s')) = CompletedPhase /\ is_Some (CompletionTime (nr_Status (g_cr s'))))
    Never.
Proof using Hselector Hparam.
  intros Hlo Hz Hd Hn. destruct n as [|n]; [lia|]. unfold reconciliations.
  change (seq 0 (S n)) with (0 :: seq 1 n). cbn [forM]. apply wp_bind.
  eapply wp_seq; [by apply (first_repair n)|]. intros r s1 [Hr Hrem]. apply wp_ret.
  apply reconciliations_repair; [by constructor|]. by rewrite length_seq.
Qed.

End Repair.

(** ** Witness *)

(** A cluster with one OSD that fails for good, keeping the object and the
    patience: as long as there is some, the first removal job does not end and
    Ceph is unhealthy. *)
Definition mending_pods (inst : NodeRecovery) (sel : LabelSelector) : list Pod :=
  match MatchExpressions sel with
  | [e] => if decide (lsr_Key e = "job-name") then [job_pod]
           else repeat (osd_pod "0" None)
                  (length (OperationalOSDIDs (nr_Status inst)) + length (NodeDevice (nr_Status inst)))
  | _ => match MatchLabels sel !! "ceph-osd-id" with
         | Some _ => []
         | None => if decide (MatchLabels sel !! "app" = Some "rook-ceph-tools") then [tools_pod]
                   else [osd_pod "0" None; osd_pod "1" None; osd_pod "2" (Some "CrashLoopBackOff")]
         end
  end.

(** The latest condition. *)
Definition latest_type (inst : NodeRecovery) : option RecoveryConditionType :=
  cond_Type <$> last (Conditions (nr_Status inst)).

(** The removal job is asked for while there is patience. *)
Definition still_running (s : Ghost) (sel : LabelSelector) : bool :=
  bool_decide (latest_type (g_cr s) = Some CleanupOSDRemovalJob) && (0 <? g_patience s)
  && bool_decide (map lsr_Key (MatchExpressions sel) = ["job-name"]).

Definition running_job_pod : Pod := simple_pod "ocs-osd-removal-job-x" ∅ PodRunning.

(** Nine minutes after the last step, but the removal job is looked at after twelve. *)
Definition next_look (inst : NodeRecovery) : Time :=
  (nine_minutes_later inst
   + (if decide (latest_type inst = Some CleanupOSDRemovalJob) then 3 * Minute else 0))%Z.

Lemma next_look_in_time inst : in_time unixEpoch inst (next_look inst).
Proof.
  destruct (nine_minutes_in_time inst) as [H1 H2]. unfold next_look. destruct (decide _) as [Hj|_];
    [|rewrite Z.add_0_r; by split].
  unfold latest_type, in_time, deadline, nine_minutes_later in *. destruct (last _) as [c|] eqn:Hc; [|discriminate Hj].
  injection Hj as Hj. rewrite Hj. split.
  - change (limit CleanupOSDRemovalJob) with (18 * Minute + 12 * Minute)%Z. assert (0 <= Minute)%Z by done. lia.
  - intros Hnil. by rewrite Hnil in Hc.
Qed.

Definition mending : Handler Req Ghost := fun R e s =>
  match e in Req R return R * Ghost with
  | Now => (next_look (g_cr s), s)
  | RangeKeys ks => (ks, s)
  | GetNodeRecovery _ => (inr (g_cr s), s)
  | StatusUpdate i => (None, {| g_cr := i; g_patience := g_patience s |})
  | GetClusterVersion _ =>
      (inr {| cv_History := [ {| uh_State := "Completed"; uh_Version := "4.16.2" |} ] |}, s)
  | GetOCSInitialization _ _ => (inr {| ocsinit_ResourceVersion := "1"; ocsinit_EnableCephTools := false |}, s)
  | UpdateOCSInitialization _ => (None, s)
  | GetStorageCluster _ _ => (inr {| sc_ResourceVersion := "1"; sc_EnableCephTools := false |}, s)
  | UpdateStorageCluster _ => (None, s)
  | GetNode _ => (inr {| node_Name := "node-2"; node_ResourceVersion := "7"; node_Labels := None |}, s)
  | UpdateNode _ => (None, s)
  | GetPVC _ _ => (inr (pvc "2"), s)
  | GetPV _ => (inr (pv "2" "Bound"), s)
  | DeletePV _ => (None, s)
  | ListPVs _ => (inr [pv "2" "Bound"], s)
  | ListPVCs _ => (inr [pvc "0"; pvc "1"; pvc "2"], s)
  | ListPods [WithOptions o] =>
      match lo_LabelSelector o with
      | Some sel =>
          if still_running s sel
          then (inr [running_job_pod], {| g_cr := g_cr s; g_patience := pred (g_patience s) |})
          else (inr (mending_pods (g_cr s) sel), s)
      | None => (inr [], s)
      end
  | ListPods _ => (inr [], s)
  | DeletePod _ => (None, s)
  | DeleteAllOfPods _ => (None, s)
  | ListDeployments _ => (inr [deployment "2"], s)
  | UpdateDeployment _ => (None, s)
  | GetJob _ _ => (inl not_found, s)
  | DeleteJob _ => (None, s)
  | GetTemplate _ _ => (inr removal_template, s)
  | ProcessTemplate _ t => (({| tmpl_Name := tmpl_Name t; tmpl_Parameters := tmpl_Parameters t;
                               tmpl_Objects := tmpl_Objects removal_template |}, []), s)
  | Create _ => (None, s)
  | RunCommand _ _ =>
      match g_patience s with
      | S p => ((health_report "HEALTH_WARN", "", None), {| g_cr := g_cr s; g_patience := p |})
      | O => ((health_report "HEALTH_OK", "", None), s)
      end
  | GetLogs _ => (inr "completed removal of OSD 2", s)
  | Eventf _ _ _ _ _ => (tt, s)
  | CounterInc _ _ => (tt, s)
  end.

Lemma fake_selectors_valid s : Forall (fun e => lsr_Values e <> []) (MatchExpressions s) ->
  exists sel, LabelSelectorAsSelector (External := fake) s = inr sel.
Proof.
  intros Hs. cbn. unfold fake_selector. destruct (existsb _ _) eqn:He; [|by eexists].
  apply existsb_exists in He as (e & Hin & He). rewrite Forall_forall in Hs.
  apply bool_decide_eq_true in He. apply list_elem_of_In in Hin. by apply Hs in Hin.
Qed.

(** The listings of the cluster by a selector. *)
Lemma fake_lists_by s o :
  lists_by (X := fake) s [WithOptions o] -> lo_LabelSelector o = Some s.
Proof.
  intros (sel & Hsel & [= ->]). cbn in *. unfold fake_selector in Hsel. destruct (existsb _ _); [done|].
  by injection Hsel as ->.
Qed.

Lemma mending_pods_listed inst s o :
  lo_LabelSelector o = Some s -> 
  pods_listed (X := fake) [WithOptions o] (mending_pods inst s)
  /\ pods_ready (X := fake) inst [WithOptions o] (mending_pods inst s).
Proof.
  intros Hs.
  assert (forall s', lists_by (X := fake) s' [WithOptions o] -> s = s') as Hby.
  { intros s' H%fake_lists_by. congruence. }
  assert (forall id, mending_pods inst (idSelector (X := fake) id) = []) as Hid.
  { intros id. unfold mending_pods. cbn [idSelector labelSelector MatchExpressions MatchLabels].
    rewrite lookup_insert_ne by done. by rewrite lookup_singleton_eq. }
  split.
  - split_and!.
    + by intros ->%Hby.
    + intros ->%Hby. change (mending_pods inst osdSelector)
        with [osd_pod "0" None; osd_pod "1" None; osd_pod "2" (Some "CrashLoopBackOff")].
      repeat constructor; by eexists.
    + intros id ->%Hby. by rewrite Hid.
    + intros ->%Hby. by constructor.
  - split_and!.
    + intros ->%Hby. by repeat constructor.
    + intros [= ->]. discriminate Hs.
    + intros id ->%Hby. by rewrite Hid.
    + intros ->%Hby. by repeat constructor.
    + intros names ->%Hby. unfold mending_pods. cbn [claimSelector MatchExpressions].
      rewrite decide_False by done. by rewrite repeat_length.
Qed.

Lemma no_pods_listed inst opts :
  (forall s, ~ lists_by (X := fake) s opts) ->
  pods_listed (X := fake) opts [] /\ pods_ready (X := fake) inst opts [].
Proof.
  intros Hno. split; split_and!; try by intros H%Hno.
  - by intros id H%Hno.
  - by constructor.
  - by intros id H%Hno.
  - by intros names H%Hno.
Qed.

Lemma running_job_listed sel o :
  lo_LabelSelector o = Some sel -> map lsr_Key (MatchExpressions sel) = ["job-name"] ->
  pods_listed (X := fake) [WithOptions o] [running_job_pod].
Proof.
  intros Hsel Hkey.
  assert (forall s', lists_by (X := fake) s' [WithOptions o] -> sel = s') as Hby.
  { intros s' H%fake_lists_by. congruence. }
  split_and!; try by intros ->%Hby.
  - by intros id ->%Hby.
  - intros _. by constructor.
Qed.

Lemma mending_listing opts s : exists pods s',
  mending _ (ListPods opts) s = (inr pods, s') /\ pods_listed (X := fake) opts pods
  /\ (pods_ready (X := fake) (g_cr s) opts pods /\ s' = s \/ waited s s').
Proof.
  assert (forall s0 opts, (forall l, ~ lists_by (X := fake) l opts) -> exists pods s',
    (@inr error _ [], s0) = (inr pods, s') /\ pods_listed (X := fake) opts pods
    /\ (pods_ready (X := fake) (g_cr s0) opts pods /\ s' = s0 \/ waited s0 s')) as Hnone.
  { intros s0 opts' Hno. destruct (no_pods_listed (g_cr s0) opts' Hno). exists [], s0. auto. }
  destruct opts as [|[o| |] [|]]; try (apply Hnone; by intros ? (? & ? & ?)).
  cbn [mending]. destruct (lo_LabelSelector o) as [sel|] eqn:Hsel.
  - destruct (still_running s sel) eqn:Hrun; (eexists _, _; split; [reflexivity|]).
    + unfold still_running in Hrun. rewrite !andb_true_iff, !bool_decide_eq_true, Nat.ltb_lt in Hrun.
      destruct Hrun as [[_ Hp] Hkey]. split; [by eapply running_job_listed|]. right. split; [done|]. cbn. lia.
    + destruct (mending_pods_listed (g_cr s) sel o Hsel). auto.
  - apply Hnone. intros l H%fake_lists_by. congruence.
Qed.

Lemma mending_repairing R (e : Req R) w s :
  w = s -> m_pre (repairing unixEpoch) e s ->
  exists s', m_post (repairing unixEpoch) e s (mending R e w).1 s' /\ (mending R e w).2 = s'.
Proof.
  intros -> _. exists (mending R e s).2. split; [|done].
  destruct e; try (by split; [done|left]); try (split; [by eexists|by left]).
  - split; [apply next_look_in_time|by left].
  - split; [apply Permutation_refl|by left].
  - by split.
  - split; [|by left]. eexists _, _, _. split; [reflexivity|]. split; vm_compute; reflexivity.
  - split; [by eexists|left]. split; [|done]. eexists. split; [reflexivity|]. split; [done|]. by constructor.
  - destruct (mending_listing opts s) as (pods & s' & -> & Hl & Hr). split; [by exists pods|].
    destruct Hr as [[Hr ->]|Hr]; [left; split; [by exists pods|done]|by right].
  - split; [|by left]. eexists. split; [reflexivity|]. split; [left|right; left].
  - split; [|by left]. split; [done|]. constructor; [|done]. eexists _, _. split; reflexivity.
  - destruct s as [cr [|p']]; cbn [mending g_patience fst snd].
    + split.
      * eexists. split; [reflexivity|]. intros _. eexists. vm_compute. reflexivity.
      * left. split; [|done]. intros _. eexists. split; vm_compute; reflexivity.
    + split; [|by right]. eexists. split; [reflexivity|]. intros _. eexists. vm_compute. reflexivity.
Qed.

Definition broken_ghost : Ghost := {| g_cr := new_cr; g_patience := 2 |}.

(** The recovery goes through the removal of the failing OSD, by the second job. *)
Example mending_life :
  map cond_Type (Conditions (nr_Status (g_cr (run mending (reconciliations 16 "recovery") broken_ghost).2)))
  = [EnableCephToolsPod; WaitForCephToolsPodRunning; WaitForOSDPodsStabilize; LabelNodesWithPendingPods;
     ManageCrashLoopBackOffPods; ForceDeleteRookCephOSDPods; ProcessOCSRemovalTemplate; CleanupOSDRemovalJob;
     RetryForceCleanupOSDRemovalJob; WaitForPersistenVolumeBound; RestartStorageOperator; DeleteFailedPodsNodeAffinity;
     StorageClusterFitnessCheck; DisableCephTools].
Proof. vm_compute. reflexivity. Qed.

Lemma failing_recovery_completes_witness : exists errs s,
  run mending (reconciliations 16 "recovery") broken_ghost = (Done errs, s)
  /\ Phase (nr_Status (g_cr s)) = CompletedPhase.
Proof.
  destruct (wp_adequate (repairing unixEpoch) mending eq (reconciliations 16 "recovery") broken_ghost broken_ghost
    _ _ mending_repairing eq_refl
    (failing_recovery_completes unixEpoch fake_selectors_valid fake_parameters_found
       "recovery" 16 broken_ghost eq_refl eq_refl eq_refl (le_n 16))) as (s & Hs & Hp).
  destruct (run mending (reconciliations 16 "recovery") broken_ghost) as [[errs|why] s'].
  - exists errs, s'. split; [reflexivity|]. cbn in Hs, Hp. rewrite Hs. apply Hp.
  - destruct Hp.
Defined.
