(* ===== verification/Spared.v ===== *)
(** * Spared: clusters in which nothing has to be removed or restarted

    What a recovery may not do to a cluster without failing OSD pods: remove or
    scale anything; and to one without pending ones: label nodes or restart the
    Rook operator.  The flags that decide the restart are kept over the whole
    recovery, so these are theorems about every reachable object. *)

From S2P Require Import Prelude Effects GoStd GoStrings Json Api K8s Const Monitoring Ceph Recovery.
From S2P Require Import Reconciler Controller Footprint StateMachine Gates Fake.

(** ** Trails *)

(** The conditions of the removal of OSDs come after the forced deletion. *)
Lemma trail_removal l t :
  trail l t -> ForceDeleteRookCephOSDPods ∉ l ->
  t ∉ [ForceDeleteRookCephOSDPods; ProcessOCSRemovalTemplate; CleanupOSDRemovalJob;
       RetryForceCleanupOSDRemovalJob; WaitForPersistenVolumeBound].
Proof.
  induction 1 as [|l t t' _ IH He]; intros Hno; [set_solver|].
  assert (ForceDeleteRookCephOSDPods ∉ l /\ t' <> ForceDeleteRookCephOSDPods) as [Hl Ht] by set_solver.
  specialize (IH Hl). apply live_edge_spec in He as [He _].
  destruct t; try discriminate He; destruct t'; try discriminate He; set_solver.
Qed.

Section Spared.
Context `{X : External} `{Init : !Initialized} (env : Answers Req).
Implicit Types (inst : NodeRecovery).

(** No OSD pod that is listed is failing; none is pending. *)
Definition no_failing : Prop := forall sel pods p,
  fromLabels {[ "app" := "rook-ceph-osd" ]} = inr sel ->
  env _ (ListPods [WithOptions (in_namespace sel)]) (inr pods) -> p ∈ pods ->
  isPodInCrashBackLoopOffOrErrorStatus (statuses p) = false.

Definition no_pending : Prop := forall pods,
  env _ (ListPods
    [ WithOptions {| lo_Namespace := ODF_NAMESPACE; lo_LabelSelector := None |};
      MatchingFields {[ podStatusPhaseFieldSelector := PodPending ]};
      MatchingLabels {[ "app" := "rook-ceph-osd" ]} ]) (inr pods) -> pods = [].

(** The requests that remove OSDs, and those for pending pods. *)
Definition removal_kinds : list Kind :=
  [KWriteDeployment; KDeletePods true; KDeleteJob; KProcessTemplate; KCreate; KDeletePV].

Definition restart_kinds : list Kind := [KWriteNode; KDeletePods false].

Definition spares (k : Kind) : Prop := k ∉ removal_kinds /\ (no_pending -> k ∉ restart_kinds).

(** The statuses of a recovery of such a cluster. *)
Record untroubled (st : NodeRecoveryStatus) : Prop := {
  untroubled_types : ForceDeleteRookCephOSDPods ∉ map cond_Type (Conditions st);
  untroubled_CrashLoop : CrashLoopBackOffPods st = false;
  untroubled_Pending : no_pending -> PendingPods st = false;
}.

Definition spared (c : Call Req) : Prop :=
  match projT2 c with StatusUpdate inst => untroubled (nr_Status inst) | e => spares (kind_of e) end.

Abbreviation M := (allowing env spared).
Abbreviation trivial := (fun _ : unit => True).

Lemma spared_kind {R} (e : Req R) : kind_of e <> KStatusUpdate -> spares (kind_of e) -> spared (call e).
Proof. intros He Hs. unfold spared. cbn. by destruct e. Qed.

Lemma within_spared ks {A} (p : Op A) :
  Forall (fun k => k ∉ KStatusUpdate :: removal_kinds ++ restart_kinds) ks -> only (within ks) p -> only spared p.
Proof.
  intros Hks. apply only_mono. intros [R e] Hk. rewrite Forall_forall in Hks. specialize (Hks _ Hk).
  apply spared_kind; [|split; [|intros _]]; intros Hin; apply Hks; set_solver.
Qed.

(** With pending pods there is more to do. *)
Lemma pending_spared ks {A} (p : Op A) :
  ~ no_pending -> Forall (fun k => k ∉ KStatusUpdate :: removal_kinds) ks -> only (within ks) p -> only spared p.
Proof.
  intros Hno Hks. apply only_mono. intros [R e] Hk. rewrite Forall_forall in Hks. specialize (Hks _ Hk).
  apply spared_kind; [intros Hin|split; [intros Hin|done]]; apply Hks; set_solver.
Qed.

(** The cases that do nothing of the kind. *)
Definition harmless (t : RecoveryConditionType) : bool :=
  forallb (fun k => bool_decide (k ∉ KStatusUpdate :: removal_kinds ++ restart_kinds)) (footprint_of t).

Lemma harmless_only {A} t (p : Op A) : harmless t = true -> only (within (KClock :: footprint_of t)) p -> only spared p.
Proof.
  intros Ht. apply within_spared. constructor; [set_solver|].
  unfold harmless in Ht. rewrite forallb_forall in Ht. apply Forall_forall.
  intros k Hk. apply (bool_decide_eq_true_1 _), Ht. by apply list_elem_of_In.
Qed.

(** Nothing is known of the answers. *)
Lemma spared_any {A} (p : Op A) : only spared p -> wp M p tt (fun _ _ => True) trivial.
Proof. intros Hp. by apply (only_wp spared); [|exact Hp|apply wp_trivial]. Qed.

(** *** The three cases that look first *)

(** What is kept of the flags and the types, but for [next]. *)
Record kept_but (next : list RecoveryConditionType) inst inst' : Prop := {
  kept_CrashLoop : CrashLoopBackOffPods (nr_Status inst') = CrashLoopBackOffPods (nr_Status inst);
  kept_Pending : no_pending -> PendingPods (nr_Status inst') = PendingPods (nr_Status inst);
  kept_types : types inst' ⊆ types inst ++ next;
}.

Lemma kept_refl next inst : kept_but next inst inst.
Proof. split; [done..|set_solver]. Qed.

Lemma kept_but_update next i f inst inst' :
  (forall c, cond_Type (f c) = cond_Type c) -> kept_but next inst inst' ->
  kept_but next inst (set_Status (updateCondition i f) inst').
Proof.
  intros Hf [H1 H2 H3]. split; [exact H1|exact H2|]. unfold types in *.
  change (nr_Status (set_Status (updateCondition i f) inst')) with (updateCondition i f (nr_Status inst')).
  by rewrite types_update.
Qed.

Lemma goto_kept next res inst inst' l :
  next ∈ l -> kept_but l inst inst' ->
  wp M (goto next res inst') tt (fun r _ => kept_but l inst r.2) trivial.
Proof.
  intros Hn Hk. unfold goto, transitionNextCondition. apply wp_state_bind, wp_status.
  destruct (length _) as [|latest]; [done|]. apply wp_setStatus. split; [split; intros; set_solver|]. intros t1 [] _.
  split; [split; intros; set_solver|]. intros t2 [] _.
  apply (kept_but_update l latest (set_cond_Status StatusFalse)) in Hk; [|done]. destruct Hk as [K1 K2 K3].
  split; [exact K1|exact K2|]. unfold types in *. cbn. cbn in K3. rewrite map_app. set_solver.
Qed.

Abbreviation kept_to next inst := (fun r (_ : unit) => kept_but next inst (snd r)).

Lemma label_spared i inst :
  wp M (handleLabelNodesWithPendingPods i inst) tt (kept_to [ManageCrashLoopBackOffPods] inst) trivial.
Proof.
  unfold handleLabelNodesWithPendingPods. eapply wp_lift_seq with
    (Q1 := fun r _ => forall pods, r = inr pods -> no_pending -> pods = []).
  - unfold getPodsInPendingPhase. apply wp_bind, wp_trigger; [split; intros; set_solver|].
    intros [err|pods] [] Ha; cbn; [by intros ?|]. intros ? [= <-] Hn. by apply Hn.
  - intros [err|pods] [] Hpods; [by apply kept_but_update, kept_but_update, kept_refl|].
    destruct (decide (0 < length pods)) as [Hlen|]; [|apply goto_kept; [set_solver|apply kept_refl]].
    assert (~ no_pending) as Hno by (intros Hn; rewrite (Hpods pods eq_refl Hn) in Hlen; cbn in Hlen; lia).
    assert (kept_but [ManageCrashLoopBackOffPods] inst (set_Status (set_PendingPods true) inst)) as Hset
      by (split; [done|done|set_solver]).
    apply wp_setStatus. eapply wp_lift_seq with (Q1 := fun _ _ => True).
    + apply spared_any, (pending_spared [KMapOrder; KReadNode; KWriteNode]); [done|by apply (bool_decide_unpack _)|].
      unfold labelNodesWithPodsInPendingState, labelNode, assign. footprint; unfold within; cbn; set_solver.
    + intros [err|] [] _; [by apply kept_but_update, kept_but_update|]. apply goto_kept; [set_solver|done].
Qed.

Lemma manage_spared i inst :
  no_failing -> wp M (handleManageCrashLoopBackOffPods i inst) tt (kept_to [RestartStorageOperator] inst) trivial.
Proof.
  intros Hno. unfold handleManageCrashLoopBackOffPods. eapply wp_lift_seq with
    (Q1 := fun r _ => forall op fl, r = inr (op, fl) -> fl = []).
  - unfold getOSDPodsInOperationalAndFailingStatus, getOSDPods. apply wp_bind, wp_bind, wp_ret.
    destruct (fromLabels _) as [err|sel] eqn:Hsel; [by intros ??|].
    apply wp_bind, wp_trigger; [split; intros; set_solver|]. intros [err|pods] [] Ha; [by intros ??|].
    cbn [wp mret prog_ret]. rewrite classification_filter. cbn [app]. intros op fl [= _ <-].
    apply elem_of_nil_inv. intros p [Hp Hin]%list_elem_of_filter. rewrite (Hno sel pods p Hsel Ha Hin) in Hp. discriminate Hp.
  - intros [err|[op fl]] [] Hfl; [by apply kept_but_update, kept_but_update, kept_refl|].
    rewrite (Hfl op fl eq_refl). cbn [length]. apply goto_kept; [set_solver|apply kept_refl].
Qed.

Lemma restart_spared i inst :
  CrashLoopBackOffPods (nr_Status inst) = false -> (no_pending -> PendingPods (nr_Status inst) = false) ->
  wp M (handleRestartStorageOperator i inst) tt (kept_to [DeleteFailedPodsNodeAffinity] inst) trivial.
Proof.
  intros Hcr Hpend. unfold handleRestartStorageOperator. apply wp_status. rewrite Hcr, orb_false_r.
  destruct (PendingPods (nr_Status inst)); [|apply goto_kept; [set_solver|apply kept_refl]].
  eapply wp_lift_seq with (Q1 := fun _ _ => True).
  - apply spared_any. unfold deleteRookCephOperatorPod. destruct (LabelSelectorAsSelector _); [done|].
    apply only_trigger. split; [set_solver|]. intros Hn. by specialize (Hpend Hn).
  - intros [err|] [] _; [by apply kept_but_update, kept_but_update, kept_refl|]. apply goto_kept; [set_solver|apply kept_refl].
Qed.

(** *** A step *)

Lemma untroubled_kept l inst inst' :
  ForceDeleteRookCephOSDPods ∉ l -> kept_but l inst inst' ->
  untroubled (nr_Status inst) -> untroubled (nr_Status inst').
Proof.
  intros Hl [H1 H2 H3] [U1 U2 U3]. split; [|by rewrite H1|intros Hn; rewrite H2; auto].
  intros Hin. apply H3, elem_of_app in Hin as [?|?]; done.
Qed.

Lemma timedOut_spared latest inst :
  wp M (timedOut latest inst) tt (kept_to [] inst) trivial.
Proof.
  eapply wp_mono; [| |apply (wp_also M env _ tt (fun _ _ => True) trivial (fun r _ => kept_but [] inst r.2) trivial)];
    [by intros r [] [_ ?]|done|done| |].
  - apply spared_any. apply (within_spared [KEvent; KMetric]); [by repeat (constructor; [set_solver|])|apply timedOut_footprint].
  - unfold timedOut. apply wp_setStatus, wp_get. apply wp_lift_any; [done..|]. intros _ [].
    apply wp_lift_any; [done..|]. intros _ []. apply wp_lift_any; [done..|]. intros _ []. split; [done|done|set_solver].
Qed.

(** A case that looks first. *)
Lemma looking_spared l cs c inst :
  Conditions (nr_Status inst) = cs ++ [c] -> ForceDeleteRookCephOSDPods ∉ l -> untroubled (nr_Status inst) ->
  (forall now, wp M (dispatch (length cs) (cond_Type c) (probed now cs inst)) tt
     (fun r _ => is_Some r.1 /\ kept_but l (probed now cs inst) r.2) trivial) ->
  wp M (Reconciler.Reconcile inst) tt (fun r _ => untroubled (nr_Status r.2)) trivial.
Proof.
  intros Hc Hl Hu Hd. destruct (Reconcile_unfold cs c inst Hc) as (k & -> & Hk).
  split; [split; intros; set_solver|]. intros now [] _. destruct (Hk now) as (k' & -> & Hk').
  split; [split; intros; set_solver|]. intros now' [] _. rewrite Hk'.
  assert (untroubled (nr_Status (probed now cs inst))) as Hup.
  { by apply (untroubled_kept [] inst); [set_solver|apply kept_but_update, kept_refl|]. }
  destruct (After _ _).
  - eapply wp_mono; [| |apply timedOut_spared]; [|done]. intros r [] Hr. by apply (untroubled_kept [] _ _ ltac:(set_solver) Hr).
  - apply wp_state_bind. eapply wp_mono; [| |apply Hd]; [|done]. intros [[r|] inst2] [] [[r' Hr] Hk2]; [|done].
    by apply (untroubled_kept l _ _ Hl Hk2).
Qed.

Lemma returned_spared l inst0 (m : StateT Req NodeRecovery (Result * option error)) inst :
  wp M (m inst) tt (kept_to l inst0) trivial ->
  wp M (returned m inst) tt (fun r _ => is_Some r.1 /\ kept_but l inst0 r.2) trivial.
Proof. intros H. apply wp_state_bind. eapply wp_mono; [| |exact H]; [|done]. intros [r i] [] Hk. by split; [eexists|]. Qed.

(** The others. *)
Lemma untroubled_moved cs c inst inst' :
  Conditions (nr_Status inst) = cs ++ [c] -> moved cs c inst inst' ->
  cond_Type c <> LabelNodesWithPendingPods -> cond_Type c <> ManageCrashLoopBackOffPods ->
  edge (cond_Type c) ForceDeleteRookCephOSDPods = false ->
  untroubled (nr_Status inst) -> untroubled (nr_Status inst').
Proof.
  intros Hc Hm Hlab Hman He [U1 U2 U3]. pose proof Hm as (_ & _ & Hf & _). split.
  - by apply (moved_types cs c inst inst' _ Hc Hm He).
  - by rewrite (frame_CrashLoop_eq _ _ _ Hf Hman).
  - intros Hn. rewrite (frame_Pending_eq _ _ _ Hf Hlab). auto.
Qed.

Lemma Reconcile_spared inst :
  no_failing -> wf (nr_Status inst) -> untroubled (nr_Status inst) ->
  wp M (Reconciler.Reconcile inst) tt (fun r _ => untroubled (nr_Status r.2)) trivial.
Proof.
  intros Hno Hwf Hu. destruct (wf_conditions _ Hwf) as (cs & c & Hc & Htr & _).
  pose proof (trail_removal _ _ Htr (untroubled_types _ Hu)) as Hty.
  assert (forall now, untroubled (nr_Status (probed now cs inst))) as Hup.
  { intros now. by apply (untroubled_kept [] inst); [set_solver|apply kept_but_update, kept_refl|]. }
  destruct (harmless (cond_Type c)) eqn:Hh.
  - eapply wp_mono; [| |apply (wp_also M env _ tt (fun _ _ => True) trivial (fun r _ => untroubled (nr_Status r.2)) trivial)];
      [by intros r [] [_ ?]|done|done| |].
    + apply spared_any. eapply within_spared; [|apply (Reconcile_footprint cs c inst Hc)].
      do 3 (constructor; [set_solver|]). unfold harmless in Hh. rewrite forallb_forall in Hh. apply Forall_forall.
      intros k Hk. by apply (bool_decide_eq_true_1 _), Hh, list_elem_of_In.
    + eapply wp_mono; [| |by apply (Reconcile_moves env cs c inst Hc)]; [|done]. intros r [] Hm.
      apply (untroubled_moved cs c inst r.2 Hc Hm); [..|exact Hu]; by destruct (cond_Type c).
  - destruct (cond_Type c) eqn:Hct; try (vm_compute in Hh; discriminate Hh); try (set_solver);
      [apply (looking_spared [ManageCrashLoopBackOffPods] cs c)|apply (looking_spared [RestartStorageOperator] cs c)
      |apply (looking_spared [DeleteFailedPodsNodeAffinity] cs c)]; try done; try set_solver;
      intros now; rewrite Hct; cbn [dispatch]; apply returned_spared.
    + apply label_spared.
    + by apply manage_spared.
    + apply restart_spared; [apply Hup|]. intros Hn. by apply Hup.
Qed.

(** ** A recovery *)

Lemma startRecovery_untroubled inst :
  untroubled (nr_Status inst) ->
  wp (permissive env) (startRecovery inst) tt (fun inst1 _ => untroubled (nr_Status inst1)) trivial.
Proof.
  intros [U1 U2 U3]. unfold startRecovery. destruct (MetaTime_IsZero _); [|done].
  split; [done|]. intros t1 [] _. split; [done|]. intros t2 [] _. split; [done|]. intros r [] _.
  split; [|exact U2|exact U3]. cbn. rewrite map_app. set_solver.
Qed.

Context (Hclock : forall R (e : Req R) r, env R e r -> clock R e r).

Lemma fetched_spared inst :
  no_failing -> nr_Status inst = zeroStatus \/ wf (nr_Status inst) -> untroubled (nr_Status inst) ->
  wp M (reconcileFetched (inr inst)) tt (fun _ _ => True) trivial.
Proof using Hclock.
  intros Hno Hst Hu. unfold reconcileFetched. rewrite IgnoreNotFound_nil. cbn.
  destruct (negb _); cbn; [done|]. destruct (finished inst) eqn:Hfin; [done|].
  apply finished_spec in Hfin as [Hf1 Hf2]. unfold processInstance. eapply wp_seq.
  - eapply (wp_also M env); [done|apply (startRecovery_spec env Hclock spared)|by apply startRecovery_untroubled].
    + intros R e He. apply spared_kind; [intros Hs; rewrite Hs in He; by destruct He|].
      destruct He as [->| ->]; split; intros; set_solver.
    + destruct Hst as [?|Hwf]; [by left|right]. split; [done|]. by destruct (wf_phase _ Hwf) as [?|[?|?]].
  - intros inst1 [] [([Hwf1 _] & _) Hu1].
    eapply wp_seq; [by apply Reconcile_spared|]. intros [[res err] inst2] [] Hu2. by split.
Qed.

Lemma reachable_untroubled st : no_failing -> reachable env st -> untroubled st.
Proof using Hclock.
  intros Hno. induction 1 as [|inst inst' st Hr IH Hi [HP HC _ _ HPend HCL _ _ _ _]].
  - split; [cbn; set_solver|done|done].
  - assert (untroubled (nr_Status inst')) as [U1 U2 U3].
    { eapply (wp_issues env spared (reconcileFetched (inr inst)) (fun _ _ => True) trivial (call (StatusUpdate inst'))); [|exact Hi].
      apply fetched_spared; [done|by apply (reachable_cases env Hclock)|done]. }
    split; [by rewrite (stored_types _ _ HC)|by rewrite HCL|by rewrite HPend].
Qed.

End Spared.

(** C28: Safety.  A cluster without failing OSD pods is spared the recovery of
    OSDs: as long as no OSD pod that is listed is failing, no reconciliation of
    an object scales a deployment, force-deletes pods, deletes a job or a
    volume, or processes a template and creates its objects, whatever else the
    cluster answers.  If no OSD pod is pending either, none labels a node or
    deletes the pod of the Rook operator. *)
Theorem sound_clusters_are_spared `{X : External} `{Init : !Initialized}
    (env : Answers Req) (inst : NodeRecovery) (r : Call Req) :
  (forall R (e : Req R) a, env R e a -> clock R e a) -> no_failing env ->
  reachable env (nr_Status inst) -> issues env (reconcileFetched (inr inst)) r ->
  kind r ∉ [KWriteDeployment; KDeletePods true; KDeleteJob; KProcessTemplate; KCreate; KDeletePV]
  /\ (no_pending env -> kind r ∉ [KWriteNode; KDeletePods false]).
Proof.
  intros Hclock Hno Hr Hi.
  assert (spared env r) as Hs.
  { eapply (wp_issues env (spared env) (reconcileFetched (inr inst)) (fun _ _ => True) (fun _ => True)); [|exact Hi].
    apply fetched_spared; [done|done|by apply (reachable_cases env Hclock)|by apply reachable_untroubled]. }
  destruct r as [R e]. unfold kind. cbn. destruct e; try exact Hs. split; intros; set_solver.
Qed.

(** ** Witness *)

Definition sound_env : Answers Req := fun R e =>
  match e in Req R return R -> Prop with
  | ListPods opts => fun r => forall pods, r = inr pods ->
      Forall (fun p => isPodInCrashBackLoopOffOrErrorStatus (statuses p) = false) pods
      /\ (MatchingFields {[ podStatusPhaseFieldSelector := "Pending" ]} ∈ opts -> pods = [])
  | e => clock _ e
  end.

Definition sound (w : World) : Prop :=
  past_zero w /\ Forall (fun p => isPodInCrashBackLoopOffOrErrorStatus (statuses p) = false /\ pod_Phase p <> "Pending") (w_pods w).

(** The cluster, in which nothing is scaled or created. *)
Definition sound_cluster : Handler Req World := fun R e =>
  match e in Req R return World -> R * World with
  | UpdateDeployment _ => fun w => (None, w)
  | Create _ => fun w => (None, w)
  | e => cluster _ e
  end.

Lemma sound_filter (P : Pod -> Prop) `{!forall p, Decision (P p)} w :
  sound w -> sound (with_pods (filter P (w_pods w)) w).
Proof. intros [Hw Hp]. split; [exact Hw|]. rewrite Forall_forall in Hp.
  apply Forall_forall. intros p [_ Hin]%list_elem_of_filter. by apply Hp.
Qed.

Lemma sound_answers R (e : Req R) w : sound w -> sound_env R e (sound_cluster R e w).1 /\ sound (sound_cluster R e w).2.
Proof.
  intros Hs. pose proof Hs as [Hw Hp]. destruct (cluster_clock R e w Hw) as [Hc Hw'].
  destruct e; try (split; [exact Hc|split; [exact Hw'|exact Hp]]); try (by split);
    try (by split; [exact Hc|apply sound_filter]).
  split; [|done]. intros pods [= <-]. rewrite Forall_forall in Hp. split.
  - apply Forall_forall. intros p [_ Hin]%list_elem_of_filter. by apply Hp.
  - intros Hopt. apply elem_of_nil_inv. intros p [Hsel Hin]%list_elem_of_filter.
    rewrite forallb_forall in Hsel. specialize (Hsel _ (proj1 (list_elem_of_In _ _) Hopt)).
    change (bool_decide (({[podStatusPhaseFieldSelector := "Pending"]} : gmap string string) !! podStatusPhaseFieldSelector
      = Some (pod_Phase p)) = true) in Hsel.
    apply bool_decide_eq_true in Hsel. rewrite lookup_singleton_eq in Hsel. injection Hsel as Hph.
    by destruct (Hp p Hin) as [_ []].
Qed.

Definition sound_step (w : World) : World :=
  let w' := (run sound_cluster (reconcileFetched (inr (w_cr w))) w).2 in with_clock (w_clock w' + 60 * Second)%Z w'.

Lemma sound_life n w :
  sound w -> nr_Status (w_cr w) = zeroStatus ->
  sound (Nat.iter n sound_step w) /\ reachable sound_env (nr_Status (w_cr (Nat.iter n sound_step w))).
Proof.
  intros Hw Hz. induction n as [|n [IHw IH]]; [split; [done|]; cbn; rewrite Hz; constructor|].
  cbn [Nat.iter nat_rect]. unfold sound_step at 1 3.
  destruct (last_write sound_cluster sound_env (fun i => call (StatusUpdate i)) sound
    (reconcileFetched (inr (w_cr (Nat.iter n sound_step w)))) (Nat.iter n sound_step w)) as [[Hc Hp] Hi];
    [exact sound_answers|intros R e w'; destruct e; cbn; auto|done|].
  set (w' := (run _ _ _).2) in *. clearbody w'. split; [split; [by apply past_zero_pause|exact Hp]|].
  cbn [w_cr with_clock]. destruct Hi as [->|Hi]; [done|]. eapply reachable_update; [exact IH|exact Hi|apply stored_refl].
Qed.

Lemma sound_env_spec : no_failing sound_env /\ no_pending sound_env.
Proof.
  split.
  - intros sel pods p _ Ha Hin. destruct (Ha pods eq_refl) as [Hp _]. rewrite Forall_forall in Hp. by apply Hp.
  - intros pods Ha. apply (Ha pods eq_refl). set_solver.
Qed.

(** The step that would restart the operator: it asks for nothing but the time
    before it writes the status. *)
Lemma sound_clusters_are_spared_witness :
  KStatusUpdate ∉ [KWriteNode; KDeletePods false].
Proof.
  refine (proj2 (sound_clusters_are_spared sound_env (w_cr (Nat.iter 5 sound_step Settled))
    (call (StatusUpdate (w_cr (Nat.iter 6 sound_step Settled)))) _ (proj1 sound_env_spec) _ _) (proj2 sound_env_spec)).
  - intros R e a Ha. destruct e; try exact Ha; exact I.
  - refine (proj2 (sound_life 5 Settled _ eq_refl)). split; [done|]. apply (bool_decide_unpack _). vm_compute. exact I.
  - apply (trace_issues sound_cluster sound_env sound _ (Nat.iter 5 sound_step Settled)); [exact sound_answers| |].
    + refine (proj1 (sound_life 5 Settled _ eq_refl)). split; [done|]. apply (bool_decide_unpack _). vm_compute. exact I.
    + apply list_elem_of_lookup. exists 4. vm_compute. reflexivity.
Defined.

Example operator_not_restarted :
  cr_types (Nat.iter 6 sound_step Settled) =
    [EnableCephToolsPod; WaitForCephToolsPodRunning; WaitForOSDPodsStabilize; LabelNodesWithPendingPods;
     ManageCrashLoopBackOffPods; RestartStorageOperator; DeleteFailedPodsNodeAffinity]
  /\ map kind (trace sound_cluster (reconcileFetched (inr (w_cr (Nat.iter 5 sound_step Settled)))) (Nat.iter 5 sound_step Settled))
     = [KClock; KClock; KClock; KClock; KStatusUpdate].
Proof. vm_compute. split; reflexivity. Qed.
