(* ===== verification/Safety.v ===== *)
(** * Safety: what the operator may do to the cluster

    Theorems about the requests of a step, for all answers: which kinds each
    condition can issue, which volumes and pods are deleted and when, and that
    the metrics are used as they are declared. *)

From S2P Require Import Prelude Effects GoStd GoStrings Json Api K8s Const Monitoring Ceph Recovery.
From S2P Require Import Reconciler Controller Footprint StateMachine Gates Fake.

Section Safety.
Context `{X : External} `{Init : !Initialized}.

(** C17: Safety.  A step only makes the requests of the case of its latest
    condition, besides reading the clock and the events and metrics of the end
    of a recovery: deployments are only written from
    [ManageCrashLoopBackOffPods], nodes from [LabelNodesWithPendingPods],
    volumes deleted from [WaitForPersistenVolumeBound], commands run from
    [StorageClusterFitnessCheck], and so on as [footprint_of] lists. *)
Theorem requests_per_condition (inst : NodeRecovery) (r : Call Req) :
  issues any_answer (Reconciler.Reconcile inst) r ->
  exists cs c, Conditions (nr_Status inst) = cs ++ [c]
    /\ kind r ∈ KClock :: KEvent :: KMetric :: footprint_of (cond_Type c).
Proof.
  intros Hi. destruct (Conditions (nr_Status inst)) as [|c cs _] eqn:Hc using rev_ind.
  - by rewrite Reconcile_empty in Hi.
  - exists cs, c. split; [done|]. exact (only_issues _ _ _ _ (Reconcile_footprint cs c inst Hc) Hi).
Qed.

Lemma only_at {A} P (m : StateT Req NodeRecovery A) inst : onlyS P m -> only P (m inst).
Proof. intros H. apply H. Qed.

Lemma only_status {A} P (k : NodeRecoveryStatus -> StateT Req NodeRecovery A) inst :
  only P (k (nr_Status inst) inst) -> only P ((status ≫= k) inst).
Proof. done. Qed.

(** ** Volumes *)

Definition recorded_released (nds : list (option NodePV)) (r : Call Req) : Prop :=
  match projT2 r with
  | DeletePV pv => pv_Phase pv = VolumeReleased
      /\ exists nd, Some nd ∈ nds /\ pv_Name pv = npv_PersistentVolumeName nd
  | _ => True
  end.

Lemma processPVForNode_volumes nds nd pvs :
  Some nd ∈ nds -> only (recorded_released nds) (processPVForNode (Some nd) pvs).
Proof.
  intros Hnd. unfold processPVForNode. apply only_bind; [by destruct pvs|]. intros errs.
  apply only_forM. intros acc pv _. cbn [deref mbind prog_bind bind mret prog_ret].
  destruct (decide _) as [[Hname Hphase]|]; [|done]. apply only_bind; [|done].
  split; [|done]. split; [done|]. by exists nd.
Qed.

Lemma processNodeDevices_volumes nds : only (recorded_released nds) (processNodeDevices nds).
Proof.
  unfold processNodeDevices, getPVsForNode. apply only_forM_ret. intros errs [nd|] Hnd; [|done].
  cbn [deref mbind prog_bind bind mret prog_ret]. apply only_bind; [footprint|].
  intros [err|pvs]; [done|]. apply only_bind; [by apply processPVForNode_volumes|done].
Qed.

Lemma within_volumes ks nds {A} (p : Op A) :
  KDeletePV ∉ ks -> only (within ks) p -> only (recorded_released nds) p.
Proof.
  intros Hk. apply only_mono. intros [R e] He. destruct e; try done.
Qed.

(** C13: Safety.  A step only deletes a persistent volume that is in phase
    Released and that the recovery recorded as the volume of a failing OSD, and
    only while it waits for the volumes. *)
Theorem only_recorded_released_volumes_are_deleted (inst : NodeRecovery) (pv : PersistentVolume) :
  issues any_answer (Reconciler.Reconcile inst) (call (DeletePV pv)) ->
  (exists cs c, Conditions (nr_Status inst) = cs ++ [c] /\ cond_Type c = WaitForPersistenVolumeBound)
  /\ pv_Phase pv = VolumeReleased
  /\ exists nd, Some nd ∈ NodeDevice (nr_Status inst) /\ pv_Name pv = npv_PersistentVolumeName nd.
Proof.
  intros Hi. destruct (Conditions (nr_Status inst)) as [|c cs _] eqn:Hc using rev_ind;
    [by rewrite Reconcile_empty in Hi|].
  assert (cond_Type c = WaitForPersistenVolumeBound) as Hty.
  { pose proof (only_issues _ _ _ _ (Reconcile_footprint cs c inst Hc) Hi) as Hk.
    unfold within, kind in Hk. cbn in Hk. destruct (cond_Type c); cbn in Hk; set_unfold; naive_solver. }
  split; [by eauto|].
  change (recorded_released (NodeDevice (nr_Status inst)) (call (DeletePV pv))).
  eapply only_issues; [|exact Hi]. clear Hi.
  destruct (Reconcile_unfold cs c inst Hc) as (k & -> & Hk). split; [done|]. intros now.
  destruct (Hk now) as (k' & -> & Hk'). split; [done|]. intros now'. rewrite Hk', Hty. clear Hk Hk'.
  destruct (After _ _).
  - eapply within_volumes; [|apply timedOut_footprint]. set_solver.
  - apply only_bind; [|intros [[r|] inst']; [done|]; eapply within_volumes; [|apply complete_footprint]; set_solver].
    cbn [dispatch]. apply only_bind; [|by intros [r inst']].
    apply only_status, only_bind; [|intros [r inst1]].
    + apply only_bind; [apply processNodeDevices_volumes|done].
    + destruct r as [ret|[errs|]]; apply only_at; unfold setMessage, setStatus; [by footprint..|].
      unfold countPVCsBoundToODSPods, goto, transitionNextCondition, setMessage, setStatus, status. footprint.
Qed.

(** ** Forced deletion *)

(** The listing of the OSD pods with an id; none when the selector is refused. *)
Definition pods_of_id (id : string) : option (list ListOption) :=
  match fromLabels (<[ "app" := "rook-ceph-osd" ]> {[ OsdIdLabelKey := id ]}) with
  | inr sel => Some [WithOptions (in_namespace sel)]
  | inl _ => None
  end.

(** A listing of pods among the requests made so far, and a reading of the clock. *)
Definition listing (a : Answered Req) : option (list ListOption * (error + list Pod)) :=
  let '(existT R (e, r)) := a in
  match e in Req R return R -> option (list ListOption * (error + list Pod)) with
  | ListPods opts => fun r => Some (opts, r)
  | _ => fun _ => None
  end r.

Definition reading (a : Answered Req) : option Time :=
  let '(existT R (e, r)) := a in
  match e in Req R return R -> option Time with Now => Some | _ => fun _ => None end r.

Definition first_listed (a : Answered Req) : option Pod :=
  match listing a with Some (_, inr (p :: _)) => Some p | _ => None end.

(** The pod had been terminating for a minute when the clock was read. *)
Definition overdue (p : Pod) (a : Answered Req) : Prop :=
  exists ts now, pod_DeletionTimestamp p = Some ts /\ reading a = Some now /\ (ts + Minute <= now)%Z.

(** The first pod of every listing was overdue at a reading of the clock that
    came after the listing. *)
Fixpoint all_overdue (log : list (Answered Req)) : Prop :=
  match log with
  | [] => True
  | a :: log' =>
      match first_listed a with Some p => Exists (overdue p) log' | None => True end /\ all_overdue log'
  end.

Record force_deletion_allowed (ids : list string) (o : DeleteAllOfOptions) (log : list (Answered Req)) : Prop := {
  allowed_listed : map Some (map fst (omap listing log)) = map pods_of_id ids;
  allowed_answered : Forall (fun l => exists pods, snd l = inr pods) (omap listing log);
  allowed_overdue : all_overdue log;
  allowed_some : omap first_listed log <> [];
  allowed_options : exists sel, LabelSelectorAsSelector
      {| MatchLabels := ∅;
         MatchExpressions := [ {| lsr_Key := OsdIdLabelKey; lsr_Operator := LabelSelectorOpIn;
                                  lsr_Values := ids |} ] |} = inr sel
    /\ o = {| dao_ListOptions := in_namespace sel; dao_GracePeriodSeconds := Some 0%Z |};
}.

(** Keeps what was asked and answered; nothing of it is forgotten. *)
Definition deletion_watch (ids : list string) : Monitor Req (list (Answered Req)) := {|
  m_pre R e log := match e with DeleteAllOfPods o => force_deletion_allowed ids o log | _ => True end;
  m_post R e log r log' := log' = log ++ [answered e r] |}.

Lemma all_overdue_app log log' : all_overdue log -> all_overdue log' -> all_overdue (log ++ log').
Proof.
  induction log as [|a log IH]; [done|]. intros [Ha Hlog] Hlog'. split; [|by apply IH].
  destruct (first_listed a); [|done]. apply Exists_app. by left.
Qed.

Lemma countTerminating_watch ids ids' :
  wp (deletion_watch ids') (countTerminating ids) []
    (fun r log => match r with
                  | inl _ => True
                  | inr c => map Some (map fst (omap listing log)) = map pods_of_id ids
                      /\ Forall (fun l => exists pods, snd l = inr pods) (omap listing log)
                      /\ all_overdue log /\ length (omap first_listed log) = c
                  end) (fun _ => True).
Proof.
  unfold countTerminating. eapply wp_forM_ret with (I := fun done_ c log =>
    map Some (map fst (omap listing log)) = map pods_of_id done_
    /\ Forall (fun l => exists pods, snd l = inr pods) (omap listing log)
    /\ all_overdue log /\ length (omap first_listed log) = c); [by split_and!| |done].
  intros done_ id c log _ (Hq & Ha & Ho & Hl). unfold getOSDPodsWithID.
  destruct (fromLabels _) as [err|sel] eqn:Hsel; [exact I|].
  assert (pods_of_id id = Some [WithOptions (in_namespace sel)]) as Hid by (unfold pods_of_id; by rewrite Hsel).
  split; [done|]. intros [err|[|p ps]] log1 ->; [exact I| |].
  - cbn [mbind prog_bind bind mret prog_ret wp]. rewrite !omap_app, !map_app. cbn. rewrite Hq, Hid.
    split_and!; [done|apply Forall_app; split; [done|]; by repeat econstructor|by apply all_overdue_app|by rewrite app_nil_r].
  - split; [done|]. intros now log2 ->. destruct (pod_DeletionTimestamp p) as [ts|] eqn:Hts; [|exact I].
    cbn [deref mbind prog_bind bind mret prog_ret wp]. destruct (Before _ _) eqn:Hb; [done|].
    apply Before_false in Hb. rewrite <- app_assoc, !omap_app, !map_app. cbn. rewrite Hq, Hid.
    split_and!; [done|apply Forall_app; split; [done|]; by repeat econstructor| |rewrite length_app, Hl; cbn; lia].
    apply all_overdue_app; [done|]. split; [|by split]. apply Exists_cons. left. by exists ts, now.
Qed.

Lemma goto_watch ids t res inst s :
  wp (deletion_watch ids) (goto t res inst) s (fun _ _ => True) (fun _ => True).
Proof.
  apply (only_wp (within [KClock])); [|apply (goto_footprint [KClock]); set_solver|by apply wp_trivial].
  intros R e s' Hk. unfold within, kind in Hk. cbn in Hk. destruct e; try done.
  exfalso. set_unfold in Hk. naive_solver.
Qed.

(** C12: Safety.  The pods of the failing OSDs are force-deleted (grace period
    zero, exactly the recorded ids, in the operator's namespace) only after the
    pods of every one of these ids were listed, each of the listings was
    answered, at least one pod was still there, and for each listing that was
    not empty the clock, read after the listing, was a full minute past the
    moment from which the first pod of it was terminating. *)
Theorem force_delete_only_overdue (inst : NodeRecovery) (i : nat) (nds : list NodePV) :
  NodeDevice (nr_Status inst) = map Some nds ->
  wp (deletion_watch (map npv_FailingOSDID nds)) (handleForceDeleteRookCephOSDPods i inst) []
    (fun _ _ => True) (fun _ => True).
Proof.
  intros Hnds. unfold handleForceDeleteRookCephOSDPods. apply wp_status.
  destruct (negb _); [by apply goto_watch|]. rewrite Hnds, getOSDIDs_devices.
  set (ids := map npv_FailingOSDID nds).
  eapply wp_lift_seq with (Q1 := fun r s => r = ids /\ s = []); [done|]. intros ? ? [-> ->].
  eapply wp_lift_seq; [apply (countTerminating_watch ids ids)|].
  intros [ret|c] log Hlog; [exact I|]. destruct Hlog as (Hq & Ha & Ho & Hl).
  destruct (decide (0 < c)); [|by apply goto_watch].
  unfold forceDeleteRookCephOSDPods. destruct (LabelSelectorAsSelector _) as [err|sel] eqn:Hsel; [exact I|].
  split.
  - split; [done|done|done| |by exists sel]. intros Hnil. rewrite Hnil in Hl. cbn in Hl. lia.
  - intros [err|] s' ->; [exact I|]. apply goto_watch.
Qed.

(** ** Metrics *)

Definition declared (r : Call Req) : Prop :=
  match projT2 r with
  | CounterInc c ls => c ∈ metricsList /\ map fst ls = ctr_LabelNames c
  | _ => True
  end.

Lemma within_declared ks {A} (p : Op A) : KMetric ∉ ks -> only (within ks) p -> only declared p.
Proof. intros Hk. apply only_mono. intros [R e] He. by destruct e. Qed.

Lemma counter_declared c (f : NodePV -> list (string * string)) nds :
  c ∈ metricsList -> (forall nd, map fst (f nd) = ctr_LabelNames c) ->
  only declared (forM (fun _ nd => nd ← deref nd; trigger (CounterInc c (f nd))) () nds).
Proof.
  intros Hc Hf. apply only_forM. intros _ nd _. apply only_bind; [apply only_deref|].
  intros nd'. by apply only_trigger.
Qed.

Ltac metric := apply only_trigger; split; [unfold metricsList; set_solver|reflexivity].

Lemma dispatch_declared i t : onlyS declared (dispatch i t).
Proof.
  destruct (decide (KMetric ∈ KClock :: footprint_of t)) as [Hk|Hk].
  - destruct t; cbn [footprint_of] in Hk; try (by set_unfold in Hk; naive_solver).
    intros inst. cbn [dispatch]. unfold handleDisableCephTools. apply only_status, only_bind.
    + destruct (negb _); [|done]. apply only_bind; [|done].
      unfold disableCephTools, setEnableCephToolsValue, getOCPVersion, getOSCInitialization, getStorageCluster.
      footprint.
    + intros [[err|] inst']; [done|]. apply only_bind; [done|]. intros [i1 i2].
      apply only_bind; [|by intros [[] ?]]. apply only_bind; [|done].
      apply counter_declared; [unfold metricsList; set_solver|done].
  - intros inst. eapply within_declared; [exact Hk|apply dispatch_footprint].
Qed.

(** C29: Functional behaviour.  Every counter the controller increments is one
    that is registered, with exactly the labels it was declared with (the
    Prometheus client panics on any other set of labels). *)
Theorem metrics_are_used_as_declared (name : string) (c : CounterVec) (ls : list (string * string)) :
  issues any_answer (Controller.Reconcile name) (call (CounterInc c ls)) ->
  c ∈ metricsList /\ map fst ls = ctr_LabelNames c.
Proof.
  apply (only_issues declared). apply Controller_footprint; [done|done|done| | | |].
  - split; [unfold metricsList; set_solver|reflexivity].
  - intros latest inst. unfold timedOut. apply only_bind; [done|]. intros [[] i1]. apply only_bind; [done|].
    intros [i2 i3]. apply only_bind; [done|]. intros [[] i4]. apply only_bind; [apply only_bind; [|done]|].
    + apply counter_declared; [unfold metricsList; set_solver|done].
    + intros [[] i5]. apply only_bind; [apply only_bind; [metric|done]|]. by intros [[] ?].
  - intros inst. unfold complete. apply only_bind; [done|]. intros [[] i2]. apply only_bind; [done|].
    intros [n i3]. apply only_bind; [done|]. intros [[] i4]. apply only_bind; [done|]. intros [i5 i6].
    apply only_bind; [apply only_bind; [apply only_deref|done]|]. intros [st i7].
    apply only_bind; [done|]. intros [[] i8]. apply only_bind; [apply only_bind; [metric|done]|].
    by intros [[] ?].
  - apply dispatch_declared.
Qed.

End Safety.

(** ** Witnesses *)

Lemma requests_per_condition_witness : exists cs c,
  Conditions (nr_Status (w_cr (after 9 Broken))) = cs ++ [c]
  /\ kind (call (DeletePV (pv "2" "Released"))) ∈ KClock :: KEvent :: KMetric :: footprint_of (cond_Type c).
Proof.
  apply (requests_per_condition (w_cr (after 9 Broken)) (call (DeletePV (pv "2" "Released")))).
  apply (trace_issues cluster any_answer (fun _ => True) _ (after 9 Broken)); [done|done|].
  apply list_elem_of_lookup. exists 3. vm_compute. reflexivity.
Defined.

Lemma only_recorded_released_volumes_are_deleted_witness :
  pv_Phase (pv "2" "Released") = "Released".
Proof.
  refine (proj1 (proj2 (only_recorded_released_volumes_are_deleted (w_cr (after 9 Broken)) (pv "2" "Released") _))).
  apply (trace_issues cluster any_answer (fun _ => True) _ (after 9 Broken)); [done|done|].
  apply list_elem_of_lookup. exists 3. vm_compute. reflexivity.
Defined.

Definition failing_device : NodePV :=
  {| npv_NodeName := "node-2"; npv_PersistentVolumeName := "pv-2"; npv_FailingOSDID := "2" |}.

Definition other_device : NodePV :=
  {| npv_NodeName := "node-1"; npv_PersistentVolumeName := "pv-1"; npv_FailingOSDID := "1" |}.

Lemma force_delete_only_overdue_witness :
  wp (deletion_watch ["1"; "2"])
    (handleForceDeleteRookCephOSDPods 5
       (set_Status (fun st => set_CrashLoopBackOffPods true (set_NodeDevice [Some other_device; Some failing_device] st)) new_cr))
    [] (fun _ _ => True) (fun _ => True).
Proof.
  apply (force_delete_only_overdue
    (set_Status (fun st => set_CrashLoopBackOffPods true (set_NodeDevice [Some other_device; Some failing_device] st)) new_cr)
    5 [other_device; failing_device]).
  reflexivity.
Defined.

Lemma metrics_are_used_as_declared_witness :
  map fst ([] : list (string * string)) = ctr_LabelNames TotalOperandInstancesPrometheusCounter.
Proof.
  apply (metrics_are_used_as_declared "recovery" TotalOperandInstancesPrometheusCounter []).
  apply (trace_issues cluster any_answer (fun _ => True) _ Settled); [done|done|].
  apply list_elem_of_lookup. exists 3. vm_compute. reflexivity.
Defined.
