(* ===== verification/Tools.v ===== *)
(** * Tools: a tools pod that was already deployed is left alone

    The switch of the Ceph tools pod over a whole recovery: the recovery
    remembers that it found the pod enabled and then never writes the object
    that deploys it.  What it cannot tell is who enabled it ([Switch]). *)

From S2P Require Import Prelude Effects GoStd GoStrings Json Api K8s Const Monitoring Ceph Recovery.
From S2P Require Import Reconciler Controller Footprint StateMachine Gates Fake.

Section Tools.
Context `{X : External} `{Init : !Initialized} (env : Answers Req).
Context (Hclock : forall R (e : Req R) r, env R e r -> clock R e r).

(** Both objects that deploy the tools pod say that it is enabled. *)
Record enabled_already : Prop := {
  enabled_ocsinit : forall ns name o, env _ (GetOCSInitialization ns name) (inr o) -> ocsinit_EnableCephTools o = true;
  enabled_sc : forall ns name sc, env _ (GetStorageCluster ns name) (inr sc) -> sc_EnableCephTools sc = true;
}.

Definition kept (st : NodeRecoveryStatus) : Prop :=
  WaitForCephToolsPodRunning ∈ map cond_Type (Conditions st) -> KeepCephToolsPod st = true.

Lemma kept_update n f st :
  (forall c, cond_Type (f c) = cond_Type c) -> kept st -> kept (updateCondition n f st).
Proof.
  intros Hf Hk. unfold kept. by rewrite types_update.
Qed.

(** The tools switch is not written, and a status written is [kept]. *)
Definition untouched (r : Call Req) : Prop :=
  match projT2 r with
  | StatusUpdate i => kept (nr_Status i)
  | UpdateOCSInitialization _ | UpdateStorageCluster _ => False
  | _ => True
  end.

Definition quiet (k : Kind) : Prop :=
  k <> KStatusUpdate /\ k <> KWriteOCSInitialization /\ k <> KWriteStorageCluster.

Lemma quiet_untouched (r : Call Req) : quiet (kind r) -> untouched r.
Proof. destruct r as [R e]. intros (H1 & H2 & H3). destruct e; done. Qed.

Lemma within_untouched ks {A} (p : Op A) :
  Forall quiet ks -> only (within ks) p -> only untouched p.
Proof.
  intros Hks. apply only_mono. intros r Hr. apply quiet_untouched.
  rewrite Forall_forall in Hks. by apply Hks.
Qed.

Abbreviation U := (allowing env untouched).
Abbreviation trivial := (fun _ : unit => True).

Lemma wp_untouched {A} (p : Op A) Q :
  only untouched p -> wp (permissive env) p tt Q trivial -> wp U p tt Q trivial.
Proof. intros Ho Hp. by apply (only_wp untouched). Qed.

Lemma moved_kept cs c inst inst' :
  Conditions (nr_Status inst) = cs ++ [c] -> cond_Type c <> EnableCephToolsPod ->
  moved cs c inst inst' -> kept (nr_Status inst) -> kept (nr_Status inst').
Proof.
  intros Hc Hne Hm Hk Hin. assert (KeepCephToolsPod (nr_Status inst') = KeepCephToolsPod (nr_Status inst)) as ->.
  { destruct Hm as (_ & _ & Hf & _). by apply (frame_Keep _ _ _ Hf). }
  apply Hk. destruct (decide (WaitForCephToolsPodRunning ∈ types inst)) as [|Hno]; [done|].
  exfalso. eapply moved_types; [exact Hc|exact Hm| |exact Hno|exact Hin].
  by destruct (cond_Type c).
Qed.

(** The steps that do not look at the switch. *)
Lemma other_step cs c inst :
  Conditions (nr_Status inst) = cs ++ [c] -> cond_Type c <> EnableCephToolsPod ->
  only untouched (Reconciler.Reconcile inst) -> kept (nr_Status inst) ->
  wp U (Reconciler.Reconcile inst) tt (fun r _ => kept (nr_Status r.2)) trivial.
Proof.
  intros Hc Hne Ho Hk. apply wp_untouched; [done|].
  eapply wp_mono; [|done|by apply (Reconcile_moves env cs c inst Hc)].
  intros r [] Hm. by eapply moved_kept.
Qed.

Lemma footprint_quiet t :
  t <> EnableCephToolsPod -> t <> DisableCephTools ->
  Forall quiet (KClock :: KEvent :: KMetric :: footprint_of t).
Proof. intros H1 H2. destruct t; try done; repeat constructor; done. Qed.

(** The last step, of a recovery that keeps the pod. *)
Lemma disable_untouched cs c inst :
  Conditions (nr_Status inst) = cs ++ [c] -> cond_Type c = DisableCephTools ->
  KeepCephToolsPod (nr_Status inst) = true -> only untouched (Reconciler.Reconcile inst).
Proof.
  intros Hc Hty Hkeep. destruct (Reconcile_unfold cs c inst Hc) as (k & -> & Hk). split; [done|]. intros now.
  destruct (Hk now) as (k' & -> & Hk'). split; [done|]. intros now'. rewrite Hk', Hty.
  destruct (After _ _).
  - eapply within_untouched; [|apply timedOut_footprint]. by repeat constructor.
  - apply only_bind.
    + cbn [dispatch]. unfold handleDisableCephTools.
      change (only untouched ((err ← (if negb (KeepCephToolsPod (nr_Status (probed now cs inst)))
        then lift disableCephTools else mret None);
        match err with
        | Some err => r ← failWith (length cs) FailedDisableCephToolsPod err; mret (Some r)
        | None => instance ← get; lift (IncrementCompletedOperandCounter instance);; mret None
        end) (probed now cs inst))).
      replace (KeepCephToolsPod (nr_Status (probed now cs inst))) with true by by rewrite <- Hkeep.
      cbn [negb]. apply only_bind; [done|]. intros [err inst1]. destruct err as [err|]; [done|].
      apply only_bind; [done|]. intros [i1 i2]. apply only_bind; [|by intros [[] ?]].
      apply only_bind; [|done]. unfold IncrementCompletedOperandCounter. footprint.
    + intros [[r|] inst1]; [done|]. eapply within_untouched; [|apply complete_footprint]. by repeat constructor.
Qed.

(** The first step. *)
Lemma isCephToolsEnabled_true :
  enabled_already ->
  wp U isCephToolsEnabled tt (fun r _ => forall b, r = inr b -> b = true) trivial.
Proof.
  intros [Ho Hs]. unfold isCephToolsEnabled. eapply wp_seq with (Q1 := fun _ _ => True).
  - apply wp_untouched; [unfold getOCPVersion; footprint|by apply wp_trivial].
  - intros [err|v] [] _; [done|]. destruct (LessThan v ocp4_15); (split; [done|]).
    + intros [err|o] [] Ha; [done|]. intros b [= <-]. exact (Ho _ _ _ Ha).
    + intros [err|o] [] Ha; [done|]. intros b [= <-]. exact (Hs _ _ _ Ha).
Qed.

Lemma enable_step cs c inst :
  enabled_already -> Conditions (nr_Status inst) = cs ++ [c] -> cond_Type c = EnableCephToolsPod ->
  kept (nr_Status inst) ->
  wp U (Reconciler.Reconcile inst) tt (fun r _ => kept (nr_Status r.2)) trivial.
Proof.
  clear Hclock. intros Hen Hc Hty Hk. destruct (Reconcile_unfold cs c inst Hc) as (k & -> & Hk1). split; [done|].
  intros now [] _. destruct (Hk1 now) as (k' & -> & Hk'). split; [done|]. intros now' [] _.
  rewrite Hk', Hty. clear Hk1 Hk'.
  assert (kept (nr_Status (probed now cs inst))) as Hkp.
  { by apply kept_update. }
  destruct (After _ _).
  - apply wp_untouched; [eapply within_untouched; [|apply timedOut_footprint]; by repeat constructor|].
    unfold timedOut. apply wp_setStatus, wp_get. apply wp_lift_any; [done..|]. intros _ [].
    apply wp_lift_any; [done..|]. intros _ []. apply wp_lift_any; [done..|]. intros _ []. exact Hkp.
  - cbn [dispatch]. apply wp_state_bind, wp_state_bind. unfold handleEnableCephToolsPod.
    eapply wp_lift_seq; [by apply isCephToolsEnabled_true|]. intros [err|b] [] Hb.
    + cbn. by apply kept_update, kept_update.
    + rewrite (Hb b eq_refl). cbn [negb]. apply wp_setStatus.
      apply wp_untouched.
      * eapply within_untouched; [|apply (goto_footprint [KClock]); set_solver]. by repeat constructor.
      * unfold goto, transitionNextCondition. apply wp_state_bind, wp_status.
        destruct (length _); [done|]. apply wp_setStatus, wp_now. intros t1. apply wp_now. intros t2. by cbn.
Qed.

Lemma step_untouched inst :
  enabled_already -> wf (nr_Status inst) -> kept (nr_Status inst) ->
  wp U (Reconciler.Reconcile inst) tt (fun r _ => kept (nr_Status r.2)) trivial.
Proof.
  clear Hclock. intros Hen Hwf Hk. destruct (wf_conditions _ Hwf) as (cs & c & Hc & Ht & _).
  destruct (decide (cond_Type c = EnableCephToolsPod)) as [He|He]; [by apply (enable_step cs c)|].
  apply (other_step cs c); [done..| |done].
  destruct (decide (cond_Type c = DisableCephTools)) as [Hd|Hd].
  - apply (disable_untouched cs c); [done..|]. apply Hk.
    apply (trail_always _ _ Ht); [set_solver|]. rewrite Hd. cbn. lia.
  - eapply within_untouched; [|apply (Reconcile_footprint cs c inst Hc)]. by apply footprint_quiet.
Qed.

Lemma fetched_untouched inst :
  enabled_already -> reachable env (nr_Status inst) -> kept (nr_Status inst) ->
  wp U (reconcileFetched (inr inst)) tt (fun _ _ => True) trivial.
Proof using Hclock.
  intros Hen Hr Hk. unfold reconcileFetched. rewrite IgnoreNotFound_nil. cbn.
  destruct (negb _); cbn; [done|]. destruct (finished inst) eqn:Hfin; [done|].
  apply finished_spec in Hfin as [Hf1 Hf2].
  assert (nr_Status inst = zeroStatus \/ in_progress inst) as Hin.
  { destruct (reachable_cases env Hclock _ Hr) as [?|Hwf]; [by left|right]. split; [done|].
    by destruct (wf_phase _ Hwf) as [?|[?|?]]. }
  unfold processInstance. eapply wp_seq.
  - apply (startRecovery_spec env Hclock untouched); [|exact Hin].
    intros R e [He|He]; by destruct e.
  - intros inst1 [] ([Hwf1 _] & Hz & Hfirst & _).
    assert (kept (nr_Status inst1)) as Hk1.
    { destruct Hz as [Hz|Hz]; [by rewrite <- Hz|]. destruct (Hfirst Hz) as (c & Hc & Hty).
      unfold kept. rewrite Hc. cbn. rewrite Hty. set_solver. }
    eapply wp_seq; [by apply step_untouched|]. intros [[res err] inst2] [] Hk2. by split.
Qed.

Lemma reachable_kept st : enabled_already -> reachable env st -> kept st.
Proof using Hclock.
  intros Hen. induction 1 as [|inst inst' st Hr IH Hi Hst]; [unfold kept; cbn; set_solver|].
  assert (kept (nr_Status inst')) as Hk.
  { apply (wp_issues env untouched (reconcileFetched (inr inst)) (fun _ _ => True) trivial
      (call (StatusUpdate inst'))); [by apply fetched_untouched|done]. }
  unfold kept in *. by rewrite (stored_types _ _ (stored_Conditions _ _ Hst)), (stored_Keep _ _ Hst).
Qed.

End Tools.

(** C16: Safety.  When the Ceph tools pod was already enabled before the
    recovery, no reconciliation of the object ever writes the object that
    deploys it: the recovery finds it enabled, remembers to keep it, and leaves
    the switch alone to the end. *)
Theorem enabled_tools_are_never_switched `{X : External} `{Init : !Initialized}
    (env : Answers Req) (inst : NodeRecovery) (r : Call Req) :
  (forall R (e : Req R) a, env R e a -> clock R e a) -> enabled_already env ->
  reachable env (nr_Status inst) -> issues env (reconcileFetched (inr inst)) r ->
  kind r <> KWriteOCSInitialization /\ kind r <> KWriteStorageCluster.
Proof.
  intros Hclock Hen Hr Hi.
  assert (untouched r) as Hu.
  { eapply (wp_issues env untouched (reconcileFetched (inr inst)) (fun _ _ => True) (fun _ => True));
      [|exact Hi]. apply fetched_untouched; [done..|]. by apply (reachable_kept env). }
  destruct r as [R e]. destruct e; try done; split; discriminate.
Qed.

(** ** Witness *)

Definition enabled_env : Answers Req := fun R e =>
  match e in Req R return R -> Prop with
  | GetOCSInitialization _ _ => fun r => forall o, r = inr o -> ocsinit_EnableCephTools o = true
  | GetStorageCluster _ _ => fun r => forall sc, r = inr sc -> sc_EnableCephTools sc = true
  | e => clock _ e
  end.

Definition tools_on (w : World) : Prop :=
  past_zero w /\ ocsinit_EnableCephTools (w_ocsinit w) = true /\ sc_EnableCephTools (w_sc w) = true.

(** The cluster, with the switch held on. *)
Definition held_on : Handler Req World := fun R e =>
  match e in Req R return World -> R * World with
  | UpdateOCSInitialization _ => fun w => (None, w)
  | UpdateStorageCluster _ => fun w => (None, w)
  | e => cluster _ e
  end.

Lemma held_on_answers R (e : Req R) w :
  tools_on w -> enabled_env R e (held_on R e w).1 /\ tools_on (held_on R e w).2.
Proof.
  intros (Hw & Ho & Hs). destruct (cluster_clock R e w Hw) as [Hc Hw'].
  destruct e; cbn in *; split; try done; try (by split_and!); by intros ? [= <-].
Qed.

Definition Enabled : World := with_tools {| ocsinit_ResourceVersion := "3"; ocsinit_EnableCephTools := true |}
  {| sc_ResourceVersion := "4"; sc_EnableCephTools := true |} Settled.

Lemma enabled_tools_are_never_switched_witness :
  kind (call (GetStorageCluster ODF_NAMESPACE "ocs-storagecluster")) <> KWriteStorageCluster.
Proof.
  apply (enabled_tools_are_never_switched enabled_env new_cr
    (call (GetStorageCluster ODF_NAMESPACE "ocs-storagecluster"))).
  - intros R e a Ha. destruct e; try exact Ha; exact I.
  - split; [intros ? ? o Ho|intros ? ? sc Hs]; [exact (Ho o eq_refl)|exact (Hs sc eq_refl)].
  - apply reachable_new.
  - apply (trace_issues held_on enabled_env tools_on _ Enabled); [exact held_on_answers|by split_and!|].
    apply list_elem_of_lookup. exists 6. vm_compute. reflexivity.
Defined.
