(* ===== verification/Switch.v ===== *)
(** * Switch: who disables the tools pod

    The switch of the Ceph tools pod belongs to the cluster, and what a recovery
    knows of it is one flag of its status.  A recovery that enabled the pod
    disables it before it is Completed; one that lost the status in which it
    remembered so takes the pod for somebody else's; and one that found the pod
    enabled by another recovery fails when that one is Completed. *)

From S2P Require Import Prelude Effects GoStd GoStrings Json Api K8s Const Monitoring Ceph Recovery.
From S2P Require Import Reconciler Controller Footprint StateMachine Gates Times Endings Fake Tools.

Section Switch.
Context `{X : External} `{Init : !Initialized} (env : Answers Req).
Implicit Types (inst : NodeRecovery).

(** What the switch was last set to, by a write that was accepted. *)
Definition switched {R} (e : Req R) : R -> option bool -> option bool :=
  match e in Req R return R -> option bool -> option bool with
  | UpdateOCSInitialization o => fun r s => match r with None => Some (ocsinit_EnableCephTools o) | Some _ => s end
  | UpdateStorageCluster sc => fun r s => match r with None => Some (sc_EnableCephTools sc) | Some _ => s end
  | _ => fun _ s => s
  end.

(** Any answers; a status may be written when [P] holds of it and the switch. *)
Definition switch_watch (P : NodeRecovery -> option bool -> Prop) : Monitor Req (option bool) := {|
  m_pre R e s := match e with StatusUpdate inst => P inst s | _ => True end;
  m_post R e s r s' := env R e r /\ s' = switched e r s |}.

(** The recovery gets past its first condition, from [inst], as one that will not
    keep the pod, only after it enabled it. *)
Definition enabled_first inst inst' (s : option bool) : Prop :=
  WaitForCephToolsPodRunning ∉ types inst -> WaitForCephToolsPodRunning ∈ types inst' ->
  KeepCephToolsPod (nr_Status inst') = false -> s = Some true.

(** It is Completed, as one that does not keep the pod, only after it disabled it. *)
Definition disabled_last inst' (s : option bool) : Prop :=
  Phase (nr_Status inst') = CompletedPhase -> KeepCephToolsPod (nr_Status inst') = false -> s = Some false.

Definition accounted inst inst' s : Prop := enabled_first inst inst' s /\ disabled_last inst' s.

Abbreviation trivial := (fun _ : option bool => True).

Section Steps.
Context (P : NodeRecovery -> option bool -> Prop).
Abbreviation W := (switch_watch P).

Lemma watch_env R (e : Req R) s r s' : m_post W e s r s' -> env R e r.
Proof. by intros [? _]. Qed.

(** Requests that are not the write of the object. *)
Lemma watch_any {A} (p : Op A) s :
  only (fun c => kind c <> KStatusUpdate) p -> wp W p s (fun _ _ => True) trivial.
Proof. intros Hp. apply (only_wp (fun c => kind c <> KStatusUpdate) W); [|exact Hp|by apply wp_trivial]. intros R e s' He. by destruct e. Qed.

(** Requests that do not touch the switch either. *)
Definition flips (k : Kind) : bool :=
  bool_decide (k ∈ [KStatusUpdate; KWriteOCSInitialization; KWriteStorageCluster]).

Lemma watch_same ks {A} (p : Op A) s :
  forallb (fun k => negb (flips k)) ks = true -> only (within ks) p -> wp W p s (fun _ s' => s' = s) trivial.
Proof.
  intros Hks Hp. rewrite forallb_forall in Hks. induction p as [a|R e k IH|why]; [done| |done].
  destruct Hp as [He Hk]. apply list_elem_of_In, Hks, negb_true_iff in He.
  change (flips (kind_of e) = false) in He.
  split; [by destruct e|]. intros r s' [_ ->]. replace (switched e r s) with s; [by apply IH|]. by destruct e.
Qed.

Lemma setEnable_watch b s :
  wp W (setEnableCephToolsValue b) s (fun r s' => r = None -> s' = Some b) trivial.
Proof.
  unfold setEnableCephToolsValue. eapply wp_seq with (Q1 := fun _ _ => True).
  { apply watch_any. unfold getOCPVersion. by footprint. }
  intros [err|v] s1 _; [by intros [=]|]. unfold getOSCInitialization, getStorageCluster.
  destruct (LessThan v ocp4_15); (split; [done|]); intros [err|o] s2 _; try (by intros [=]);
    (split; [done|]); intros [err|] s3 [_ ->]; by intros [=].
Qed.

Lemma goto_switch next res inst s :
  wp W (goto next res inst) s
    (fun r s' => s' = s /\ KeepCephToolsPod (nr_Status r.2) = KeepCephToolsPod (nr_Status inst)) trivial.
Proof.
  unfold goto, transitionNextCondition. apply wp_state_bind, wp_status.
  destruct (length _) as [|latest]; [done|]. apply wp_setStatus. split; [done|]. intros t1 s1 [_ ->].
  split; [done|]. intros t2 s2 [_ ->]. by cbn.
Qed.

(** ** The first case and the last *)

Lemma enable_watch i inst s :
  WaitForCephToolsPodRunning ∉ types inst ->
  wp W (handleEnableCephToolsPod i inst) s (fun r s' =>
    WaitForCephToolsPodRunning ∈ types r.2 -> KeepCephToolsPod (nr_Status r.2) = false -> s' = Some true) trivial.
Proof.
  intros Hno. unfold handleEnableCephToolsPod.
  assert (forall reason (err : error) s1, wp W (failWith i reason err inst) s1 (fun r s' =>
    WaitForCephToolsPodRunning ∈ types r.2 -> KeepCephToolsPod (nr_Status r.2) = false -> s' = Some true) trivial) as Hfail.
  { intros reason err s1 Hin. destruct Hno. revert Hin. unfold types.
    change (nr_Status (snd _)) with (updateCondition i (set_cond_Message (Error err)) (updateCondition i (set_cond_Reason reason) (nr_Status inst))).
    by rewrite !types_update. }
  eapply wp_lift_seq with (Q1 := fun _ _ => True).
  { apply watch_any. unfold isCephToolsEnabled, getOCPVersion, getOSCInitialization, getStorageCluster. by footprint. }
  intros [err|[]] s1 _; [apply Hfail| |]; cbn [negb].
  - apply wp_setStatus. eapply wp_mono; [| |apply goto_switch]; [|done]. intros r s' [_ ->]. done.
  - eapply wp_lift_seq; [apply setEnable_watch|]. intros [err|] s2 Hs2; [apply Hfail|].
    eapply wp_mono; [| |apply goto_switch]; [|done]. intros r s' [-> _] _ _. by apply Hs2.
Qed.

Lemma complete_watch inst s :
  wp W (complete inst) s
    (fun r s' => s' = s /\ KeepCephToolsPod (nr_Status r.2) = KeepCephToolsPod (nr_Status inst)) trivial.
Proof.
  eapply wp_mono; [| |apply (wp_also W env _ s (fun _ s' => s' = s) trivial
    (fun r _ => KeepCephToolsPod (nr_Status r.2) = KeepCephToolsPod (nr_Status inst)) (fun _ => True))];
    [done|done|exact watch_env|apply (watch_same [KClock; KEvent; KMetric]); [done|apply complete_footprint]|].
  unfold complete. apply wp_setStatus, wp_lift_any; [done..|]. intros now [].
  apply wp_setStatus, wp_get. apply wp_lift_any; [done..|]. intros start [].
  apply wp_lift_any; [done..|]. intros _ []. apply wp_lift_any; [done..|]. by intros _ [].
Qed.

(** The last case: an error, or the pod is disabled if it is not to be kept. *)
Lemma disable_watch i inst s :
  wp W (handleDisableCephTools i inst) s (fun r s' =>
    match r.1 with
    | Some _ => Phase (nr_Status r.2) = Phase (nr_Status inst)
    | None => KeepCephToolsPod (nr_Status r.2) = false -> s' = Some false
    end) trivial.
Proof.
  unfold handleDisableCephTools. apply wp_status.
  assert (forall s1, (KeepCephToolsPod (nr_Status inst) = false -> s1 = Some false) ->
    wp W ((instance ← get; lift (IncrementCompletedOperandCounter instance);; mret (@None (Result * option error))) inst) s1
      (fun r s' => match r.1 with
        | Some _ => Phase (nr_Status r.2) = Phase (nr_Status inst)
        | None => KeepCephToolsPod (nr_Status r.2) = false -> s' = Some false end) trivial) as Hrest.
  { intros s1 Hs1. apply wp_get. eapply wp_lift_seq with (Q1 := fun _ s' => s' = s1); [|by intros _ s' ->].
    apply (watch_same [KMetric]); [done|]. unfold IncrementCompletedOperandCounter.
    footprint; unfold within; cbn; set_solver. }
  destruct (KeepCephToolsPod (nr_Status inst)) eqn:Hk; cbn [negb].
  - apply wp_state_bind, wp_ret. by apply Hrest.
  - eapply wp_lift_seq; [apply setEnable_watch|]. intros [err|] s1 Hs1; [done|]. apply Hrest. auto.
Qed.

(** ** A step *)

Lemma timedOut_watch latest inst s :
  wp W (timedOut latest inst) s
    (fun r _ => types r.2 = types inst /\ Phase (nr_Status r.2) = FailedPhase) trivial.
Proof.
  eapply wp_mono; [| |eapply (wp_also W env _ s (fun _ _ => True) trivial);
    [exact watch_env| |apply (timedOut_ends env latest inst)]]; [|done|].
  - intros r s' [_ [Hr Hp]]. split; [|done]. unfold types. by rewrite Hr.
  - apply watch_any. eapply only_mono; [|apply timedOut_footprint]. intros [R e] He Hu.
    unfold within in He. rewrite Hu in He. set_solver.
Qed.

Lemma probed_types now cs inst : types (probed now cs inst) = types inst.
Proof. unfold types. by apply (types_update _ (set_cond_LastProbeTime now)). Qed.

Lemma first_step_watch cs c inst s :
  Conditions (nr_Status inst) = cs ++ [c] -> cond_Type c = EnableCephToolsPod ->
  WaitForCephToolsPodRunning ∉ types inst ->
  wp W (Reconciler.Reconcile inst) s (fun r s' => enabled_first inst r.2 s') trivial.
Proof.
  intros Hc Hen Hno. destruct (Reconcile_unfold cs c inst Hc) as (k & -> & Hk).
  split; [done|]. intros now s1 [_ ->]. destruct (Hk now) as (k' & -> & Hk').
  split; [done|]. intros now' s2 [_ ->]. rewrite Hk', Hen. rewrite <- (probed_types now cs inst) in Hno.
  destruct (After _ _).
  - eapply wp_mono; [| |apply timedOut_watch]; [|done]. intros r s' [Hty _] _ Hw. destruct Hno. by rewrite <- Hty.
  - cbn [dispatch]. apply wp_state_bind, wp_state_bind.
    eapply wp_mono; [| |by apply enable_watch]; [|done]. intros [r i1] s' Hr. exact (fun _ => Hr).
Qed.

Lemma last_step_watch cs c inst s :
  Conditions (nr_Status inst) = cs ++ [c] -> cond_Type c = DisableCephTools -> Phase (nr_Status inst) = RunningPhase ->
  wp W (Reconciler.Reconcile inst) s (fun r s' => disabled_last r.2 s') trivial.
Proof.
  intros Hc Hdis Hph. destruct (Reconcile_unfold cs c inst Hc) as (k & -> & Hk).
  split; [done|]. intros now s1 [_ ->]. destruct (Hk now) as (k' & -> & Hk').
  split; [done|]. intros now' s2 [_ ->]. rewrite Hk', Hdis. destruct (After _ _).
  - eapply wp_mono; [| |apply timedOut_watch]; [|done]. intros r s' [_ Hr] Hcp. by rewrite Hr in Hcp.
  - cbn [dispatch]. apply wp_state_bind. eapply wp_mono; [| |apply disable_watch]; [|done].
    intros [[ret|] i1] s' Hr; cbn [fst snd] in *.
    + intros Hcp. change (Phase (nr_Status i1) = CompletedPhase) in Hcp. rewrite Hr in Hcp.
      change (Phase (nr_Status inst) = CompletedPhase) in Hcp. by rewrite Hph in Hcp.
    + eapply wp_mono; [| |apply complete_watch]; [|done]. intros r s3 [-> Hkeep] _ Hf. apply Hr. by rewrite <- Hkeep.
Qed.

(** A step that is not the last does not complete the recovery. *)
Lemma moved_not_completed cs c inst inst' :
  in_progress inst -> Conditions (nr_Status inst) = cs ++ [c] -> moved cs c inst inst' ->
  cond_Type c <> DisableCephTools -> Phase (nr_Status inst') <> CompletedPhase.
Proof.
  intros [Hwf Hph] Hc (_ & _ & _ & Hm) Hdis Hcp.
  destruct Hm as [c' _ _ Hp|c' n _ _ _ _ _ _ Hp|c' _ _ Hp|c' t _ _ Hends _ _]; [rewrite Hp, ?Hph in Hcp; discriminate Hcp..|].
  destruct Hends as [?|[o Ho]]; [done|]. destruct (wf_conditions _ Hwf) as (cs0 & c0 & Hc0 & Htr & _).
  rewrite Hc in Hc0. apply app_inj_2 in Hc0 as [_ [= <-]]; [|done]. by destruct (trail_named _ _ Htr o).
Qed.

Lemma Reconcile_watch inst s :
  in_progress inst -> wp W (Reconciler.Reconcile inst) s (fun r s' => accounted inst r.2 s') trivial.
Proof.
  intros Hin. pose proof Hin as [Hwf Hph]. destruct (wf_conditions _ Hwf) as (cs & c & Hc & Htr & _).
  assert (forall Q : _ -> _ -> Prop, wp W (Reconciler.Reconcile inst) s Q trivial ->
    (forall r s', moved cs c inst r.2 -> Q r s' -> accounted inst r.2 s') ->
    wp W (Reconciler.Reconcile inst) s (fun r s' => accounted inst r.2 s') trivial) as Hcut.
  { intros Q HQ Himp. eapply wp_mono; [| |apply (wp_also W env _ s Q trivial (fun r _ => moved cs c inst r.2) (fun _ => True));
      [exact watch_env|exact HQ|by apply Reconcile_moves]]; [|done]. intros r s' [? ?]. by apply Himp. }
  assert (cond_Type c <> EnableCephToolsPod -> WaitForCephToolsPodRunning ∈ types inst) as Hpast.
  { intros Hne. apply (trail_always _ _ Htr); [set_solver|]. pose proof (trail_named _ _ Htr) as Hn.
    destruct (cond_Type c) as [| | | | | | | | | | | | | |o]; try done; cbn; try lia; by destruct (Hn o). }
  destruct (decide (cond_Type c = EnableCephToolsPod)) as [Hen|Hen];
    [|destruct (decide (cond_Type c = DisableCephTools)) as [Hdis|Hdis]].
  - eapply Hcut; [apply (first_step_watch cs c); [done|done|]|].
    + intros Hw. pose proof (trail_rank _ _ Htr) as Hr. rewrite Forall_forall in Hr. specialize (Hr _ Hw).
      rewrite Hen in Hr. cbn in Hr. lia.
    + intros r s' Hm Hr. split; [exact Hr|]. intros Hcp. destruct (moved_not_completed cs c inst r.2 Hin Hc Hm); [|done].
      by rewrite Hen.
  - eapply Hcut; [by apply (last_step_watch cs c)|]. intros r s' _ Hr. split; [|exact Hr]. by intros []; apply Hpast.
  - apply (Hcut (fun _ _ => True)).
    + apply watch_any. eapply only_mono; [|apply (Reconcile_footprint cs c inst Hc)].
      intros [R e] Hw Hu. unfold within in Hw. rewrite Hu in Hw. by apply (footprint_of_no_update (cond_Type c)).
    + intros r s' Hm _. split; [by intros []; apply Hpast|]. intros Hcp.
      by destruct (moved_not_completed cs c inst r.2 Hin Hc Hm).
Qed.

(** What the flags of a status that is written say of the switch. *)
Lemma fetched_watch inst :
  (forall R (e : Req R) r, env R e r -> clock R e r) -> (forall inst' s, accounted inst inst' s -> P inst' s) ->
  nr_Status inst = zeroStatus \/ wf (nr_Status inst) ->
  wp W (reconcileFetched (inr inst)) None (fun _ _ => True) trivial.
Proof.
  intros Hclock HP Hst. unfold reconcileFetched. rewrite IgnoreNotFound_nil. cbn.
  destruct (negb _); cbn; [done|]. destruct (finished inst) eqn:Hfin; [done|].
  apply finished_spec in Hfin as [Hf1 Hf2]. unfold processInstance. eapply wp_seq.
  - eapply (wp_also W env _ None (fun _ _ => True) trivial);
      [exact watch_env| |apply (startRecovery_spec env Hclock (fun _ => True)); [done|]].
    + apply watch_any. unfold startRecovery. by footprint.
    + destruct Hst as [?|Hwf]; [by left|right]. split; [done|]. by destruct (wf_phase _ Hwf) as [?|[?|?]].
  - intros inst1 s1 [_ (Hin & Hz & Hfirst & _)].
    eapply wp_seq; [by apply Reconcile_watch|]. intros [[res err] inst2] s2 [Ha Hd]. split; [|done]. apply HP.
    split; [|exact Hd]. intros Hno. apply Ha. destruct Hz as [Hz|Hz]; [unfold types; by rewrite <- Hz|].
    destruct (Hfirst Hz) as (c & Hc & Hty). unfold types. rewrite Hc. cbn. rewrite Hty. set_solver.
Qed.

End Steps.

(** ** A recovery that waits for the tools pod *)

(** No tools pod is listed. *)
Definition no_tools_pod : Prop := forall sel pods,
  fromLabels {[ "app" := "rook-ceph-tools" ]} = inr sel ->
  env _ (ListPods [WithOptions (in_namespace sel)]) (inr pods) -> pods = [].

Lemma tools_gate : no_tools_pod -> gated env WaitForOSDPodsStabilize.
Proof.
  intros Hno cs c inst Hc He inst1 Hrun. destruct (cond_Type c) eqn:Hty; try discriminate He.
  cbn [dispatch]. apply wp_state_bind. unfold handleWaitForCephToolsPodRunning.
  eapply wp_lift_seq with (Q1 := fun r _ => exists err, r = inl err).
  - unfold getCephToolsPodPhase, getRunningCephToolsPod. apply wp_bind, wp_bind, wp_ret.
    destruct (fromLabels _) as [err|sel] eqn:Hsel; [cbn; by eexists|].
    apply wp_bind, wp_trigger; [done|]. intros [err|pods] [] Ha; [cbn; by eexists|].
    rewrite (Hno sel pods Hsel Ha). cbn. by eexists.
  - intros ? [] [err ->]. cbn. apply (running_keeps_out _ cs c); [done|]. solve_running.
Qed.

(** It waits, or it has failed. *)
Record waiting inst : Prop := {
  waiting_type : last (types inst) = Some WaitForCephToolsPodRunning;
  waiting_phase : Phase (nr_Status inst) = RunningPhase \/ Phase (nr_Status inst) = FailedPhase;
}.

Lemma last_types cs c inst :
  Conditions (nr_Status inst) = cs ++ [c] -> last (types inst) = Some (cond_Type c).
Proof. intros Hc. unfold types. rewrite Hc, map_app. apply last_snoc. Qed.

Lemma waiting_written inst inst' :
  (forall R (e : Req R) r, env R e r -> clock R e r) -> no_tools_pod -> wf (nr_Status inst) -> waiting inst ->
  issues env (reconcileFetched (inr inst)) (call (StatusUpdate inst')) -> waiting inst'.
Proof.
  intros Hclock Hno Hwf [Hlast _] Hi. destruct (wf_conditions _ Hwf) as (cs & c & Hc & Htr & _).
  assert (cond_Type c = WaitForCephToolsPodRunning) as Hty.
  { rewrite (last_types cs c inst Hc) in Hlast. by injection Hlast. }
  assert (WaitForOSDPodsStabilize ∉ types inst) as Hout.
  { intros Hw. pose proof (trail_rank _ _ Htr) as Hr. rewrite Forall_forall in Hr. specialize (Hr _ Hw).
    rewrite Hty in Hr. cbn in Hr. lia. }
  assert (WaitForOSDPodsStabilize ∉ types inst') as Hout'.
  { change (without WaitForOSDPodsStabilize (call (StatusUpdate inst'))).
    eapply (wp_issues env (without WaitForOSDPodsStabilize) _ _ _ _); [|exact Hi].
    apply fetched_without; [done|by apply tools_gate|done|by right|done]. }
  assert (update_of inst inst') as (inst1 & cs1 & c1 & [_ Hph] & Hz & _ & Hc1 & (_ & _ & _ & Hm) & _).
  { eapply (wp_issues env (updates_from inst) _ _ _ (call (StatusUpdate inst'))); [|exact Hi].
    apply reconcileFetched_updates; [done|by right]. }
  assert (nr_Status inst1 = nr_Status inst) as Heq.
  { destruct Hz as [Hz|Hz]; [done|]. rewrite Hz in Hc. by destruct cs. }
  rewrite Heq, Hc in Hc1. apply app_inj_2 in Hc1 as [<- [= <-]]; [|done]. rewrite Heq in Hph, Hm. clear Hz Heq inst1.
  destruct Hm as [c' Hc' (Ht & _) Hp _|c' n Hc' _ _ He|c' Hc' (Ht & _) Hp _|c' t _ _ Hends _ _].
  - split; [|left; congruence]. by rewrite (last_types cs c' inst' Hc'), Ht, Hty.
  - exfalso. apply Hout'. unfold types. rewrite Hc', map_app. rewrite Hty in He.
    destruct (cond_Type n) eqn:Hn; try discriminate He. cbn. rewrite Hn. set_solver.
  - split; [|by right]. by rewrite (last_types cs c' inst' Hc'), Ht, Hty.
  - rewrite Hty in Hends. by destruct Hends as [?|[o ?]].
Qed.

End Switch.

Section Attempts.
Context `{X : External} `{Init : !Initialized} (env : Answers Req).
Implicit Types (inst : NodeRecovery).

Lemma waiting_attempt now lo hi inst inst1 :
  (0 < now)%Z -> (now <= lo <= hi)%Z -> no_tools_pod env -> alive now inst -> waiting inst ->
  attempt (during_times env lo hi) inst inst1 -> waiting inst1.
Proof.
  intros Hnow Hle Hno Ha Hw [inst' st Hi _ Hs|? Hi|Hp|?]; [|done..].
  assert (wf (nr_Status inst)) as Hwf.
  { destruct (alive_status _ _ Ha) as [Hz|?]; [|done]. destruct Hw as [Hlast _]. unfold types in Hlast. by rewrite Hz in Hlast. }
  assert (waiting inst') as [W1 W2].
  { apply (waiting_written (during_times env lo hi) inst); [|intros sel pods Hsel [Ha' _]; by eapply Hno|done..].
    intros R e r [_ Hr]. eapply (between_clock now lo hi); [done|lia|exact Hr]. }
  split; [by rewrite (kept_types inst inst' st Hs)|]. cbn. by rewrite (stored_Phase _ _ (saved_stored _ _ Hs)).
Qed.

Lemma waiting_attempts delay now n inst inst' :
  (0 < now)%Z -> no_tools_pod env -> attempts env delay now n inst inst' -> alive now inst -> waiting inst -> waiting inst'.
Proof.
  intros Hnow Hno Hat. revert Hnow.
  induction Hat as [now inst|now lo hi n inst inst' Hle _ IH|now lo hi n inst inst1 inst' Hle H1 _ IH]; intros Hnow Ha Hw; [done| |].
  - apply IH; [lia| |done]. eapply alive_later; [|exact Ha]. lia.
  - apply IH; [lia| |by eapply waiting_attempt]. apply attempt_between in H1.
    eapply alive_later; [|by eapply (attempt_alive now lo hi)]. lia.
Qed.

(** The step of a recovery that waits leaves the switch alone. *)
Lemma waiting_leaves_switch inst r :
  last (types inst) = Some WaitForCephToolsPodRunning -> issues any_answer (Reconciler.Reconcile inst) r ->
  kind r <> KWriteOCSInitialization /\ kind r <> KWriteStorageCluster.
Proof.
  intros Hlast Hi. destruct (Conditions (nr_Status inst)) as [|c cs _] eqn:Hc using rev_ind.
  { unfold types in Hlast. by rewrite Hc in Hlast. }
  rewrite (last_types cs c inst Hc) in Hlast. injection Hlast as Hty.
  pose proof (only_issues _ _ _ _ (Reconcile_footprint cs c inst Hc) Hi) as Hk. rewrite Hty in Hk.
  unfold within in Hk. split; intros Heq; rewrite Heq in Hk; cbn in Hk; set_solver.
Qed.

End Attempts.

(** C38: The first step cannot be repeated.  (1) Without a loss: a recovery only
    gets past its first condition, as one that will not keep the tools pod, by
    a reconciliation that enabled the pod and whose write was accepted, and is
    only Completed by one that disabled it again (or else it keeps the pod).
    (2) With a loss: when that reconciliation has enabled the pod but its status
    is lost, the object is still new, in a cluster in which the pod now reads
    as enabled; whatever the cluster answers otherwise, no reconciliation of it
    writes the switch any more, up to the last one, and every status past the
    first condition says that the pod is to be kept. *)
Theorem lost_update_leaves_the_tools_enabled `{X : External} `{Init : !Initialized} (env : Answers Req) :
  (forall R (e : Req R) a, env R e a -> clock R e a) ->
  (forall inst, reachable env (nr_Status inst) ->
     wp (switch_watch env (accounted inst)) (reconcileFetched (inr inst)) None (fun _ _ => True) (fun _ => True))
  /\ (enabled_already env -> forall inst, reachable env (nr_Status inst) ->
      (WaitForCephToolsPodRunning ∈ types inst -> KeepCephToolsPod (nr_Status inst) = true)
      /\ forall r, issues env (reconcileFetched (inr inst)) r ->
           kind r <> KWriteOCSInitialization /\ kind r <> KWriteStorageCluster).
Proof.
  intros Hclock. split.
  - intros inst Hr. apply fetched_watch; [done|done|]. by apply (reachable_cases env Hclock).
  - intros Hen inst Hr. pose proof (reachable_kept env Hclock _ Hen Hr) as Hk. split; [exact Hk|].
    intros r Hi. assert (untouched r) as Hu.
    { eapply (wp_issues env untouched (reconcileFetched (inr inst)) (fun _ _ => True) (fun _ => True)); [|exact Hi].
      by apply fetched_untouched. }
    destruct r as [R e]. destruct e; try done; split; discriminate.
Qed.

(** C39: Recoveries share the tools pod without knowing of each other.  (1) A
    recovery that does not keep the pod is only Completed by a reconciliation
    that disabled it, whether or not another recovery needs it.  (2) Another
    recovery that waits for its tools pod does not enable it: its steps leave
    the switch alone.  (3) As long as no tools pod is listed, as when it was
    disabled, that recovery stays at that condition, whatever the cluster
    answers otherwise, and is never Completed; and once enough attempts have
    reached the server (as in C9) it is Failed. *)
Theorem completed_recovery_takes_the_tools_away `{X : External} `{Init : !Initialized}
    (env env' : Answers Req) (delay : Duration) (now : Time) (n : nat) (earlier later later' : NodeRecovery) :
  (forall R (e : Req R) a, env R e a -> clock R e a) -> reachable env (nr_Status earlier) ->
  (0 < delay)%Z -> (0 < now)%Z -> no_tools_pod env' ->
  alive now later -> last (types later) = Some WaitForCephToolsPodRunning -> Phase (nr_Status later) = RunningPhase ->
  attempts env' delay now n later later' ->
  wp (switch_watch env disabled_last) (reconcileFetched (inr earlier)) None (fun _ _ => True) (fun _ => True)
  /\ (forall r, issues any_answer (Reconciler.Reconcile later') r ->
        kind r <> KWriteOCSInitialization /\ kind r <> KWriteStorageCluster)
  /\ last (types later') = Some WaitForCephToolsPodRunning
  /\ Phase (nr_Status later') <> CompletedPhase
  /\ (15 * (Z.to_nat (reconciliationTimeout / delay) + 2) <= n -> Phase (nr_Status later') = FailedPhase).
Proof.
  intros Hclock Hr Hd Hnow Hno Ha Hlast Hph Hat.
  assert (waiting later') as [Hlast' Hph'] by (eapply waiting_attempts; [done..|split; [done|by left]]).
  split_and!; [|intros r Hi; exact (waiting_leaves_switch later' r Hlast' Hi)|done|by destruct Hph' as [-> | ->]|].
  - apply (fetched_watch env disabled_last earlier Hclock); [by intros ?? []|]. by apply (reachable_cases env Hclock).
  - intros Hn. assert (finished later' = true) as Hf.
    { eapply finished_attempts; [exact Hd|exact Hnow|exact Ha|exact Hat|]. etransitivity; [by apply alive_enough|exact Hn]. }
    destruct Hph' as [Hrun|?]; [|done]. unfold finished in Hf. by rewrite Hrun in Hf.
Qed.

(** ** The status of the first step is lost

    In a cluster where the pod was disabled, a recovery of one reconciliation a
    minute, without and with the loss of the first status. *)
Example lost_update_example :
  sc_EnableCephTools (w_sc Settled) = false
  /\ (let w := after 9 Settled in
      Phase (nr_Status (w_cr w)) = CompletedPhase /\ sc_EnableCephTools (w_sc w) = false)
  /\ (let w := after 9 (with_cr new_cr (reconcile_cr Settled)) in
      Phase (nr_Status (w_cr w)) = CompletedPhase /\ sc_EnableCephTools (w_sc w) = true).
Proof. vm_compute. repeat split. Qed.

Definition retry (w : World) : World := (run held_on (reconcileFetched (inr (w_cr w))) w).2.

Lemma retry_reachable w :
  tools_on w -> reachable enabled_env (nr_Status (w_cr w)) -> reachable enabled_env (nr_Status (w_cr (retry w))).
Proof.
  intros Hw Hr. unfold retry.
  destruct (last_write held_on enabled_env (fun i => call (StatusUpdate i)) tools_on
    (reconcileFetched (inr (w_cr w))) w held_on_answers) as [_ [->|Hi]]; [|done..|].
  - intros R e w'. destruct e; cbn; auto.
  - eapply reachable_update; [exact Hr|exact Hi|apply stored_refl].
Qed.

(** The cluster after the loss, where the switch is held on. *)
Definition Lost : World :=
  with_tools (w_ocsinit Enabled) (w_sc (reconcile_cr Settled)) (with_cr new_cr (reconcile_cr Settled)).

Lemma retried_reachable : reachable enabled_env (nr_Status (w_cr (retry Lost))).
Proof. apply retry_reachable; [by split_and!|apply reachable_new]. Qed.

Lemma enabled_env_clock R (e : Req R) a : enabled_env R e a -> clock R e a.
Proof. intros Ha. destruct e; try exact Ha; exact I. Qed.

Lemma enabled_env_enabled : enabled_already enabled_env.
Proof. split; [intros ? ? o Ho|intros ? ? sc Hs]; [exact (Ho o eq_refl)|exact (Hs sc eq_refl)]. Qed.

Lemma lost_update_leaves_the_tools_enabled_witness :
  wp (switch_watch clock (accounted new_cr)) (reconcileFetched (inr new_cr)) None (fun _ _ => True) (fun _ => True)
  /\ KeepCephToolsPod (nr_Status (w_cr (retry Lost))) = true.
Proof.
  split.
  - apply (lost_update_leaves_the_tools_enabled clock); [done|]. apply reachable_new.
  - apply (proj2 (lost_update_leaves_the_tools_enabled enabled_env enabled_env_clock) enabled_env_enabled
      (w_cr (retry Lost)) retried_reachable). vm_compute. right. left.
Defined.

(** ** Two recoveries at a time

    Rook runs the tools pod while it is switched on; two objects are reconciled
    by turns, a minute apart. *)
Definition is_tools_pod (p : Pod) : bool := bool_decide (pod_Labels p !! "app" = Some "rook-ceph-tools").

Definition deployed (w : World) : list Pod :=
  if sc_EnableCephTools (w_sc w) then w_pods w else filter (fun p => is_tools_pod p = false) (w_pods w).

Definition deploying : Handler Req World := fun R e =>
  match e in Req R return World -> R * World with
  | ListPods opts => fun w => ((cluster _ (ListPods opts) (with_pods (deployed w) w)).1, w)
  | e => cluster _ e
  end.

Inductive Turn := Earlier | Later.

Record Rivals := { earlier : NodeRecovery; later : NodeRecovery; shared : World }.

Definition turn (s : Rivals) (t : Turn) : Rivals :=
  let i := match t with Earlier => earlier s | Later => later s end in
  let w := (run deploying (reconcileFetched (inr i)) (with_cr i (shared s))).2 in
  let w' := with_clock (w_clock w + 60 * Second)%Z w in
  match t with
  | Earlier => {| earlier := w_cr w; later := later s; shared := w' |}
  | Later => {| earlier := earlier s; later := w_cr w; shared := w' |}
  end.

Definition turns (ts : list Turn) : Rivals :=
  fold_left turn ts {| earlier := new_cr; later := new_cr; shared := Settled |}.

(** One after the other both complete; started while the first is on, the second
    never sees its pod once the first is Completed. *)
Example rivals_example :
  (let s := turns (repeat Earlier 9 ++ repeat Later 9) in
   Phase (nr_Status (earlier s)) = CompletedPhase /\ Phase (nr_Status (later s)) = CompletedPhase)
  /\ (let s := turns (repeat Earlier 8 ++ [Later; Earlier] ++ repeat Later 32) in
      Phase (nr_Status (earlier s)) = CompletedPhase
      /\ sc_EnableCephTools (w_sc (shared s)) = false
      /\ KeepCephToolsPod (nr_Status (later s)) = true
      /\ types (later s) = [EnableCephToolsPod; WaitForCephToolsPodRunning]
      /\ Phase (nr_Status (later s)) = FailedPhase).
Proof. vm_compute. repeat split. Qed.

(** The cluster without a tools pod, with its clock stopped during an attempt. *)
Definition toolless : Handler Req World := fun R e =>
  match e in Req R return World -> R * World with
  | ListPods _ => fun w => (inr [], w)
  | e => frozen _ e
  end.

Definition toolless_env : Answers Req := fun R e =>
  match e in Req R return R -> Prop with ListPods _ => fun r => r = inr [] | _ => fun _ => True end.

Lemma toolless_answers R (e : Req R) w :
  during_times toolless_env (w_clock w) (w_clock w) R e (toolless R e w).1 /\ w_clock (toolless R e w).2 = w_clock w.
Proof. unfold toolless, frozen, during_times. destruct e; cbn; split_and!; try done; lia. Qed.

Lemma toolless_cr R (e : Req R) w :
  w_cr (toolless R e w).2 = w_cr w \/ call e = call (StatusUpdate (w_cr (toolless R e w).2)).
Proof. unfold toolless, frozen. destruct e; cbn; auto. Qed.

(** The second recovery has found the pod enabled; then there is none. *)
Definition Found : World := strict frozen Enabled.

Lemma Found_alive : alive (w_clock Found) (w_cr Found).
Proof.
  apply (alive_later (w_clock Enabled)); [vm_compute; discriminate|].
  apply (attempt_alive (w_clock Enabled) (w_clock Enabled) (w_clock Enabled) (w_cr Enabled)); [done|done| |].
  - by apply new_alive.
  - apply (attempt_between any_answer), strict_attempt; [exact frozen_env|exact frozen_cr|]. vm_compute. reflexivity.
Qed.

Lemma completed_recovery_takes_the_tools_away_witness :
  wp (switch_watch clock disabled_last) (reconcileFetched (inr (w_cr (after 8 Settled)))) None (fun _ _ => True) (fun _ => True)
  /\ Phase (nr_Status (w_cr (strictly toolless 31 Found))) = FailedPhase.
Proof.
  destruct (completed_recovery_takes_the_tools_away clock toolless_env (60 * Second) (w_clock Found) 480
    (w_cr (after 8 Settled)) (w_cr Found) (w_cr (strictly toolless 31 Found))) as (Hearlier & _ & _ & _ & Hfailed).
  - done.
  - exact (Settled_reachable 8).
  - reflexivity.
  - vm_compute. reflexivity.
  - intros sel pods _ [= ->]. reflexivity.
  - exact Found_alive.
  - vm_compute. reflexivity.
  - vm_compute. reflexivity.
  - apply (strict_attempts toolless_env toolless toolless_answers toolless_cr 31 449 Found). vm_compute. reflexivity.
  - split; [exact Hearlier|]. apply Hfailed.
    change (15 * (Z.to_nat (reconciliationTimeout / (60 * Second)) + 2)) with 480. reflexivity.
Defined.
