(* ===== verification/CephSpec.v ===== *)
(** * CephSpec: the theorems about the Ceph operations

    The health query, the switch of the tools pod, scaling the deployments of
    an OSD, and the clean-up of the removal job. *)

From Stdlib Require Import Ascii.
From S2P Require Import Prelude Effects GoStd GoStrings Json Api K8s Const Ceph Footprint Fake.

(** ** Reading the health report *)

Section Report.
Implicit Types (ms : list (string * json)).

Definition members (name : string) ms : list (string * json) := filter (fun m => foldName m.1 = name) ms.

Lemma members_cons name m ms :
  members name (m :: ms) = if decide (foldName m.1 = name) then m :: members name ms else members name ms.
Proof. unfold members. by rewrite filter_cons. Qed.

(** Decoding a struct with one field: members for other keys are skipped. *)
Lemma decode_one {T U} (step : json -> T -> U * bool) (wrap : U -> T) name (t0 : T) ms k v u b :
  members name ms = [(k, v)] -> step v t0 = (u, b) ->
  foldl (fun '(t, bad) '(k, v) =>
      if decide (foldName k = name) then let '(u, b) := step v t in (wrap u, bad || b) else (t, bad))
    (t0, false) ms
  = (wrap u, b).
Proof.
  assert (forall t b ms, members name ms = [] ->
    foldl (fun '(t, bad) '(k, v) =>
      if decide (foldName k = name) then let '(u, b) := step v t in (wrap u, bad || b) else (t, bad)) (t, b) ms
    = (t, b)) as Hskip.
  { clear. intros t b ms. induction ms as [|[k v] ms IH]; [done|]. rewrite members_cons. cbn.
    destruct (decide _); [done|apply IH]. }
  intros Hms Hstep. induction ms as [|[k' v'] ms IH]; [done|]. rewrite members_cons in Hms. cbn in *.
  destruct (decide _) as [Hk|Hk]; [|by apply IH]. injection Hms as -> -> Hms. rewrite Hstep. by apply Hskip.
Qed.

End Report.

Section CephSpec.
Context `{X : External} `{Init : !Initialized}.

(** C23: Round trip.  The status read from the JSON text of a health report is
    the one it was printed from: for any report object with one member that
    selects the field [Health], holding an object with one member that selects
    [Status] (in any letter case, among any other members), decoding its text
    into any value succeeds with that status. *)
Theorem health_report_roundtrip (ms hs : list (string * json)) (k k' s : string) (h0 : healthStatus) :
  good (JObject ms) -> (depth (JObject ms) <= maxNestingDepth)%Z ->
  members "HEALTH" ms = [(k, JObject hs)] -> members "STATUS" hs = [(k', JString s)] ->
  Unmarshal_healthStatus (print (JObject ms)) h0 = inr {| Health := {| Status := s |} |}.
Proof.
  intros Hg Hd Hh Hs. unfold Unmarshal_healthStatus. rewrite parse_print by done.
  assert (decode_health (JObject hs) (Health h0) = ({| Status := s |}, false)) as Hhealth.
  { exact (decode_one (fun v h => decode_string v (Status h)) (fun s => {| Status := s |}) "STATUS"
      (Health h0) hs k' (JString s) s false Hs eq_refl). }
  assert (decode_healthStatus (JObject ms) h0 = ({| Health := {| Status := s |} |}, false)) as ->; [|done].
  exact (decode_one (fun v hs => decode_health v (Health hs)) (fun h => {| Health := h |}) "HEALTH"
    h0 ms k (JObject hs) {| Status := s |} false Hh Hhealth).
Qed.

(** Functional behaviour.  The health query answers with a status only when
    a pod labelled as the tools pod was listed, [ceph status -f json] was run in
    the first one, succeeded, wrote nothing to its standard error, and the
    status was read from its standard output; in every other case it answers an
    error. *)
Theorem health_query_result (env : Answers Req) :
  wp (permissive env) getCephHealthStatus tt
    (fun r _ => forall s, r = inr s ->
       exists sel p ps stdout h,
         fromLabels {[ "app" := "rook-ceph-tools" ]} = inr sel
         /\ env _ (ListPods [WithOptions (in_namespace sel)]) (inr (p :: ps))
         /\ env _ (RunCommand p ["ceph"; "status"; "-f"; "json"]) (stdout, "", None)
         /\ Unmarshal_healthStatus stdout {| Health := {| Status := "" |} |} = inr h
         /\ s = Status (Health h))
    (fun _ => False).
Proof.
  unfold getCephHealthStatus. eapply wp_seq with (Q1 := fun r _ => forall p, r = inr p ->
    exists sel ps, fromLabels {[ "app" := "rook-ceph-tools" ]} = inr sel
      /\ env _ (ListPods [WithOptions (in_namespace sel)]) (inr (p :: ps))).
  - unfold getRunningCephToolsPod. cbv zeta. destruct (fromLabels _) as [err|sel] eqn:Hsel; [done|].
    split; [done|]. intros [err|[|p ps]] [] Hp; [done..|]. intros ? [= <-]. by exists sel, ps.
  - intros [err|p] [] Hq; [done|]. destruct (Hq p eq_refl) as (sel & ps & Hsel & Hp).
    apply wp_bind, wp_trigger; [done|]. intros [[stdout stderr] err] [] Hrun.
    destruct err as [err|]; [done|]. destruct (decide _) as [|Hlen]; [done|].
    assert (stderr = "") as -> by (destruct stderr; [done|cbn in Hlen; lia]).
    destruct (Unmarshal_healthStatus _ _) as [err|h] eqn:Hh; [done|].
    intros s [= <-]. by exists sel, p, ps, stdout, h.
Qed.

(** ** The switch of the tools pod *)

(** The API server as the two objects with the switch: an update is stored or
    refused. *)
Definition switch_api (cv : ClusterVersion) : Monitor Req (OCSInitialization * StorageCluster) := {|
  m_pre _ _ _ := True;
  m_post R e s :=
    match e in Req R return R -> OCSInitialization * StorageCluster -> Prop with
    | GetClusterVersion _ => fun r s' => r = inr cv /\ s' = s
    | GetOCSInitialization _ _ => fun r s' => r = inr s.1 /\ s' = s
    | GetStorageCluster _ _ => fun r s' => r = inr s.2 /\ s' = s
    | UpdateOCSInitialization o => fun r s' =>
        (r = None /\ s' = (o, s.2)) \/ (is_Some r /\ s' = s)
    | UpdateStorageCluster sc => fun r s' =>
        (r = None /\ s' = (s.1, sc)) \/ (is_Some r /\ s' = s)
    | _ => fun _ s' => s' = s
    end |}.

Lemma getOCPVersion_api cv h v s :
  firstCompleted (cv_History cv) = Some h -> NewVersion (uh_Version h) = inr v ->
  wp (switch_api cv) getOCPVersion s (fun r s' => r = inr v /\ s' = s) (fun _ => False).
Proof. intros Hh Hv. split; [done|]. intros ? ? [-> ->]. cbn. rewrite Hh. cbn. by rewrite Hv. Qed.

(** C22: Functional behaviour, round trip.  Setting the switch writes the object
    that the version of the platform calls for (the OCSInitialization before
    4.15, the StorageCluster from 4.15 on), in the version that was read, and
    leaves the other one alone; when the update is accepted, reading the switch
    back gives the value that was set, and when it is refused nothing changed. *)
Theorem tools_switch_roundtrip (cv : ClusterVersion) (h : UpdateHistory) (v : Version) (b : bool)
    (o : OCSInitialization) (sc : StorageCluster) :
  firstCompleted (cv_History cv) = Some h -> NewVersion (uh_Version h) = inr v ->
  wp (switch_api cv)
    (err ← setEnableCephToolsValue b; enabled ← isCephToolsEnabled; mret (err, enabled)) (o, sc)
    (fun '(err, enabled) '(o', sc') =>
       match err with
       | None => enabled = inr b
           /\ if LessThan v ocp4_15
              then sc' = sc /\ ocsinit_ResourceVersion o' = ocsinit_ResourceVersion o
              else o' = o /\ sc_ResourceVersion sc' = sc_ResourceVersion sc
       | Some _ => o' = o /\ sc' = sc
       end)
    (fun _ => False).
Proof.
  intros Hh Hv. eapply wp_seq with (Q1 := fun err s => match err with
    | None => if LessThan v ocp4_15
              then ocsinit_EnableCephTools s.1 = b /\ s.2 = sc
                   /\ ocsinit_ResourceVersion s.1 = ocsinit_ResourceVersion o
              else sc_EnableCephTools s.2 = b /\ s.1 = o
                   /\ sc_ResourceVersion s.2 = sc_ResourceVersion sc
    | Some _ => s = (o, sc)
    end).
  - unfold setEnableCephToolsValue. eapply wp_seq; [by apply (getOCPVersion_api cv h v)|].
    intros r ? [-> ->]. destruct (LessThan v ocp4_15); (split; [done|]); intros r ? [-> ->];
      (split; [done|]); intros r s' [[-> ->]|[[e ->] ->]]; done.
  - intros err [o' sc'] Hs. eapply wp_seq with (Q1 := fun r s => s = (o', sc')
      /\ r = inr (if LessThan v ocp4_15 then ocsinit_EnableCephTools o' else sc_EnableCephTools sc')).
    + unfold isCephToolsEnabled. eapply wp_seq; [by apply (getOCPVersion_api cv h v)|].
      intros r ? [-> ->]. destruct (LessThan v ocp4_15); (split; [done|]); by intros r ? [-> ->].
    + intros r ? [-> ->]. cbn. destruct err; [by injection Hs as -> ->|].
      destruct (LessThan v ocp4_15); cbn in Hs; destruct Hs as (-> & -> & ->); done.
Qed.

(** The version of the platform is that of the most
    recent update of the history that was completed: the first such entry, the
    entries before it not being completed; without one it is an error. *)
Lemma version_is_the_latest_completed (cv : ClusterVersion) (env : Answers Req) :
  (forall r, env _ (GetClusterVersion "version") r -> r = inr cv) ->
  wp (permissive env) getOCPVersion tt
    (fun r _ => match r with
       | inr v => exists l1 h l2, cv_History cv = l1 ++ h :: l2 /\ uh_State h = CompletedUpdate
                   /\ Forall (fun i => uh_State i <> CompletedUpdate) l1 /\ NewVersion (uh_Version h) = inr v
       | inl err => Forall (fun i => uh_State i <> CompletedUpdate) (cv_History cv)
                   \/ exists h, h ∈ cv_History cv /\ uh_State h = CompletedUpdate
                        /\ NewVersion (uh_Version h) = inl err
       end)
    (fun _ => False).
Proof.
  intros Henv. split; [done|]. intros r [] Hr. rewrite (Henv r Hr). clear Hr r.
  assert (match firstCompleted (cv_History cv) with
    | Some h => exists l1 l2, cv_History cv = l1 ++ h :: l2 /\ uh_State h = CompletedUpdate
                  /\ Forall (fun i => uh_State i <> CompletedUpdate) l1
    | None => Forall (fun i => uh_State i <> CompletedUpdate) (cv_History cv)
    end) as Hf.
  { induction (cv_History cv) as [|i l IH]; cbn; [constructor|]. destruct (decide _) as [Hi|Hi].
    - by exists [], l.
    - destruct (firstCompleted l) as [h|]; [|by constructor]. destruct IH as (l1 & l2 & -> & Hh & Hl1).
      exists (i :: l1), l2. split_and!; [done|done|by constructor]. }
  cbn. destruct (firstCompleted (cv_History cv)) as [h|]; [|by left].
  destruct Hf as (l1 & l2 & Hl & Hh & Hl1). cbn. destruct (NewVersion _) as [err|v] eqn:Hv.
  - right. exists h. split_and!; [|done|done]. rewrite Hl. set_solver.
  - by exists l1, h, l2.
Qed.

(** ** OSD workloads *)

(** A loop of requests that stops at the first error. *)
Lemma for_check_log {A} (env : Answers Req) (f : A -> Req (option error)) xs log :
  wp (recording env) (for_check (fun x => trigger (f x)) xs) log
    (fun r log' => exists n, n <= length xs /\ log' = log ++ map (fun x => call (f x)) (take n xs)
       /\ (r = None -> n = length xs)) (fun _ => False).
Proof.
  revert log. induction xs as [|x xs IH]; intros log; [exists 0; cbn; by rewrite app_nil_r|].
  split; [done|]. intros [err|] log' [_ ->].
  - exists 1. cbn. rewrite take_0. split_and!; [lia|done|done].
  - eapply wp_mono; [| |apply (IH (log ++ [call (f x)]))]; [|done].
    intros r log' (n & Hn & -> & Hr). exists (S n). cbn. rewrite <- app_assoc.
    split_and!; [lia|done|]. intros Hnone. by rewrite (Hr Hnone).
Qed.

(** Functional behaviour.  Scaling an OSD down lists the deployments
    labelled as its own in the operator's namespace and updates them in order,
    each with zero replicas and nothing else changed; it stops at the first
    error, and when it returns no error all of them were updated. *)
Theorem scale_to_zero_updates_every_deployment (env : Answers Req) (id : string) :
  wp (recording env) (scaleRookCephOSDDeploymentToZero id) []
    (fun r log => match fromLabels (<[ "app" := "rook-ceph-osd" ]> {[ OsdIdLabelKey := id ]}) with
       | inl err => r = Some err /\ log = []
       | inr sel =>
           let list := ListDeployments [WithOptions (in_namespace sel)] in
           (exists err, r = Some err /\ log = [call list])
           \/ exists ds n, env _ list (inr ds) /\ n <= length ds
                /\ log = call list :: map (fun d => call (UpdateDeployment (set_Replicas (Some 0%Z) d))) (take n ds)
                /\ (r = None -> n = length ds)
       end)
    (fun _ => False).
Proof.
  unfold scaleRookCephOSDDeploymentToZero. cbv zeta. destruct (fromLabels _) as [err|sel]; [done|].
  split; [done|]. intros [err|ds] log [Hds ->].
  - left. by exists err.
  - eapply wp_mono; [| |apply (for_check_log env (fun d => UpdateDeployment (set_Replicas (Some 0%Z) d)) ds)];
      [|done].
    intros r log (n & Hn & -> & Hr). right. exists ds, n. by split_and!.
Qed.

(** ** The removal job *)

(** The job and its pods in the API server: what is asked for is there or not,
    and a deletion is done or refused. *)
Record JobState := { js_job : option Job; js_pods : bool }.

Definition job_selector : labels := {[ "job-name" := "ocs-osd-removal-job" ]}.

Definition job_api : Monitor Req JobState := {|
  m_pre _ _ _ := True;
  m_post R e s :=
    match e in Req R return R -> JobState -> Prop with
    | GetJob ns name => fun r s' => s' = s /\
        match js_job s with
        | Some j => r = inr j \/ exists err, r = inl err /\ IsNotFound err = false
        | None => exists err, r = inl err
        end
    | DeleteJob j => fun r s' =>
        (r = None /\ s' = {| js_job := None; js_pods := js_pods s |}) \/ (is_Some r /\ s' = s)
    | DeleteAllOfPods o => fun r s' =>
        (r = None /\ js_job s' = js_job s
         /\ forall sel, fromLabels job_selector = inr sel ->
              o = {| dao_ListOptions := in_namespace sel; dao_GracePeriodSeconds := Some 0%Z |} ->
              js_pods s' = false)
        \/ (is_Some r /\ s' = s)
    | _ => fun _ s' => s' = s
    end |}.

(** Functional behaviour.  Cleaning up the removal job tolerates a job that
    does not exist and nothing else: when it returns no error, the job is gone
    and its pods were deleted at once, whether or not there was a job; when
    there is no job, it only fails on an error that is not NotFound or on the
    deletion of the pods. *)
Theorem removal_job_cleanup (s : JobState) :
  wp job_api deleteOldOSDRemovalJob s
    (fun r s' => r = None -> js_job s' = None /\ js_pods s' = false) (fun _ => False).
Proof.
  unfold deleteOldOSDRemovalJob. split; [done|]. intros job s1 [-> Hjob].
  eapply wp_seq with (Q1 := fun r s' => r = None -> js_job s' = None).
  - destruct job as [err|j].
    + apply wp_ret. destruct (IsNotFound err) eqn:Hnf; [|done]. intros _.
      destruct (js_job s) as [j|]; [|done].
      destruct Hjob as [?|(e & [= <-] & He)]; [done|congruence].
    + split; [done|]. intros r s' [[-> ->]|[[err ->] ->]]; done.
  - intros [err|] s1 Hs1; [done|]. specialize (Hs1 eq_refl). cbv zeta.
    destruct (fromLabels _) as [err|sel] eqn:Hsel; [done|].
    split; [done|]. intros r s' [(-> & Hj & Hp)|[[err ->] ->]]; [|done]. intros _.
    split; [by rewrite Hj|]. by apply (Hp sel).
Qed.

End CephSpec.

(** ** Witnesses *)

Definition sample_health : list (string * json) :=
  [("checks", JObject []); ("status", JString "HEALTH_WARN")].
Definition sample_report : list (string * json) :=
  [("fsid", JString "5a3b"); ("HEALTH", JObject sample_health); ("quorum", JArray [JNumber "0"; JNumber "1"])].

Lemma sample_good : good (JObject sample_report).
Proof. cbn. unfold ascii_string. repeat (split || constructor); vm_compute; reflexivity. Qed.

Lemma health_report_roundtrip_witness :
  Unmarshal_healthStatus (print (JObject sample_report)) {| Health := {| Status := "" |} |}
  = inr {| Health := {| Status := "HEALTH_WARN" |} |}.
Proof.
  apply (health_report_roundtrip sample_report sample_health "HEALTH" "status" "HEALTH_WARN").
  - exact sample_good.
  - vm_compute. discriminate.
  - vm_compute. reflexivity.
  - vm_compute. reflexivity.
Defined.

Definition sample_version : ClusterVersion :=
  {| cv_History := [ {| uh_State := "Partial"; uh_Version := "4.16.2" |};
                     {| uh_State := "Completed"; uh_Version := "4.14.9" |} ] |}.

Definition v4_14 : @Version fake := (4, 14)%Z.

Lemma tools_switch_roundtrip_witness :
  wp (switch_api sample_version)
    (err ← setEnableCephToolsValue true; enabled ← isCephToolsEnabled; mret (err, enabled))
    ({| ocsinit_ResourceVersion := "1"; ocsinit_EnableCephTools := false |},
     {| sc_ResourceVersion := "2"; sc_EnableCephTools := false |})
    (fun '(err, enabled) '(o', sc') => err = None -> sc_ResourceVersion sc' = "2" /\ enabled = inr true)
    (fun _ => False).
Proof.
  eapply wp_mono; [| |apply (tools_switch_roundtrip sample_version
    {| uh_State := "Completed"; uh_Version := "4.14.9" |} v4_14 true); reflexivity]; [|done].
  intros [err enabled] [o' sc'] H Herr. subst err. cbn in H. by destruct H as (-> & -> & _).
Defined.

Definition version_env : Answers Req := fun R e =>
  match e in Req R return R -> Prop with
  | GetClusterVersion _ => fun r => r = inr sample_version
  | _ => fun _ => True
  end.

Example version_is_the_latest_completed_ex :
  wp (permissive version_env) getOCPVersion tt (fun r _ => r = inr v4_14) (fun _ => False).
Proof.
  eapply wp_mono; [| |apply (version_is_the_latest_completed sample_version version_env); by intros r Hr];
    [|done].
  intros [err|v] [] H.
  - exfalso. destruct H as [H|(h & Hin & Hs & Hv)].
    + apply Forall_cons in H as [_ H]. by apply Forall_cons in H as [H _].
    + apply elem_of_cons in Hin as [->|Hin]; [done|].
      apply list_elem_of_singleton in Hin as ->. vm_compute in Hv. discriminate Hv.
  - destruct H as (l1 & h & l2 & Hl & Hs & Hl1 & Hv). destruct l1 as [|i [|j l1]].
    + injection Hl as <- _. done.
    + injection Hl as <- <- _. vm_compute in Hv. by injection Hv as <-.
    + injection Hl as <- <- Hl. by destruct l1.
Defined.
