(* ===== verification/RecoverySpec.v ===== *)
(** * RecoverySpec: the theorems about the building blocks

    How pods are classified, how nodes are labelled, how the removal template
    is filled in, when the log of the removal job is accepted, and when the
    volumes are bound again. *)

From Stdlib Require Import Ascii.
From S2P Require Import Prelude Effects GoStd GoStrings Api K8s Const Monitoring Ceph Recovery.
From S2P Require Import Reconciler Footprint StateMachine Gates Fake.

Section Pods.
Context `{X : External} `{Init : !Initialized}.

(** ** Pods that are starting *)

Definition waits_for (reason : string) (status : ContainerStatus) : Prop :=
  exists w, cs_Waiting status = Some w /\ waiting_Reason w = reason.

Definition starting (status : ContainerStatus) : Prop :=
  waits_for ContainerCreating status \/ waits_for PodInitializing status.

Lemma checkStatuses_None name sts err :
  checkStatuses name sts err = None <->
  Exists (waits_for podStateReasonCrashLoopBackOff) sts
  \/ err = None /\ Forall (fun status => ~ starting status) sts.
Proof.
  assert (forall w r s, cs_Waiting s = Some w -> waits_for r s <-> waiting_Reason w = r) as Hw.
  { intros w r s Hs. unfold waits_for. rewrite Hs. naive_solver. }
  revert err. induction sts as [|s sts IH]; intros err; cbn [checkStatuses].
  - rewrite Exists_nil, Forall_nil. naive_solver.
  - rewrite Exists_cons, Forall_cons. destruct (cs_Waiting s) as [w|] eqn:Hs.
    + unfold starting. rewrite !(Hw w) by done. destruct (decide _) as [Hc|Hc]; [naive_solver|].
      destruct (decide _) as [Hst|Hst]; rewrite IH, ?errors_Join2_None; naive_solver.
    + assert (forall r, ~ waits_for r s) as Hno by (intros r (w & Hw' & _); congruence).
      rewrite IH. unfold starting. naive_solver.
Qed.

(** C40: Functional behaviour.  When the pods of the operator's namespace could be
    listed, the check that they have settled lets a recovery go on exactly when
    every one of them has a container (an init container or another one) in
    CrashLoopBackOff or has none that is being created or initialised. *)
Theorem pods_settled_iff (env : Answers Req) (pods : list Pod) :
  (forall r, env _ (ListPods [WithOptions {| lo_Namespace := ODF_NAMESPACE; lo_LabelSelector := None |}]) r -> r = inr pods) ->
  wp (permissive env) hasPodsInCreatingOrInitializingState tt
    (fun r _ => exists err, r = inr err /\
      (err = None <->
       Forall (fun p => Exists (waits_for podStateReasonCrashLoopBackOff) (statuses p)
                        \/ Forall (fun status => ~ starting status) (statuses p)) pods))
    (fun _ => False).
Proof.
  intros Henv. split; [done|]. intros r [] Hr. rewrite (Henv r Hr). cbn. eexists. split; [reflexivity|].
  assert (forall err, foldl (fun errs pod => errors_Join [errs; checkPodStatus pod]) err pods = None
    <-> err = None /\ Forall (fun p => checkPodStatus p = None) pods) as Hfold.
  { clear. induction pods as [|p pods IH]; intros err; cbn [foldl]; [rewrite Forall_nil; naive_solver|].
    rewrite IH, errors_Join2_None, Forall_cons. naive_solver. }
  rewrite Hfold. split.
  - intros [_ H]. eapply Forall_impl; [exact H|]. intros p Hp%checkStatuses_None. naive_solver.
  - intros H. split; [done|]. eapply Forall_impl; [exact H|]. intros p Hp. apply checkStatuses_None. naive_solver.
Qed.

(** ** Operational and failing pods *)

Definition failing_status (status : ContainerStatus) : Prop :=
  waits_for podStateReasonCrashLoopBackOff status
  \/ exists t, cs_Terminated status = Some t /\ terminated_Reason t = podStateReasonError.

Lemma isStatusFailing_spec status : isStatusFailing status = true <-> failing_status status.
Proof.
  unfold isStatusFailing, failing_status, waits_for.
  destruct (cs_Waiting status), (cs_Terminated status); cbn;
    rewrite ?orb_true_iff, ?bool_decide_eq_true; naive_solver.
Qed.

Lemma isPodFailing_spec sts :
  isPodInCrashBackLoopOffOrErrorStatus sts = true <-> Exists failing_status sts.
Proof.
  induction sts as [|s sts IH]; cbn; [by rewrite Exists_nil|]. rewrite Exists_cons, <- isStatusFailing_spec.
  destruct (isStatusFailing s); naive_solver.
Qed.

(** Functional behaviour.  The classification of the OSD pods splits the
    listing: every pod is in exactly one of the two lists, in the order of the
    listing; the failing ones are those with a container waiting in
    CrashLoopBackOff or terminated in Error. *)
Theorem classification_is_a_partition (env : Answers Req) :
  wp (permissive env) getOSDPodsInOperationalAndFailingStatus tt
    (fun r _ => forall op fl, r = inr (op, fl) ->
       exists sel pods, fromLabels {[ "app" := "rook-ceph-osd" ]} = inr sel
         /\ env _ (ListPods [WithOptions (in_namespace sel)]) (inr pods)
         /\ op ++ fl ≡ₚ pods /\ sublist op pods /\ sublist fl pods
         /\ Forall (fun p => Exists failing_status (statuses p)) fl
         /\ Forall (fun p => ~ Exists failing_status (statuses p)) op)
    (fun _ => False).
Proof.
  unfold getOSDPodsInOperationalAndFailingStatus, getOSDPods.
  destruct (fromLabels _) as [err|sel] eqn:Hsel; [done|].
  split; [done|]. intros [err|pods] [] Hpods; [done|]. cbn [wp mret prog_ret bind mbind prog_bind].
  rewrite classification_filter. cbn [app]. intros op fl [= <- <-]. exists sel, pods.
  split_and!; [done|done| |apply sublist_filter|apply sublist_filter| |].
  - clear. induction pods as [|p pods IH]; [done|]. rewrite !filter_cons.
    destruct (isPodInCrashBackLoopOffOrErrorStatus _) eqn:E; repeat (case_decide; try congruence); cbn.
    + by rewrite <- Permutation_middle, IH.
    + by rewrite IH.
  - apply Forall_forall. intros p [Hp _]%list_elem_of_filter. by apply isPodFailing_spec.
  - apply Forall_forall. intros p [Hp _]%list_elem_of_filter. rewrite <- isPodFailing_spec. congruence.
Qed.

End Pods.

Section Nodes.
Context `{X : External} `{Init : !Initialized}.

(** ** Labelling nodes *)

(** A node with the storage label, and nothing else changed. *)
Definition labelled (n : Node) : Node :=
  {| node_Name := node_Name n; node_ResourceVersion := node_ResourceVersion n;
     node_Labels := Some (<[NodeAffinityKey := ""]> (default ∅ (node_Labels n))) |}.

Definition label_requests (name : string) (n : Node) : list (Call Req) :=
  [call (GetNode name); call (UpdateNode (labelled n))].

Lemma labelNode_log env name log :
  wp (recording env) (labelNode name) log
    (fun r log' => r = None -> exists n, env _ (GetNode name) (inr n) /\ log' = log ++ label_requests name n)
    (fun _ => False).
Proof.
  split; [done|]. intros [err|n] log' [Hn ->]; [done|].
  destruct n as [nm rv ls]. destruct ls as [ls|]; (split; [done|]); intros r log' [_ ->] ->;
    eexists; (split; [exact Hn|]); by rewrite <- app_assoc.
Qed.

(** C21: Functional behaviour.  Labelling the nodes of the pending pods never
    writes through a nil map of labels, and when it returns no error, every node
    that is selected by a pending pod (each once, in some order) was read and
    written back with the storage label added to the labels it had, in the
    version that was read. *)
Theorem pending_nodes_are_labelled (env : Answers Req) (pods : list Pod) :
  (forall ks r, env _ (RangeKeys ks) r -> r ≡ₚ ks) ->
  wp (recording env) (labelNodesWithPodsInPendingState pods) []
    (fun r log => r = None -> exists names ns,
       NoDup names /\ (forall name, name ∈ names <->
         exists p, p ∈ pods /\ name = index (pod_NodeSelector p) LabelHostname)
       /\ Forall2 (fun name n => env _ (GetNode name) (inr n)) names ns
       /\ log = call (RangeKeys (elements (nodeNames pods))) :: concat (zip_with label_requests names ns))
    (fun _ => False).
Proof.
  intros Hrange. unfold labelNodesWithPodsInPendingState. split; [done|]. intros names log [Hn%Hrange ->].
  cbn [app]. set (start := call (RangeKeys (elements (nodeNames pods)))).
  apply wp_forM with (I := fun done_ errs log => errs = None -> exists ns,
    Forall2 (fun name n => env _ (GetNode name) (inr n)) done_ ns
    /\ log = start :: concat (zip_with label_requests done_ ns)).
  - intros _. exists []. by repeat constructor.
  - intros done_ name errs log _ Hinv. eapply wp_seq; [apply labelNode_log|].
    intros [err|] log' Hlog.
    + intros Hnone. by apply errors_Join2_None in Hnone as [_ [=]].
    + intros Hnone. destruct (Hinv Hnone) as (ns & Hns & ->). destruct (Hlog eq_refl) as (n & Hget & ->).
      exists (ns ++ [n]). split; [by apply Forall2_app; [|repeat constructor]|].
      rewrite zip_with_app by (by eapply Forall2_length). cbn. by rewrite concat_app.
  - intros errs log Hinv Hnone. destruct (Hinv Hnone) as (ns & Hns & ->).
    exists names, ns. split_and!; [| |done|done].
    + rewrite Hn. apply NoDup_elements.
    + intros name. rewrite Hn, elem_of_elements. unfold nodeNames.
      rewrite elem_of_list_to_set, list_elem_of_fmap. naive_solver.
Qed.

(** ** The removal template *)

(** [GetParameterByName] finds a parameter with the name. *)
Definition parameter_named : Prop := forall ps name i,
  GetParameterByName ps name = Some i -> exists p, ps !! i = Some p /\ param_Name p = name.

Definition has_parameter (t : Template) (name value : string) : Prop :=
  {| param_Name := name; param_Value := value |} ∈ tmpl_Parameters t.

Definition template_filled (ids : list string) (force : bool) (r : Call Req) : Prop :=
  match projT2 r with
  | ProcessTemplate _ t =>
      has_parameter t FAILED_OSD_IDS (strings_Join ids ",")
      /\ has_parameter t FORCE_OSD_REMOVAL (if force then "true" else "false")
  | Create o => exists cobj, o = SetNamespace ODF_NAMESPACE cobj
  | GetTemplate ns name => ns = ODF_NAMESPACE /\ name = OCS_OSD_REMOVAL_JOB
  | Now => True
  | _ => False
  end.

Lemma setParameterValue_spec name v t M (s : unit) :
  parameter_named ->
  wp M (setParameterValue (GetParameterByName (tmpl_Parameters t) name) v t) s
    (fun t' _ => has_parameter t' name v
       /\ forall name' v', name' <> name -> has_parameter t name' v' -> has_parameter t' name' v') (fun _ => True).
Proof.
  intros Hnamed. destruct (GetParameterByName _ _) as [i|] eqn:Hi; [|exact I].
  destruct (Hnamed _ _ _ Hi) as (p & Hp & Hname). cbn. unfold has_parameter. cbn. split.
  - apply list_elem_of_lookup. exists i. rewrite list_lookup_alter, decide_True by done. rewrite Hp. cbn. by rewrite Hname.
  - intros name' v' Hne [j Hj]%list_elem_of_lookup. apply list_elem_of_lookup. exists j.
    destruct (decide (i = j)) as [->|Hij]; [|by rewrite list_lookup_alter_ne].
    rewrite Hp in Hj. injection Hj as ->. by cbn in Hname.
Qed.

(** C20: Functional behaviour.  The removal template is processed with its
    parameter FAILED_OSD_IDS set to the ids separated by commas and
    FORCE_OSD_REMOVAL to the text of the flag, and every object created from it
    is put in the operator's namespace; no other request is made. *)
Theorem removal_template_is_filled_in (env : Answers Req) (ids : list string) (force : bool) :
  parameter_named ->
  wp (allowing env (template_filled ids force)) (processOCSOSDRemovalTemplate ids force) tt
    (fun _ _ => True) (fun _ => True).
Proof.
  intros Hnamed. unfold processOCSOSDRemovalTemplate. split; [done|]. intros [err|t] [] _; [exact I|].
  eapply wp_seq; [by apply setParameterValue_spec|]. intros t1 [] [H1 _].
  eapply wp_seq; [by apply setParameterValue_spec|]. intros t2 [] [H2 Hkeep].
  split; [done|]. intros now [] _. split; [split; [by apply Hkeep|by destruct force]|].
  intros [t3 [|err errs]] [] _; [|exact I].
  apply (only_wp (template_filled ids force)); [done| |by apply wp_trivial].
  apply only_for_check. intros obj _. unfold createTemplateObject. apply only_bind; [done|].
  intros [err|o]; [done|]. destruct (asClientObject o) as [cobj|]; [|done]. apply only_trigger. by exists cobj.
Qed.

End Nodes.

Section Log.
Context `{X : External} `{Init : !Initialized}.

(** Functional behaviour.  The log of the removal job is judged by its last
    line: when it ends in a line that begins and ends in a visible ASCII
    character, followed by any ASCII white space (as the trailing newline) and
    preceded by anything at all, it is accepted if and only if that line
    contains "completed removal" in any letter case; otherwise the error quotes
    the line. *)
Theorem last_line_of_the_log_decides (name body line blanks : string) (env : Answers Req) :
  clean_line line -> blank blanks ->
  (forall r, env _ (GetLogs name) r -> r = inr (body +:+ String nl (line +:+ blanks))) ->
  wp (permissive env) (validateJobLogs name) tt
    (fun r _ => r = if Contains (ToLower line) "completed removal" then None
                    else Some (Errorf ("osd job removal completed with failure: " +:+ line)))
    (fun _ => False).
Proof.
  intros Hline Hblanks Henv. split; [done|]. intros r [] Hr. rewrite (Henv r Hr).
  cbn [wp mret prog_ret mbind prog_bind bind]. cbv zeta. rewrite last_line_TrimSpace by done.
  change osdJobSuccessMessage with "completed removal".
  by destruct (Contains (ToLower line) "completed removal").
Qed.

End Log.

Section Bound.
Context `{X : External} `{Init : !Initialized} (env : Answers Req).

(** Every listing of pods is shorter than [n]. *)
Definition fewer_pods_than (n : nat) : Prop := forall opts pods,
  env _ (ListPods opts) (inr pods) -> length pods < n.

Lemma countPVCs_few n :
  fewer_pods_than n ->
  wp (permissive env) countPVCsBoundToODSPods tt (fun r _ => forall k, r = inr k -> k < n) (fun _ => True).
Proof.
  intros Hn. unfold countPVCsBoundToODSPods. apply wp_bind, wp_trigger; [done|].
  intros [err|l] [] _; [done|]. cbv zeta. apply wp_bind, wp_ret.
  destruct (LabelSelectorAsSelector {| MatchLabels := {["app" := "rook-ceph-osd"]};
    MatchExpressions := _ |}) as [err|sel]; [done|].
  apply wp_bind, wp_trigger; [done|]. intros [err|pods] [] Hp; [done|]. intros k [= <-]. exact (Hn _ _ Hp).
Qed.

End Bound.

(** C26: Safety.  While fewer OSD pods with a bound claim are listed than there
    were operational OSDs and failing ones together, the recovery stays in
    [WaitForPersistenVolumeBound]: whatever else the cluster answers, a step from
    it does not go on to restart the Rook operator. *)
Theorem volumes_wait_for_every_claim `{X : External} `{Init : !Initialized} (env : Answers Req)
    (inst : NodeRecovery) cs c :
  Conditions (nr_Status inst) = cs ++ [c] -> cond_Type c = WaitForPersistenVolumeBound ->
  fewer_pods_than env (length (OperationalOSDIDs (nr_Status inst)) + length (NodeDevice (nr_Status inst))) ->
  wp (permissive env) (Reconciler.Reconcile inst) tt
    (fun r _ => Gates.types r.2 = Gates.types inst) (fun _ => True).
Proof.
  intros Hc Hty Hfew.
  destruct (Reconcile_unfold cs c inst Hc) as (k & -> & Hk). split; [done|]. intros now [] _.
  destruct (Hk now) as (k' & -> & Hk'). split; [done|]. intros now' [] _. rewrite Hk', Hty. clear Hk Hk'.
  pose proof (running_probed now cs c inst Hc) as Hrun. set (inst1 := probed now cs inst) in *.
  assert (forall i, running cs c inst i -> Gates.types i = Gates.types inst) as Htypes
    by by intros; apply (running_types cs c).
  destruct (After _ _).
  { eapply wp_mono; [| |apply timedOut_ends]; [|done]. intros r [] [Hr _]. unfold Gates.types in *.
    rewrite Hr. by apply Htypes. }
  cbn [dispatch]. apply wp_state_bind, wp_state_bind. unfold handleWaitForPersistenVolumeBound.
  apply wp_status, wp_lift_any; [done..|]. intros [ret|[errs|]] []; [by apply Htypes| |].
  { cbn. apply Htypes. solve_running. }
  eapply wp_lift_seq; [by eapply countPVCs_few|]. intros [err|n] [] Hn.
  { cbn. apply Htypes. solve_running. }
  specialize (Hn n eq_refl). destruct (decide _) as [_|Hge]; [|by destruct Hge].
  cbn. apply Htypes. solve_running.
Qed.

(** ** Witnesses *)

Definition one_pod_env : Answers Req := fun R e =>
  match e in Req R return R -> Prop with
  | ListPods _ => fun r => r = inr [osd_pod "0" (Some "PodInitializing")]
  | _ => fun _ => True
  end.

Lemma pods_settled_iff_witness :
  wp (permissive one_pod_env) hasPodsInCreatingOrInitializingState tt
    (fun r _ => exists err, r = inr err /\ is_Some err) (fun _ => False).
Proof.
  eapply wp_mono; [| |apply (pods_settled_iff one_pod_env [osd_pod "0" (Some "PodInitializing")]);
    by intros r Hr]; [|done].
  intros r [] (err & -> & Herr). exists err. split; [done|]. destruct err as [err|]; [by eexists|].
  exfalso. destruct (proj1 (proj1 (Forall_cons _ _ _) (proj1 Herr eq_refl))) as [Hc|Hs].
  - apply Exists_cons in Hc as [(w & [= <-] & Hw)|Hc]; [discriminate Hw|by apply Exists_nil in Hc].
  - apply Forall_cons in Hs as [Hs _]. apply Hs. right. by eexists.
Defined.

Definition ordered_env : Answers Req := fun R e =>
  match e in Req R return R -> Prop with
  | RangeKeys ks => fun r => r = reverse ks
  | _ => fun _ => True
  end.

Lemma pending_nodes_are_labelled_witness :
  wp (recording ordered_env) (labelNodesWithPodsInPendingState [osd_pod "2" None]) []
    (fun r log => r = None -> call (GetNode "node-2") ∈ log) (fun _ => False).
Proof.
  eapply wp_mono; [| |apply (pending_nodes_are_labelled ordered_env [osd_pod "2" None]);
    intros ks r Hr; cbn in Hr; subst r; apply reverse_Permutation]; [|done].
  intros r log H Hnone. destruct (H Hnone) as (names & ns & _ & Hin & Hns & ->).
  assert ("node-2" ∈ names) as Hname.
  { apply Hin. exists (osd_pod "2" None). split; [constructor|vm_compute; reflexivity]. }
  apply elem_of_cons; right. clear Hin H. induction Hns as [|name n names ns _ _ IH]; [set_solver|].
  apply elem_of_cons in Hname as [<-|Hname]; cbn; [set_solver|]. do 2 (apply elem_of_cons; right). by apply IH.
Defined.

Lemma fake_parameter_named : parameter_named.
Proof.
  intros ps name i. change (GetParameterByName ps name) with (fake_parameter ps name). revert i.
  induction ps as [|p ps IH]; intros i; cbn; [done|]. destruct (decide _) as [Hp|Hp].
  - intros [= <-]. by exists p.
  - intros (j & Hj & ->)%fmap_Some. by apply IH.
Qed.

Lemma removal_template_is_filled_in_witness :
  wp (allowing any_answer (template_filled ["2"; "5"] true)) (processOCSOSDRemovalTemplate ["2"; "5"] true) tt
    (fun _ _ => True) (fun _ => True).
Proof. apply (removal_template_is_filled_in any_answer ["2"; "5"] true). exact fake_parameter_named. Defined.

Definition sample_line : string := "2024-05-01 cephosd: Completed removal of OSD 2".

Definition log_env : Answers Req := fun R e =>
  match e in Req R return R -> Prop with
  | GetLogs _ => fun r => r = inr ("starting" +:+ String nl (sample_line +:+ String nl ""))
  | _ => fun _ => True
  end.

Lemma sample_line_clean : clean_line sample_line.
Proof.
  split_and!.
  - apply (bool_decide_unpack _). vm_compute. exact I.
  - eexists _, _. split; [reflexivity|]. vm_compute. reflexivity.
  - exists "2024-05-01 cephosd: Completed removal of OSD ", "2"%char. split; vm_compute; reflexivity.
Qed.

Lemma last_line_of_the_log_decides_witness :
  wp (permissive log_env) (validateJobLogs "ocs-osd-removal-job-x") tt (fun r _ => r = None) (fun _ => False).
Proof.
  eapply wp_mono; [| |apply (last_line_of_the_log_decides "ocs-osd-removal-job-x" "starting" sample_line
    (String nl "") log_env sample_line_clean); [by repeat constructor|by intros r Hr]]; [|done].
  intros r [] ->. vm_compute. reflexivity.
Defined.

Definition waiting : NodeRecovery := set_Status (fun st =>
  set_OperationalOSDIDs ["0"; "1"] (set_Conditions
    [ {| cond_Type := WaitForPersistenVolumeBound; cond_LastTransitionTime := unixEpoch;
         cond_LastProbeTime := zeroTime; cond_Reason := ""; cond_Message := ""; cond_Status := StatusTrue |} ] st))
  new_cr.

Lemma volumes_wait_for_every_claim_witness :
  wp (permissive one_pod_env) (Reconciler.Reconcile waiting) tt
    (fun r _ => Gates.types r.2 = [WaitForPersistenVolumeBound]) (fun _ => True).
Proof.
  apply (volumes_wait_for_every_claim one_pod_env waiting []
    {| cond_Type := WaitForPersistenVolumeBound; cond_LastTransitionTime := unixEpoch;
       cond_LastProbeTime := zeroTime; cond_Reason := ""; cond_Message := ""; cond_Status := StatusTrue |}).
  - reflexivity.
  - reflexivity.
  - intros opts pods [= ->]. cbn. lia.
Defined.
