(* ===== verification/Registry.v ===== *)
(** * Registry: the theorems about the metrics registry and the condition types *)

From S2P Require Import Prelude Effects GoStd Api K8s Const Monitoring Reconciler Fake.

(** Registering the metrics never panics, whatever
    was registered before, and leaves exactly the five counters of the operator
    in the registry, in order. *)
Lemma metrics_register `{Prometheus} (registry : Registry) :
  exists registry', RegisterMetrics registry = Done registry' /\ registered registry' = metricsList.
Proof.
  destruct (registerAll_fresh metricsList NewRegistry) as (reg & Hrun & Hreg).
  { rewrite registered_new. apply (bool_decide_unpack _). vm_compute. exact I. }
  exists reg. by rewrite Hreg, registered_new.
Qed.

(** A registry that is the list of its counters. *)
#[export] Instance list_registry : Prometheus.
Proof.
  refine {| Registry := list CounterVec; NewRegistry := [];
    MustRegister reg c :=
      if decide (ctr_Name c ∈ map ctr_Name reg)
      then Panicked "duplicate metrics collector registration attempted"
      else Done (reg ++ [c]);
    registered reg := reg |}.
  - reflexivity.
  - intros reg c Hc. rewrite decide_False by done. by eexists.
Defined.

(** The condition types and their texts correspond: every text
    is the text of exactly one type, and a type that is written out and read
    back is the same, for each type the operator can write. *)
Lemma condition_type_roundtrip (s : string) (t : RecoveryConditionType) :
  conditionTypeString (conditionTypeOfString s) = s
  /\ (t ∈ map fst namedConditionTypes -> conditionTypeOfString (conditionTypeString t) = t)
  /\ (forall t', t ∈ map fst namedConditionTypes -> t' ∈ map fst namedConditionTypes ->
        conditionTypeString t = conditionTypeString t' -> t = t').
Proof.
  assert (forall u, u ∈ map fst namedConditionTypes -> conditionTypeOfString (conditionTypeString u) = u) as Hu.
  { intros u Hu. apply conditionTypeOfString_string. intros v ->. cbn in Hu. set_unfold. naive_solver. }
  split_and!; [apply conditionTypeString_ofString|apply Hu|].
  intros t' Ht Ht' Heq. rewrite <- (Hu t Ht), <- (Hu t' Ht'). by rewrite Heq.
Qed.
