(* ===== verification/Manager.v ===== *)
(** * Manager: registration with the controller manager

    [NodeRecoveryReconciler.SetupWithManager] of
    internal/controller/noderecovery_controller.go.  The manager is a signature
    of its own: registering an index of its cache, and completing the
    controller.  The cached client answers a List with a field selector from
    such an index only, so the selectors the operator uses are related to the
    indexes it registers. *)

From S2P Require Import Prelude Effects GoStd Api K8s Const Monitoring Ceph Recovery Reconciler Controller Footprint.
From S2P Require Import StateMachine Fake.

(** The kinds of objects the operator lists or watches. *)
Inductive Resource :=
| Pods | PersistentVolumeClaims | PersistentVolumes | Deployments | NodeRecoveries.

#[export] Instance Resource_eq_dec : EqDecision Resource.
Proof. solve_decision. Defined.

(** A [client.Object], as far as a type assertion on it can tell. *)
Inductive Object :=
| PodObject (p : Pod)
| PersistentVolumeClaimObject (p : PersistentVolumeClaim)
| OtherObject.

Inductive EventPredicate := GenerationChangedPredicate.

Section Registration.
(** The reconcilers that can be registered. *)
Context {C : Type}.

Inductive ManagerReq : Type -> Type :=
| IndexField (obj : Resource) (field : string) (extractValue : Object -> list string)
  : ManagerReq (option error)
| Complete (for_ : Resource) (predicates : list EventPredicate) (owns : list Resource) (r : C)
  : ManagerReq (option error).

(** The two index functions. *)
Definition podPhase (rawObj : Object) : list string :=
  match rawObj with PodObject obj => [pod_Phase obj] | _ => [] end.

Definition pvcPhase (rawObj : Object) : list string :=
  match rawObj with PersistentVolumeClaimObject obj => [pvc_Phase obj] | _ => [] end.

Definition SetupWithManager (r : C) : Prog ManagerReq (option error) :=
  check trigger (IndexField Pods podStatusPhaseFieldSelector podPhase);
  check trigger (IndexField PersistentVolumeClaims pvcStatusPhaseFieldSelector pvcPhase);
  trigger (Complete NodeRecoveries [GenerationChangedPredicate] [NodeRecoveries] r).

(** ** The requests of a registration *)

(** Keeps the requests and the errors they were answered with. *)
Definition registering : Monitor ManagerReq (list (Call ManagerReq * option error)) := {|
  m_pre _ _ _ := True;
  m_post R e log r log' :=
    match e in ManagerReq R return R -> Prop with
    | IndexField o f v => fun r => log' = log ++ [(call (IndexField o f v), r)]
    | Complete f p o c => fun r => log' = log ++ [(call (Complete f p o c), r)]
    end r |}.

Definition setup_calls (r : C) : list (Call ManagerReq) :=
  [ call (IndexField Pods podStatusPhaseFieldSelector podPhase);
    call (IndexField PersistentVolumeClaims pvcStatusPhaseFieldSelector pvcPhase);
    call (Complete NodeRecoveries [GenerationChangedPredicate] [NodeRecoveries] r) ].

(** What the log of a registration is for its result. *)
Definition setup_log (r : C) (err : option error) (log : list (Call ManagerReq * option error)) : Prop :=
  match err with
  | None => log = map (fun c => (c, None)) (setup_calls r)
  | Some _ => exists n c, setup_calls r !! n = Some c
      /\ log = map (fun c => (c, None)) (take n (setup_calls r)) ++ [(c, err)]
  end.

Lemma SetupWithManager_log r : wp registering (SetupWithManager r) [] (setup_log r) (fun _ => False).
Proof.
  unfold SetupWithManager.
  split; [done|]. intros [e1|] ? ->; [by exists 0; eexists|].
  split; [done|]. intros [e2|] ? ->; [by exists 1; eexists|].
  split; [done|]. intros [e3|] ? ->; [by exists 2; eexists|done].
Qed.

End Registration.
Arguments ManagerReq : clear implicits.

(** ** The field selectors of the operator *)

Section Selectors.
Context `{X : External} `{Init : !Initialized}.

(** The list options of a request and the kind of objects it lists. *)
Definition listing {R} (e : Req R) : option (Resource * list ListOption) :=
  match e with
  | ListPods opts => Some (Pods, opts)
  | ListPVCs opts => Some (PersistentVolumeClaims, opts)
  | ListPVs opts => Some (PersistentVolumes, opts)
  | ListDeployments opts => Some (Deployments, opts)
  | _ => None
  end.

(** The request lists objects of kind [r] by the field [f]. *)
Definition selects (c : Call Req) (r : Resource) (f : string) : Prop :=
  exists opts m, listing (projT2 c) = Some (r, opts) /\ MatchingFields m ∈ opts /\ is_Some (m !! f).

Definition indexed (c : Call Req) : Prop :=
  forall r f, selects c r f ->
    (r, f) = (Pods, podStatusPhaseFieldSelector)
    \/ (r, f) = (PersistentVolumeClaims, pvcStatusPhaseFieldSelector).

Lemma not_listing_indexed {R} (e : Req R) : listing e = None -> indexed (call e).
Proof. intros He r f (opts & m & Hl & _). cbn in Hl. congruence. Qed.

Lemma listing_indexed {R} (e : Req R) r opts :
  listing e = Some (r, opts) ->
  Forall (fun o => match o with
                   | MatchingFields m => forall f, is_Some (m !! f) ->
                       r = Pods /\ f = podStatusPhaseFieldSelector
                       \/ r = PersistentVolumeClaims /\ f = pvcStatusPhaseFieldSelector
                   | _ => True
                   end) opts ->
  indexed (call e).
Proof.
  intros He Ho r' f (opts' & m & Hl & Hm & Hf). cbn in Hl.
  rewrite He in Hl. injection Hl as -> ->.
  rewrite Forall_forall in Ho. specialize (Ho _ Hm f Hf) as [[-> ->]|[-> ->]]; auto.
Qed.

Ltac indexed_request :=
  apply only_trigger;
  first [ apply not_listing_indexed; reflexivity
        | eapply listing_indexed; [reflexivity|]; rewrite ?Forall_cons, ?Forall_nil; split_and!;
          first [ exact I | intros ? [? [<- _]%lookup_singleton_Some]; by auto ] ].

Ltac head_of t := lazymatch t with ?f _ => head_of f | _ => t end.

(** Unfolds a handler down to its requests. *)
Ltac indexed_handler :=
  intros; repeat first
    [ progress (auto with footprint nocore)
    | lazymatch goal with |- only _ (trigger _) => indexed_request end
    | footprint_step
    | progress unfold status, setStatus, updateCondition, readCondition, setReason, setMessage,
        transitionNextCondition, failWith, failMessage, goto, returned, getLatestCondition
    | lazymatch goal with
      | |- only _ ?p => let h := head_of p in unfold h
      | |- onlyS _ ?p => let h := head_of p in unfold h
      end ].

Lemma dispatch_indexed i t : onlyS indexed (dispatch i t).
Proof. destruct t; cbn [dispatch]; indexed_handler. Qed.

Lemma Controller_indexed name : only indexed (Controller.Reconcile name).
Proof.
  apply Controller_footprint; [..|apply dispatch_indexed]; try (intros; by apply not_listing_indexed).
  - indexed_handler.
  - indexed_handler.
Qed.

(** The value an index on the phase has for an object of its kind. *)
Definition phase_of (r : Resource) (o : Object) : list string :=
  match r, o with
  | Pods, PodObject p => [pod_Phase p]
  | PersistentVolumeClaims, PersistentVolumeClaimObject p => [pvc_Phase p]
  | _, _ => []
  end.

(** C32: Refinement.  The cached client refuses a field selector without an
    index.  Every field selector in a list request of the controller is on a
    field of that kind of object for which a successful registration with the
    manager has registered an index, and the value of the index is the phase
    of the object, which is what the selectors compare. *)
Theorem field_selectors_are_indexed {C} (controller : C) (name : string) (c : Call Req) (r : Resource) (f : string) :
  issues any_answer (Controller.Reconcile name) c -> selects c r f ->
  exists v : Object -> list string,
    (forall o, v o = phase_of r o)
    /\ wp registering (SetupWithManager controller) []
         (fun err log => err = None -> (call (IndexField r f v), None) ∈ log) (fun _ => False).
Proof.
  intros Hi Hs. destruct (only_issues indexed _ _ _ (Controller_indexed name) Hi r f Hs) as [[= -> ->]|[= -> ->]].
  - exists podPhase. split; [done|].
    eapply wp_mono; [| |apply SetupWithManager_log]; [|done]. intros err log Hlog ->. rewrite Hlog.
    cbn. set_solver.
  - exists pvcPhase. split; [done|].
    eapply wp_mono; [| |apply SetupWithManager_log]; [|done]. intros err log Hlog ->. rewrite Hlog.
    cbn. set_solver.
Qed.

End Selectors.

(** ** Witnesses *)

Lemma field_selectors_are_indexed_witness :
  exists v, (forall o, v o = phase_of Pods o)
    /\ wp registering (SetupWithManager ()) []
         (fun err log => err = None -> (call (IndexField Pods ".status.phase" v), None) ∈ log) (fun _ => False).
Proof.
  apply (field_selectors_are_indexed () "recovery" (call (ListPods
    [ WithOptions {| lo_Namespace := ODF_NAMESPACE; lo_LabelSelector := None |};
      MatchingFields {[ podStatusPhaseFieldSelector := PodPending ]};
      MatchingLabels {[ "app" := "rook-ceph-osd" ]} ]))).
  - apply (trace_issues cluster any_answer (fun _ => True) _ (after 3 Broken)); [done|done|].
    apply list_elem_of_lookup. exists 3. vm_compute. reflexivity.
  - eexists _, _. split; [reflexivity|]. split; [apply list_elem_of_further, list_elem_of_here|by eexists].
Defined.
