(* ===== verification/Pods.v ===== *)
(** * Pods: remote commands, pod logs and privileged pods

    Package internal/controller/pod ([remote_command.go], [privileged_pod.go])
    and the [LogClient] of internal/controller/node_recovery_reconciler.go:
    the code behind the requests [RunCommand] and [GetLogs] of the reconciler,
    and the runner of privileged pods.  They call client-go, whose connections,
    streams and API calls are a signature of their own. *)

From S2P Require Import Prelude Effects GoStd GoStrings Api K8s Const Fake.

(** ** client-go *)

(** The options of an exec request, and the request they are added to. *)
Record PodExecOptions := {
  peo_Command : list string; peo_Stdin : bool; peo_Stdout : bool; peo_Stderr : bool; peo_TTY : bool;
}.

Record RESTRequest := {
  rr_Verb : string; rr_Namespace : string; rr_Resource : string; rr_Name : string;
  rr_SubResource : string; rr_Params : list (string * string); rr_Options : PodExecOptions;
}.

(** The types and functions of client-go and kubectl the package uses.
    [FindOrDefaultContainerByName] also returns what it writes to the warning
    writer; [RemoteCommandWebsockets_IsDisabled] is a feature flag read from
    the process environment. *)
Class ClientGo := {
  RestConfig : Type;
  Clientset : Type;
  URL : Type;
  Executor : Type;
  NewForConfig : RestConfig -> error + Clientset;
  FindOrDefaultContainerByName : Pod -> string -> bool -> string * (error + string);
  requestURL : Clientset -> RESTRequest -> URL;
  URL_String : URL -> string;
  NewSPDYExecutor : RestConfig -> string -> URL -> error + Executor;
  NewWebSocketExecutor : RestConfig -> string -> string -> error + Executor;
  NewFallbackExecutor : Executor -> Executor -> (error -> bool) -> error + Executor;
  RemoteCommandWebsockets_IsDisabled : bool;
  (** constants of k8s.io/pod-security-admission and k8s.io/api *)
  EnforceLevelLabel : string;
  AuditLevelLabel : string;
  WarnLevelLabel : string;
  LevelPrivileged : string;
  PullIfNotPresent : string;
  TerminationMessageReadFile : string;
  RestartPolicyNever : string;
  TolerationOpExists : string;
  IsUpgradeFailure : error -> bool;
  IsHTTPSProxyError : error -> bool;
}.

(** The reader of a log: the chunks its [Read] returns before the end, and the
    error that ends it ([None] for [io.EOF]). *)
Record LogStream := { ls_Handle : nat; ls_Chunks : list string; ls_End : option error }.

(** The objects the runner creates, with the fields it sets. *)
Record Namespace := {
  ns_Name : string; ns_GenerateName : string; ns_Labels : labels; ns_Annotations : labels;
}.

Record VolumeMount := { vm_MountPath : string; vm_Name : string }.

Record Container := {
  ctn_Name : string; ctn_Image : string; ctn_ImagePullPolicy : string; ctn_TerminationMessagePolicy : string;
  ctn_VolumeMounts : list VolumeMount; ctn_Command : list string; ctn_Env : list (string * string);
  ctn_TTY : bool; ctn_Stdin : bool; ctn_StdinOnce : bool;
  ctn_RunAsUser : option Z; ctn_Privileged : option bool;
}.

Record RunnerPod := {
  rp_Name : string; rp_GenerateName : string; rp_Namespace : string;
  rp_Containers : list Container;
  rp_HostIPC : bool; rp_HostNetwork : bool; rp_HostPID : bool;
  rp_NodeName : string; rp_RestartPolicy : string;
  rp_HostPathVolumes : list (string * string);
  rp_TolerationOperators : list string;
}.

Section Signature.
Context `{G : ClientGo}.

Inductive ClientReq : Type -> Type :=
(** [StreamWithContext]: what it writes to the two buffers, and its error *)
| StreamExec (exec : Executor) (tty : bool) : ClientReq (string * string * option error)
(** [Pods(ns).GetLogs(name, opts).Stream], and [Close] of the reader *)
| OpenLogs (c : Clientset) (ns name : string) : ClientReq (error + LogStream)
| CloseLogs (s : LogStream) : ClientReq (option error)
| CreateNamespace (c : Clientset) (n : Namespace) : ClientReq (error + Namespace)
| DeleteNamespace (c : Clientset) (name : string) : ClientReq (option error)
| CreatePod (c : Clientset) (ns : string) (p : RunnerPod) : ClientReq (error + RunnerPod).

(** [kubernetes.NewForConfigOrDie], in a program over any signature. *)
Definition NewForConfigOrDie {E} (config : RestConfig) : Prog E Clientset :=
  match NewForConfig config with inr c => mret c | inl err => Panic (Error err) end.

(** ** remote_command.go *)

Definition createExecutor (url : URL) (config : RestConfig) : error + Executor :=
  match NewSPDYExecutor config "POST" url with
  | inl err => inl err
  | inr exec =>
      if negb RemoteCommandWebsockets_IsDisabled then
        match NewWebSocketExecutor config "GET" (URL_String url) with
        | inl err => inl err
        | inr websocketExec =>
            NewFallbackExecutor websocketExec exec (fun err => IsUpgradeFailure err || IsHTTPSProxyError err)
        end
      else inr exec
  end.

(** The request of [Run]. *)
Definition execRequest (pod : Pod) (containerName : string) (cmd : list string) : RESTRequest := {|
  rr_Verb := "POST"; rr_Namespace := pod_Namespace pod; rr_Resource := "pods"; rr_Name := pod_Name pod;
  rr_SubResource := "exec"; rr_Params := [("container", containerName)];
  rr_Options := {| peo_Command := cmd; peo_Stdin := false; peo_Stdout := true; peo_Stderr := true;
                   peo_TTY := true |};
|}.

(** A nil [[]byte] is the empty string. *)
Definition Run (config : RestConfig) (pod : Pod) (cmd : list string)
  : Prog ClientReq (string * string * option error) :=
  c ← NewForConfigOrDie config;
  let '(errBuf, container) := FindOrDefaultContainerByName pod "" true in
  match container with
  | inl err => mret ("", errBuf, Some err)
  | inr containerName =>
      match createExecutor (requestURL c (execRequest pod containerName cmd)) config with
      | inl err => mret ("", "", Some err)
      | inr exec =>
          r ← trigger (StreamExec exec false);
          let '(out, errs, err) := r in
          match err with
          | Some err =>
              mret ("", "", Some (Errorf ("failed executing command " +:+ FormatStrings cmd +:+ " on "
                +:+ pod_Namespace pod +:+ "/" +:+ pod_Name pod +:+ ": " +:+ Error err)))
          | None => mret (out, errBuf +:+ errs, None)
          end
      end
  end.

(** The interface [RemoteCommandExecutor], as its method, and the type that
    implements it. *)
Record RemoteCommandExecutor := {
  rce_Run : Pod -> list string -> Prog ClientReq (string * string * option error);
}.

Definition NewRemoteExecutor (config : RestConfig) : RemoteCommandExecutor := {| rce_Run := Run config |}.

(** ** LogClient *)

(** [io.Copy] into a buffer: the bytes read before the end, and its error. *)
Fixpoint io_Copy (buf : string) (chunks : list string) (end_ : option error) : string * option error :=
  match chunks with
  | [] => (buf, end_)
  | c :: chunks' => io_Copy (buf +:+ c) chunks' end_
  end.

Record LogClient := { lc_clientset : Clientset }.

(** [defer podLogs.Close()] runs on both returns after the stream was opened. *)
Definition LogClient_GetLogs (l : LogClient) (podName : string) : Prog ClientReq (error + string) :=
  podLogs ← trigger (OpenLogs (lc_clientset l) ODF_NAMESPACE podName);
  match podLogs with
  | inl err => mret (inl (Errorf ("error in opening stream: " +:+ Error err)))
  | inr podLogs =>
      let '(buf, err) := io_Copy "" (ls_Chunks podLogs) (ls_End podLogs) in
      let ret := match err with
                 | Some err => inl (Errorf ("error in copy information from podLogs to buffer: " +:+ Error err))
                 | None => inr buf
                 end in
      _ ← trigger (CloseLogs podLogs);
      mret ret
  end.

(** The interface [podLogRetriever], as its method. *)
Record podLogRetriever := { plr_GetLogs : string -> Prog ClientReq (error + string) }.

Definition NewLogRetriever {E} (config : RestConfig) : Prog E podLogRetriever :=
  clientset ← NewForConfigOrDie config;
  mret {| plr_GetLogs := LogClient_GetLogs {| lc_clientset := clientset |} |}.

(** ** privileged_pod.go *)

Definition IMAGE_PULLSPEC : string := "registry.redhat.io/rhel8/support-tools".

(** The logger is left out. *)
Record Runner := { runner_kcli : Clientset }.

Definition NewRunner {E} (config : RestConfig) : Prog E Runner :=
  c ← NewForConfigOrDie config; mret {| runner_kcli := c |}.

Definition temporaryNamespace : Namespace := {|
  ns_Name := ""; ns_GenerateName := "odf-node-recovery-";
  ns_Labels := {[ EnforceLevelLabel := LevelPrivileged;
                  AuditLevelLabel := LevelPrivileged;
                  WarnLevelLabel := LevelPrivileged;
                  "security.openshift.io/scc.podSecurityLabelSync" := "false" ]};
  ns_Annotations := {[ "openshift.io/node-selector" := "" ]};
|}.

(** The clean-up function it returns is a program. *)
Definition createNamespace (r : Runner) : Prog ClientReq (string * option (Prog ClientReq unit) * option error) :=
  let tmpNS := temporaryNamespace in
  ns ← trigger (CreateNamespace (runner_kcli r) tmpNS);
  match ns with
  | inl err =>
      mret ("", None, Some (Errorf ("unable to create temporary namespace " +:+ ns_Name tmpNS +:+ ": "
        +:+ Error err)))
  | inr ns => mret (ns_Name ns, Some (trigger (DeleteNamespace (runner_kcli r) (ns_Name ns)) ≫= fun _ => mret ()), None)
  end.

Definition nodeRunnerPod (namespaceName nodeName : string) : RunnerPod := {|
  rp_Name := ""; rp_GenerateName := "node-runner-" +:+ nodeName; rp_Namespace := namespaceName;
  rp_Containers := [ {|
    ctn_Name := "debugger"; ctn_Image := IMAGE_PULLSPEC; ctn_ImagePullPolicy := PullIfNotPresent;
    ctn_TerminationMessagePolicy := TerminationMessageReadFile;
    ctn_VolumeMounts := [ {| vm_MountPath := "/host"; vm_Name := "host-root" |} ];
    ctn_Command := ["/bin/sh"]; ctn_Env := [("TMOUT", "900")];
    ctn_TTY := true; ctn_Stdin := true; ctn_StdinOnce := true;
    ctn_RunAsUser := Some 0%Z; ctn_Privileged := Some true |} ];
  rp_HostIPC := true; rp_HostNetwork := false; rp_HostPID := false;
  rp_NodeName := nodeName; rp_RestartPolicy := RestartPolicyNever;
  rp_HostPathVolumes := [("host-root", "/")];
  rp_TolerationOperators := [TolerationOpExists];
|}.

Definition deployNodeRunnerPod (r : Runner) (namespaceName nodeName : string) : Prog ClientReq (error + RunnerPod) :=
  p ← trigger (CreatePod (runner_kcli r) namespaceName (nodeRunnerPod namespaceName nodeName));
  match p with
  | inl err => mret (inl (Errorf ("unable to create node runner pod in namespace " +:+ namespaceName
                 +:+ ": " +:+ Error err)))
  | inr p => mret (inr p)
  end.

Definition Initialize (r : Runner) (nodeName : string)
  : Prog ClientReq (option RunnerPod * option (Prog ClientReq unit) * option error) :=
  ns ← createNamespace r;
  let '(nsName, cleanup, err) := ns in
  match err with
  | Some err => mret (None, None, Some err)
  | None =>
      pod ← deployNodeRunnerPod r nsName nodeName;
      match pod with
      | inl err => mret (None, None, Some err)
      | inr pod => mret (Some pod, cleanup, None)
      end
  end.

(** ** The theorems *)

Lemma io_Copy_spec buf chunks end_ :
  io_Copy buf chunks end_ = (buf +:+ foldr String.append "" chunks, end_).
Proof.
  revert buf. induction chunks as [|c chunks IH]; intros buf; cbn.
  - by rewrite append_nil_r.
  - by rewrite IH, <- append_assoc.
Qed.

(** C33: Functional behaviour.  A remote command is all or nothing.  Without an
    error, exactly one stream was run, on the executor of the exec URL of the
    pod's default container and this command, it ended without an error, and
    the outputs are the whole of what it wrote (after the warnings of the
    choice of the container).  With an error the standard output is empty and
    at most one stream was run.  The only panic is an invalid configuration,
    before anything is run. *)
Theorem remote_command_all_or_nothing (env : Answers ClientReq) (config : RestConfig) (pod : Pod)
    (cmd : list string) :
  wp (transcript env) (Run config pod cmd) []
    (fun r log =>
       let '(out, errs, err) := r in
       match err with
       | None =>
           exists c warnings container exec o e,
             NewForConfig config = inr c
             /\ FindOrDefaultContainerByName pod "" true = (warnings, inr container)
             /\ createExecutor (requestURL c (execRequest pod container cmd)) config = inr exec
             /\ log = [answered (StreamExec exec false) (o, e, None)]
             /\ out = o /\ errs = warnings +:+ e
       | Some _ =>
           out = "" /\ (log = [] \/ exists exec o e why,
             log = [answered (StreamExec exec false) (o, e, Some why)])
       end)
    (fun log => log = [] /\ exists err, NewForConfig config = inl err).
Proof.
  unfold Run, NewForConfigOrDie. destruct (NewForConfig config) as [err|c] eqn:Hc; [by split; eauto|].
  cbn. destruct (FindOrDefaultContainerByName pod "" true) as [warnings [err|container]] eqn:Hf; [by split; [|left]|].
  destruct (createExecutor _ config) as [err|exec] eqn:He; [by split; [|left]|].
  split; [done|]. intros [[o e] [why|]] ? [_ ->]; cbn; [by eauto 10|].
  by exists c, warnings, container, exec, o, e.
Qed.

(** The log of a pod, and the stream it comes from. *)
Lemma LogClient_GetLogs_log (env : Answers ClientReq) (l : LogClient) (podName : string) :
  wp (transcript env) (LogClient_GetLogs l podName) []
    (fun r log =>
       (exists err, log = [answered (OpenLogs (lc_clientset l) ODF_NAMESPACE podName) (inl err)]
          /\ env _ (OpenLogs (lc_clientset l) ODF_NAMESPACE podName) (inl err) /\ exists e, r = inl e)
       \/ exists s closed,
            log = [answered (OpenLogs (lc_clientset l) ODF_NAMESPACE podName) (inr s);
                   answered (CloseLogs s) closed]
            /\ env _ (OpenLogs (lc_clientset l) ODF_NAMESPACE podName) (inr s)
            /\ match r with
               | inr text => ls_End s = None /\ text = foldr String.append "" (ls_Chunks s)
               | inl _ => is_Some (ls_End s)
               end)
    (fun _ => False).
Proof.
  split; [done|]. intros [err|s] ? [Hs ->]; cbn; [by left; eauto|].
  rewrite io_Copy_spec. split; [done|]. intros closed ? [_ ->]. right. exists s, closed. split_and!; [done..|].
  by destruct (ls_End s).
Qed.

(** C34: Safety.  The log of a pod is returned only if the whole stream was read,
    as the concatenation of what was read, and a stream that was opened, in
    the operator's namespace with the client the retriever was made with, is
    closed exactly once on every return. *)
Theorem pod_log_is_complete_and_closed (env : Answers ClientReq) (l : LogClient) (podName : string) :
  wp (transcript env) (LogClient_GetLogs l podName) []
    (fun r log =>
       (exists err, log = [answered (OpenLogs (lc_clientset l) ODF_NAMESPACE podName) (inl err)]
          /\ exists e, r = inl e)
       \/ exists s closed,
            log = [answered (OpenLogs (lc_clientset l) ODF_NAMESPACE podName) (inr s);
                   answered (CloseLogs s) closed]
            /\ match r with
               | inr text => ls_End s = None /\ text = foldr String.append "" (ls_Chunks s)
               | inl _ => is_Some (ls_End s)
               end)
    (fun _ => False).
Proof.
  eapply wp_mono; [| |apply LogClient_GetLogs_log]; [|done].
  intros r log [(err & ? & _ & ?)|(s & closed & ? & _ & ?)]; [left|right]; eauto.
Qed.

(** C35: Functional behaviour and a leak.  When a runner is initialized without an
    error, its temporary namespace and its pod were created by its client, the pod
    in that namespace and for that node, and the clean-up function deletes exactly
    that namespace.  With an error neither a pod nor a clean-up function is returned,
    and nothing is deleted: if the pod is the one that was refused, the
    privileged namespace stays behind. *)
Theorem runner_namespace_lifetime (env : Answers ClientReq) (runner : Runner) (nodeName : string) :
  wp (transcript env) (Initialize runner nodeName) []
    (fun r log =>
       let '(pod, cleanup, err) := r in
       match err with
       | None => exists ns p k,
           log = [ answered (CreateNamespace (runner_kcli runner) temporaryNamespace) (inr ns);
                   answered (CreatePod (runner_kcli runner) (ns_Name ns) (nodeRunnerPod (ns_Name ns) nodeName)) (inr p) ]
           /\ pod = Some p /\ cleanup = Some k
           /\ forall log0, wp (transcript env) k log0
                (fun _ log' => exists e, log' = log0 ++ [answered (DeleteNamespace (runner_kcli runner) (ns_Name ns)) e])
                (fun _ => False)
       | Some _ => pod = None /\ cleanup = None /\
           ((exists e, log = [answered (CreateNamespace (runner_kcli runner) temporaryNamespace) (inl e)])
            \/ exists ns e,
                 log = [ answered (CreateNamespace (runner_kcli runner) temporaryNamespace) (inr ns);
                         answered (CreatePod (runner_kcli runner) (ns_Name ns) (nodeRunnerPod (ns_Name ns) nodeName)) (inl e) ])
       end)
    (fun _ => False).
Proof.
  split; [done|]. intros [err|ns] ? [_ ->]; cbn; [by eauto|].
  split; [done|]. intros [err|p] ? [_ ->]; cbn; [by eauto 6|].
  do 3 eexists. split_and!; [done..|]. intros log0. split; [done|]. intros e ? [_ ->]. by exists e.
Qed.

End Signature.

(** ** A concrete client *)

#[export] Instance fake_client : ClientGo := {|
  RestConfig := string; Clientset := string; URL := string; Executor := string * string;
  NewForConfig c := if decide (c = "") then inl (Errorf "no configuration") else inr c;
  FindOrDefaultContainerByName p _ _ := ("", inr (pod_Name p));
  requestURL c r := c +:+ "/" +:+ rr_Namespace r +:+ "/" +:+ rr_Name r;
  URL_String u := u;
  NewSPDYExecutor _ verb u := inr (verb, u);
  NewWebSocketExecutor _ verb u := inr (verb, u);
  NewFallbackExecutor first _ _ := inr first;
  RemoteCommandWebsockets_IsDisabled := false;
  EnforceLevelLabel := "pod-security.kubernetes.io/enforce";
  AuditLevelLabel := "pod-security.kubernetes.io/audit";
  WarnLevelLabel := "pod-security.kubernetes.io/warn";
  LevelPrivileged := "privileged";
  PullIfNotPresent := "IfNotPresent";
  TerminationMessageReadFile := "File";
  RestartPolicyNever := "Never";
  TolerationOpExists := "Exists";
  IsUpgradeFailure _ := false;
  IsHTTPSProxyError _ := false;
|}.
