(* ===== verification/Linked.v ===== *)
(** * Linked: the controller with the clients it is given

    The structs [NodeRecoveryReconciler] (internal/controller/noderecovery_controller.go)
    and [NodeRecovery] (internal/controller/node_recovery_reconciler.go) carry
    the remote command executor and the log retriever.  Here the requests
    [RunCommand] and [GetLogs] of the reconciler are implemented by the methods
    of those two ([Pods]), and what was proved of the reconciler in any
    environment holds of the composition. *)

From S2P Require Import Prelude Effects GoStd GoStrings Api K8s Const Monitoring Ceph Recovery.
From S2P Require Import Reconciler Controller StateMachine Fake NoPanic Gates Lifecycle Steps Pods.

Section Linked.
Context `{X : External} `{Init : !Initialized} `{G : ClientGo}.

(** The requests of the composition: those of the API client, the clock, the
    event recorder and the counters, and those of client-go. *)
Inductive LinkedReq : Type -> Type :=
| Cluster {R} (e : Req R) : LinkedReq R
| Client {R} (e : ClientReq R) : LinkedReq R.

(** The fields [Client], [Scheme] and [Recorder] are behind the requests. *)
Record NodeRecoveryReconciler := {
  nrr_Config : RestConfig;
  nrr_CmdRunner : RemoteCommandExecutor;
  nrr_LogClient : podLogRetriever;
}.

(** [NodeRecovery], the struct of one reconciliation. *)
Record Recoverer := {
  rec_Config : RestConfig;
  rec_cmdRunner : RemoteCommandExecutor;
  rec_logRetriever : podLogRetriever;
}.

Definition newNodeRecoveryReconciler (restConfig : RestConfig) (cmdRunner : RemoteCommandExecutor)
    (logRetriever : podLogRetriever) : option Recoverer * option error :=
  (Some {| rec_Config := restConfig; rec_cmdRunner := cmdRunner; rec_logRetriever := logRetriever |}, None).

(** A request of the reconciler. *)
Definition implement (r : Recoverer) R (e : Req R) : Prog LinkedReq R :=
  match e in Req R return Prog LinkedReq R with
  | RunCommand p cmd => translate (@Client) (rce_Run (rec_cmdRunner r) p cmd)
  | GetLogs podName => translate (@Client) (plr_GetLogs (rec_logRetriever r) podName)
  | e => trigger (Cluster e)
  end.

(** The whole call, after the object was fetched. *)
Definition linkedFetched (r : NodeRecoveryReconciler) (got : error + NodeRecovery)
  : Prog LinkedReq (Result * option error) :=
  match newNodeRecoveryReconciler (nrr_Config r) (nrr_CmdRunner r) (nrr_LogClient r) with
  | (Some recoverer, None) => interp (implement recoverer) (reconcileFetched got)
  | (_, err) => mret (NoResult, err)
  end.

Definition linkedReconcile (r : NodeRecoveryReconciler) (name : string) : Prog LinkedReq (Result * option error) :=
  got ← trigger (Cluster (GetNodeRecovery name));
  linkedFetched r got.

(** The controller [main] builds from a configuration. *)
Definition newReconciler {E} (config : RestConfig) : Prog E NodeRecoveryReconciler :=
  logClient ← NewLogRetriever config;
  mret {| nrr_Config := config; nrr_CmdRunner := NewRemoteExecutor config; nrr_LogClient := logClient |}.

(** ** The environment of the reconciler in the composition *)

Section Environment.
Context (env : Answers Req) (cenv : Answers ClientReq).

Definition linked_env : Answers LinkedReq := fun R e =>
  match e in LinkedReq R return R -> Prop with
  | Cluster e => env _ e
  | Client e => cenv _ e
  end.

(** The recoverer of a controller. *)
Definition recoverer (r : NodeRecoveryReconciler) : Recoverer :=
  {| rec_Config := nrr_Config r; rec_cmdRunner := nrr_CmdRunner r; rec_logRetriever := nrr_LogClient r |}.

Context (r : NodeRecoveryReconciler).

(** What the two clients can answer, and what the cluster answers. *)
Definition abstract_env : Answers Req := implemented linked_env (implement (recoverer r)).

Lemma linkedFetched_interp got :
  linkedFetched r got = interp (implement (recoverer r)) (reconcileFetched got).
Proof. done. Qed.

(** The request of the reconciler behind one of the composition. *)
Definition clusterCall (c : Call LinkedReq) : option (Call Req) :=
  match projT2 c with Cluster e => Some (call e) | Client _ => None end.

Lemma issues_client {A} (p : Prog ClientReq A) c :
  issues linked_env (translate (@Client) p) c -> clusterCall c = None.
Proof.
  induction p as [a|R e k IH|why]; cbn; [done| |done]. intros [<-|(a & _ & H)]; [done|by apply (IH a)].
Qed.

Lemma issues_implement R (e : Req R) c c' :
  issues linked_env (implement (recoverer r) R e) c -> clusterCall c = Some c' -> c' = call e.
Proof.
  intros Hi Hc. destruct e; cbn [implement] in Hi;
    try (apply issues_client in Hi; congruence);
    (destruct Hi as [<-|(? & _ & [])]; by injection Hc as <-).
Qed.

(** A request to the cluster is one the reconciler makes in that environment. *)
Lemma linked_issues {A} (p : Op A) c c' :
  issues linked_env (interp (implement (recoverer r)) p) c -> clusterCall c = Some c' ->
  issues abstract_env p c'.
Proof.
  intros (R & e & Hp & Hi)%issues_interp Hc. by rewrite (issues_implement R e c c' Hi Hc).
Qed.

Lemma abstract_clock :
  (forall R (e : Req R) a, env R e a -> clock R e a) -> forall R (e : Req R) a, abstract_env R e a -> clock R e a.
Proof.
  intros Hclock R e a Ha. destruct e; try exact I.
  destruct Ha as (now & Hnow & <-). by apply (Hclock _ Now).
Qed.

(** The answers of the cluster to a list of pods and for a template. *)
Lemma abstract_justified t : justified env t -> justified abstract_env t.
Proof.
  destruct t; try done; cbn [justified].
  - intros H sel pods p Hsel (? & Ha & Heq). cbn in Heq. subst. by apply (H sel).
  - intros H id sel p ps Hsel (? & Ha & Heq). cbn in Heq. subst. by apply (H id sel p ps).
  - intros [H ?]. split; [|done]. intros t (? & Ha & Heq). cbn in Heq. subst. by apply H.
  - intros [H ?]. split; [|done]. intros t (? & Ha & Heq). cbn in Heq. subst. by apply H.
Qed.

(** The statuses of an object that the composition reconciles. *)
Inductive linked_reachable : NodeRecoveryStatus -> Prop :=
| linked_new : linked_reachable zeroStatus
| linked_update inst inst' st :
    linked_reachable (nr_Status inst) ->
    issues linked_env (linkedFetched r (inr inst)) (call (Cluster (StatusUpdate inst'))) ->
    stored (nr_Status inst') st ->
    linked_reachable st.

(** Refinement: they are statuses of the reconciler alone. *)
Lemma linked_reachable_abstract st : linked_reachable st -> reachable abstract_env st.
Proof.
  induction 1 as [|inst inst' st _ IH Hi Hst]; [constructor|].
  rewrite linkedFetched_interp in Hi.
  eapply reachable_update; [exact IH| |exact Hst]. by eapply linked_issues.
Qed.

End Environment.

(** ** The clients of a configuration *)

Lemma newReconciler_config {E} config r :
  newReconciler (E := E) config = mret r -> exists c,
    NewForConfig config = inr c
    /\ r = {| nrr_Config := config; nrr_CmdRunner := NewRemoteExecutor config;
              nrr_LogClient := {| plr_GetLogs := LogClient_GetLogs {| lc_clientset := c |} |} |}.
Proof.
  unfold newReconciler, NewLogRetriever, NewForConfigOrDie. destruct (NewForConfig config) as [err|c]; [done|].
  intros [= <-]. by exists c.
Qed.

(** A remote command does not panic: the configuration was tried at the start. *)
Lemma Run_safe (cenv : Answers ClientReq) config c pod cmd :
  NewForConfig config = inr c ->
  wp (permissive cenv) (Run config pod cmd) tt (fun _ _ => True) (fun _ => False).
Proof.
  intros Hc. unfold Run, NewForConfigOrDie. rewrite Hc. cbn.
  destruct (FindOrDefaultContainerByName pod "" true) as [w [err|name]]; [done|].
  destruct (createExecutor _ _); [done|]. split; [done|]. by intros [[out errs] [why|]] [] _.
Qed.

Lemma GetLogs_safe (cenv : Answers ClientReq) l podName :
  wp (permissive cenv) (LogClient_GetLogs l podName) tt (fun _ _ => True) (fun _ => False).
Proof.
  split; [done|]. intros [err|s] [] _; [done|]. cbn. destruct (io_Copy _ _ _) as [buf end_]. by split.
Qed.

(** C11: Safety of the composition.  A controller built from a configuration for
    which a client could be made, as [main] builds it, given an object that is
    new or that it has reconciled before, panics neither in the reconciler nor
    in the clients, whatever the cluster and their connections answer (the
    clock is past Go's zero time), except in four of the fourteen conditions.
    In those it does not panic either if, in [ManageCrashLoopBackOffPods],
    every failing OSD pod that is listed has the label of its volume claim; in
    [ForceDeleteRookCephOSDPods], the first OSD pod that is listed for an id is
    terminating; in [ProcessOCSRemovalTemplate] and [CleanupOSDRemovalJob], the
    template has the two parameters that are set, and the template library
    finds the parameters of a template. *)
Theorem linked_steps_do_not_panic {E} (env : Answers Req) (cenv : Answers ClientReq) (config : RestConfig)
    (r : NodeRecoveryReconciler) (inst : NodeRecovery) :
  newReconciler (E := E) config = mret r ->
  (forall R (e : Req R) a, env R e a -> clock R e a) ->
  linked_reachable env cenv r (nr_Status inst) -> justified_step env inst ->
  wp (permissive (linked_env env cenv)) (linkedFetched r (inr inst)) tt (fun _ _ => True) (fun _ => False).
Proof.
  intros (c & Hc & ->)%newReconciler_config Hclock Hr Hjust. rewrite linkedFetched_interp.
  set (r := Build_NodeRecoveryReconciler _ _ _) in *.
  eapply wp_mono; [| |apply (wp_interp (implement (recoverer r)) (permissive (abstract_env env cenv r))
    (permissive (linked_env env cenv)) (fun _ _ => True) _ tt tt (fun _ _ => True) (fun _ => False) (fun _ => False))];
    [done|done| |by intros ? ? _ []|done|].
  - intros R e [] [] _ _.
    eapply wp_mono with (QP := fun _ => False); [|done|apply (wp_self _ _ (fun _ _ => True))].
    + intros a [] Ha. by exists ().
    + destruct e; cbn [implement]; try (by split); apply wp_translate.
      * by apply (Run_safe cenv config c).
      * apply GetLogs_safe.
  - apply reconcileFetched_safe; [by apply abstract_clock|by apply linked_reachable_abstract|].
    intros cs c0 Hc0. by eapply abstract_justified, Hjust.
Qed.

(** C14: Safety of the composition.  As long as no log stream that was read to
    its end spells out a log whose last line says "completed removal", no
    recovery gets past the clean-up of the removal job: a stream that breaks
    off does not count, whatever was read of it. *)
Theorem linked_volumes_wait_for_complete_log {E} (env : Answers Req) (cenv : Answers ClientReq) (config : RestConfig)
    (r : NodeRecoveryReconciler) (st : NodeRecoveryStatus) :
  newReconciler (E := E) config = mret r ->
  (forall R (e : Req R) a, env R e a -> clock R e a) ->
  (forall c podName s, cenv _ (OpenLogs c ODF_NAMESPACE podName) (inr s) -> ls_End s = None ->
     Contains (ToLower (last_line (TrimSpace (foldr String.append "" (ls_Chunks s))))) osdJobSuccessMessage = false) ->
  linked_reachable env cenv r st ->
  WaitForPersistenVolumeBound ∉ map cond_Type (Conditions st).
Proof.
  intros (c & _ & ->)%newReconciler_config Hclock Hlogs Hr%linked_reachable_abstract.
  set (r := Build_NodeRecoveryReconciler _ _ _) in *.
  apply (gated_unreachable _ (abstract_clock env cenv r Hclock)); [|done|exact Hr].
  apply log_gate. intros name logs Ha.
  change (returns (linked_env env cenv) (translate (@Client) (LogClient_GetLogs {| lc_clientset := c |} name))
    (inr logs)) in Ha. apply (returns_translate (@Client)) in Ha.
  eapply (transcript_returns _ _ _ _ _ _ (LogClient_GetLogs_log cenv {| lc_clientset := c |} name)) in Ha as
    (log & [(err & _ & _ & e & [=])|(s & closed & _ & Hs & Hend & ->)]).
  by apply (Hlogs c name).
Qed.

End Linked.

(** ** The cluster in memory, with its clients *)

(** The cluster, whose log streams end with [end_]. *)
Definition linked_cluster (end_ : option error) : Handler LinkedReq World := fun R e =>
  match e in LinkedReq R return World -> R * World with
  | Cluster e => cluster _ e
  | Client e =>
      match e in ClientReq R return World -> R * World with
      | StreamExec _ _ => fun w => ((w_stdout w, "", None), w)
      | OpenLogs _ _ _ => fun w => (inr {| ls_Handle := 0; ls_Chunks := [w_logs w]; ls_End := end_ |}, w)
      | CloseLogs _ => fun w => (None, w)
      | CreateNamespace _ n => fun w => (inr n, w)
      | DeleteNamespace _ _ => fun w => (None, w)
      | CreatePod _ _ p => fun w => (inr p, w)
      end
  end.

Definition reset_by_peer : option error := Some (ExtError "" "connection reset by peer").

(** No stream is read to its end. *)
Definition broken_off : Answers ClientReq := fun R e =>
  match e in ClientReq R return R -> Prop with
  | OpenLogs _ _ _ => fun r => match r with inl _ => True | inr s => is_Some (ls_End s) end
  | _ => fun _ => True
  end.

Lemma linked_cluster_env R (e : LinkedReq R) w :
  past_zero w ->
  linked_env clock broken_off R e (linked_cluster reset_by_peer R e w).1
  /\ past_zero (linked_cluster reset_by_peer R e w).2.
Proof.
  intros Hw. destruct e as [R e|R e]; [by apply cluster_clock|]. by destruct e; cbn; split.
Qed.

Lemma linked_cluster_writes end_ R (e : LinkedReq R) w :
  w_cr (linked_cluster end_ R e w).2 = w_cr w
  \/ call e = call (Cluster (StatusUpdate (w_cr (linked_cluster end_ R e w).2))).
Proof. destruct e as [R e|R e]; destruct e; cbn; auto. Qed.

Definition fake_controller : NodeRecoveryReconciler := {|
  nrr_Config := "config"; nrr_CmdRunner := NewRemoteExecutor "config";
  nrr_LogClient := {| plr_GetLogs := LogClient_GetLogs {| lc_clientset := "config" : @Clientset fake_client |} |} |}.

Definition linked_step (end_ : option error) (w : World) : World :=
  let w' := (run (linked_cluster end_) (linkedFetched fake_controller (inr (w_cr w))) w).2 in
  with_clock (w_clock w' + 60 * Second)%Z w'.

Lemma linked_life n w :
  past_zero w -> nr_Status (w_cr w) = zeroStatus ->
  past_zero (Nat.iter n (linked_step reset_by_peer) w)
  /\ linked_reachable clock broken_off fake_controller (nr_Status (w_cr (Nat.iter n (linked_step reset_by_peer) w))).
Proof.
  intros Hw Hz. induction n as [|n [IHw IH]]; [split; [done|]; cbn; rewrite Hz; constructor|].
  cbn [Nat.iter nat_rect]. unfold linked_step at 1 3.
  destruct (last_write (linked_cluster reset_by_peer) (linked_env clock broken_off) (fun i => call (Cluster (StatusUpdate i)))
    past_zero (linkedFetched fake_controller (inr (w_cr (Nat.iter n (linked_step reset_by_peer) w)))) _
    linked_cluster_env (linked_cluster_writes reset_by_peer) IHw) as [Hc Hi].
  set (w' := (run _ _ _).2) in *. clearbody w'. split; [by apply past_zero_pause|].
  cbn [w_cr with_clock]. destruct Hi as [->|Hi]; [done|].
  eapply linked_update; [exact IH|exact Hi|apply stored_refl].
Qed.

(** The job has succeeded and its log says so, but it cannot be read to the end. *)
Example linked_life_fails :
  Phase (nr_Status (w_cr (Nat.iter 10 (linked_step reset_by_peer) Broken))) = FailedPhase
  /\ last (map cond_Type (Conditions (nr_Status (w_cr (Nat.iter 10 (linked_step reset_by_peer) Broken)))))
     = Some CleanupOSDRemovalJob.
Proof. vm_compute. split; reflexivity. Qed.

(** ** Witnesses *)

(** A recovery whose cluster may answer anything, in a condition that needs
    nothing of it; one that needs something is in an environment that gives it. *)
Lemma labelling_justified (env : Answers Req) :
  justified_step env (w_cr (Nat.iter 3 (linked_step reset_by_peer) Broken)).
Proof.
  intros cs c Hc.
  assert (cond_Type <$> last (Conditions (nr_Status (w_cr (Nat.iter 3 (linked_step reset_by_peer) Broken))))
    = Some LabelNodesWithPendingPods) as Hty by (vm_compute; reflexivity).
  rewrite Hc, last_snoc in Hty. injection Hty as ->. exact I.
Qed.

Lemma linked_steps_do_not_panic_witness :
  wp (permissive (linked_env clock broken_off))
    (linkedFetched fake_controller (inr (w_cr (Nat.iter 3 (linked_step reset_by_peer) Broken)))) tt
    (fun _ _ => True) (fun _ => False)
  /\ forall t, justified tidy t.
Proof.
  split; [|exact tidy_justified].
  apply (linked_steps_do_not_panic (E := LinkedReq) clock broken_off ("config" : @RestConfig fake_client) fake_controller).
  - reflexivity.
  - intros R e a H. exact H.
  - exact (proj2 (linked_life 3 Broken eq_refl eq_refl)).
  - apply labelling_justified.
Defined.

Lemma linked_volumes_wait_for_complete_log_witness :
  WaitForPersistenVolumeBound ∉ map cond_Type (Conditions (nr_Status (w_cr (Nat.iter 10 (linked_step reset_by_peer) Broken)))).
Proof.
  apply (linked_volumes_wait_for_complete_log (E := LinkedReq) clock broken_off ("config" : @RestConfig fake_client) fake_controller).
  - reflexivity.
  - intros R e a H. exact H.
  - intros c podName s [err Hs] Hend. rewrite Hend in Hs. discriminate Hs.
  - exact (proj2 (linked_life 10 Broken eq_refl eq_refl)).
Defined.
