(* ===== verification/Rbac.v ===== *)
(** * Rbac: the permissions of the operator

    The [+kubebuilder:rbac] markers of
    internal/controller/noderecovery_controller.go are the role the operator
    runs with.  The client of the manager answers reads from caches that list
    and watch, so a read needs those two verbs besides its own. *)

From S2P Require Import Prelude Effects GoStd Api K8s Const Monitoring Ceph Recovery Reconciler Controller.
From S2P Require Import StateMachine Fake Pods Linked.

(** ** The role *)

Record PolicyRule := { rule_Groups : list string; rule_Resources : list string; rule_Verbs : list string }.

Definition role : list PolicyRule := [
  (* Node Recovery *)
  {| rule_Groups := ["odf.openshift.io"]; rule_Resources := ["noderecoveries"];
     rule_Verbs := ["get"; "list"; "watch"; "create"; "update"; "patch"; "delete"] |};
  {| rule_Groups := ["odf.openshift.io"]; rule_Resources := ["noderecoveries/status"];
     rule_Verbs := ["get"; "update"; "patch"] |};
  {| rule_Groups := ["odf.openshift.io"]; rule_Resources := ["noderecoveries/finalizers"];
     rule_Verbs := ["update"] |};
  (* OCP *)
  {| rule_Groups := ["config.openshift.io"]; rule_Resources := ["clusterversions"];
     rule_Verbs := ["get"; "list"; "watch"] |};
  {| rule_Groups := ["template.openshift.io"]; rule_Resources := ["templates"];
     rule_Verbs := ["get"; "list"; "watch"] |};
  {| rule_Groups := ["ocs.openshift.io"]; rule_Resources := ["storageclusters"; "ocsinitializations"];
     rule_Verbs := ["get"; "update"; "watch"; "list"] |};
  (* K8s *)
  {| rule_Groups := [""]; rule_Resources := ["pods"];
     rule_Verbs := ["get"; "list"; "delete"; "watch"; "deletecollection"] |};
  {| rule_Groups := [""]; rule_Resources := ["pods/exec"]; rule_Verbs := ["create"] |};
  {| rule_Groups := [""]; rule_Resources := ["pods/log"]; rule_Verbs := ["get"] |};
  {| rule_Groups := ["apps"]; rule_Resources := ["deployments"];
     rule_Verbs := ["get"; "list"; "update"; "watch"] |};
  {| rule_Groups := ["batch"]; rule_Resources := ["jobs"];
     rule_Verbs := ["get"; "delete"; "list"; "create"; "watch"] |};
  {| rule_Groups := [""]; rule_Resources := ["nodes"]; rule_Verbs := ["get"; "update"; "watch"; "list"] |};
  {| rule_Groups := [""]; rule_Resources := ["persistentvolumes"];
     rule_Verbs := ["get"; "list"; "watch"; "delete"] |};
  {| rule_Groups := [""]; rule_Resources := ["persistentvolumeclaims"];
     rule_Verbs := ["get"; "list"; "watch"] |};
  (* Events *)
  {| rule_Groups := [""]; rule_Resources := ["events"]; rule_Verbs := ["create"; "patch"] |}
].

(** ** Access control *)

Record Access := { acc_Group : string; acc_Resource : string; acc_Verb : string }.

#[export] Instance Access_eq_dec : EqDecision Access.
Proof. solve_decision. Defined.

Definition grants (rule : PolicyRule) : list Access :=
  g ← rule_Groups rule; r ← rule_Resources rule; v ← rule_Verbs rule;
  [ {| acc_Group := g; acc_Resource := r; acc_Verb := v |} ].

Definition granted : list Access := role ≫= grants.

Section Needs.
Context `{X : External} `{Init : !Initialized} `{G : ClientGo}.

(** The group and the resource of an object, from the scheme's REST mapping. *)
Context (resource_of : ClientObject -> string * string).

Definition access (g r v : string) : Access := {| acc_Group := g; acc_Resource := r; acc_Verb := v |}.

(** A read through the cache of the manager's client. *)
Definition cached (g r v : string) : list Access := [access g r v; access g r "list"; access g r "watch"].

Definition needs_cluster {R} (e : Req R) : list Access :=
  match e with
  | Now | RangeKeys _ | ProcessTemplate _ _ | CounterInc _ _ => []
  | GetNodeRecovery _ => cached "odf.openshift.io" "noderecoveries" "get"
  | StatusUpdate _ => [access "odf.openshift.io" "noderecoveries/status" "update"]
  | GetClusterVersion _ => cached "config.openshift.io" "clusterversions" "get"
  | GetOCSInitialization _ _ => cached "ocs.openshift.io" "ocsinitializations" "get"
  | UpdateOCSInitialization _ => [access "ocs.openshift.io" "ocsinitializations" "update"]
  | GetStorageCluster _ _ => cached "ocs.openshift.io" "storageclusters" "get"
  | UpdateStorageCluster _ => [access "ocs.openshift.io" "storageclusters" "update"]
  | GetNode _ => cached "" "nodes" "get"
  | UpdateNode _ => [access "" "nodes" "update"]
  | GetPVC _ _ => cached "" "persistentvolumeclaims" "get"
  | GetPV _ => cached "" "persistentvolumes" "get"
  | DeletePV _ => [access "" "persistentvolumes" "delete"]
  | ListPVs _ => cached "" "persistentvolumes" "list"
  | ListPVCs _ => cached "" "persistentvolumeclaims" "list"
  | ListPods _ => cached "" "pods" "list"
  | DeletePod _ => [access "" "pods" "delete"]
  | DeleteAllOfPods _ => [access "" "pods" "deletecollection"]
  | ListDeployments _ => cached "apps" "deployments" "list"
  | UpdateDeployment _ => [access "apps" "deployments" "update"]
  | GetJob _ _ => cached "batch" "jobs" "get"
  | DeleteJob _ => [access "batch" "jobs" "delete"]
  | GetTemplate _ _ => cached "template.openshift.io" "templates" "get"
  | Create o => [access (resource_of o).1 (resource_of o).2 "create"]
  | RunCommand _ _ | GetLogs _ => []
  | Eventf _ _ _ _ _ => [access "" "events" "create"; access "" "events" "patch"]
  end.

(** The executor of [createExecutor]: unless the feature flag is off, it first
    asks for a WebSocket with a GET on the exec subresource, and posts to it (by
    SPDY) when the upgrade fails. *)
Definition websocket_access : Access := access "" "pods/exec" "get".

Definition needs_client {R} (e : ClientReq R) : list Access :=
  match e with
  | StreamExec _ _ =>
      (if RemoteCommandWebsockets_IsDisabled then [] else [websocket_access]) ++ [access "" "pods/exec" "create"]
  | OpenLogs _ _ _ => [access "" "pods/log" "get"]
  | CloseLogs _ => []
  | CreateNamespace _ _ => [access "" "namespaces" "create"]
  | DeleteNamespace _ _ => [access "" "namespaces" "delete"]
  | CreatePod _ _ _ => [access "" "pods" "create"]
  end.

Definition needs (c : Call LinkedReq) : list Access :=
  match projT2 c with Cluster e => needs_cluster e | Client e => needs_client e end.

(** What the role does not grant of these. *)
Definition refused (l : list Access) : list Access := filter (fun a => a ∉ granted) l.

(** The first attempt of a remote command. *)
Definition websocket_attempt (c : Call LinkedReq) : list Access :=
  match projT2 c with
  | Client (StreamExec _ _) => if RemoteCommandWebsockets_IsDisabled then [] else [websocket_access]
  | _ => []
  end.

(** The request is authorized, if what it creates is a job; but for that attempt. *)
Definition permitted (c : Call LinkedReq) : Prop :=
  (forall o, c = call (Cluster (Create o)) -> resource_of o = ("batch", "jobs")) ->
  refused (needs c) = websocket_attempt c.

Lemma cluster_permitted {R} (e : Req R) : permitted (call (Cluster e)).
Proof using.
  intros Hjob. unfold needs. cbn [call projT2].
  destruct e; try (vm_compute; reflexivity).
  cbn [needs_cluster]. rewrite (Hjob o eq_refl). vm_compute. reflexivity.
Qed.

Lemma StreamExec_permitted exec tty : permitted (call (Client (StreamExec exec tty))).
Proof using.
  intros _. unfold needs, websocket_attempt. cbn [call projT2 needs_client].
  destruct RemoteCommandWebsockets_IsDisabled; vm_compute; reflexivity.
Qed.

(** The requests of the two clients the reconciler uses. *)
Lemma Run_footprint (P : Call ClientReq -> Prop) config pod cmd :
  (forall exec, P (call (StreamExec exec false))) -> only P (Run config pod cmd).
Proof using.
  intros HP. unfold Run, NewForConfigOrDie. destruct (NewForConfig config) as [err|c]; [done|]. cbn.
  destruct (FindOrDefaultContainerByName pod "" true) as [w [err|name]]; [done|].
  destruct (createExecutor _ _); [done|]. split; [apply HP|]. by intros [[out errs] [why|]].
Qed.

Lemma GetLogs_footprint (P : Call ClientReq -> Prop) l podName :
  (forall c, P (call (OpenLogs c ODF_NAMESPACE podName))) -> (forall s, P (call (CloseLogs s))) ->
  only P (LogClient_GetLogs l podName).
Proof using.
  intros Ho Hc. split; [apply Ho|]. intros [err|s]; [done|]. cbn.
  destruct (io_Copy _ _ _) as [buf end_]. by split; [apply Hc|].
Qed.

(** C18: Safety.  The role covers what the operator does, with one exception.
    Every request of a reconciliation, to the API server or through the client
    for logs, needs only permissions the markers grant, as long as the objects
    of the removal template are jobs.  A remote command needs one more: unless
    WebSockets are switched off by the feature flag, it is tried first with a
    GET on the exec subresource of the pod, and of what it needs this is exactly
    what the role does not grant; the POST it falls back to is granted. *)
Theorem role_covers_all_but_the_websocket {E} (config : RestConfig) (r : NodeRecoveryReconciler) (name : string)
    (env : Answers LinkedReq) (c : Call LinkedReq) :
  newReconciler (E := E) config = mret r ->
  issues env (linkedReconcile r name) c ->
  (forall o, c = call (Cluster (Create o)) -> resource_of o = ("batch", "jobs")) ->
  refused (needs c) = websocket_attempt c.
Proof using.
  intros (k & _ & ->)%newReconciler_config Hi. apply (only_issues permitted _ _ _) in Hi; [exact Hi|].
  apply only_bind; [apply only_trigger, cluster_permitted|]. intros got.
  rewrite linkedFetched_interp. apply only_interp. intros R e.
  destruct e; cbn [implement]; try (apply only_trigger, cluster_permitted); apply only_translate.
  - apply Run_footprint. intros exec. apply StreamExec_permitted.
  - apply GetLogs_footprint; intros; intros _; vm_compute; reflexivity.
Qed.

(** The API server enforces the role on the clients. *)
Definition enforced : Answers ClientReq := fun R e =>
  match e in ClientReq R return R -> Prop with
  | CreateNamespace c n => fun r => refused (needs_client (CreateNamespace c n)) <> [] -> exists err, r = inl err
  | CreatePod c ns p => fun r => refused (needs_client (CreatePod c ns p)) <> [] -> exists err, r = inl err
  | _ => fun _ => True
  end.

(** The runner of privileged pods cannot run with this role: its namespace is
    refused. *)
Lemma runner_is_refused (runner : Runner) (nodeName : string) :
  wp (permissive enforced) (Initialize runner nodeName) tt
    (fun r _ => exists err, r = (None, None, Some err)) (fun _ => False).
Proof using.
  split; [done|]. intros r [] Hr. destruct Hr as [err ->]; [discriminate|]. cbn. by eexists.
Qed.

End Needs.

(** ** The role is not too large *)

(** The objects of the removal template are jobs. *)
Definition job_resource (o : ClientObject) : string * string := ("batch", "jobs").

(** What one reconciliation of the cluster in memory needs, and what [n] of them need. *)
Definition needed (w : World) : list Access :=
  trace (linked_cluster None) (linkedReconcile fake_controller "recovery") w ≫= needs job_resource.

Definition needed_by (n : nat) (w : World) : list Access :=
  seq 0 n ≫= fun i => needed (Nat.iter i (linked_step None) w).

(** A pod that waits for a node, and one that was evicted. *)
Definition pending_pod : Pod :=
  {| pod_Name := "rook-ceph-osd-prepare"; pod_Namespace := ODF_NAMESPACE;
     pod_Labels := {[ "app" := "rook-ceph-osd" ]}; pod_DeletionTimestamp := None;
     pod_NodeSelector := {[ "kubernetes.io/hostname" := "node-2" ]};
     pod_Phase := "Pending"; pod_Reason := ""; pod_InitContainerStatuses := []; pod_ContainerStatuses := [] |}.

Definition evicted_pod : Pod :=
  {| pod_Name := "noobaa-core-0"; pod_Namespace := ODF_NAMESPACE; pod_Labels := ∅; pod_DeletionTimestamp := None;
     pod_NodeSelector := ∅; pod_Phase := "Failed"; pod_Reason := "NodeAffinity";
     pod_InitContainerStatuses := []; pod_ContainerStatuses := [] |}.

Definition Pending : World := with_pods (w_pods Settled ++ [pending_pod; evicted_pod]) Settled.

(** The same cluster on the older platform. *)
Definition with_version (v : string) (w : World) : World := Build_World (w_clock w) (w_cr w) (w_pods w) (w_nodes w)
  (w_pvcs w) (w_pvs w) (w_deployments w) (w_job w) (w_ocsinit w) (w_sc w)
  [ {| uh_State := "Completed"; uh_Version := v |} ] (w_template w)
  (w_stdout w) (w_logs w) (w_spare_pods w) (w_spare_pvs w).

(** Every permission of the role is needed by one of three recoveries, except
    those on the custom resource that the operator does not use, and reading a
    single pod or deployment: they are only listed. *)
Example role_is_needed :
  (let needed := needed_by 17 Broken ++ needed_by 9 Pending ++ needed_by 2 (with_version "4.14.9" Settled) in
   filter (fun a => a ∉ needed) granted)
  = [ access "odf.openshift.io" "noderecoveries" "create"; access "odf.openshift.io" "noderecoveries" "update";
      access "odf.openshift.io" "noderecoveries" "patch"; access "odf.openshift.io" "noderecoveries" "delete";
      access "odf.openshift.io" "noderecoveries/status" "get"; access "odf.openshift.io" "noderecoveries/status" "patch";
      access "odf.openshift.io" "noderecoveries/finalizers" "update";
      access "" "pods" "get"; access "apps" "deployments" "get" ].
Proof. vm_compute. reflexivity. Qed.

(** ** Witness *)

(** The health query of the eighth step. *)
Definition health_query : Call LinkedReq :=
  call (Client (StreamExec (("GET", "config/openshift-storage/rook-ceph-tools-0") : @Executor fake_client) false)).

Lemma role_covers_all_but_the_websocket_witness :
  refused (needs job_resource health_query) = [access "" "pods/exec" "get"].
Proof.
  apply (role_covers_all_but_the_websocket (E := LinkedReq) job_resource ("config" : @RestConfig fake_client)
    fake_controller "recovery" any_answer health_query).
  - reflexivity.
  - apply (trace_issues (linked_cluster None) any_answer (fun _ => True) _ (Nat.iter 7 (linked_step None) Settled)); [done|done|].
    apply list_elem_of_lookup. exists 4. vm_compute. reflexivity.
  - intros o H. reflexivity.
Defined.
