(* ===== verification/Wire.v ===== *)
(** * Wire: the status as a JSON document

    A status is sent to the API server and read back as the JSON document its
    struct tags describe (api/v1alpha1/noderecovery_types.go), and the server
    checks it against the schema that the types and their kubebuilder markers
    generate.  The encoding below is what [encoding/json] makes of the tags;
    [metav1.Time] brings its own, which only has seconds.  A document is the
    tree of its values ([Json.json]): the text it is sent as, in which bytes of
    a string that are not UTF-8 are replaced, is not part of it. *)

From S2P Require Import Prelude GoStd Api Json Times.

(** ** metav1.Time *)

(** The year 10000: RFC 3339 has four digits for the year. *)
Definition maxTime : Time := (3652059 * 86400 * Second)%Z.

(** Times with a representation that is not the zero time. *)
Definition dated (t : Time) : Prop := (Second <= t < maxTime)%Z.

(** What is left of a time. *)
Definition seconds (t : Time) : Time := (t - t mod Second)%Z.

(** The encoding of [metav1.Time], with its documentation: null for the zero
    time, otherwise the time of day in RFC 3339. *)
Class TimeJSON := {
  Time_MarshalJSON : Time -> json;
  Time_UnmarshalJSON : json -> option Time;
  date_time : string -> bool;
  Time_MarshalJSON_zero : Time_MarshalJSON zeroTime = JNull;
  Time_UnmarshalJSON_null : Time_UnmarshalJSON JNull = Some zeroTime;
  Time_UnmarshalJSON_dated t : dated t -> Time_UnmarshalJSON (Time_MarshalJSON t) = Some (seconds t);
  Time_MarshalJSON_dated t : dated t -> exists s, Time_MarshalJSON t = JString s /\ date_time s = true;
}.

Lemma dated_seconds t : dated t -> dated (seconds t).
Proof.
  unfold dated, seconds. intros [H1 H2].
  pose proof (Z.mod_pos_bound t Second ltac:(reflexivity)) as Hm.
  pose proof (Z.div_mod t Second ltac:(discriminate)) as Hd.
  assert (1 <= t / Second)%Z by (apply Z.div_le_lower_bound; [reflexivity|lia]).
  change Second with 1000000000%Z in *. lia.
Qed.

Lemma dated_nonzero t : dated t -> t <> zeroTime.
Proof. unfold dated, zeroTime. change Second with 1000000000%Z. lia. Qed.

(** Conditions and statuses whose times are there. *)
Abbreviation dated_condition := (timed_condition dated).
Abbreviation dated_status := (timed dated).

Section Wire.
Context `{T : TimeJSON}.

(** ** Encoding *)

(** A member, and one that is omitted when it is empty. *)
Definition member (name : string) (v : json) : list (string * json) := [(name, v)].
Definition omitempty (empty : bool) (name : string) (v : json) : list (string * json) :=
  if empty then [] else [(name, v)].

Definition empty_string (s : string) : bool := bool_decide (s = "").
Definition empty_slice {A} (l : list A) : bool := match l with [] => true | _ => false end.
Definition nil_pointer {A} (p : option A) : bool := match p with None => true | Some _ => false end.

(** A pointer is encoded as what it points to, or null. *)
Definition marshal_ptr {A} (f : A -> json) (p : option A) : json :=
  match p with Some a => f a | None => JNull end.

Definition marshal_NodePV (nd : NodePV) : json := JObject
  (member "nodeName" (JString (npv_NodeName nd))
   ++ member "pvName" (JString (npv_PersistentVolumeName nd))
   ++ member "failingOSDID" (JString (npv_FailingOSDID nd))).

Definition marshal_RecoveryCondition (c : RecoveryCondition) : json := JObject
  (member "type" (JString (conditionTypeString (cond_Type c)))
   ++ member "lastProbeTime" (Time_MarshalJSON (cond_LastProbeTime c))
   ++ member "lastTransitionTime" (Time_MarshalJSON (cond_LastTransitionTime c))
   ++ omitempty (empty_string (cond_Reason c)) "reason" (JString (cond_Reason c))
   ++ omitempty (empty_string (cond_Message c)) "message" (JString (cond_Message c))
   ++ omitempty (empty_string (cond_Status c)) "status" (JString (cond_Status c))).

Definition marshal_NodeRecoveryStatus (st : NodeRecoveryStatus) : json := JObject
  (omitempty (empty_string (Phase st)) "phase" (JString (Phase st))
   ++ omitempty (empty_slice (Conditions st)) "conditions" (JArray (map marshal_RecoveryCondition (Conditions st)))
   ++ omitempty (nil_pointer (StartTime st)) "startTime" (marshal_ptr Time_MarshalJSON (StartTime st))
   ++ omitempty (nil_pointer (CompletionTime st)) "completionTime" (marshal_ptr Time_MarshalJSON (CompletionTime st))
   ++ omitempty (negb (PendingPods st)) "pendingPods" (JBool (PendingPods st))
   ++ omitempty (negb (CrashLoopBackOffPods st)) "crashLoopBackOffPods" (JBool (CrashLoopBackOffPods st))
   ++ omitempty (empty_slice (NodeDevice st)) "nodeDevice" (JArray (map (marshal_ptr marshal_NodePV) (NodeDevice st)))
   ++ omitempty (negb (ForcedOSDRemoval st)) "forcedOSDRemoval" (JBool (ForcedOSDRemoval st))
   ++ omitempty (negb (KeepCephToolsPod st)) "keepCephToolsPod" (JBool (KeepCephToolsPod st))
   ++ omitempty (empty_slice (OperationalOSDIDs st)) "operationalOSDIDs" (JArray (map JString (OperationalOSDIDs st)))).

(** ** Decoding

    Into the zero value, with the names of the members as they are; null leaves
    a target as it is, a member without a field is ignored, and a value of the
    wrong type is an error. *)

Definition unmarshal_string (v : json) (cur : string) : option string :=
  match v with JString s => Some s | JNull => Some cur | _ => None end.

Definition unmarshal_bool (v : json) (cur : bool) : option bool :=
  match v with JBool b => Some b | JNull => Some cur | _ => None end.

Definition unmarshal_slice {A} (f : json -> option A) (v : json) : option (list A) :=
  match v with JArray vs => mapM f vs | JNull => Some [] | _ => None end.

Definition unmarshal_ptr {A} (f : json -> option A) (v : json) : option (option A) :=
  match v with JNull => Some None | v => Some <$> f v end.

(** The members of an object, one after the other. *)
Definition members {A} (set : string -> json -> A -> option A) (ms : list (string * json)) (a : A) : option A :=
  foldl (fun acc '(k, v) => acc ≫= set k v) (Some a) ms.

Definition unmarshal_object {A} (set : string -> json -> A -> option A) (v : json) (a : A) : option A :=
  match v with JObject ms => members set ms a | JNull => Some a | _ => None end.

Definition set_NodePV (k : string) (v : json) (nd : NodePV) : option NodePV :=
  if decide (k = "nodeName") then
    (fun s => Build_NodePV s (npv_PersistentVolumeName nd) (npv_FailingOSDID nd))
      <$> unmarshal_string v (npv_NodeName nd)
  else if decide (k = "pvName") then
    (fun s => Build_NodePV (npv_NodeName nd) s (npv_FailingOSDID nd))
      <$> unmarshal_string v (npv_PersistentVolumeName nd)
  else if decide (k = "failingOSDID") then
    (fun s => Build_NodePV (npv_NodeName nd) (npv_PersistentVolumeName nd) s)
      <$> unmarshal_string v (npv_FailingOSDID nd)
  else Some nd.

Definition unmarshal_NodePV (v : json) : option NodePV := unmarshal_object set_NodePV v (Build_NodePV "" "" "").

Definition set_RecoveryCondition (k : string) (v : json) (c : RecoveryCondition) : option RecoveryCondition :=
  if decide (k = "type") then
    (fun s => Build_RecoveryCondition (conditionTypeOfString s) (cond_LastProbeTime c) (cond_LastTransitionTime c)
       (cond_Reason c) (cond_Message c) (cond_Status c)) <$> unmarshal_string v (conditionTypeString (cond_Type c))
  else if decide (k = "lastProbeTime") then
    (fun t => set_cond_LastProbeTime t c) <$> Time_UnmarshalJSON v
  else if decide (k = "lastTransitionTime") then
    (fun t => Build_RecoveryCondition (cond_Type c) (cond_LastProbeTime c) t
       (cond_Reason c) (cond_Message c) (cond_Status c)) <$> Time_UnmarshalJSON v
  else if decide (k = "reason") then (fun s => set_cond_Reason s c) <$> unmarshal_string v (cond_Reason c)
  else if decide (k = "message") then (fun s => set_cond_Message s c) <$> unmarshal_string v (cond_Message c)
  else if decide (k = "status") then (fun s => set_cond_Status s c) <$> unmarshal_string v (cond_Status c)
  else Some c.

Definition zeroCondition : RecoveryCondition := {|
  cond_Type := OtherConditionType ""; cond_LastProbeTime := zeroTime; cond_LastTransitionTime := zeroTime;
  cond_Reason := ""; cond_Message := ""; cond_Status := "" |}.

Definition unmarshal_RecoveryCondition (v : json) : option RecoveryCondition :=
  unmarshal_object set_RecoveryCondition v zeroCondition.

Definition set_NodeRecoveryStatus (k : string) (v : json) (st : NodeRecoveryStatus) : option NodeRecoveryStatus :=
  if decide (k = "phase") then (fun s => set_Phase s st) <$> unmarshal_string v (Phase st)
  else if decide (k = "conditions") then
    (fun l => set_Conditions l st) <$> unmarshal_slice unmarshal_RecoveryCondition v
  else if decide (k = "startTime") then (fun t => set_StartTime t st) <$> unmarshal_ptr Time_UnmarshalJSON v
  else if decide (k = "completionTime") then (fun t => set_CompletionTime t st) <$> unmarshal_ptr Time_UnmarshalJSON v
  else if decide (k = "pendingPods") then (fun b => set_PendingPods b st) <$> unmarshal_bool v (PendingPods st)
  else if decide (k = "crashLoopBackOffPods") then
    (fun b => set_CrashLoopBackOffPods b st) <$> unmarshal_bool v (CrashLoopBackOffPods st)
  else if decide (k = "nodeDevice") then
    (fun l => set_NodeDevice l st) <$> unmarshal_slice (unmarshal_ptr unmarshal_NodePV) v
  else if decide (k = "forcedOSDRemoval") then
    (fun b => set_ForcedOSDRemoval b st) <$> unmarshal_bool v (ForcedOSDRemoval st)
  else if decide (k = "keepCephToolsPod") then
    (fun b => set_KeepCephToolsPod b st) <$> unmarshal_bool v (KeepCephToolsPod st)
  else if decide (k = "operationalOSDIDs") then
    (fun l => set_OperationalOSDIDs l st) <$> unmarshal_slice (fun v => unmarshal_string v "") v
  else Some st.

Definition unmarshal_NodeRecoveryStatus (v : json) : option NodeRecoveryStatus :=
  unmarshal_object set_NodeRecoveryStatus v zeroStatus.

(** ** The schema

    Of an OpenAPI v3 schema: an [enum] that is empty allows every string, the
    [keys] of a list are those of a list-map. *)

Inductive schema :=
| StringSchema (enum : list string)
| DateTimeSchema
| BooleanSchema
| ArraySchema (keys : list string) (items : schema)
| ObjectSchema (required : list string) (properties : list (string * schema)).

(** The value of a key of an element of a list-map. *)
Definition key_of (v : json) (k : string) : option string :=
  match v with
  | JObject ms => match list_find (fun m => m.1 = k) ms with Some (_, (_, JString s)) => Some s | _ => None end
  | _ => None
  end.

(** No two elements with the same keys. *)
Definition distinct (keys : list string) (vs : list json) : bool :=
  match keys with [] => true | _ => bool_decide (NoDup (map (fun v => map (key_of v) keys) vs)) end.

(** A member that the schema does not have is not looked at. *)
Fixpoint validates (s : schema) (v : json) : bool :=
  match s, v with
  | StringSchema enum, JString x => empty_slice enum || bool_decide (x ∈ enum)
  | DateTimeSchema, JString x => date_time x
  | BooleanSchema, JBool _ => true
  | ArraySchema keys items, JArray vs => forallb (validates items) vs && distinct keys vs
  | ObjectSchema required properties, JObject ms =>
      forallb (fun k => existsb (fun m => String.eqb k m.1) ms) required
      && forallb (fun m =>
           (fix property ps :=
              match ps with
              | [] => true
              | (k, s) :: ps => if String.eqb k m.1 then validates s m.2 else property ps
              end) properties) ms
  | _, _ => false
  end.

Definition condition_schema : schema := ObjectSchema ["lastProbeTime"; "lastTransitionTime"; "type"]
  [ ("type", StringSchema []); ("lastProbeTime", DateTimeSchema); ("lastTransitionTime", DateTimeSchema);
    ("reason", StringSchema []); ("message", StringSchema []); ("status", StringSchema ["True"; "False"]) ].

Definition device_schema : schema := ObjectSchema ["failingOSDID"; "nodeName"; "pvName"]
  [ ("nodeName", StringSchema []); ("pvName", StringSchema []); ("failingOSDID", StringSchema []) ].

Definition status_schema : schema := ObjectSchema []
  [ ("phase", StringSchema ["Running"; "Completed"; "Failed"]);
    ("conditions", ArraySchema ["type"] condition_schema);
    ("startTime", DateTimeSchema); ("completionTime", DateTimeSchema);
    ("pendingPods", BooleanSchema); ("crashLoopBackOffPods", BooleanSchema);
    ("nodeDevice", ArraySchema [] device_schema);
    ("forcedOSDRemoval", BooleanSchema); ("keepCephToolsPod", BooleanSchema);
    ("operationalOSDIDs", ArraySchema [] (StringSchema [])) ].

(** ** The round trip *)

(** What is left of a condition and of a status. *)
Definition rounded_condition (c : RecoveryCondition) : RecoveryCondition :=
  Build_RecoveryCondition (cond_Type c) (seconds (cond_LastProbeTime c)) (seconds (cond_LastTransitionTime c))
    (cond_Reason c) (cond_Message c) (cond_Status c).

Definition rounded (st : NodeRecoveryStatus) : NodeRecoveryStatus :=
  set_CompletionTime (seconds <$> CompletionTime st)
    (set_StartTime (seconds <$> StartTime st)
      (set_Conditions (map rounded_condition (Conditions st)) st)).

Lemma members_member {A} set name v ms (a a' : A) :
  set name v a = Some a' -> members set (member name v ++ ms) a = members set ms a'.
Proof using. intros H. unfold members. cbn. by rewrite H. Qed.

Lemma members_omitempty {A} set (empty : bool) name v ms (a a' : A) :
  (empty = true -> a' = a) -> (empty = false -> set name v a = Some a') ->
  members set (omitempty empty name v ++ ms) a = members set ms a'.
Proof using.
  intros He Hf. destruct empty; cbn; [by rewrite He|]. apply (members_member set name v ms). auto.
Qed.

Lemma members_last {A} set (empty : bool) name v (a a' : A) :
  (empty = true -> a' = a) -> (empty = false -> set name v a = Some a') ->
  members set (omitempty empty name v) a = Some a'.
Proof using. intros He Hf. rewrite <- (app_nil_r (omitempty _ _ _)). by erewrite members_omitempty. Qed.

Lemma mapM_map {A B C} (f : B -> option C) (g : A -> B) (h : A -> C) l :
  Forall (fun a => f (g a) = Some (h a)) l -> mapM f (map g l) = Some (map h l).
Proof using. induction 1 as [|a l Ha _ IH]; cbn; [done|]. by rewrite Ha, IH. Qed.

Lemma NodePV_roundtrip nd : unmarshal_NodePV (marshal_NodePV nd) = Some nd.
Proof using. by destruct nd. Qed.

Lemma empty_string_true s : empty_string s = true -> s = "".
Proof using. apply bool_decide_eq_true. Qed.

Lemma empty_slice_true {A} (l : list A) : empty_slice l = true -> l = [].
Proof using. by destruct l. Qed.

Lemma nil_pointer_true {A} (o : option A) : nil_pointer o = true -> o = None.
Proof using. by destruct o. Qed.

(** A member that is there, or omitted because the field has its zero value. *)
Ltac omitted :=
  intros ?;
  repeat match goal with
    | H : empty_string _ = true |- _ => apply empty_string_true in H
    | H : empty_slice _ = true |- _ => apply empty_slice_true in H
    | H : nil_pointer _ = true |- _ => apply nil_pointer_true in H
    | H : negb _ = true |- _ => apply negb_true_iff in H
    end; cbn in *; subst; reflexivity.

(** The field a member belongs to. *)
Ltac field := repeat first [rewrite decide_True by reflexivity | rewrite decide_False by discriminate].

Lemma RecoveryCondition_roundtrip c :
  dated_condition c -> unmarshal_RecoveryCondition (marshal_RecoveryCondition c) = Some (rounded_condition c).
Proof.
  intros (Hp & Ht & Hty). unfold unmarshal_RecoveryCondition, marshal_RecoveryCondition, unmarshal_object.
  destruct c as [ty p t r m s]. cbn [cond_Type cond_LastProbeTime cond_LastTransitionTime cond_Reason cond_Message
    cond_Status] in *. set (name := conditionTypeString ty).
  rewrite (members_member _ "type" _ _ _ (Build_RecoveryCondition ty zeroTime zeroTime "" "" "")).
  2: { unfold set_RecoveryCondition. field. cbn. by rewrite <- (conditionTypeOfString_string ty Hty). }
  rewrite (members_member _ "lastProbeTime" _ _ _ (Build_RecoveryCondition ty (seconds p) zeroTime "" "" "")).
  2: { unfold set_RecoveryCondition. field. by rewrite Time_UnmarshalJSON_dated. }
  rewrite (members_member _ "lastTransitionTime" _ _ _ (Build_RecoveryCondition ty (seconds p) (seconds t) "" "" "")).
  2: { unfold set_RecoveryCondition. field. by rewrite Time_UnmarshalJSON_dated. }
  erewrite (members_omitempty _ _ "reason"); [|omitted|reflexivity].
  erewrite (members_omitempty _ _ "message"); [|omitted|reflexivity].
  erewrite (members_last _ _ "status"); [|omitted|reflexivity].
  reflexivity.
Qed.

Lemma strings_roundtrip ids : mapM (fun v => unmarshal_string v "") (map JString ids) = Some ids.
Proof using.
  rewrite <- (map_id ids) at 2. apply (mapM_map _ JString (fun s => s)). by apply Forall_true.
Qed.

Lemma devices_roundtrip nds :
  mapM (unmarshal_ptr unmarshal_NodePV) (map (marshal_ptr marshal_NodePV) nds) = Some nds.
Proof using.
  rewrite <- (map_id nds) at 2. apply (mapM_map _ (marshal_ptr marshal_NodePV) (fun nd => nd)).
  apply Forall_true. intros [nd|]; [|done]. cbn. by destruct nd.
Qed.

Lemma conditions_roundtrip cs :
  Forall dated_condition cs ->
  mapM unmarshal_RecoveryCondition (map marshal_RecoveryCondition cs) = Some (map rounded_condition cs).
Proof.
  intros Hcs. apply mapM_map. eapply Forall_impl; [exact Hcs|]. apply RecoveryCondition_roundtrip.
Qed.

Lemma time_roundtrip o :
  (forall t, o = Some t -> dated t) ->
  nil_pointer o = false ->
  unmarshal_ptr Time_UnmarshalJSON (marshal_ptr Time_MarshalJSON o) = Some (seconds <$> o).
Proof.
  intros Ho Hn. destruct o as [t|]; [|done]. specialize (Ho t eq_refl). cbn.
  destruct (Time_MarshalJSON_dated t Ho) as (s & Hs & _).
  pose proof (Time_UnmarshalJSON_dated t Ho) as Hr. rewrite Hs in *. cbn. by rewrite Hr.
Qed.

(** What was written is read back, with times in seconds. *)
Lemma status_roundtrip st :
  dated_status st ->
  unmarshal_NodeRecoveryStatus (marshal_NodeRecoveryStatus st) = Some (rounded st).
Proof.
  intros [Hcs Hs Hc]. unfold unmarshal_NodeRecoveryStatus, marshal_NodeRecoveryStatus, unmarshal_object.
  destruct st as [ph cs stt ct pp clb nds forced keep ids].
  cbn [Phase Conditions StartTime CompletionTime PendingPods CrashLoopBackOffPods NodeDevice ForcedOSDRemoval
    KeepCephToolsPod OperationalOSDIDs] in *.
  rewrite (members_omitempty _ _ "phase" _ _ _
    (Build_NodeRecoveryStatus ph [] None None false false [] false false [])); [|omitted|].
  2: { intros He. unfold set_NodeRecoveryStatus. field. done. }
  rewrite (members_omitempty _ _ "conditions" _ _ _
    (Build_NodeRecoveryStatus ph (map rounded_condition cs) None None false false [] false false [])); [|omitted|].
  2: { intros He. unfold set_NodeRecoveryStatus. field. cbn [unmarshal_slice]. by rewrite conditions_roundtrip. }
  rewrite (members_omitempty _ _ "startTime" _ _ _
    (Build_NodeRecoveryStatus ph (map rounded_condition cs) (seconds <$> stt) None false false [] false false [])); [|omitted|].
  2: { intros He. unfold set_NodeRecoveryStatus. field. by rewrite time_roundtrip. }
  rewrite (members_omitempty _ _ "completionTime" _ _ _
    (Build_NodeRecoveryStatus ph (map rounded_condition cs) (seconds <$> stt) (seconds <$> ct) false false [] false false [])); [|omitted|].
  2: { intros He. unfold set_NodeRecoveryStatus. field. by rewrite time_roundtrip. }
  rewrite (members_omitempty _ _ "pendingPods" _ _ _
    (Build_NodeRecoveryStatus ph (map rounded_condition cs) (seconds <$> stt) (seconds <$> ct) pp false [] false false [])); [|omitted|].
  2: { intros He. unfold set_NodeRecoveryStatus. field. done. }
  rewrite (members_omitempty _ _ "crashLoopBackOffPods" _ _ _
    (Build_NodeRecoveryStatus ph (map rounded_condition cs) (seconds <$> stt) (seconds <$> ct) pp clb [] false false [])); [|omitted|].
  2: { intros He. unfold set_NodeRecoveryStatus. field. done. }
  rewrite (members_omitempty _ _ "nodeDevice" _ _ _
    (Build_NodeRecoveryStatus ph (map rounded_condition cs) (seconds <$> stt) (seconds <$> ct) pp clb nds false false [])); [|omitted|].
  2: { intros He. unfold set_NodeRecoveryStatus. field. cbn [unmarshal_slice]. by rewrite devices_roundtrip. }
  rewrite (members_omitempty _ _ "forcedOSDRemoval" _ _ _
    (Build_NodeRecoveryStatus ph (map rounded_condition cs) (seconds <$> stt) (seconds <$> ct) pp clb nds forced false [])); [|omitted|].
  2: { intros He. unfold set_NodeRecoveryStatus. field. done. }
  rewrite (members_omitempty _ _ "keepCephToolsPod" _ _ _
    (Build_NodeRecoveryStatus ph (map rounded_condition cs) (seconds <$> stt) (seconds <$> ct) pp clb nds forced keep [])); [|omitted|].
  2: { intros He. unfold set_NodeRecoveryStatus. field. done. }
  rewrite (members_last _ _ "operationalOSDIDs" _ _
    (Build_NodeRecoveryStatus ph (map rounded_condition cs) (seconds <$> stt) (seconds <$> ct) pp clb nds forced keep ids)); [|omitted|].
  2: { intros He. unfold set_NodeRecoveryStatus. field. cbn [unmarshal_slice]. by rewrite strings_roundtrip. }
  reflexivity.
Qed.

(** ** Validation *)

Lemma forallb_omitempty (P : string * json -> bool) (empty : bool) name v ms :
  forallb P (omitempty empty name v ++ ms) = (empty || P (name, v)) && forallb P ms.
Proof using. by destruct empty. Qed.

Lemma forallb_map {A B} (P : B -> bool) (f : A -> B) l :
  Forall (fun a => P (f a) = true) l -> forallb P (map f l) = true.
Proof using. induction 1 as [|a l Ha _ IH]; cbn; [done|]. by rewrite Ha. Qed.

Lemma date_time_valid t : dated t -> validates DateTimeSchema (Time_MarshalJSON t) = true.
Proof. intros (s & -> & Hs)%Time_MarshalJSON_dated. exact Hs. Qed.

Lemma condition_valid c :
  dated_condition c -> cond_Status c = StatusTrue \/ cond_Status c = StatusFalse ->
  validates condition_schema (marshal_RecoveryCondition c) = true.
Proof.
  intros (Hp & Ht & _) Hs. pose proof (date_time_valid _ Hp) as Hp'. pose proof (date_time_valid _ Ht) as Ht'.
  unfold marshal_RecoveryCondition. cbn in Hp', Ht' |- *. rewrite <- (app_nil_r (omitempty _ "status" _)).
  rewrite !forallb_omitempty. cbn. rewrite Hp', Ht'. rewrite !orb_true_r. by destruct Hs as [-> | ->].
Qed.

Lemma device_valid nd : validates device_schema (marshal_NodePV nd) = true.
Proof using. done. Qed.

Lemma key_of_condition c :
  key_of (marshal_RecoveryCondition c) "type" = Some (conditionTypeString (cond_Type c)).
Proof. done. Qed.

Lemma distinct_conditions cs :
  Forall dated_condition cs ->
  distinct ["type"] (map marshal_RecoveryCondition cs) = bool_decide (NoDup (map cond_Type cs)).
Proof.
  intros Hcs. unfold distinct. apply bool_decide_ext. rewrite map_map. cbn [map].
  assert (map (fun c => [key_of (marshal_RecoveryCondition c) "type"]) cs
          = (fun t => [Some (conditionTypeString t)]) <$> map cond_Type cs) as ->.
  { clear. induction cs as [|c cs IH]; [done|]. cbn [map fmap list_fmap]. by rewrite key_of_condition, <- IH. }
  split; [apply NoDup_fmap_1|]. apply NoDup_fmap_2_strong. intros t u Ht Hu [= Heq].
  assert (forall t, t ∈ map cond_Type cs -> conditionTypeOfString (conditionTypeString t) = t) as Hname.
  { intros v (c & -> & Hc)%list_elem_of_fmap. apply conditionTypeOfString_string.
    rewrite Forall_forall in Hcs. by apply Hcs. }
  rewrite <- (Hname t Ht), <- (Hname u Hu). by f_equal.
Qed.

Lemma time_valid o :
  (forall t, o = Some t -> dated t) ->
  nil_pointer o || validates DateTimeSchema (marshal_ptr Time_MarshalJSON o) = true.
Proof. intros Ho. destruct o as [t|]; [|done]. by apply date_time_valid, Ho. Qed.

(** The document of a status is accepted exactly when no two of its conditions
    have the same type. *)
Lemma status_valid st :
  dated_status st ->
  Phase st = RunningPhase \/ Phase st = FailedPhase \/ Phase st = CompletedPhase ->
  Forall (fun c => cond_Status c = StatusTrue \/ cond_Status c = StatusFalse) (Conditions st) ->
  Forall is_Some (NodeDevice st) ->
  validates status_schema (marshal_NodeRecoveryStatus st) = bool_decide (NoDup (map cond_Type (Conditions st))).
Proof.
  intros [Hcs Hs Hc] Hph Hst Hnd.
  assert (forallb (validates condition_schema) (map marshal_RecoveryCondition (Conditions st)) = true) as Hcv.
  { apply forallb_map, Forall_forall. intros c Hin. rewrite Forall_forall in Hcs, Hst. by apply condition_valid; auto. }
  assert (forallb (validates device_schema) (map (marshal_ptr marshal_NodePV) (NodeDevice st)) = true) as Hdv.
  { apply forallb_map. eapply Forall_impl; [exact Hnd|]. by intros ? [nd ->]. }
  assert (forallb (validates (StringSchema [])) (map JString (OperationalOSDIDs st)) = true) as Hov
    by by apply forallb_map, Forall_true.
  pose proof (time_valid _ Hs) as Hsv. pose proof (time_valid _ Hc) as Hctv.
  assert (bool_decide (Phase st ∈ ["Running"; "Completed"; "Failed"]) = true) as Hpv
    by (apply bool_decide_eq_true; unfold RunningPhase, FailedPhase, CompletedPhase in Hph; set_solver).
  unfold marshal_NodeRecoveryStatus. cbn [validates status_schema forallb andb].
  rewrite <- (app_nil_r (omitempty _ "operationalOSDIDs" _)), !forallb_omitempty.
  cbn -[condition_schema device_schema validates distinct bool_decide]. cbn [validates empty_slice orb] in *.
  rewrite Hpv, Hcv, Hdv, Hov, Hsv, Hctv, distinct_conditions, !orb_true_r, !andb_true_r by done.
  by destruct (Conditions st).
Qed.

End Wire.
