(* ===== verification/Storage.v ===== *)
(** * Storage: what the API server keeps of a recovery

    The state machine speaks of the statuses that come back when the server is
    given what the controller wrote, with times that may have been rounded.
    Here the server keeps the document of the status ([Wire]): every status
    that is written can be read back, so what it keeps is such a status, and
    its document is checked against the schema of the resource. *)

From Stdlib Require DecimalString DecimalN.
From S2P Require Import Prelude Effects GoStd Api Json K8s Const Monitoring Ceph Recovery Reconciler Controller.
From S2P Require Import Footprint StateMachine Times Wire Fake.

(** Any answer to every request, but the clock shows a time of the years 1 to
    9999, a second past the zero time at least. *)
Abbreviation dated_clock := (clocked dated).

Lemma dated_clock_clock `{X : External} R (e : Req R) r : dated_clock R e r -> clock R e r.
Proof. destruct e; try done. cbn. unfold dated. change Second with 1000000000%Z. lia. Qed.

(** ** The documents the server keeps *)

Lemma rounded_stored st : dated_status st -> stored st (rounded st).
Proof.
  intros [Hc Hs Hct].
  assert (forall o, (forall t, o = Some t -> dated t) -> stored_time o (seconds <$> o)) as Htime.
  { intros o Ho. split; [by rewrite fmap_is_Some|]. intros u v -> [= <-] _. by apply dated_nonzero, dated_seconds, Ho. }
  constructor; cbn; auto. clear. induction (Conditions st); constructor; [done|assumption].
Qed.

Lemma rounded_dated st : dated_status st -> dated_status (rounded st).
Proof.
  intros [Hc Hs Hct]. constructor; cbn.
  - apply Forall_map. eapply Forall_impl; [exact Hc|]. intros c (H1 & H2 & H3).
    split_and!; [by apply dated_seconds..|exact H3].
  - intros t (u & Hu & ->)%fmap_Some. by apply dated_seconds, Hs.
  - intros t (u & Hu & ->)%fmap_Some. by apply dated_seconds, Hct.
Qed.

Section Storage.
Context `{X : External} `{Init : !Initialized} `{T : TimeJSON}.

(** The statuses of an object whose server keeps documents: of a new object,
    and what is read back of the document of a status the controller wrote. *)
Inductive persisted : NodeRecoveryStatus -> Prop :=
| persisted_new : persisted zeroStatus
| persisted_update inst inst' st :
    persisted (nr_Status inst) ->
    issues dated_clock (reconcileFetched (inr inst)) (call (StatusUpdate inst')) ->
    unmarshal_NodeRecoveryStatus (marshal_NodeRecoveryStatus (nr_Status inst')) = Some st ->
    persisted st.

Lemma zero_dated : dated_status zeroStatus.
Proof. by constructor. Qed.

Lemma persisted_dated st : persisted st -> dated_status st.
Proof.
  induction 1 as [|inst inst' st _ IH Hi Hst]; [apply zero_dated|].
  pose proof ((written_timed dated) _ _ IH Hi) as Hd. rewrite status_roundtrip in Hst by done. injection Hst as <-.
  by apply rounded_dated.
Qed.

Lemma persisted_stored st : persisted st -> reachable dated_clock st.
Proof.
  induction 1 as [|inst inst' st Hp IH Hi Hst]; [constructor|].
  pose proof ((written_timed dated) _ _ (persisted_dated _ Hp) Hi) as Hd.
  rewrite status_roundtrip in Hst by done. injection Hst as <-.
  eapply reachable_update; [exact IH|exact Hi|by apply rounded_stored].
Qed.

(** C24: Round trip.  Whatever status the controller writes for an object it
    was given is read back from its JSON document as it was written, but for its
    times, of which the seconds are left. *)
Theorem written_status_reads_back (inst inst' : NodeRecovery) :
  persisted (nr_Status inst) ->
  issues dated_clock (reconcileFetched (inr inst)) (call (StatusUpdate inst')) ->
  unmarshal_NodeRecoveryStatus (marshal_NodeRecoveryStatus (nr_Status inst')) = Some (rounded (nr_Status inst')).
Proof. intros Hp Hi. by eapply status_roundtrip, (written_timed dated), Hi; apply persisted_dated. Qed.

(** C3: Refinement.  A server that keeps the documents of the statuses
    implements the storage the state machine assumes: every status that an object
    has with it is one the state machine reaches. *)
Theorem documents_implement_storage (st : NodeRecoveryStatus) : persisted st -> reachable clock st.
Proof.
  intros Hp%persisted_stored. induction Hp as [|inst inst' st _ IH Hi Hst]; [constructor|].
  eapply reachable_update; [exact IH| |exact Hst]. by eapply issues_mono; [exact dated_clock_clock|].
Qed.

(** C25: Type.  The document of a status the controller writes has the type the
    schema of the resource gives it - the members a condition and a device must
    have, dates, no phase or status but the declared ones - with one exception:
    the server accepts it exactly when no two conditions have the same type, the
    key of their list. *)
Theorem documents_match_the_schema (inst inst' : NodeRecovery) :
  persisted (nr_Status inst) ->
  issues dated_clock (reconcileFetched (inr inst)) (call (StatusUpdate inst')) ->
  validates status_schema (marshal_NodeRecoveryStatus (nr_Status inst')) = true
  <-> NoDup (map cond_Type (Conditions (nr_Status inst'))).
Proof.
  intros Hp Hi. pose proof ((written_timed dated) _ _ (persisted_dated _ Hp) Hi) as Hd.
  assert (wf (nr_Status inst')) as [(cs & c & Hc & _ & Hf & Ht) _ Hph _ _ Hnd _].
  { eapply update_of_wf, (wp_issues _ (updates_from inst) _ _ _ (call (StatusUpdate inst'))); [|exact Hi].
    apply reconcileFetched_updates; [exact dated_clock_clock|].
    apply (reachable_cases dated_clock dated_clock_clock), persisted_stored, Hp. }
  rewrite status_valid; [apply bool_decide_eq_true|done|done| |done].
  rewrite Hc. apply Forall_app. split; [|apply Forall_singleton; by left].
  eapply Forall_impl; [exact Hf|]. intros ? ?. by right.
Qed.

End Storage.

(** ** A server that keeps documents *)

(** A time as the number of its seconds, in digits. *)
Definition digits (t : Time) : string := DecimalString.NilEmpty.string_of_uint (N.to_uint (Z.to_N (t / Second))).

Definition read_digits (s : string) : option Time :=
  (fun d => Second * Z.of_N (N.of_uint d))%Z <$> DecimalString.NilEmpty.uint_of_string s.

Lemma read_digits_digits t : dated t -> read_digits (digits t) = Some (seconds t).
Proof.
  intros [Ht _]. unfold read_digits, digits. rewrite DecimalString.NilEmpty.usu. cbn [fmap option_fmap option_map].
  rewrite DecimalN.Unsigned.of_to, Z2N.id.
  - f_equal. unfold seconds. pose proof (Z.div_mod t Second ltac:(discriminate)). lia.
  - apply Z.div_pos; [|done]. change Second with 1000000000%Z in *. lia.
Qed.

Definition marshal_digits (t : Time) : json := if (t =? zeroTime)%Z then JNull else JString (digits t).

Definition unmarshal_digits (v : json) : option Time :=
  match v with JNull => Some zeroTime | JString s => read_digits s | _ => None end.

Lemma marshal_digits_dated t : dated t -> marshal_digits t = JString (digits t).
Proof. intros Ht. unfold marshal_digits. by rewrite (proj2 (Z.eqb_neq _ _) (dated_nonzero t Ht)). Qed.

#[export] Instance digits_time : TimeJSON.
Proof.
  refine {| Time_MarshalJSON := marshal_digits; Time_UnmarshalJSON := unmarshal_digits;
            date_time s := bool_decide (is_Some (read_digits s)) |}.
  - done.
  - done.
  - intros t Ht. rewrite marshal_digits_dated by done. by apply read_digits_digits.
  - intros t Ht. exists (digits t). split; [by apply marshal_digits_dated|].
    apply bool_decide_eq_true. rewrite read_digits_digits by done. eauto.
Defined.

(** The cluster of [Fake], whose clock stops at the end of the year 9999. *)
Definition until_9999 (w : World) : World := with_clock (Z.min (w_clock w) (maxTime - 1)) w.

Definition dated_cluster : Handler Req World := fun R e w => let '(r, w') := cluster R e w in (r, until_9999 w').

(** One reconciliation, the pause, and what the server gives back. *)
Definition read_back (st : NodeRecoveryStatus) : NodeRecoveryStatus :=
  default st (unmarshal_NodeRecoveryStatus (marshal_NodeRecoveryStatus st)).

Definition written (w : World) : World := (run dated_cluster (reconcileFetched (inr (w_cr w))) w).2.

Definition keep (w : World) : World :=
  until_9999 (with_clock (w_clock (written w) + 60 * Second)
    (with_cr (set_Status read_back (w_cr (written w))) (written w))).

Definition kept (n : nat) (w : World) : World := Nat.iter n keep w.

Definition dated_world (w : World) : Prop := dated (w_clock w).

Lemma dated_until t : (Second <= t)%Z -> dated (Z.min t (maxTime - 1)).
Proof. unfold dated. change Second with 1000000000%Z. change maxTime with 315537897600000000000%Z. lia. Qed.

Lemma dated_cluster_clock R (e : Req R) w :
  dated_world w -> dated_clock R e (dated_cluster R e w).1 /\ dated_world (dated_cluster R e w).2.
Proof.
  intros Hw. unfold dated_cluster. assert (dated_clock R e (cluster R e w).1) as He by by destruct e.
  assert (Second <= w_clock (cluster R e w).2)%Z as Hc.
  { destruct Hw as [Hw _]. destruct e; cbn; try exact Hw. change Second with 1000000000%Z in *. lia. }
  destruct (cluster R e w) as [r w']. split; [exact He|]. by apply dated_until.
Qed.

Lemma rounded_again st : rounded (rounded st) = rounded st.
Proof.
  assert (forall t, seconds (seconds t) = seconds t) as Hs.
  { intros t. unfold seconds. rewrite Zminus_mod_idemp_r, Z.sub_diag, Z.mod_0_l by discriminate. lia. }
  assert (forall c, rounded_condition (rounded_condition c) = rounded_condition c) as Hc.
  { intros c. unfold rounded_condition. cbn. by rewrite !Hs. }
  assert (forall o : option Time, seconds <$> (seconds <$> o) = seconds <$> o) as Ho.
  { intros [t|]; cbn; [by rewrite Hs|done]. }
  unfold rounded. cbn. by rewrite !Ho, map_map, (map_ext _ _ Hc).
Qed.

Lemma persisted_again st : persisted st -> read_back st = st.
Proof.
  intros Hp. unfold read_back. rewrite status_roundtrip by by apply persisted_dated. cbn.
  destruct Hp as [|inst inst' st Hp Hi Hst]; [done|].
  rewrite status_roundtrip in Hst by by eapply (written_timed dated), Hi; apply persisted_dated.
  injection Hst as <-. apply rounded_again.
Qed.

Lemma written_or_same w :
  dated_world w ->
  dated_world (written w)
  /\ (w_cr (written w) = w_cr w
      \/ issues dated_clock (reconcileFetched (inr (w_cr w))) (call (StatusUpdate (w_cr (written w))))).
Proof.
  intros Hw. apply (last_write dated_cluster dated_clock (fun i => call (StatusUpdate i)) dated_world); [|clear w Hw|done].
  - exact dated_cluster_clock.
  - intros R e w. unfold dated_cluster. destruct e; cbn; auto.
Qed.

Lemma keep_persisted w :
  dated_world w -> persisted (nr_Status (w_cr w)) -> dated_world (keep w) /\ persisted (nr_Status (w_cr (keep w))).
Proof.
  intros Hw Hp. destruct (written_or_same w Hw) as [Hw' Hi]. split.
  - apply dated_until. cbn. destruct Hw' as [Hw' _]. change Second with 1000000000%Z in *. lia.
  - change (persisted (read_back (nr_Status (w_cr (written w))))).
    destruct Hi as [->|Hi]; [by rewrite persisted_again|].
    unfold read_back. eapply persisted_update; [exact Hp|exact Hi|].
    rewrite status_roundtrip by by eapply (written_timed dated), Hi; apply persisted_dated. done.
Qed.

Lemma kept_persisted n w :
  dated_world w -> nr_Status (w_cr w) = zeroStatus ->
  dated_world (kept n w) /\ persisted (nr_Status (w_cr (kept n w))).
Proof.
  intros Hw Hz. induction n as [|n [IHw IH]]; [|by apply keep_persisted].
  split; [done|]. cbn. rewrite Hz. constructor.
Qed.

Lemma dated_Broken : dated_world Broken.
Proof. by split. Qed.

(** Steps that write. *)
Lemma kept_issues n :
  length (cr_types (written (kept n Broken))) <> length (cr_types (kept n Broken)) ->
  issues dated_clock (reconcileFetched (inr (w_cr (kept n Broken)))) (call (StatusUpdate (w_cr (written (kept n Broken))))).
Proof.
  intros Hne. destruct (written_or_same (kept n Broken) (proj1 (kept_persisted n Broken dated_Broken eq_refl)))
    as [_ [Heq|?]]; [|done]. destruct Hne. unfold cr_types. by rewrite Heq.
Qed.

(** ** Witnesses *)

Lemma written_status_reads_back_witness :
  unmarshal_NodeRecoveryStatus (marshal_NodeRecoveryStatus (nr_Status (w_cr (written (kept 4 Broken)))))
  = Some (rounded (nr_Status (w_cr (written (kept 4 Broken))))).
Proof.
  apply (written_status_reads_back (w_cr (kept 4 Broken)) (w_cr (written (kept 4 Broken)))).
  - exact (proj2 (kept_persisted 4 Broken dated_Broken eq_refl)).
  - apply kept_issues. vm_compute. discriminate.
Defined.

Lemma documents_implement_storage_witness : reachable clock (nr_Status (w_cr (kept 17 Broken))).
Proof.
  apply (documents_implement_storage (nr_Status (w_cr (kept 17 Broken)))).
  exact (proj2 (kept_persisted 17 Broken dated_Broken eq_refl)).
Defined.

Lemma documents_match_the_schema_witness :
  validates status_schema (marshal_NodeRecoveryStatus (nr_Status (w_cr (written (kept 5 Broken))))) = true
  <-> NoDup (map cond_Type (Conditions (nr_Status (w_cr (written (kept 5 Broken)))))).
Proof.
  apply (documents_match_the_schema (w_cr (kept 5 Broken)) (w_cr (written (kept 5 Broken)))).
  - exact (proj2 (kept_persisted 5 Broken dated_Broken eq_refl)).
  - apply kept_issues. vm_compute. discriminate.
Defined.

(** The document of a recovery that just started; what the server thinks of the
    first five documents, and of the sixth, whose conditions have one key twice. *)
Example documents_of_a_recovery :
  marshal_NodeRecoveryStatus (nr_Status (w_cr (written Broken)))
    = JObject [ ("phase", JString "Running");
        ("conditions", JArray
           [ JObject [ ("type", JString "EnableCephToolsPod"); ("lastProbeTime", JString "62135596800");
                       ("lastTransitionTime", JString "62135596800"); ("status", JString "False") ];
             JObject [ ("type", JString "WaitForCephToolsPodRunning"); ("lastProbeTime", JString "62135596800");
                       ("lastTransitionTime", JString "62135596800"); ("status", JString "True") ] ]);
        ("startTime", JString "62135596800") ]
  /\ map (fun n => validates status_schema (marshal_NodeRecoveryStatus (nr_Status (w_cr (written (kept n Broken))))))
       (seq 0 6) = [true; true; true; true; true; false].
Proof. vm_compute. split; reflexivity. Qed.
