(* ===== verification/Scheme.v ===== *)
(** * Scheme: the registration of the API types

    api/v1alpha1/groupversion_info.go and the [init] of noderecovery_types.go.
    [SchemeBuilder] is a pointer to a builder of controller-runtime, and
    [AddToScheme] a method value: the variables of the package are initialised,
    and the receiver bound, before [init] registers the types with the builder.
    So the builders are in a memory of cells and a method value holds the
    address of its receiver. *)

From S2P Require Import Prelude GoStd.

(** [schema.GroupVersion]. *)
Record GroupVersion := { gv_Group : string; gv_Version : string }.

#[export] Instance GroupVersion_eq_dec : EqDecision GroupVersion.
Proof. solve_decision. Defined.

(** The API types of the package. *)
Inductive Object := NodeRecoveryObject | NodeRecoveryListObject.

(** The name of the Go type, which a scheme takes for the kind. *)
Definition kind_name (o : Object) : string :=
  match o with NodeRecoveryObject => "NodeRecovery" | NodeRecoveryListObject => "NodeRecoveryList" end.

(** [runtime.Scheme] of apimachinery and [scheme.Builder] of controller-runtime. *)
Class SchemeLibrary := {
  RuntimeScheme : Type;
  Builder : Type;
  Builder_of : GroupVersion -> Builder;
  Builder_Register : list Object -> Builder -> Builder;
  Builder_AddToScheme : Builder -> RuntimeScheme -> option error * RuntimeScheme;
  Recognizes : RuntimeScheme -> GroupVersion -> string -> bool;
  (** [schema.GroupResource] *)
  GroupResource : Type;
  WithResource_GroupResource : GroupVersion -> string -> GroupResource;
  (** "AddToScheme adds all registered types to s." *)
  AddToScheme_adds gv (registrations : list (list Object)) s s' :
    Builder_AddToScheme (foldl (fun b objs => Builder_Register objs b) (Builder_of gv) registrations) s = (None, s') ->
    forall gv' k, Recognizes s' gv' k
      = Recognizes s gv' k || bool_decide (gv' = gv /\ k ∈ map kind_name (concat registrations));
}.

Section Scheme.
Context `{L : SchemeLibrary}.

(** The variables of the package, with the memory their pointers are into. *)
Record Package := {
  Builders : list Builder;
  SchemeBuilder : nat;
  (** the receiver of the method value *)
  AddToScheme_receiver : nat;
}.

Definition SchemeGroupVersion : GroupVersion := {| gv_Group := "odf.openshift.io"; gv_Version := "v1alpha1" |}.

Definition packageVariables : Package :=
  let SchemeBuilder := 0 in
  {| Builders := [Builder_of SchemeGroupVersion];
     SchemeBuilder := SchemeBuilder;
     AddToScheme_receiver := SchemeBuilder |}.

(** A call of a method with a pointer receiver that changes it. *)
Definition update_builder (a : nat) (f : Builder -> Builder) (p : Package) : Package :=
  {| Builders := alter f a (Builders p); SchemeBuilder := SchemeBuilder p;
     AddToScheme_receiver := AddToScheme_receiver p |}.

(** [init] of noderecovery_types.go. *)
Definition init (p : Package) : Package :=
  update_builder (SchemeBuilder p) (Builder_Register [NodeRecoveryObject; NodeRecoveryListObject]) p.

(** Go initialises the variables of a package, then calls its [init]. *)
Definition package : Package := init packageVariables.

(** A call of the variable [AddToScheme]; [None] is a nil receiver. *)
Definition AddToScheme (p : Package) (s : RuntimeScheme) : option (option error * RuntimeScheme) :=
  (fun b => Builder_AddToScheme b s) <$> Builders p !! AddToScheme_receiver p.

Definition Resource (resource : string) : GroupResource := WithResource_GroupResource SchemeGroupVersion resource.

(** Functional.  A program that imports the package and adds it to its
    scheme without an error recognizes [NodeRecovery] and [NodeRecoveryList] of
    odf.openshift.io/v1alpha1 from then on, and of the other kinds those it
    recognized before: [AddToScheme], whose receiver was bound before the types
    were registered, adds them all the same. *)
Theorem AddToScheme_registers_the_types (s s' : RuntimeScheme) :
  AddToScheme package s = Some (None, s') ->
  forall gv k, Recognizes s' gv k = true <->
    Recognizes s gv k = true \/ gv = SchemeGroupVersion /\ (k = "NodeRecovery" \/ k = "NodeRecoveryList").
Proof.
  intros [= Hadd] gv k.
  rewrite (AddToScheme_adds SchemeGroupVersion [[NodeRecoveryObject; NodeRecoveryListObject]] s s' Hadd gv k).
  rewrite orb_true_iff, bool_decide_eq_true. cbn. set_solver.
Qed.

End Scheme.

(** ** A scheme that is a list *)

#[local] Instance list_scheme : SchemeLibrary.
Proof.
  refine {|
    RuntimeScheme := list (GroupVersion * string);
    Builder := GroupVersion * list Object;
    Builder_of gv := (gv, []);
    Builder_Register objs b := (b.1, b.2 ++ objs);
    Builder_AddToScheme b s := (None, s ++ map (fun o => (b.1, kind_name o)) b.2);
    Recognizes s gv k := bool_decide ((gv, k) ∈ s);
    GroupResource := string * string;
    WithResource_GroupResource gv r := (gv_Group gv, r);
  |}.
  intros gv rs s s' [= <-] gv' k.
  assert (forall os, foldl (fun b objs => (b.1, b.2 ++ objs)) (gv, os) rs = (gv, os ++ concat rs)) as ->.
  { induction rs as [|r rs IH]; intros os; cbn; [by rewrite app_nil_r|]. by rewrite IH, <- app_assoc. }
  cbn. apply eq_true_iff_eq. rewrite orb_true_iff, !bool_decide_eq_true, elem_of_app.
  rewrite !list_elem_of_fmap. naive_solver.
Defined.

Lemma AddToScheme_registers_the_types_witness :
  Recognizes (SchemeLibrary := list_scheme) (map (fun o => (SchemeGroupVersion, kind_name o)) [NodeRecoveryObject; NodeRecoveryListObject])
    SchemeGroupVersion "NodeRecovery" = true
  <-> Recognizes (SchemeLibrary := list_scheme) ([] : list (GroupVersion * string)) SchemeGroupVersion "NodeRecovery" = true
      \/ SchemeGroupVersion = SchemeGroupVersion /\ ("NodeRecovery" = "NodeRecovery" \/ "NodeRecovery" = "NodeRecoveryList").
Proof.
  apply (AddToScheme_registers_the_types (L := list_scheme) ([] : list (GroupVersion * string))
    (map (fun o => (SchemeGroupVersion, kind_name o)) [NodeRecoveryObject; NodeRecoveryListObject])).
  reflexivity.
Defined.
