(* ===== verification/Main.v ===== *)
(** * Main: the start of the operator (cmd/main.go)

    The program parses its flags, sets up the TLS options of the webhook and
    metrics servers, creates the manager, fills its scheme, registers the
    controller, the certificate watchers, the health checks and the metrics,
    and starts the manager.  An error ends the process with exit code 1.

    The TLS options are slices that share their backing arrays: [append]
    writes in place when there is spare capacity and allocates otherwise, and
    how much it allocates is up to the run time. *)

From Stdlib Require Import Ascii.
From S2P Require Import Prelude Effects GoStd GoStrings Api K8s Const Monitoring Ceph Recovery Reconciler Controller.
From S2P Require Import Footprint StateMachine Fake Registry Manager Pods Linked.

(** ** path/filepath *)

Fixpoint split_slash (s : string) : list string :=
  match s with
  | EmptyString => [EmptyString]
  | String c s' =>
      if Ascii.eqb c "/" then EmptyString :: split_slash s'
      else match split_slash s' with
           | w :: ws => String c w :: ws
           | [] => [String c EmptyString]
           end
  end.

(** One element of a path, with the elements kept so far in reverse. *)
Definition clean_element (rooted : bool) (kept : list string) (e : string) : list string :=
  if decide (e = "" \/ e = ".") then kept
  else if decide (e = "..") then
    match kept with
    | top :: rest => if decide (top = "..") then ".." :: kept else rest
    | [] => if rooted then [] else [".."]
    end
  else e :: kept.

Definition filepath_Clean (path : string) : string :=
  let rooted := String.prefix "/" path in
  let out := (if rooted then "/" else "")
             +:+ String.concat "/" (rev (foldl (clean_element rooted) [] (split_slash path))) in
  if decide (out = "") then "." else out.

(** Leading empty elements are ignored. *)
Fixpoint filepath_Join (elem : list string) : string :=
  match elem with
  | [] => ""
  | e :: elem' => if decide (e = "") then filepath_Join elem' else filepath_Clean (String.concat "/" elem)
  end.

Example filepath_Join_ex :
  filepath_Join ["/certs//"; "tls.crt"] = "/certs/tls.crt" /\ filepath_Join ["a/../b"; "./c"] = "b/c".
Proof. by vm_compute. Qed.

(** ** Flags *)

Record Flags := {
  metricsAddr : string; probeAddr : string;
  enableLeaderElection : bool; secureMetrics : bool;
  webhookCertPath : string; webhookCertName : string; webhookCertKey : string;
  metricsCertPath : string; metricsCertName : string; metricsCertKey : string;
  enableHTTP2 : bool;
}.

(** The values of the flags that are not given. *)
Definition defaultFlags : Flags := {|
  metricsAddr := "0"; probeAddr := ":8081";
  enableLeaderElection := false; secureMetrics := true;
  webhookCertPath := ""; webhookCertName := "tls.crt"; webhookCertKey := "tls.key";
  metricsCertPath := ""; metricsCertName := "tls.crt"; metricsCertKey := "tls.key";
  enableHTTP2 := false;
|}.

(** ** Slices of TLS options *)

Section Slices.
Context {Watcher : Type}.

(** A function on a [tls.Config] and what it does to the configuration. *)
Inductive TLSOption := DisableHTTP2 | CertificatesOf (w : Watcher).

Record TLSConfig := { NextProtos : list string; GetCertificate : option Watcher }.

Definition applyTLSOption (c : TLSConfig) (o : TLSOption) : TLSConfig :=
  match o with
  | DisableHTTP2 => {| NextProtos := ["http/1.1"]; GetCertificate := GetCertificate c |}
  | CertificatesOf w => {| NextProtos := NextProtos c; GetCertificate := Some w |}
  end.

(** The backing arrays, in the order they were allocated. *)
Definition Heap := list (list (option TLSOption)).

Record Slice := { sl_Array : nat; sl_Len : nat; sl_Cap : nat }.

Definition nil_slice : Slice := {| sl_Array := 0; sl_Len := 0; sl_Cap := 0 |}.

(** The elements of a slice, now. *)
Definition elements_of (h : Heap) (s : Slice) : list TLSOption :=
  omap id (take (sl_Len s) (default [] (h !! sl_Array s))).

(** What a server makes of the options when it starts, from the configuration
    it begins with. *)
Definition effective (h : Heap) (c : TLSConfig) (s : Slice) : TLSConfig :=
  foldl applyTLSOption c (elements_of h s).

(** The capacity the run time allocates for a length: at least that. *)
Variable grow : nat -> nat.

Definition append_ (s : Slice) (o : TLSOption) (h : Heap) : Slice * Heap :=
  if decide (sl_Len s < sl_Cap s) then
    ({| sl_Array := sl_Array s; sl_Len := S (sl_Len s); sl_Cap := sl_Cap s |},
     alter (fun a => <[sl_Len s := Some o]> a) (sl_Array s) h)
  else
    ({| sl_Array := length h; sl_Len := S (sl_Len s); sl_Cap := grow (S (sl_Len s)) |},
     h ++ [ take (sl_Len s) (default [] (h !! sl_Array s)) ++ Some o
            :: replicate (grow (S (sl_Len s)) - S (sl_Len s)) None ]).

End Slices.
Arguments TLSOption : clear implicits.
Arguments TLSConfig : clear implicits.
Arguments Heap : clear implicits.

(** ** The program *)

Inductive API :=
| ClientGoScheme | OCSOperatorV1 | BatchV1 | CoreV1 | AppsV1 | ODFV1alpha1 | TemplateV1 | ConfigV1.

#[export] Instance API_eq_dec : EqDecision API.
Proof. solve_decision. Defined.

Class Runtime := {
  (** certwatcher.CertWatcher *)
  Watcher : Type;
  (** the capacity [append] allocates when a slice of TLS options of this length is needed *)
  grow : nat -> nat;
  grow_enough n : n <= grow n;
}.

Section Program.
Context `{X : External} `{Init : !Initialized} `{G : ClientGo} `{Rt : Runtime} `{Prom : Prometheus}.

(** [ctrl.Options], with those of the two servers; the scheme is the package's. *)
Record ManagerOptions := {
  mo_MetricsBindAddress : string; mo_MetricsSecureServing : bool; mo_MetricsTLSOpts : Slice;
  mo_MetricsFilterProvider : bool;
  mo_WebhookTLSOpts : Slice;
  mo_HealthProbeBindAddress : string; mo_LeaderElection : bool; mo_LeaderElectionID : string;
}.

Inductive MainReq : Type -> Type :=
| ParseFlags : MainReq Flags
| NewCertWatcher (certPath keyPath : string) : MainReq (error + Watcher)
(** [ctrl.GetConfigOrDie]: an error ends the process *)
| GetConfig : MainReq (error + RestConfig)
| NewManager (config : RestConfig) (o : ManagerOptions) : MainReq (error + unit)
| AddToScheme (api : API) : MainReq (option error)
| Registration {R} (e : ManagerReq NodeRecoveryReconciler R) : MainReq R
| AddRunnable (w : Watcher) : MainReq (option error)
| AddHealthzCheck (name : string) : MainReq (option error)
| AddReadyzCheck (name : string) : MainReq (option error)
(** [mgr.Start]: what it sees of the memory, and the registry of the metrics *)
| Start (h : Heap Watcher) (registry : Registry) : MainReq (option error).

(** A step of [main]: the exit code of the process, or a value to go on with. *)
Definition Step (A : Type) := Prog MainReq (nat + A).

(** [if err := ...; err != nil { setupLog.Error(...); os.Exit(1) }]. *)
Definition orExit (p : Prog MainReq (option error)) : Step unit :=
  err ← p; mret (match err with Some _ => inl 1 | None => inr () end).

Definition orExitValue {A} (e : MainReq (error + A)) : Step A :=
  r ← trigger e; mret (match r with inl _ => inl 1 | inr a => inr a end).

(** [init]: [utilruntime.Must] panics on an error. *)
Definition must (p : Prog MainReq (option error)) : Prog MainReq unit :=
  err ← p; match err with Some err => Panic (Error err) | None => mret () end.

Definition init : Prog MainReq unit :=
  must (trigger (AddToScheme ClientGoScheme));; must (trigger (AddToScheme ODFV1alpha1)).

(** The builder stops at the first error. *)
Definition schemeBuilder : list API :=
  [OCSOperatorV1; BatchV1; CoreV1; AppsV1; ODFV1alpha1; TemplateV1; ConfigV1].

Definition getScheme : Prog MainReq (option error) :=
  for_check (fun api => trigger (AddToScheme api)) schemeBuilder.

(** A certificate watcher, if its path was given, appended to the options. *)
Definition watchCertificates (path name key : string) (tlsOpts : Slice) (h : Heap Watcher)
  : Step (option Watcher * Slice * Heap Watcher) :=
  if decide (0 < String.length path) then
    try w ← orExitValue (NewCertWatcher (filepath_Join [path; name]) (filepath_Join [path; key]));
    let '(tlsOpts, h) := append_ grow tlsOpts (CertificatesOf w) h in
    mret (inr (Some w, tlsOpts, h))
  else mret (inr (None, tlsOpts, h)).

Definition addWatcher (w : option Watcher) : Step unit :=
  match w with Some w => orExit (trigger (AddRunnable w)) | None => mret (inr ()) end.

(** [registry] is [metrics.Registry] of controller-runtime, with its default
    collectors; the options are built before the manager, which is the order of
    the appends. *)
Definition main (registry : Registry) : Prog MainReq nat :=
  r ← (
    f ← trigger ParseFlags;
    let '(tlsOpts, h) :=
      if negb (enableHTTP2 f) then append_ grow nil_slice DisableHTTP2 [] else (nil_slice, []) in
    let webhookTLSOpts := tlsOpts in
    try webhook ← watchCertificates (webhookCertPath f) (webhookCertName f) (webhookCertKey f) webhookTLSOpts h;
    let '(webhookCertWatcher, webhookTLSOpts, h) := webhook in
    try metrics ← watchCertificates (metricsCertPath f) (metricsCertName f) (metricsCertKey f) tlsOpts h;
    let '(metricsCertWatcher, metricsTLSOpts, h) := metrics in
    try config ← orExitValue GetConfig;
    try mgr ← orExitValue (NewManager config {|
      mo_MetricsBindAddress := metricsAddr f; mo_MetricsSecureServing := secureMetrics f;
      mo_MetricsTLSOpts := metricsTLSOpts; mo_MetricsFilterProvider := secureMetrics f;
      mo_WebhookTLSOpts := webhookTLSOpts;
      mo_HealthProbeBindAddress := probeAddr f; mo_LeaderElection := enableLeaderElection f;
      mo_LeaderElectionID := "28d81b84.my.domain" |});
    try _ ← orExit getScheme;
    try config ← orExitValue GetConfig;
    reconciler ← newReconciler config;
    try _ ← orExit (translate (@Registration) (SetupWithManager reconciler));
    try _ ← addWatcher metricsCertWatcher;
    try _ ← addWatcher webhookCertWatcher;
    try _ ← orExit (trigger (AddHealthzCheck "healthz"));
    try _ ← orExit (trigger (AddReadyzCheck "readyz"));
    match RegisterMetrics registry with
    | Panicked why => Panic why
    | Done registry => orExit (trigger (Start h registry))
    end);
  mret (match r with inl code => code | inr _ => 0 end).

(** Go runs [init] before [main]. *)
Definition program (registry : Registry) : Prog MainReq nat := init;; main registry.

(** ** Executions *)

(** A start of the manager that ended without an error. *)
Definition started_ok (a : Answered MainReq) : bool :=
  let '(existT R (e, r)) := a in
  match e in MainReq R return R -> bool with
  | Start _ _ => fun r => match r with None => true | Some _ => false end
  | _ => fun _ => false
  end r.

(** Keeps the requests with their answers; the manager may be started when [P]
    holds of them, the memory and the registry. *)
Definition starting (env : Answers MainReq)
    (P : list (Answered MainReq) -> Heap Watcher -> Registry -> Prop) : Monitor MainReq (list (Answered MainReq)) := {|
  m_pre R e log := match e with Start h reg => P log h reg | _ => True end;
  m_post R e log r log' := env R e r /\ log' = log ++ [answered e r] |}.

(** The slices and the memory for given watchers. *)
Definition appendWatcher (w : option Watcher) (s : Slice) (h : Heap Watcher) : Slice * Heap Watcher :=
  match w with Some w => append_ grow s (CertificatesOf w) h | None => (s, h) end.

Definition tlsSetup (http2 : bool) (webhook metrics : option Watcher) : Slice * Slice * Heap Watcher :=
  let '(t, h) := if negb http2 then append_ grow nil_slice DisableHTTP2 [] else (nil_slice, []) in
  let '(ws, h) := appendWatcher webhook t h in
  let '(ms, h) := appendWatcher metrics t h in
  (ws, ms, h).

Definition managerOptions (f : Flags) (ws ms : Slice) : ManagerOptions := {|
  mo_MetricsBindAddress := metricsAddr f; mo_MetricsSecureServing := secureMetrics f;
  mo_MetricsTLSOpts := ms; mo_MetricsFilterProvider := secureMetrics f; mo_WebhookTLSOpts := ws;
  mo_HealthProbeBindAddress := probeAddr f; mo_LeaderElection := enableLeaderElection f;
  mo_LeaderElectionID := "28d81b84.my.domain" |}.

Definition newWatcherLog (path name key : string) (w : option Watcher) : list (Answered MainReq) :=
  match w with
  | Some w => [answered (NewCertWatcher (filepath_Join [path; name]) (filepath_Join [path; key])) (inr w)]
  | None => []
  end.

Definition addWatcherLog (w : option Watcher) : list (Answered MainReq) :=
  match w with Some w => [answered (AddRunnable w) None] | None => [] end.

Definition registrations (r : NodeRecoveryReconciler) : list (Answered MainReq) := [
  answered (Registration (IndexField Manager.Pods podStatusPhaseFieldSelector podPhase)) None;
  answered (Registration (IndexField PersistentVolumeClaims pvcStatusPhaseFieldSelector pvcPhase)) None;
  answered (Registration (Complete NodeRecoveries [GenerationChangedPredicate] [NodeRecoveries] r)) None ].

(** The requests before the start of the manager, all of them successful. *)
Definition startLog (f : Flags) (webhook metrics : option Watcher) (config config' : RestConfig)
    (r : NodeRecoveryReconciler) : list (Answered MainReq) :=
  let '(ws, ms, _) := tlsSetup (enableHTTP2 f) webhook metrics in
  [answered (AddToScheme ClientGoScheme) None; answered (AddToScheme ODFV1alpha1) None; answered ParseFlags f]
  ++ newWatcherLog (webhookCertPath f) (webhookCertName f) (webhookCertKey f) webhook
  ++ newWatcherLog (metricsCertPath f) (metricsCertName f) (metricsCertKey f) metrics
  ++ [answered GetConfig (inr config); answered (NewManager config (managerOptions f ws ms)) (inr ())]
  ++ map (fun api => answered (AddToScheme api) None) schemeBuilder
  ++ [answered GetConfig (inr config')]
  ++ registrations r
  ++ addWatcherLog metrics ++ addWatcherLog webhook
  ++ [answered (AddHealthzCheck "healthz") None; answered (AddReadyzCheck "readyz") None].

(** A watcher exists exactly for a path that was given. *)
Definition watched (path : string) (w : option Watcher) : Prop := is_Some w <-> 0 < String.length path.

(** *** Running the program symbolically *)

Definition starts {R} (e : MainReq R) : bool := match e with Start _ _ => true | _ => false end.

(** No successful start so far. *)
Definition quiet (log : list (Answered MainReq)) : Prop := existsb started_ok log = false.

(** The result of a step: exit code 1 without a start, or a start. *)
Definition stepped (r : nat + unit) (log : list (Answered MainReq)) : Prop :=
  match r with inl code => code = 1 /\ quiet log | inr _ => existsb started_ok log = true end.

Lemma quiet_snoc {R} (e : MainReq R) r log : starts e = false -> quiet log -> quiet (log ++ [answered e r]).
Proof. intros He Hl. unfold quiet. rewrite existsb_app. cbn. rewrite Hl. by destruct e. Qed.

Lemma quiet_app log log' : quiet log -> quiet log' -> quiet (log ++ log').
Proof. unfold quiet. intros Hl Hl'. by rewrite existsb_app, Hl, Hl'. Qed.

Section Symbolic.
Context (env : Answers MainReq) (P : list (Answered MainReq) -> Heap Watcher -> Registry -> Prop).
#[local] Abbreviation M := (starting env P).

Lemma pre_other {R} (e : MainReq R) log : starts e = false -> m_pre M e log.
Proof. by destruct e. Qed.

Lemma step_exit (e : MainReq (option error)) (k : unit -> Step unit) log :
  starts e = false -> quiet log ->
  (quiet (log ++ [answered e None]) -> wp M (k ()) (log ++ [answered e None]) stepped quiet) ->
  wp M (try u ← orExit (trigger e); k u) log stepped quiet.
Proof.
  intros He Hl Hk. split; [by apply pre_other|]. intros [err|] log' [_ ->].
  - split; [done|]. by apply quiet_snoc.
  - apply Hk. by apply quiet_snoc.
Qed.

Lemma step_value {A} (e : MainReq (error + A)) (k : A -> Step unit) log :
  starts e = false -> quiet log ->
  (forall a, quiet (log ++ [answered e (inr a)]) -> wp M (k a) (log ++ [answered e (inr a)]) stepped quiet) ->
  wp M (try a ← orExitValue e; k a) log stepped quiet.
Proof.
  intros He Hl Hk. split; [by apply pre_other|]. intros [err|a] log' [_ ->].
  - split; [done|]. by apply quiet_snoc.
  - apply Hk. by apply quiet_snoc.
Qed.

Lemma step_must (e : MainReq (option error)) {A} (k : unit -> Prog MainReq A) log Q :
  starts e = false -> quiet log ->
  (quiet (log ++ [answered e None]) -> wp M (k ()) (log ++ [answered e None]) Q quiet) ->
  wp M (must (trigger e) ≫= k) log Q quiet.
Proof.
  intros He Hl Hk. split; [by apply pre_other|]. intros [err|] log' [_ ->]; cbn.
  - by apply quiet_snoc.
  - apply Hk. by apply quiet_snoc.
Qed.

Lemma step_scheme (k : unit -> Step unit) log :
  quiet log ->
  (let log' := log ++ map (fun api => answered (AddToScheme api) None) schemeBuilder in
   quiet log' -> wp M (k ()) log' stepped quiet) ->
  wp M (try u ← orExit getScheme; k u) log stepped quiet.
Proof.
  intros Hl Hk. unfold getScheme, schemeBuilder in *. cbn.
  repeat (split; [done|]; intros [err|] ? [_ ->]; cbn; [by split; [|repeat apply quiet_snoc]|]).
  rewrite <- !app_assoc. apply Hk. by apply quiet_app.
Qed.

Lemma step_setup r (k : unit -> Step unit) log :
  quiet log ->
  (quiet (log ++ registrations r) -> wp M (k ()) (log ++ registrations r) stepped quiet) ->
  wp M (try u ← orExit (translate (@Registration) (SetupWithManager r)); k u) log stepped quiet.
Proof.
  intros Hl Hk. unfold registrations in *. cbn.
  repeat (split; [done|]; intros [err|] ? [_ ->]; cbn; [by split; [|repeat apply quiet_snoc]|]).
  rewrite <- !app_assoc. apply Hk. by apply quiet_app.
Qed.

(** The controller is only built from a configuration with a client. *)
Lemma step_reconciler config (k : NodeRecoveryReconciler -> Prog MainReq (nat + unit)) log :
  quiet log ->
  (forall r, newReconciler (E := MainReq) config = mret r -> wp M (k r) log stepped quiet) ->
  wp M (newReconciler config ≫= k) log stepped quiet.
Proof.
  intros Hl Hk. unfold newReconciler, NewLogRetriever, NewForConfigOrDie in *.
  destruct (NewForConfig config) as [err|c]; [exact Hl|]. by apply Hk.
Qed.

Lemma step_add w (k : unit -> Step unit) log :
  quiet log ->
  (quiet (log ++ addWatcherLog w) -> wp M (k ()) (log ++ addWatcherLog w) stepped quiet) ->
  wp M (try u ← addWatcher w; k u) log stepped quiet.
Proof.
  intros Hl Hk. destruct w as [w|]; [by apply step_exit|]. cbn in *. rewrite app_nil_r in Hk. by apply Hk.
Qed.

Lemma step_watch path name key s h (k : option Watcher * Slice * Heap Watcher -> Step unit) log :
  quiet log ->
  (forall w s' h', watched path w -> appendWatcher w s h = (s', h') ->
     quiet (log ++ newWatcherLog path name key w) ->
     wp M (k (w, s', h')) (log ++ newWatcherLog path name key w) stepped quiet) ->
  wp M (try r ← watchCertificates path name key s h; k r) log stepped quiet.
Proof.
  intros Hl Hk. unfold watchCertificates, watched in *. destruct (decide _) as [Hp|Hp].
  - split; [done|]. intros [err|w] ? [_ ->]; cbn; [by split; [|apply quiet_snoc]|].
    destruct (append_ grow s (CertificatesOf w) h) as [s' h'] eqn:Ha. cbn.
    apply (Hk (Some w) s' h'); [|done|by apply quiet_snoc]. split; [done|by eexists].
  - specialize (Hk None s h). cbn in Hk. rewrite app_nil_r in Hk. apply Hk; [|done..].
    split; [intros [? [=]]|done].
Qed.

(** Whatever is answered, the manager is started only after the requests of
    [startLog], and the process exits with 0 exactly when it ran to its end. *)
Lemma program_execution registry :
  (forall f webhook metrics config config' r reg,
     watched (webhookCertPath f) webhook -> watched (metricsCertPath f) metrics ->
     newReconciler (E := MainReq) config' = mret r -> RegisterMetrics registry = Done reg ->
     P (startLog f webhook metrics config config' r) (tlsSetup (enableHTTP2 f) webhook metrics).2 reg) ->
  wp M (program registry) []
    (fun code log => code = if existsb started_ok log then 0 else 1) quiet.
Proof.
  intros HP. unfold program. apply wp_bind. unfold init. apply step_must; [done..|]. intros _.
  split; [done|]. intros [err|] ? [_ ->]; [done|]. cbn [app]. unfold main.
  eapply wp_seq with (Q1 := stepped);
    [|by intros [code|[]] log; cbn; [intros [-> ->]|intros ->]].
  apply wp_bind. split; [done|]. intros f ? [_ ->]. apply wp_ret. cbv beta.
  destruct (if negb (enableHTTP2 f) then append_ (Watcher := Watcher) grow nil_slice DisableHTTP2 [] else (nil_slice, []))
    as [tlsOpts h] eqn:Htls.
  apply step_watch; [done|]. intros webhook ws h1 Hw Hws _.
  apply step_watch; [by destruct webhook|]. intros metrics ms h2 Hm Hms Hq.
  apply step_value; [done..|]. intros config Hq'. clear Hq.
  apply step_value; [done..|]. intros [] Hq. clear Hq'.
  apply step_scheme; [done|]. intros log' Hq'. subst log'. clear Hq.
  apply step_value; [done..|]. intros config' Hq. clear Hq'.
  apply step_reconciler; [exact Hq|]. intros r Hr.
  apply step_setup; [done|]. intros Hq'. clear Hq.
  apply step_add; [done|]. intros Hq. clear Hq'.
  apply step_add; [done|]. intros Hq'. clear Hq.
  apply step_exit; [done..|]. intros Hq. clear Hq'.
  apply step_exit; [done..|]. intros Hq'. clear Hq.
  destruct (RegisterMetrics registry) as [reg|why] eqn:Hreg; [|exact Hq'].
  assert (tlsSetup (enableHTTP2 f) webhook metrics = (ws, ms, h2)) as Hsetup.
  { unfold tlsSetup. by rewrite Htls, Hws, Hms. }
  split.
  - specialize (HP f webhook metrics config config' r reg Hw Hm Hr eq_refl).
    unfold startLog in HP. rewrite Hsetup in HP. cbn in HP. cbn. by rewrite <- !app_assoc.
  - unfold quiet in Hq'. intros [err|] log' [_ ->].
    + split; [done|]. unfold quiet. by rewrite existsb_app, Hq'.
    + apply wp_ret. unfold stepped. by rewrite existsb_app, Hq'.
Qed.

End Symbolic.

(** ** The memory of the TLS options *)

(** The configuration a server ends up with. *)
Definition tlsResult (http2 : bool) (w : option Watcher) (c : TLSConfig Watcher) : TLSConfig Watcher := {|
  NextProtos := if http2 then NextProtos c else ["http/1.1"];
  GetCertificate := match w with Some w => Some w | None => GetCertificate c end |}.

(** The run time left spare capacity after the first append, so that the two
    other appends write to the same place. *)
Definition overwritten (http2 : bool) : bool := negb http2 && (1 <? grow 1).

Lemma tlsSetup_effective http2 webhook metrics c :
  let '(ws, ms, h) := tlsSetup http2 webhook metrics in
  effective h c ws =
    tlsResult http2 (match webhook, metrics with
                     | Some w, Some m => Some (if overwritten http2 then m else w)
                     | _, _ => webhook
                     end) c
  /\ effective h c ms = tlsResult http2 metrics c.
Proof.
  pose proof (grow_enough 1) as H1. unfold tlsSetup, overwritten, append_, nil_slice, tlsResult.
  destruct http2; cbn; [by destruct webhook, metrics, c|].
  destruct (grow 1) as [|[|n]]; [lia| |].
  - by destruct webhook, metrics, c.
  - by destruct webhook, metrics, c.
Qed.

(** ** The theorems *)

(** The API whose types a request of the controller needs in the scheme. *)
Definition api_of {R} (e : Req R) : option API :=
  match e with
  | GetNodeRecovery _ | StatusUpdate _ => Some ODFV1alpha1
  | GetClusterVersion _ => Some ConfigV1
  | GetOCSInitialization _ _ | UpdateOCSInitialization _
  | GetStorageCluster _ _ | UpdateStorageCluster _ => Some OCSOperatorV1
  | GetNode _ | UpdateNode _ | GetPVC _ _ | GetPV _ | DeletePV _ | ListPVs _ | ListPVCs _
  | ListPods _ | DeletePod _ | DeleteAllOfPods _ | Eventf _ _ _ _ _ => Some CoreV1
  | ListDeployments _ | UpdateDeployment _ => Some AppsV1
  | GetJob _ _ | DeleteJob _ => Some BatchV1
  | GetTemplate _ _ => Some TemplateV1
  | Now | RangeKeys _ | ProcessTemplate _ _ | Create _ | RunCommand _ _ | GetLogs _ | CounterInc _ _ => None
  end.

(** A certificate that was asked for is watched, and the watcher runs. *)
Definition certificates_watched (log : list (Answered MainReq)) (path name key : string) : Prop :=
  0 < String.length path -> exists w,
    answered (NewCertWatcher (filepath_Join [path; name]) (filepath_Join [path; key])) (inr w) ∈ log
    /\ answered (AddRunnable w) None ∈ log.

(** What has to be done before the manager starts. *)
Definition ready (log : list (Answered MainReq)) (h : Heap Watcher) (reg : Registry) : Prop :=
  registered reg = metricsList
  /\ (forall R (e : Req R) api, api_of e = Some api -> answered (AddToScheme api) None ∈ log)
  /\ (exists f, answered ParseFlags f ∈ log
       /\ certificates_watched log (webhookCertPath f) (webhookCertName f) (webhookCertKey f)
       /\ certificates_watched log (metricsCertPath f) (metricsCertName f) (metricsCertKey f))
  /\ (exists config r, answered GetConfig (inr config) ∈ log /\ newReconciler (E := MainReq) config = mret r
       /\ registrations r ⊆ log)
  /\ answered (AddHealthzCheck "healthz") None ∈ log
  /\ answered (AddReadyzCheck "readyz") None ∈ log.

Lemma startLog_flags f webhook metrics config config' r :
  answered ParseFlags f ∈ startLog f webhook metrics config config' r.
Proof. unfold startLog. destruct (tlsSetup _ _ _) as [[ws ms] h]. set_solver. Qed.

(** C30: Safety.  Whatever its environment answers, the operator starts the
    manager only after every API the controller's requests need is in the
    scheme, the field indexes and a controller are registered, whose clients
    were made from the configuration that was loaded, every
    certificate that was configured is watched by a running watcher, both
    health checks are installed, and the metrics registry holds exactly the
    operator's counters.  The process exits with 0 exactly when the manager
    was started and ended without an error, and with 1 otherwise. *)
Theorem manager_starts_ready (env : Answers MainReq) (registry : Registry) :
  wp (starting env ready) (program registry) []
    (fun code log => code = if existsb started_ok log then 0 else 1) quiet.
Proof.
  apply program_execution. intros f webhook metrics config config' r reg Hw Hm Hr Hreg.
  unfold ready. split; [|split; [|split_and!]].
  - destruct (metrics_register registry) as (reg' & Hrun & Hreg'). congruence.
  - intros R e api He. unfold startLog. destruct (tlsSetup _ _ _) as [[ws ms] h].
    assert (api ∈ schemeBuilder) as Hin by by destruct e; cbn in He; simplify_eq; set_solver.
    rewrite !elem_of_app. do 4 right. left. apply list_elem_of_fmap. by exists api.
  - exists f. split; [apply startLog_flags|]. unfold startLog. destruct (tlsSetup _ _ _) as [[ws ms] h].
    split; intros Hp.
    + apply Hw in Hp as [w ->]. exists w. cbn [newWatcherLog addWatcherLog]. set_solver.
    + apply Hm in Hp as [w ->]. exists w. cbn [newWatcherLog addWatcherLog]. set_solver.
  - exists config', r. unfold startLog. destruct (tlsSetup _ _ _) as [[ws ms] h].
    split_and!; [|done|]; clear; set_solver.
  - unfold startLog. destruct (tlsSetup _ _ _) as [[ws ms] h]. set_solver.
  - unfold startLog. destruct (tlsSetup _ _ _) as [[ws ms] h]. set_solver.
Qed.

(** The TLS options the manager was created with are those of the flags. *)
Definition served_as_configured (log : list (Answered MainReq)) (h : Heap Watcher) (reg : Registry) : Prop :=
  exists f webhook metrics config o,
    answered ParseFlags f ∈ log
    /\ watched (webhookCertPath f) webhook
    /\ watched (metricsCertPath f) metrics
    /\ newWatcherLog (webhookCertPath f) (webhookCertName f) (webhookCertKey f) webhook ⊆ log
    /\ newWatcherLog (metricsCertPath f) (metricsCertName f) (metricsCertKey f) metrics ⊆ log
    /\ answered (NewManager config o) (inr ()) ∈ log
    /\ (mo_MetricsFilterProvider o = secureMetrics f /\ mo_MetricsSecureServing o = secureMetrics f)
    /\ forall c,
         effective h c (mo_MetricsTLSOpts o) = tlsResult (enableHTTP2 f) metrics c
         /\ effective h c (mo_WebhookTLSOpts o) =
              tlsResult (enableHTTP2 f)
                (match webhook, metrics with
                 | Some w, Some m => Some (if negb (enableHTTP2 f) && (1 <? grow 1) then m else w)
                 | _, _ => webhook
                 end) c.

(** C31: Functional behaviour.  When the manager starts, both servers speak only
    HTTP/1.1 unless HTTP/2 was enabled, the metrics are protected exactly when
    they are served securely, and the metrics server has its own certificates.
    So has the webhook server, except that both slices of options may share
    their backing array: if HTTP/2 is off, both certificates are configured and
    the run time gave the first append spare capacity, the webhook server gets
    the certificates of the metrics server.  (An append that allocates exactly
    one element, as the Go run time does for one pointer, rules this out.) *)
Theorem tls_options_as_configured (env : Answers MainReq) (registry : Registry) :
  wp (starting env served_as_configured) (program registry) [] (fun _ _ => True) quiet.
Proof.
  eapply wp_mono; [| |apply program_execution]; [done..|].
  intros f webhook metrics config config' r reg Hw Hm _ _.
  pose proof (fun c => tlsSetup_effective (enableHTTP2 f) webhook metrics c) as Heff.
  exists f, webhook, metrics, config. unfold startLog.
  destruct (tlsSetup (enableHTTP2 f) webhook metrics) as [[ws ms] h].
  exists (managerOptions f ws ms).
  split_and!; [set_solver|done|done|set_solver|set_solver|set_solver|done|done|].
  intros c. destruct (Heff c) as [Hws Hms]. by split.
Qed.

End Program.

(** ** A concrete start *)

(** A run time that doubles the capacity, and one that allocates what is needed. *)
#[local] Instance exact_runtime : Runtime := {| Watcher := string; grow n := n; grow_enough n := le_n n |}.

Lemma doubling_enough n : n <= 2 * n.
Proof. lia. Qed.

Definition doubling_runtime : Runtime := {| Watcher := string; grow n := 2 * n; grow_enough := doubling_enough |}.

Definition given : Flags := {|
  metricsAddr := ":8443"; probeAddr := ":8081"; enableLeaderElection := true; secureMetrics := true;
  webhookCertPath := "/webhook"; webhookCertName := "tls.crt"; webhookCertKey := "tls.key";
  metricsCertPath := "/metrics"; metricsCertName := "tls.crt"; metricsCertKey := "tls.key";
  enableHTTP2 := false |}.

(** An environment in which everything succeeds; the state is the last memory
    and the options of the manager. *)
Definition succeeding `{Rt : Runtime} (new : string -> Watcher)
  : Handler MainReq (option ManagerOptions * Heap Watcher) := fun R e w =>
  match e in MainReq R return R * (option ManagerOptions * Heap Watcher) with
  | ParseFlags => (given, w)
  | NewCertWatcher cert key => (inr (new cert), w)
  | GetConfig => (inr "config", w)
  | NewManager _ o => (inr tt, (Some o, w.2))
  | AddToScheme _ => (None, w)
  | Registration e =>
      match e in ManagerReq _ R return R * (option ManagerOptions * Heap Watcher) with
      | IndexField _ _ _ | Complete _ _ _ _ => (None, w)
      end
  | AddRunnable _ | AddHealthzCheck _ | AddReadyzCheck _ => (None, w)
  | Start h _ => (None, (w.1, h))
  end.

Definition webhook_certificate `{Rt : Runtime} (new : string -> Watcher) : option Watcher :=
  let '(_, (o, h)) := run (succeeding new) (program (registered NewRegistry)) (None, []) in
  match o with
  | Some o => GetCertificate (effective h {| NextProtos := ["h2"]; GetCertificate := None |} (mo_WebhookTLSOpts o))
  | None => None
  end.

(** With both certificates configured, the webhook serves its own certificate
    after exact allocation, and the one of the metrics after doubling. *)
Example webhook_certificate_ex :
  webhook_certificate (Rt := exact_runtime) (fun s => s) = Some "/webhook/tls.crt"
  /\ webhook_certificate (Rt := doubling_runtime) (fun s => s) = Some "/metrics/tls.crt".
Proof. by vm_compute. Qed.

Lemma manager_starts_ready_witness :
  wp (starting any_answer ready) (program (Rt := exact_runtime) metricsList) []
    (fun code log => code = if existsb started_ok log then 0 else 1) quiet.
Proof. exact (manager_starts_ready (Rt := exact_runtime) any_answer metricsList). Defined.

Lemma tls_options_as_configured_witness :
  wp (starting any_answer served_as_configured) (program (Rt := exact_runtime) metricsList) []
    (fun _ _ => True) quiet.
Proof. exact (tls_options_as_configured (Rt := exact_runtime) any_answer metricsList). Defined.
