(* ===== verification/DeepCopy.v ===== *)
(** * DeepCopy: copies of the custom resource (api/v1alpha1/zz_generated.deepcopy.go)

    The API machinery copies an object before anyone may change it, so that the
    objects in its caches stay as they are.  Whether that holds depends on
    sharing, so the objects are here as they are in memory: a struct holds
    pointers and slices, a slice refers to an array, and the memory maps
    addresses to cells.  A copy allocates new cells and writes them.

    [Represents] relates what a variable holds to the value it denotes in a
    memory, and [copies] is the contract of a deep copy, which is proved once
    for pointers ([copyPtr_copies]) and once for slices ([copySlice_copies]). *)

From S2P Require Import Prelude GoStd Api.

(** ** Memory *)

Abbreviation loc := nat (only parsing).

(** A pointer to a [T]. *)
Inductive Ptr (T : Type) := Nil | Addr (l : loc).
Arguments Nil {T}.
Arguments Addr {T} l.

(** A slice of a [T]: its array, the offset of its first element, its length. *)
Inductive Slice (T : Type) := NilSlice | MkSlice (array : loc) (offset len : nat).
Arguments NilSlice {T}.
Arguments MkSlice {T} array offset len.

Record TypeMeta := { Kind : string; APIVersion : string }.

(** [NodeRecoveryStatus] with its pointers and slices. *)
Record StatusStruct := {
  s_Phase : string;
  s_Conditions : Slice RecoveryCondition;
  s_StartTime : Ptr Time;
  s_CompletionTime : Ptr Time;
  s_PendingPods : bool;
  s_CrashLoopBackOffPods : bool;
  s_NodeDevice : Slice (Ptr NodePV);
  s_ForcedOSDRemoval : bool;
  s_KeepCephToolsPod : bool;
  s_OperationalOSDIDs : Slice string;
}.

Section Memory.
(** The metadata of an object and of a list as they are in the struct, and the
    cells they point to: they are apimachinery's. *)
Context {Meta ListMeta MetaCell : Type}.

Record RecoveryStruct := { o_TypeMeta : TypeMeta; o_ObjectMeta : Meta; o_Spec : unit; o_Status : StatusStruct }.
Record RecoveryListStruct := {
  l_TypeMeta : TypeMeta; l_ListMeta : ListMeta; l_Items : Slice RecoveryStruct }.

Inductive Cell :=
| TimeCell (t : Time)
| DeviceCell (d : NodePV)
| ConditionCell (c : RecoveryCondition)
| SpecCell (s : unit)
| StatusCell (s : StatusStruct)
| RecoveryCell (o : RecoveryStruct)
| ListCell (l : RecoveryListStruct)
| ConditionsCell (cs : list RecoveryCondition)
| DevicesCell (ds : list (Ptr NodePV))
| StringsCell (ss : list string)
| ItemsCell (os : list RecoveryStruct)
| MetadataCell (m : MetaCell).

#[local] Abbreviation Mem := (gmap loc Cell).

(** The cells that hold a value of a type. *)
Class CellOf (T : Type) := {
  cell : T -> Cell;
  contents : Cell -> option T;
  contents_cell x : contents (cell x) = Some x;
}.

#[global] Instance time_cell : CellOf Z.
Proof. by refine {| cell := TimeCell; contents c := match c with TimeCell x => Some x | _ => None end |}. Defined.
#[global] Instance device_cell : CellOf NodePV.
Proof. by refine {| cell := DeviceCell; contents c := match c with DeviceCell x => Some x | _ => None end |}. Defined.
#[global] Instance condition_cell : CellOf RecoveryCondition.
Proof. by refine {| cell := ConditionCell; contents c := match c with ConditionCell x => Some x | _ => None end |}. Defined.
#[global] Instance spec_cell : CellOf unit.
Proof. by refine {| cell := SpecCell; contents c := match c with SpecCell x => Some x | _ => None end |}. Defined.
#[global] Instance status_cell : CellOf StatusStruct.
Proof. by refine {| cell := StatusCell; contents c := match c with StatusCell x => Some x | _ => None end |}. Defined.
#[global] Instance recovery_cell : CellOf RecoveryStruct.
Proof. by refine {| cell := RecoveryCell; contents c := match c with RecoveryCell x => Some x | _ => None end |}. Defined.
#[global] Instance list_cell : CellOf RecoveryListStruct.
Proof. by refine {| cell := ListCell; contents c := match c with ListCell x => Some x | _ => None end |}. Defined.
#[global] Instance conditions_cell : CellOf (list RecoveryCondition).
Proof. by refine {| cell := ConditionsCell; contents c := match c with ConditionsCell x => Some x | _ => None end |}. Defined.
#[global] Instance devices_cell : CellOf (list (Ptr NodePV)).
Proof. by refine {| cell := DevicesCell; contents c := match c with DevicesCell x => Some x | _ => None end |}. Defined.
#[global] Instance strings_cell : CellOf (list string).
Proof. by refine {| cell := StringsCell; contents c := match c with StringsCell x => Some x | _ => None end |}. Defined.
#[global] Instance items_cell : CellOf (list RecoveryStruct).
Proof. by refine {| cell := ItemsCell; contents c := match c with ItemsCell x => Some x | _ => None end |}. Defined.

(** Computations on the memory; [None] is the panic of an access through nil or
    outside a slice. *)
Definition M (A : Type) := Mem -> option (A * Mem).

#[global] Instance M_ret : MRet M := fun A a m => Some (a, m).
#[global] Instance M_bind : MBind M := fun A B f p m =>
  match p m with Some (a, m') => f a m' | None => None end.

(** [new(T)] and [make([]T, n)] with their zero values. *)
Definition alloc {T} `{!CellOf T} (x : T) : M loc := fun m =>
  let l := fresh (dom m) in Some (l, <[l := cell x]> m).

Definition load {T} `{!CellOf T} (l : loc) : M T := fun m => x ← m !! l ≫= contents; Some (x, m).

Definition store {T} `{!CellOf T} (l : loc) (x : T) : M unit := fun m => Some ((), <[l := cell x]> m).

(** Reading and writing an element of a slice. *)
Definition get_index {T} `{!CellOf (list T)} (s : Slice T) (i : nat) : M T := fun m =>
  match s with
  | NilSlice => None
  | MkSlice a o n =>
      if decide (i < n) then xs ← m !! a ≫= contents; x ← xs !! (o + i); Some (x, m) else None
  end.

Definition set_index {T} `{!CellOf (list T)} (s : Slice T) (i : nat) (x : T) : M unit := fun m =>
  match s with
  | NilSlice => None
  | MkSlice a o n =>
      if decide (i < n) then xs ← m !! a ≫= contents; Some ((), <[a := cell (<[o + i := x]> xs)]> m) else None
  end.

(** [for i := 0; i < n; i++]. *)
Fixpoint for_range (n : nat) (body : nat -> M unit) : M unit :=
  match n with
  | O => mret ()
  | S n' => for_range n' body;; body n'
  end.

(** [if in == nil { return nil }; out := new(T); in.DeepCopyInto(out); return out]. *)
Definition copyPtr {T} `{!CellOf T} (zero : T) (deepCopyInto : T -> M T) (in_ : Ptr T) : M (Ptr T) :=
  match in_ with
  | Nil => mret Nil
  | Addr l =>
      out ← alloc zero;
      x ← load l;
      y ← deepCopyInto x;
      store out y;;
      mret (Addr out)
  end.

(** [if in != nil { *out = make([]T, len(in)); for i := range in { ... } }]. *)
Definition copySlice {T} `{!CellOf (list T)} (zero : T) (deepCopyInto : T -> M T) (in_ : Slice T)
  : M (Slice T) :=
  match in_ with
  | NilSlice => mret NilSlice
  | MkSlice _ _ n =>
      l ← alloc (replicate n zero);
      let out := MkSlice l 0 n in
      for_range n (fun i => x ← get_index in_ i; y ← deepCopyInto x; set_index out i y);;
      mret out
  end.

(** ** Representation *)

(** [rep m r v L]: in memory [m], a variable that holds [r] denotes the value
    [v], and only cells in [L] are read to see that. *)
Class Represents (R V : Type) := {
  rep : Mem -> R -> V -> gset loc -> Prop;
  rep_mono m r v L L' : rep m r v L -> L ⊆ L' -> rep m r v L';
  rep_local m m' r v L : rep m r v L -> (forall l, l ∈ L -> m' !! l = m !! l) -> rep m' r v L;
}.

(** The contract of a deep copy: it denotes the same value, in new cells only,
    and nothing that was in memory before has changed. *)
Definition copies {R V} `{!Represents R V} (f : R -> M R) : Prop :=
  forall m r v, rep m r v (dom m) ->
    exists r' m', f r m = Some (r', m') /\ m ⊆ m' /\ rep m' r' v (dom m' ∖ dom m).

(** A type without pointers denotes itself. *)
Definition plain {R} : Represents R R.
Proof.
  refine {| rep _ r v _ := r = v |}; [by intros|by intros].
Defined.

#[global] Instance condition_represents : Represents RecoveryCondition RecoveryCondition := plain.
#[global] Instance device_represents : Represents NodePV NodePV := plain.
#[global] Instance time_represents : Represents Z Z := plain.
#[global] Instance string_represents : Represents string string := plain.
#[global] Instance spec_represents : Represents unit unit := plain.

Lemma plain_copies {R} : @copies R R plain (fun x => mret x).
Proof. intros m r v <-. by exists r, m. Qed.

Lemma rep_weaken {R V} `{!Represents R V} m m' r v (L L' : gset loc) :
  rep m r v L -> L ⊆ L' -> (forall l, l ∈ L -> m' !! l = m !! l) -> rep m' r v L'.
Proof. intros Hr HL Hm. eapply rep_mono; [|exact HL]. by eapply rep_local. Qed.

Lemma subseteq_agree (m m' : Mem) l : m ⊆ m' -> l ∈ dom m -> m' !! l = m !! l.
Proof. intros Hm [c Hc]%elem_of_dom. rewrite Hc. by eapply lookup_weaken. Qed.

#[global] Instance ptr_represents {T V} `{!CellOf T} `{!Represents T V} : Represents (Ptr T) (option V).
Proof.
  refine {| rep m p v L :=
    match p, v with
    | Nil, None => True
    | Addr l, Some v => l ∈ L /\ exists x, m !! l ≫= contents = Some x /\ rep m x v L
    | _, _ => False
    end |}.
  - intros m [|l] [v|] L L'; [done|done| |done]. intros (Hl & x & Hx & Hr) HL.
    split; [set_solver|]. exists x. split; [done|]. by eapply rep_mono.
  - intros m m' [|l] [v|] L; [done|done| |done]. intros (Hl & x & Hx & Hr) Hm.
    split; [done|]. exists x. rewrite Hm by done. split; [done|]. by eapply rep_local.
Defined.

#[global] Instance slice_represents {T V} `{!CellOf (list T)} `{!Represents T V}
  : Represents (Slice T) (option (list V)).
Proof.
  refine {| rep m s vs L :=
    match s, vs with
    | NilSlice, None => True
    | MkSlice a o n, Some vs => a ∈ L /\ exists xs, m !! a ≫= contents = Some xs
        /\ o + n <= length xs /\ Forall2 (fun x v => rep m x v L) (take n (drop o xs)) vs
    | _, _ => False
    end |}.
  - intros m [|a o n] [vs|] L L'; [done|done| |done]. intros (Ha & xs & Hxs & Hn & Hr) HL.
    split; [set_solver|]. exists xs. split_and!; [done..|].
    eapply Forall2_impl; [exact Hr|]. intros x v Hx. by apply (rep_mono m x v L).
  - intros m m' [|a o n] [vs|] L; [done|done| |done]. intros (Ha & xs & Hxs & Hn & Hr) Hm.
    split; [done|]. exists xs. rewrite Hm by done. split_and!; [done..|].
    eapply Forall2_impl; [exact Hr|]. intros x v Hx. by apply (rep_local m).
Defined.

(** ** Pointers and slices are copied *)

Lemma run_bind {A B} (p : M A) (f : A -> M B) m a m' : p m = Some (a, m') -> (p ≫= f) m = f a m'.
Proof. intros Hp. cbv [mbind M_bind]. by rewrite Hp. Qed.

Lemma run_load {T} `{!CellOf T} l (x : T) m : m !! l ≫= contents = Some x -> load l m = Some (x, m).
Proof. intros Hx. unfold load. by rewrite Hx. Qed.

Lemma fresh_dom (m : Mem) : fresh (dom m) ∉ dom m.
Proof. apply is_fresh. Qed.

Lemma copyPtr_copies {T V} `{!CellOf T} `{!Represents T V} (zero : T) (f : T -> M T) :
  copies f -> copies (R := Ptr T) (copyPtr zero f).
Proof.
  intros Hf m [|l] [v|] Hr; [by destruct Hr|exists Nil, m; by split_and!| |by destruct Hr].
  destruct Hr as (Hl & x & Hx & Hr). pose proof (fresh_dom m) as Hfresh. set (out := fresh (dom m)) in *.
  set (m1 := <[out := cell zero]> m).
  assert (m ⊆ m1) as Hm1 by by apply insert_subseteq, not_elem_of_dom.
  destruct (Hf m1 x v) as (y & m2 & Hy & Hm2 & Hry).
  { eapply rep_weaken; [exact Hr|set_solver|]. intros l' Hl'. by apply subseteq_agree. }
  exists (Addr out), (<[out := cell y]> m2).
  assert (out ∈ dom m1) as Hout by set_solver.
  split_and!.
  - unfold copyPtr. rewrite (run_bind _ _ m out m1) by done.
    rewrite (run_bind _ _ m1 x m1) by by apply run_load; rewrite (subseteq_agree m).
    by rewrite (run_bind _ _ m1 y m2).
  - apply insert_subseteq_r; [by apply not_elem_of_dom|by etrans].
  - split; [set_solver|]. exists y. rewrite lookup_insert_eq. split; [apply contents_cell|].
    eapply rep_weaken; [exact Hry|set_solver|]. intros l' Hl'. apply lookup_insert_ne. set_solver.
Qed.

Lemma run_get_index {T} `{!CellOf (list T)} a o n i (xs : list T) x m :
  m !! a ≫= contents = Some xs -> i < n -> xs !! (o + i) = Some x -> get_index (MkSlice a o n) i m = Some (x, m).
Proof. intros Hxs Hi Hx. unfold get_index. rewrite decide_True by done. rewrite Hxs. cbn. by rewrite Hx. Qed.

Lemma run_set_index {T} `{!CellOf (list T)} a o n i (xs : list T) x m :
  m !! a ≫= contents = Some xs -> i < n ->
  set_index (MkSlice a o n) i x m = Some ((), <[a := cell (<[o + i := x]> xs)]> m).
Proof. intros Hxs Hi. unfold set_index. rewrite decide_True by done. by rewrite Hxs. Qed.

(** The loop of [copySlice]: after [k] rounds, the first [k] elements are
    copies, in cells that are neither old nor the new array. *)
Lemma copy_loop {T V} `{!CellOf (list T)} `{!Represents T V} (f : T -> M T) (zero : T)
    m (a : loc) o n (xs : list T) (vs : list V) (k : nat) :
  copies f -> m !! a ≫= contents = Some xs -> o + n <= length xs ->
  Forall2 (fun x v => rep m x v (dom m)) (take n (drop o xs)) vs -> k <= n ->
  let l := fresh (dom m) in
  exists ys mk,
    for_range k (fun i => x ← get_index (MkSlice a o n) i; y ← f x; set_index (MkSlice l 0 n) i y)
      (<[l := cell (replicate n zero)]> m) = Some ((), mk)
    /\ m ⊆ mk
    /\ mk !! l = Some (cell (ys ++ replicate (n - k) zero))
    /\ Forall2 (fun y v => rep mk y v (dom mk ∖ dom m ∖ {[l]})) ys (take k vs).
Proof.
  intros Hf Hxs Hlen Hvs Hk l. pose proof (fresh_dom m : l ∉ dom m) as Hfresh.
  induction k as [|k IH].
  - exists [], (<[l := cell (replicate n zero)]> m). split_and!; [done| | |constructor].
    + by apply insert_subseteq, not_elem_of_dom.
    + rewrite Nat.sub_0_r. apply lookup_insert_eq.
  - destruct IH as (ys & mk & Hrun & Hm & Hl & Hys); [lia|].
    destruct (lookup_lt_is_Some_2 xs (o + k)) as [x Hx]; [lia|].
    assert (take n (drop o xs) !! k = Some x) as Hx' by by rewrite lookup_take_lt, lookup_drop by lia.
    destruct (Forall2_lookup_l _ _ _ _ _ Hvs Hx') as (v & Hv & Hr).
    assert (length ys = k) as Hk'.
    { apply Forall2_length in Hys. rewrite Hys, length_take. apply lookup_lt_Some in Hv. lia. }
    assert (a ∈ dom m) as Ha by by destruct (m !! a) eqn:Ea; [apply elem_of_dom|].
    assert (l ∈ dom mk) as Hldom by by apply elem_of_dom.
    pose proof (subseteq_dom _ _ Hm) as Hdm.
    destruct (Hf mk x v) as (y & mk' & Hy & Hm' & Hry).
    { eapply rep_weaken; [exact Hr|done|]. intros l' Hl'. by apply subseteq_agree. }
    pose proof (subseteq_dom _ _ Hm') as Hdm'.
    set (zs := <[k := y]> (ys ++ replicate (n - k) zero)).
    exists (ys ++ [y]), (<[l := cell zs]> mk'). split_and!.
    + cbn [for_range]. rewrite (run_bind _ _ _ () mk) by done.
      rewrite (run_bind _ _ mk x mk).
      2: { eapply run_get_index; [|lia|exact Hx]. by rewrite (subseteq_agree m). }
      rewrite (run_bind _ _ mk y mk') by done.
      apply (run_set_index l 0 n k); [|lia].
      rewrite (subseteq_agree mk) by done. rewrite Hl. apply contents_cell.
    + apply insert_subseteq_r; [by apply not_elem_of_dom|by etrans].
    + rewrite lookup_insert_eq. do 2 f_equal. unfold zs. rewrite insert_app_r_alt, Hk', Nat.sub_diag by lia.
      replace (n - k) with (S (n - S k)) by lia. cbn. by rewrite <- app_assoc.
    + erewrite take_S_r by exact Hv. apply Forall2_app.
      * eapply Forall2_impl; [exact Hys|]. intros y' v' Hr'.
        eapply rep_weaken; [exact Hr'|set_solver|]. intros l' Hl'.
        rewrite lookup_insert_ne by set_solver. apply subseteq_agree; [done|set_solver].
      * constructor; [|constructor]. eapply rep_weaken; [exact Hry|set_solver|].
        intros l' Hl'. apply lookup_insert_ne. set_solver.
Qed.

Lemma copySlice_copies {T V} `{!CellOf (list T)} `{!Represents T V} (zero : T) (f : T -> M T) :
  copies f -> copies (R := Slice T) (copySlice zero f).
Proof.
  intros Hf m [|a o n] [vs|] Hr; [by destruct Hr|exists NilSlice, m; by split_and!| |by destruct Hr].
  destruct Hr as (Ha & xs & Hxs & Hlen & Hvs). set (l := fresh (dom m)).
  destruct (copy_loop f zero m a o n xs vs n) as (ys & mk & Hrun & Hm & Hl & Hys); [done..|].
  fold l in Hrun, Hl, Hys. pose proof (fresh_dom m : l ∉ dom m) as Hfresh.
  assert (l ∈ dom mk) as Hldom by by apply elem_of_dom.
  pose proof (Forall2_length _ _ _ Hvs) as Hn. rewrite length_take, length_drop in Hn.
  pose proof (Forall2_length _ _ _ Hys) as Hn'. rewrite length_take in Hn'.
  exists (MkSlice l 0 n), mk. split_and!; [|done|].
  - unfold copySlice. rewrite (run_bind _ _ m l (<[l := cell (replicate n zero)]> m)) by done.
    by rewrite (run_bind _ _ _ () mk).
  - split; [set_solver|]. exists ys. rewrite Hl, Nat.sub_diag in *. rewrite app_nil_r in Hl. split_and!.
    + cbn. rewrite app_nil_r. apply contents_cell.
    + lia.
    + rewrite drop_0, take_ge by lia. rewrite take_ge in Hys by lia.
      eapply Forall2_impl; [exact Hys|]. intros y v Hr. eapply rep_mono; [exact Hr|set_solver].
Qed.

(** Copying one field of a struct after others were copied, and the fields that
    were copied before: [m0] is the memory the copy of the struct began with. *)
Lemma copy_field {R V} `{!Represents R V} (f : R -> M R) m0 m r v :
  copies f -> rep m0 r v (dom m0) -> m0 ⊆ m ->
  exists r' m', f r m = Some (r', m') /\ m ⊆ m' /\ m0 ⊆ m' /\ rep m' r' v (dom m' ∖ dom m0).
Proof.
  intros Hf Hr Hm. pose proof (subseteq_dom _ _ Hm).
  destruct (Hf m r v) as (r' & m' & Hrun & Hm' & Hr').
  { eapply rep_weaken; [exact Hr|done|]. intros l Hl. by apply subseteq_agree. }
  exists r', m'. split_and!; [done|done|by etrans|]. eapply rep_mono; [exact Hr'|set_solver].
Qed.

Lemma field_stays {R V} `{!Represents R V} (m0 m m' : Mem) r v :
  rep m r v (dom m ∖ dom m0) -> m ⊆ m' -> rep m' r v (dom m' ∖ dom m0).
Proof.
  intros Hr Hm. pose proof (subseteq_dom _ _ Hm). eapply rep_weaken; [exact Hr|set_solver|].
  intros l Hl. apply subseteq_agree; [done|set_solver].
Qed.

(** ** Statuses *)

(** The value of a status in memory, and which of its three slices are nil. *)
Definition StatusValue : Type := NodeRecoveryStatus * (bool * bool * bool).

Definition is_nil {A} (o : option A) : bool := match o with None => true | Some _ => false end.

#[global] Instance status_represents : Represents StatusStruct StatusValue.
Proof.
  refine {| rep m s v L :=
    exists cs ds ids,
      rep m (s_Conditions s) cs L /\ rep m (s_StartTime s) (StartTime v.1) L
      /\ rep m (s_CompletionTime s) (CompletionTime v.1) L /\ rep m (s_NodeDevice s) ds L
      /\ rep m (s_OperationalOSDIDs s) ids L
      /\ v = ({| Phase := s_Phase s; Conditions := default [] cs; StartTime := StartTime v.1;
                 CompletionTime := CompletionTime v.1; PendingPods := s_PendingPods s;
                 CrashLoopBackOffPods := s_CrashLoopBackOffPods s; NodeDevice := default [] ds;
                 ForcedOSDRemoval := s_ForcedOSDRemoval s; KeepCephToolsPod := s_KeepCephToolsPod s;
                 OperationalOSDIDs := default [] ids |}, (is_nil cs, is_nil ds, is_nil ids)) |}.
  - intros m s v L L' (cs & ds & ids & H1 & H2 & H3 & H4 & H5 & Hv) HL. exists cs, ds, ids.
    split_and!; [by eapply rep_mono..|done].
  - intros m m' s v L (cs & ds & ids & H1 & H2 & H3 & H4 & H5 & Hv) Hm. exists cs, ds, ids.
    split_and!; [by eapply rep_local..|done].
Defined.

(** ** apimachinery

    Its deep copies, with the contract of deep copies.  ([metav1.Time] says that
    copying it by assignment is safe, because a [time.Time] is immutable.) *)
Class Apimachinery := {
  MetaValue : Type;
  ListMetaValue : Type;
  meta_represents :: Represents Meta MetaValue;
  listmeta_represents :: Represents ListMeta ListMetaValue;
  zeroMeta : Meta;
  zeroListMeta : ListMeta;
  ObjectMeta_DeepCopyInto : Meta -> M Meta;
  ListMeta_DeepCopyInto : ListMeta -> M ListMeta;
  Time_DeepCopyInto : Time -> M Time;
  Time_DeepCopy : Ptr Time -> M (Ptr Time);
  ObjectMeta_copies : copies ObjectMeta_DeepCopyInto;
  ListMeta_copies : copies ListMeta_DeepCopyInto;
  TimeInto_copies : copies Time_DeepCopyInto;
  Time_copies : copies Time_DeepCopy;
}.

Section Copies.
Context `{A : Apimachinery}.

Definition zeroNodePV : NodePV := {| npv_NodeName := ""; npv_PersistentVolumeName := ""; npv_FailingOSDID := "" |}.

Definition zeroCondition : RecoveryCondition := {|
  cond_Type := OtherConditionType ""; cond_LastProbeTime := zeroTime; cond_LastTransitionTime := zeroTime;
  cond_Reason := ""; cond_Message := ""; cond_Status := "" |}.

Definition zeroStatusStruct : StatusStruct := {|
  s_Phase := ""; s_Conditions := NilSlice; s_StartTime := Nil; s_CompletionTime := Nil; s_PendingPods := false;
  s_CrashLoopBackOffPods := false; s_NodeDevice := NilSlice; s_ForcedOSDRemoval := false;
  s_KeepCephToolsPod := false; s_OperationalOSDIDs := NilSlice |}.

Definition zeroTypeMeta : TypeMeta := {| Kind := ""; APIVersion := "" |}.

Definition zeroRecovery : RecoveryStruct :=
  {| o_TypeMeta := zeroTypeMeta; o_ObjectMeta := zeroMeta; o_Spec := (); o_Status := zeroStatusStruct |}.

Definition zeroRecoveryList : RecoveryListStruct :=
  {| l_TypeMeta := zeroTypeMeta; l_ListMeta := zeroListMeta; l_Items := NilSlice |}.

(** ** The generated functions

    [DeepCopyInto] writes through [out]; here it returns what it writes. *)

Definition NodePV_DeepCopyInto (in_ : NodePV) : M NodePV := mret in_.
Definition NodePV_DeepCopy : Ptr NodePV -> M (Ptr NodePV) := copyPtr zeroNodePV NodePV_DeepCopyInto.

Definition NodeRecoverySpec_DeepCopyInto (in_ : unit) : M unit := mret in_.
Definition NodeRecoverySpec_DeepCopy : Ptr unit -> M (Ptr unit) := copyPtr () NodeRecoverySpec_DeepCopyInto.

Definition RecoveryCondition_DeepCopyInto (in_ : RecoveryCondition) : M RecoveryCondition :=
  probe ← Time_DeepCopyInto (cond_LastProbeTime in_);
  transition ← Time_DeepCopyInto (cond_LastTransitionTime in_);
  mret {| cond_Type := cond_Type in_; cond_LastProbeTime := probe; cond_LastTransitionTime := transition;
          cond_Reason := cond_Reason in_; cond_Message := cond_Message in_; cond_Status := cond_Status in_ |}.
Definition RecoveryCondition_DeepCopy : Ptr RecoveryCondition -> M (Ptr RecoveryCondition) :=
  copyPtr zeroCondition RecoveryCondition_DeepCopyInto.

(** The devices are copied one by one if they are not nil, the strings with the
    built-in [copy]. *)
Definition NodeRecoveryStatus_DeepCopyInto (in_ : StatusStruct) : M StatusStruct :=
  conditions ← copySlice zeroCondition RecoveryCondition_DeepCopyInto (s_Conditions in_);
  start ← Time_DeepCopy (s_StartTime in_);
  completion ← Time_DeepCopy (s_CompletionTime in_);
  devices ← copySlice Nil (copyPtr zeroNodePV mret) (s_NodeDevice in_);
  ids ← copySlice "" mret (s_OperationalOSDIDs in_);
  mret {| s_Phase := s_Phase in_; s_Conditions := conditions; s_StartTime := start;
          s_CompletionTime := completion; s_PendingPods := s_PendingPods in_;
          s_CrashLoopBackOffPods := s_CrashLoopBackOffPods in_; s_NodeDevice := devices;
          s_ForcedOSDRemoval := s_ForcedOSDRemoval in_; s_KeepCephToolsPod := s_KeepCephToolsPod in_;
          s_OperationalOSDIDs := ids |}.
Definition NodeRecoveryStatus_DeepCopy : Ptr StatusStruct -> M (Ptr StatusStruct) :=
  copyPtr zeroStatusStruct NodeRecoveryStatus_DeepCopyInto.

Definition NodeRecovery_DeepCopyInto (in_ : RecoveryStruct) : M RecoveryStruct :=
  meta ← ObjectMeta_DeepCopyInto (o_ObjectMeta in_);
  status ← NodeRecoveryStatus_DeepCopyInto (o_Status in_);
  mret {| o_TypeMeta := o_TypeMeta in_; o_ObjectMeta := meta; o_Spec := o_Spec in_; o_Status := status |}.
Definition NodeRecovery_DeepCopy : Ptr RecoveryStruct -> M (Ptr RecoveryStruct) :=
  copyPtr zeroRecovery NodeRecovery_DeepCopyInto.

Definition NodeRecoveryList_DeepCopyInto (in_ : RecoveryListStruct) : M RecoveryListStruct :=
  meta ← ListMeta_DeepCopyInto (l_ListMeta in_);
  items ← copySlice zeroRecovery NodeRecovery_DeepCopyInto (l_Items in_);
  mret {| l_TypeMeta := l_TypeMeta in_; l_ListMeta := meta; l_Items := items |}.
Definition NodeRecoveryList_DeepCopy : Ptr RecoveryListStruct -> M (Ptr RecoveryListStruct) :=
  copyPtr zeroRecoveryList NodeRecoveryList_DeepCopyInto.

(** A [runtime.Object]: nil, or a pointer to one of the two kinds. *)
Inductive RuntimeObject_ :=
| NilObject
| RecoveryObject (l : loc)
| RecoveryListObject (l : loc).

Definition NodeRecovery_DeepCopyObject (in_ : Ptr RecoveryStruct) : M RuntimeObject_ :=
  c ← NodeRecovery_DeepCopy in_; mret (match c with Addr l => RecoveryObject l | Nil => NilObject end).

Definition NodeRecoveryList_DeepCopyObject (in_ : Ptr RecoveryListStruct) : M RuntimeObject_ :=
  c ← NodeRecoveryList_DeepCopy in_; mret (match c with Addr l => RecoveryListObject l | Nil => NilObject end).

(** ** They are deep copies *)

#[global] Instance recovery_represents : Represents RecoveryStruct (TypeMeta * MetaValue * StatusValue).
Proof.
  refine {| rep m o v L :=
    o_TypeMeta o = v.1.1 /\ rep m (o_ObjectMeta o) v.1.2 L /\ rep m (o_Status o) v.2 L |}.
  - intros m o v L L' (? & ? & ?) HL. split_and!; [done|by eapply rep_mono..].
  - intros m m' o v L (? & ? & ?) Hm. split_and!; [done|by eapply rep_local..].
Defined.

#[global] Instance recoverylist_represents : Represents RecoveryListStruct
    (TypeMeta * ListMetaValue * option (list (TypeMeta * MetaValue * StatusValue))).
Proof.
  refine {| rep m o v L :=
    l_TypeMeta o = v.1.1 /\ rep m (l_ListMeta o) v.1.2 L /\ rep m (l_Items o) v.2 L |}.
  - intros m o v L L' (? & ? & ?) HL. split_and!; [done|by eapply rep_mono..].
  - intros m m' o v L (? & ? & ?) Hm. split_and!; [done|by eapply rep_local..].
Defined.

Lemma RecoveryCondition_copies : copies RecoveryCondition_DeepCopyInto.
Proof.
  intros m c v <-. unfold RecoveryCondition_DeepCopyInto.
  destruct (TimeInto_copies m (cond_LastProbeTime c) _ eq_refl) as (p & m1 & Hp & Hm1 & Hrp).
  rewrite (run_bind _ _ m p m1 Hp).
  destruct (TimeInto_copies m1 (cond_LastTransitionTime c) _ eq_refl) as (t & m2 & Ht & Hm2 & Hrt).
  rewrite (run_bind _ _ m1 t m2 Ht).
  eexists _, m2. split; [done|]. split; [by etrans|]. cbn in *. subst. by destruct c.
Qed.

(** Copies the next field: [Hf] is the contract of its copy, [Hr] its value, and
    [Hm] that nothing the struct had at the start has changed. *)
Ltac copy_next Hf Hr Hm :=
  let r := fresh "r" in let m' := fresh "m" in let Hrun := fresh "Hrun" in
  let Hsub := fresh "Hsub" in let Hm' := fresh "Hm" in let Hr' := fresh "Hr" in
  destruct (copy_field _ _ _ _ _ Hf Hr Hm) as (r & m' & Hrun & Hsub & Hm' & Hr');
  rewrite (run_bind _ _ _ r m' Hrun); clear Hm; rename Hm' into Hm.

(** A field that was copied some fields ago. *)
Ltac copied :=
  lazymatch goal with
  | H : rep ?m ?r ?v (dom ?m ∖ dom ?m0) |- rep ?m' ?r ?v (dom ?m' ∖ dom ?m0) =>
      apply (field_stays m0 m m' r v H); repeat (etrans; [eassumption|]); reflexivity
  end.

Lemma Status_copies : copies NodeRecoveryStatus_DeepCopyInto.
Proof.
  intros m s v (cs & ds & ids & H1 & H2 & H3 & H4 & H5 & Hv). unfold NodeRecoveryStatus_DeepCopyInto.
  assert (m ⊆ m) as Hm by done.
  copy_next (copySlice_copies zeroCondition _ RecoveryCondition_copies) H1 Hm.
  copy_next Time_copies H2 Hm.
  copy_next Time_copies H3 Hm.
  copy_next (copySlice_copies Nil _ (copyPtr_copies zeroNodePV _ (plain_copies (R := NodePV)))) H4 Hm.
  copy_next (copySlice_copies "" _ (plain_copies (R := string))) H5 Hm.
  eexists _, _. split; [reflexivity|]. split; [done|]. exists cs, ds, ids. split_and!; [copied..|done].
Qed.

Lemma NodeRecovery_copies : copies NodeRecovery_DeepCopyInto.
Proof.
  intros m o v (Ht & H1 & H2). unfold NodeRecovery_DeepCopyInto. assert (m ⊆ m) as Hm by done.
  copy_next ObjectMeta_copies H1 Hm.
  copy_next Status_copies H2 Hm.
  eexists _, _. split; [reflexivity|]. split; [done|]. split_and!; [done|copied..].
Qed.

Lemma NodeRecoveryList_copies : copies NodeRecoveryList_DeepCopyInto.
Proof.
  intros m o v (Ht & H1 & H2). unfold NodeRecoveryList_DeepCopyInto. assert (m ⊆ m) as Hm by done.
  copy_next ListMeta_copies H1 Hm.
  copy_next (copySlice_copies zeroRecovery _ NodeRecovery_copies) H2 Hm.
  eexists _, _. split; [reflexivity|]. split; [done|]. split_and!; [done|copied..].
Qed.

(** A copy that denotes the same value as the original, and stays so whatever
    happens to the cells that were there before, as the original does whatever
    happens to the new ones. *)
Definition independent {R V} `{!Represents R V} (m : Mem) (r : R) (v : V) (out : R) (m' : Mem) : Prop :=
  rep m' r v (dom m) /\ rep m' out v (dom m')
  /\ (forall m'' : Mem, (forall l, l ∈ dom m -> m'' !! l = m' !! l) -> rep m'' r v (dom m))
  /\ (forall m'' : Mem, (forall l, l ∉ dom m -> m'' !! l = m' !! l) -> rep m'' out v (dom m')).

Lemma copies_independent {R V} `{!Represents R V} (f : R -> M R) m r v :
  copies f -> rep m r v (dom m) -> exists out m', f r m = Some (out, m') /\ independent m r v out m'.
Proof.
  intros Hf Hr. destruct (Hf m r v Hr) as (out & m' & Hrun & Hm & Hout). exists out, m'. split; [done|].
  assert (rep m' r v (dom m)) as Hr'.
  { eapply rep_local; [exact Hr|]. intros l Hl. by apply subseteq_agree. }
  split; [done|]. split; [by eapply rep_mono; [exact Hout|set_solver]|]. split.
  - intros m'' Hag. by eapply rep_local.
  - intros m'' Hag. eapply rep_weaken; [exact Hout|set_solver|]. intros l Hl. apply Hag. set_solver.
Qed.

(** The object at a pointer, as the interface holds it. *)
Definition asObject {T} (kind : loc -> RuntimeObject_) (p : Ptr T) : RuntimeObject_ :=
  match p with Addr l => kind l | Nil => NilObject end.

(** C36: Equivalence and separation.  Copying an object or a list of objects that
    is in memory never panics; the copy denotes the same value (metadata,
    status, every condition, device and id, and which slices are nil), nil for
    nil; and the two share nothing: whatever is written to the cells that were
    there before, the copy keeps its value, and whatever is written to the new
    cells, the original keeps its. *)
Theorem deep_copies_share_nothing (m : Mem) :
  (forall (in_ : Ptr RecoveryStruct) v, rep m in_ v (dom m) -> exists out m',
     NodeRecovery_DeepCopyObject in_ m = Some (asObject RecoveryObject out, m') /\ independent m in_ v out m')
  /\ (forall (in_ : Ptr RecoveryListStruct) v, rep m in_ v (dom m) -> exists out m',
     NodeRecoveryList_DeepCopyObject in_ m = Some (asObject RecoveryListObject out, m')
     /\ independent m in_ v out m').
Proof.
  split; intros in_ v Hr.
  - destruct (copies_independent _ m in_ v (copyPtr_copies zeroRecovery _ NodeRecovery_copies) Hr)
      as (out & m' & Hrun & Hind).
    exists out, m'. split; [|done]. unfold NodeRecovery_DeepCopyObject, NodeRecovery_DeepCopy.
    by rewrite (run_bind _ _ m out m').
  - destruct (copies_independent _ m in_ v (copyPtr_copies zeroRecoveryList _ NodeRecoveryList_copies) Hr)
      as (out & m' & Hrun & Hind).
    exists out, m'. split; [|done]. unfold NodeRecoveryList_DeepCopyObject, NodeRecoveryList_DeepCopy.
    by rewrite (run_bind _ _ m out m').
Qed.

End Copies.

End Memory.
Arguments RecoveryStruct : clear implicits.
Arguments RecoveryListStruct : clear implicits.
Arguments Cell : clear implicits.
Arguments Apimachinery : clear implicits.

(** ** A concrete memory

    Metadata is its name; times are copied by assignment. *)

#[local] Abbreviation Cell_ := (Cell string string Empty_set).

#[export] Instance plain_metadata : Apimachinery string string Empty_set.
Proof.
  refine {| MetaValue := string; ListMetaValue := string;
    meta_represents := plain; listmeta_represents := plain;
    zeroMeta := ""; zeroListMeta := "";
    ObjectMeta_DeepCopyInto x := mret x; ListMeta_DeepCopyInto x := mret x;
    Time_DeepCopyInto t := mret t; Time_DeepCopy := copyPtr zeroTime (fun t => mret t) |}.
  - apply plain_copies.
  - apply plain_copies.
  - apply plain_copies.
  - apply copyPtr_copies, plain_copies.
Defined.

(** A list of one recovery, whose two devices are the same one in memory. *)
Definition sample_device : NodePV :=
  {| npv_NodeName := "node-2"; npv_PersistentVolumeName := "pv-2"; npv_FailingOSDID := "2" |}.

Definition sample_condition : RecoveryCondition := {|
  cond_Type := WaitForPersistenVolumeBound; cond_LastProbeTime := 7%Z; cond_LastTransitionTime := 5%Z;
  cond_Reason := ""; cond_Message := ""; cond_Status := StatusTrue |}.

Definition sample_status : StatusStruct := {|
  s_Phase := RunningPhase; s_Conditions := MkSlice 1 0 1; s_StartTime := Addr 2; s_CompletionTime := Nil;
  s_PendingPods := false; s_CrashLoopBackOffPods := true; s_NodeDevice := MkSlice 3 0 2;
  s_ForcedOSDRemoval := false; s_KeepCephToolsPod := true; s_OperationalOSDIDs := NilSlice |}.

Definition sample_list : RecoveryListStruct string string := {|
  l_TypeMeta := {| Kind := "NodeRecoveryList"; APIVersion := "odf.openshift.io/v1alpha1" |};
  l_ListMeta := "42"; l_Items := MkSlice 6 0 1 |}.

Definition sample_memory : gmap nat Cell_ := {[
  1 := ConditionsCell [sample_condition];
  2 := TimeCell 5%Z;
  3 := DevicesCell [Addr 4; Addr 4];
  4 := DeviceCell sample_device;
  5 := ListCell sample_list;
  6 := ItemsCell [ {| o_TypeMeta := {| Kind := "NodeRecovery"; APIVersion := "odf.openshift.io/v1alpha1" |};
                      o_ObjectMeta := "recovery"; o_Spec := (); o_Status := sample_status |} ]
]}.

Definition sample_value : StatusValue := ({|
  Phase := RunningPhase; Conditions := [sample_condition]; StartTime := Some 5%Z; CompletionTime := None;
  PendingPods := false; CrashLoopBackOffPods := true; NodeDevice := [Some sample_device; Some sample_device];
  ForcedOSDRemoval := false; KeepCephToolsPod := true; OperationalOSDIDs := [] |}, (false, false, true)).

Definition sample_list_value
  : TypeMeta * @ListMetaValue _ _ _ plain_metadata
    * option (list (TypeMeta * @MetaValue _ _ _ plain_metadata * StatusValue)) :=
  ({| Kind := "NodeRecoveryList"; APIVersion := "odf.openshift.io/v1alpha1" |}, "42",
   Some [({| Kind := "NodeRecovery"; APIVersion := "odf.openshift.io/v1alpha1" |}, "recovery", sample_value)]).

Definition sample_pointer : Ptr (RecoveryListStruct string string) := Addr 5.

Lemma sample_dom l : l < 7 -> 0 < l -> l ∈ dom sample_memory.
Proof. intros Hl Hl'. do 7 (destruct l as [|l]; [lia || (apply elem_of_dom; by eexists)|]). lia. Qed.

Lemma deep_copies_share_nothing_witness : exists out m',
  NodeRecoveryList_DeepCopyObject sample_pointer sample_memory = Some (asObject RecoveryListObject out, m')
  /\ independent sample_memory sample_pointer (Some sample_list_value) out m'.
Proof.
  apply (proj2 (deep_copies_share_nothing sample_memory) sample_pointer (Some sample_list_value)).
  split; [apply sample_dom; lia|]. eexists. split; [reflexivity|]. split_and!; [done..|].
  split; [apply sample_dom; lia|]. eexists. split; [reflexivity|]. split; [done|].
  constructor; [|constructor]. split_and!; [done..|].
  exists (Some [sample_condition]), (Some [Some sample_device; Some sample_device]), None. split_and!.
  - split; [apply sample_dom; lia|]. eexists. split; [reflexivity|]. split; [done|]. by repeat constructor.
  - split; [apply sample_dom; lia|]. by eexists.
  - done.
  - split; [apply sample_dom; lia|]. eexists. split; [reflexivity|]. split; [done|].
    assert (rep sample_memory (Addr 4 : Ptr NodePV) (Some sample_device) (dom sample_memory)) as Hd.
    { split; [apply sample_dom; lia|]. by eexists. }
    do 2 (constructor; [exact Hd|]). constructor.
  - done.
  - reflexivity.
Defined.
